(* ===== verification/_CoqProject ===== *)
-Q . S2P
Prelude.v
Libc.v
Crc.v
Nvram.v
NvramSpec.v
NvramCli.v
NvramFlow.v
Lzss.v
LzssTree.v
LzssText.v
LzssCode.v
LzssSpec.v
Otrx.v
OtrxSpec.v
Md5.v
Md5Spec.v
Mtd.v
MtdSpec.v
MtdTrx.v
MtdVerify.v
Jffs2.v
Jffs2Nodes.v
Jffs2Write.v
Jffs2Parse.v
Jffs2Spec.v
Jffs2Append.v
MtdWrite.v
MtdAppend.v
MtdMain.v
Lmo.v
LmoSpec.v
LmoPo.v
LmoRoundtrip.v
LuciText.v
LuciTextSpec.v
LuciTemplate.v
LuciTemplateSpec.v
Multipart.v
MultipartSpec.v
CgiIo.v
CgiIoSpec.v
CgiPost.v
CgiUpload.v
Owip.v
OwipSpec.v
OwipSix.v
Tlv.v
TlvSpec.v
TlvRead.v
TlvRoundtrip.v
Apmib.v
ApmibSpec.v
ApmibEntries.v
