(* ===== verification/Prelude.v ===== *)
(** * Storage formats and tools of the NAS firmware tree

    The tree is an OpenWrt-based SDK for Realtek RTD1195/1295 (ARM, little endian, 32-bit)
    boxes.  Most of its C code is vendored (kernel packages, u-boot, host tools); this
    library models the code that stores and restores what the box must not lose, its
    settings, its firmware images, its translations, and the code its web interface runs on
    what a browser sends.

    ** Parts, files and sources

    - Configuration store of the Realtek library, package/libs/libapmib/files/apmib.  The
      settings are one C structure described by tables (mibtbl.h, mibtbl.c).  To save them
      [apmib_update] swaps the words to network order ([_mibtbl_swap_value]), writes a
      tag-length-value block ([mib_tlv_save], [mib_write_to_raw]), seals it with [CHECKSUM],
      compresses it with LZSS ([Encode]) and writes it to flash behind a header
      ([mib_compress_write]); [apmib_csconf] and [apmib_dsconf] undo each step at start.
      [Lzss]: the coder, its search trees and ring buffer; [LzssTree], [LzssText],
      [LzssCode], [LzssSpec]: its invariants and round trip.  [Tlv]: tables, blocks,
      searching, swapping; [TlvSpec], [TlvRead], [TlvRoundtrip]: encoding and round trip.
      [Apmib]: the globals as the record [apmib], flash, files, the update and start-up
      functions, and the entries of a table in memory; [ApmibSpec], [ApmibEntries]: theorems.
      What the build and the machine provide is the class [machine]; [healthy] says that
      allocations succeed.
    - NVRAM, package/utils/nvram/src.  [Nvram]: the hash table of nvram.c, parsing
      ([_nvram_rehash]) and committing ([nvram_commit]) the image in the mapped partition;
      [NvramSpec]: refinement of a finite map and the commit round trip.  [NvramCli]: cli.c,
      written against the class [VarStore], which the store implements, and next to it what
      the commands of a session mean on a finite map.
      [NvramFlow]: the tool as a whole: the partition in /proc/mtd, the staging file, [main]
      over both, and runs of calls and reboots.
    - Firmware containers, package/utils/otrx/src/otrx.c.  [Otrx]: check, create and extract
      as functions on a file system ([Libc]); [OtrxSpec]: their composition.
    - Flash tool, package/system/mtd/src.  [Mtd]: erasing, writing, dumping on a device with
      bad blocks (mtd.c); [MtdSpec]: what is written is what is dumped.  [MtdVerify]:
      [mtd_verify] against the class [md5lib], libubox's MD5.  [MtdTrx]: trx.c, checking and
      repairing TRX headers on flash, which meets the format of [Otrx].  [MtdWrite],
      [MtdAppend]: the whole of [mtd_write] with [-j], where mtd.c hands its device to
      jffs2.c in the middle of an image.  [MtdMain]: names of devices, options, commands and
      [main] over a system of devices and files.
      [Jffs2]: jffs2.c, the block buffer and the nodes, in a state monad of its own
      ([Jffs2.M]); [Jffs2Nodes]: a reader of nodes that checks every checksum; [Jffs2Write]:
      the buffer and the device as lists of blocks; [Jffs2Parse]: the parser; [Jffs2Spec],
      [Jffs2Append]: what is appended reads back.  [Md5], [Md5Spec]: md5.c against RFC 1321.
    - Web interface, realtek/luci/modules/luci-base/src.  [Lmo]: the compiler po2lmo.c of
      translations and the lookup template_lmo.c; [LmoSpec], [LmoPo], [LmoRoundtrip]:
      what is compiled is what is looked up.  [LuciText]: template_utils.c, the growing buffer
      in a state monad of its own ([LuciText.W]), UTF-8 checking, XML and Lua escaping;
      [LuciTextSpec]: UTF-8 as lists of code points, readers of XML text and of Lua strings.
      [LuciTemplate]: template_parser.c, the parser's state and one step for every call
      [lua_load] makes; [LuciTemplateSpec]: templates as texts and tags, and the Lua they mean.
    - Uploads and backups through the web server, realtek/packages/net/cgi-io/src.
      [Multipart]: multipart_parser.c, a state machine over the pieces of a posted form that
      calls its client back, a record of functions over the client's own state;
      [MultipartSpec]: the automaton that reads the form as a whole, encoded forms, and the
      class [Client] of what a client keeps true between the calls.  [CgiIo]: main.c, that
      client with its files, and the decoding of posted fields; [CgiIoSpec]: the instance of
      [Client] that says who may change files; [CgiUpload]: a request from its first byte to
      the stored file; [CgiPost]: the backup program's question to the session service.
    - Address calculator of the network scripts, package/network/utils/owipcalc/src.  [Owip]:
      the stack of addresses, every operation and the command line; [OwipSpec]: the machine
      on numbers that an IPv4 session runs; [OwipSix]: 128-bit arithmetic.
    - [Crc]: the CRC-8 and the two CRC-32 the tools carry, against bit-serial division.
    - [Libc]: the C library as these programs use it.  This file: widths, byte lists with
      bounds-checked access, byte order, C strings.

    ** How C is modelled

    A w-bit integer is a [Z] with its wrap-around written out ([u8], [u16], [u32], [s32]).
    Memory objects are lists of bytes; [zget], [zset], [zslice], [zwrite] and [zfill] fail
    ([None]) outside the object, so a theorem that a function returns [Some] also says that
    it stays inside its buffers, and a [None] is undefined behaviour (an access out of range,
    a division by zero, a double free, a null pointer).  Error returns are values.  What the
    program gets from outside is a parameter: which sizes [malloc] can give, what fresh
    memory holds, whether files can be opened, [qsort], [fnmatch] and [readdir], the address
    of a mapping, the signedness of [char].  [getopt] stops at the first operand, as POSIX has
    it; a C library that moves operands to the end agrees with it as long as no operand
    starts with a hyphen.

    Loops that are not structural take fuel, chosen from the length of the data they
    consume, and every theorem that they return is proved with that fuel: for instance
    [init_loop] passes four bytes a round and has one round per byte of the block, the
    decoder one per byte of the code, [erase_ahead] one per byte of the device, [po_loop] one
    per byte of the file, [read_all] one per character of the template, [execute_loop] two per
    byte of the piece, [run_loop] one per argument; [mib_tlv_init_from] takes a bound on the nesting of the tables.

    ** What the theorems show

    - Round trips: settings through swap, block, compression and flash, also for the factory
      settings ([ApmibSpec]); blocks ([TlvRoundtrip]); LZSS ([LzssSpec]); NVRAM commit and
      reopen ([NvramSpec]); TRX create and extract ([OtrxSpec]); flash write and dump
      ([MtdSpec]); a file into a jffs2 image on flash ([Jffs2Append]) or on
      its way to flash ([MtdAppend]); the same through [main] ([MtdMain]); PO file to lookup
      ([LmoRoundtrip]).
    - Refinement: the hash table of a finite map, the command line of the commands it spells
      on a map ([NvramCli]), the nvram tool over calls and reboots of a pair of maps
      ([NvramFlow]), the table entries of a list with a capacity, IPv4 sessions of owipcalc of a stack machine on
      numbers ([OwipSpec]).
    - Machine arithmetic: the byte loops of owipcalc and 128-bit numbers ([OwipSix]).
    - Equivalence with references: CRCs and bit-serial division, MD5 and RFC 1321, the
      canonical hash and the words of a key.
    - The web interface: escaped text has no markup and reads back, any bytes become valid
      UTF-8, but for values above the last code point ([LuciTextSpec]); a template is handed to Lua piece by piece as what its texts and
      tags mean ([LuciTemplateSpec]).
    - Uploads: the parts of a form arrive the same in whatever pieces it comes, and their
      headers too unless a piece ends where the parser loses or repeats header bytes
      ([MultipartSpec]); no file changes without the permission of the session, whatever is
      posted ([CgiIoSpec]); a well-formed request stores its file ([CgiUpload]).
    - Checks: what [otrx check] decides, which damage it and the checksums detect, what
      [trx_check] and [mtd_fixtrx] do to an image; which devices a command line of mtd can
      change, for which ones it comes to an end, and that a refused image changes none.
    - Errors and bounds: refused and dropped NVRAM values, the size of compressed data, and
      the places where the code goes wrong (a commit that cannot be reopened or overruns at
      high addresses, hardware settings lost by an update, deleting from a full table, the
      read past the compressed data, a catalog used after it is closed).

    The round trip of the settings assumes a table of the kind mibtbl.c builds: rows in the
    order of the packed structure and without gaps, unique tags with the top bit on tables
    only, strings padded with NULs, tables whose encoding has a 16-bit length and whose
    entries a 16-bit counter can count ([settings_ok]); and that the settings fit their sector
    at the worst compression LZSS can give ([fits]), which is more than the code needs.

    ** Not modelled

    [apmib_get], [apmib_set] and the rest of apmib.c's accessors (a switch over structures
    that depend on the configuration), shared memory and semaphores, Bluetooth and customer
    settings, [apmib_updateFlash] and [save_cs_to_file]; [nvram_close], which only
    releases memory; of mtd the FIS layout (FIS_SUPPORT is off), locks, messages,
    errors while the image is read, and a device that occurs twice in a list to write;
    imagetag.c and linksys_bootcount.c, which belong to other targets; seama.c, whose header
    structure no file of the tree defines; of the web interface the Lua bindings
    (template_lualib.c), the mapping of template files and the text of load errors
    ([template_error]); of cgi-io the pipe to sysupgrade, ubus and the text of replies; of
    owipcalc the text of IPv6 addresses (a parameter) and of the usage; and the vendored code:
    u-boot32, kernel packages, tools, toolchain.

    ** Plan

    Left: [apmib_updateFlash] and [save_cs_to_file], the uncompressed round trip of the
    hardware settings. *)

From stdpp Require Export base tactics option list numbers sets strings.
From Stdlib Require Export ZArith Lia.
From Stdlib Require Ascii String.

#[global] Open Scope Z_scope.

(** ** Machine integers *)

(** An unsigned [w]-bit C integer is a [Z] reduced modulo [2^w]. *)
Definition u8 (z : Z) : Z := z mod 2 ^ 8.
Definition u16 (z : Z) : Z := z mod 2 ^ 16.
Definition u32 (z : Z) : Z := z mod 2 ^ 32.

(** The two's complement reading of a 32-bit pattern ([int], [ssize_t]). *)
Definition s32 (z : Z) : Z := (z + 2 ^ 31) mod 2 ^ 32 - 2 ^ 31.

Definition is_byte (b : Z) : Prop := 0 <= b < 256.
Definition is_u16 (z : Z) : Prop := 0 <= z < 2 ^ 16.
Definition is_u32 (z : Z) : Prop := 0 <= z < 2 ^ 32.

Create HintDb cint.
Create Rewrite HintDb cint.

(** [zlen l] is the number of elements of a buffer as a C length. *)
Abbreviation zlen l := (Z.of_nat (length l)).

Lemma u8_range z : is_byte (u8 z).
Proof. unfold u8, is_byte. change 256 with (2 ^ 8). apply Z.mod_pos_bound. lia. Qed.

Lemma u16_range z : is_u16 (u16 z).
Proof. apply Z.mod_pos_bound. lia. Qed.

Lemma u32_range z : is_u32 (u32 z).
Proof. apply Z.mod_pos_bound. lia. Qed.

Lemma u8_id z : is_byte z -> u8 z = z.
Proof. apply Z.mod_small. Qed.

Lemma u16_id z : is_u16 z -> u16 z = z.
Proof. apply Z.mod_small. Qed.

Lemma u32_id z : is_u32 z -> u32 z = z.
Proof. apply Z.mod_small. Qed.

Lemma s32_id z : - 2 ^ 31 <= z < 2 ^ 31 -> s32 z = z.
Proof. intros H. unfold s32. rewrite Z.mod_small; lia. Qed.

#[export] Hint Resolve u8_range u16_range u32_range : cint.
#[export] Hint Rewrite u8_id u16_id u32_id s32_id using (unfold is_byte, is_u16, is_u32 in *; lia) : cint.

(** Discharges a side condition about the width of an integer. *)
Ltac width := unfold is_byte, is_u16, is_u32 in *; lia.

(** ** Bits *)

Lemma land_ones_u8 z : Z.land z 255 = u8 z.
Proof. change 255 with (Z.ones 8). by rewrite Z.land_ones by lia. Qed.

Lemma land_ones_u16 z : Z.land z 65535 = u16 z.
Proof. change 65535 with (Z.ones 16). by rewrite Z.land_ones by lia. Qed.

Lemma testbit_small (n z i : Z) : 0 <= n -> 0 <= z < 2 ^ n -> n <= i -> Z.testbit z i = false.
Proof.
  intros Hn Hz Hi. destruct (decide (z = 0)) as [->|]; [apply Z.bits_0|].
  apply Z.bits_above_log2; [lia|]. apply Z.lt_le_trans with n; [|lia].
  apply Z.log2_lt_pow2; lia.
Qed.

(** A number whose bits at and above [n] are all clear fits [n] bits. *)
Lemma bits_small (n z : Z) :
  0 <= n -> 0 <= z -> (forall i, n <= i -> Z.testbit z i = false) -> z < 2 ^ n.
Proof.
  intros Hn Hz Hb. destruct (decide (z = 0)) as [->|]; [lia|].
  apply Z.log2_lt_pow2; [lia|]. destruct (Z.lt_ge_cases (Z.log2 z) n) as [|Hge]; [done|].
  specialize (Hb _ Hge). by rewrite Z.bit_log2 in Hb by lia.
Qed.

Lemma lxor_width (n x y : Z) :
  0 <= n -> 0 <= x < 2 ^ n -> 0 <= y < 2 ^ n -> 0 <= Z.lxor x y < 2 ^ n.
Proof.
  intros Hn Hx Hy. assert (0 <= Z.lxor x y) by (apply Z.lxor_nonneg; lia).
  split; [done|]. apply bits_small; [lia..|]. intros i Hi.
  by rewrite Z.lxor_spec, (testbit_small n x i), (testbit_small n y i) by lia.
Qed.

Lemma lor_width (n x y : Z) :
  0 <= n -> 0 <= x < 2 ^ n -> 0 <= y < 2 ^ n -> 0 <= Z.lor x y < 2 ^ n.
Proof.
  intros Hn Hx Hy. assert (0 <= Z.lor x y) by (apply Z.lor_nonneg; lia).
  split; [done|]. apply bits_small; [lia..|]. intros i Hi.
  by rewrite Z.lor_spec, (testbit_small n x i), (testbit_small n y i) by lia.
Qed.

Lemma shiftr_width (n k x : Z) : 0 <= k -> 0 <= x < 2 ^ n -> 0 <= Z.shiftr x k < 2 ^ n.
Proof.
  intros Hk Hx. rewrite Z.shiftr_div_pow2 by lia.
  assert (0 < 2 ^ k) by (apply Z.pow_pos_nonneg; lia).
  split; [apply Z.div_pos; lia|]. apply Z.le_lt_trans with x; [|lia].
  apply Z.div_le_upper_bound; nia.
Qed.

(** Disjoint bit fields: [or] is addition. *)
Lemma lor_shiftl_add (n a b : Z) :
  0 <= n -> 0 <= b < 2 ^ n -> Z.lor (Z.shiftl a n) b = a * 2 ^ n + b.
Proof.
  intros Hn Hb. rewrite <- Z.shiftl_mul_pow2 by lia.
  assert (Z.land (Z.shiftl a n) b = 0) as Hland.
  { apply Z.bits_inj'. intros i Hi. rewrite Z.land_spec, Z.bits_0.
    destruct (Z.lt_ge_cases i n).
    - by rewrite Z.shiftl_spec_low.
    - by rewrite (testbit_small n b i), andb_false_r by lia. }
  rewrite Z.add_nocarry_lxor by done. by rewrite Z.lxor_lor.
Qed.

(** ** Buffers

    A C buffer is the list of its bytes.  An access outside it is undefined
    behaviour in the source and [None] here, so a theorem that a run returns
    [Some] also says that the run stays inside its buffers. *)

Definition zget {A} (l : list A) (i : Z) : option A :=
  if 0 <=? i then l !! Z.to_nat i else None.

Definition zset {A} (l : list A) (i : Z) (x : A) : option (list A) :=
  if (0 <=? i) && (i <? zlen l) then Some (<[Z.to_nat i := x]> l) else None.

(** [memcpy] out of a buffer and into one. *)
Definition zslice {A} (l : list A) (off len : Z) : option (list A) :=
  if (0 <=? off) && (0 <=? len) && (off + len <=? zlen l)
  then Some (take (Z.to_nat len) (drop (Z.to_nat off) l)) else None.

Definition zwrite {A} (l : list A) (off : Z) (d : list A) : option (list A) :=
  if (0 <=? off) && (off + zlen d <=? zlen l)
  then Some (take (Z.to_nat off) l ++ d ++ drop (Z.to_nat off + length d) l)
  else None.

(** [memset]. *)
Definition zfill {A} (l : list A) (off : Z) (x : A) (n : Z) : option (list A) :=
  if 0 <=? n then zwrite l off (replicate (Z.to_nat n) x) else None.

Section buffers.
Context {A : Type}.
Implicit Types (l d : list A) (i off len : Z) (x : A).

Lemma zget_Some_lt l i x : zget l i = Some x -> 0 <= i < zlen l.
Proof.
  unfold zget. destruct (Z.leb_spec 0 i); [|done]. intros Hl.
  apply lookup_lt_Some in Hl. lia.
Qed.

Lemma zget_lt_is_Some l i : 0 <= i < zlen l -> is_Some (zget l i).
Proof.
  intros Hi. unfold zget. rewrite (proj2 (Z.leb_le 0 i)) by lia.
  apply lookup_lt_is_Some. lia.
Qed.

Lemma zget_nat l (n : nat) : zget l (Z.of_nat n) = l !! n.
Proof. unfold zget. rewrite (proj2 (Z.leb_le 0 _)) by lia. by rewrite Nat2Z.id. Qed.

Lemma zget_Forall (P : A -> Prop) l i x : Forall P l -> zget l i = Some x -> P x.
Proof.
  unfold zget. intros HP H. case_match; [|done].
  eapply Forall_lookup_1; [exact HP|exact H].
Qed.

Lemma zget_app_l l d i : i < zlen l -> zget (l ++ d) i = zget l i.
Proof.
  intros Hi. unfold zget. destruct (Z.leb_spec 0 i); [|done].
  apply lookup_app_l. lia.
Qed.

Lemma zget_app_r l d i : zlen l <= i -> zget (l ++ d) i = zget d (i - zlen l).
Proof.
  intros Hi. unfold zget. rewrite !(proj2 (Z.leb_le 0 _)) by lia.
  rewrite lookup_app_r by lia. f_equal. lia.
Qed.

Lemma zset_Some l i x : 0 <= i < zlen l -> zset l i x = Some (<[Z.to_nat i := x]> l).
Proof.
  intros Hi. unfold zset. by rewrite (proj2 (Z.leb_le 0 i)), (proj2 (Z.ltb_lt i _)) by lia.
Qed.

Lemma zset_length l l' i x : zset l i x = Some l' -> length l' = length l.
Proof.
  unfold zset. destruct (_ && _); [|done]. intros [= <-]. apply length_insert.
Qed.

Lemma zget_zset_eq l l' i x : zset l i x = Some l' -> zget l' i = Some x.
Proof.
  unfold zset, zget. destruct (Z.leb_spec 0 i), (Z.ltb_spec i (zlen l)); try done.
  intros [= <-]. apply list_lookup_insert_eq. lia.
Qed.

Lemma zget_zset_ne l l' i j x : zset l i x = Some l' -> i <> j -> zget l' j = zget l j.
Proof.
  unfold zset, zget. destruct (Z.leb_spec 0 i), (Z.ltb_spec i (zlen l)); try done.
  intros [= <-] Hne. destruct (Z.leb_spec 0 j); [|done].
  apply list_lookup_insert_ne. lia.
Qed.

Lemma zslice_Some l off len :
  0 <= off -> 0 <= len -> off + len <= zlen l ->
  zslice l off len = Some (take (Z.to_nat len) (drop (Z.to_nat off) l)).
Proof.
  intros. unfold zslice.
  by rewrite (proj2 (Z.leb_le 0 off)), (proj2 (Z.leb_le 0 len)), (proj2 (Z.leb_le _ (zlen l))).
Qed.

Lemma zslice_inv l off len d :
  zslice l off len = Some d ->
  0 <= off /\ 0 <= len /\ off + len <= zlen l /\
  d = take (Z.to_nat len) (drop (Z.to_nat off) l).
Proof.
  unfold zslice. destruct (Z.leb_spec 0 off), (Z.leb_spec 0 len),
    (Z.leb_spec (off + len) (zlen l)); try done. by intros [= <-].
Qed.

Lemma zslice_length l off len d : zslice l off len = Some d -> zlen d = len.
Proof.
  intros (?&?&?&->)%zslice_inv. rewrite length_take, length_drop. lia.
Qed.

(** Reading back a middle part that is in plain sight. *)
Lemma zslice_app l1 d l2 : zslice (l1 ++ d ++ l2) (zlen l1) (zlen d) = Some d.
Proof.
  rewrite zslice_Some by (rewrite ?length_app; lia).
  by rewrite !Nat2Z.id, drop_app_length, take_app_length.
Qed.

Lemma zslice_head d rest : zslice (d ++ rest) 0 (zlen d) = Some d.
Proof. pose proof (zslice_app [] d rest) as Hz. cbn [app length] in Hz. by change (Z.of_nat 0) with 0 in Hz. Qed.

Lemma zwrite_Some l off d :
  0 <= off -> off + zlen d <= zlen l ->
  zwrite l off d = Some (take (Z.to_nat off) l ++ d ++ drop (Z.to_nat off + length d) l).
Proof.
  intros. unfold zwrite. by rewrite (proj2 (Z.leb_le 0 off)), (proj2 (Z.leb_le _ (zlen l))).
Qed.

Lemma zwrite_inv l off d l' :
  zwrite l off d = Some l' ->
  0 <= off /\ off + zlen d <= zlen l /\
  l' = take (Z.to_nat off) l ++ d ++ drop (Z.to_nat off + length d) l.
Proof.
  unfold zwrite. destruct (Z.leb_spec 0 off), (Z.leb_spec (off + zlen d) (zlen l)); try done.
  by intros [= <-].
Qed.

Lemma zwrite_length l off d l' : zwrite l off d = Some l' -> length l' = length l.
Proof.
  intros (?&?&->)%zwrite_inv. rewrite !length_app, length_take, length_drop. lia.
Qed.

(** Reading below the end of a common prefix. *)
Lemma zslice_prefix l1 d d' off n :
  off + n <= zlen l1 -> zslice (l1 ++ d) off n = zslice (l1 ++ d') off n.
Proof.
  intros Hn. unfold zslice. destruct (Z.leb_spec 0 off), (Z.leb_spec 0 n); [|done..]. simpl.
  rewrite !length_app, !(proj2 (Z.leb_le _ _)) by lia. f_equal.
  rewrite !drop_app_le, !take_app_le by (rewrite ?length_drop; lia). done.
Qed.

(** Reading inside a middle part. *)
Lemma zslice_mid l1 d l2 off n :
  0 <= off -> 0 <= n -> off + n <= zlen d ->
  zslice (l1 ++ d ++ l2) (zlen l1 + off) n = zslice d off n.
Proof.
  intros. rewrite !zslice_Some by (rewrite ?length_app; lia). f_equal.
  rewrite drop_app_ge by lia.
  replace (Z.to_nat (zlen l1 + off) - length l1)%nat with (Z.to_nat off) by lia.
  rewrite drop_app_le by lia. apply take_app_le. rewrite length_drop. lia.
Qed.

(** Writing over a middle part that is in plain sight. *)
Lemma zwrite_app l1 d d' l2 :
  length d = length d' -> zwrite (l1 ++ d ++ l2) (zlen l1) d' = Some (l1 ++ d' ++ l2).
Proof.
  intros Hlen. rewrite zwrite_Some by (rewrite ?length_app; lia).
  rewrite Nat2Z.id, take_app_length. do 2 f_equal.
  rewrite <- drop_drop, drop_app_length, <- Hlen, drop_app_length. done.
Qed.

(** Writing at the start of the free part of a buffer. *)
Lemma zwrite_app_r l1 free d :
  (length d <= length free)%nat ->
  zwrite (l1 ++ free) (zlen l1) d = Some (l1 ++ d ++ drop (length d) free).
Proof.
  intros Hlen. rewrite <- (take_drop (length d) free) at 1.
  apply zwrite_app. rewrite length_take. lia.
Qed.

Lemma zget_zwrite l off d l' i :
  zwrite l off d = Some l' ->
  zget l' i = if decide (off <= i < off + zlen d) then zget d (i - off) else zget l i.
Proof.
  intros (H1 & H2 & ->)%zwrite_inv. unfold zget. destruct (Z.leb_spec 0 i) as [Hi|Hi].
  2:{ rewrite decide_False by lia. done. }
  assert (length (take (Z.to_nat off) l) = Z.to_nat off) as Ht by (rewrite length_take; lia).
  case_decide as Hd.
  - rewrite (proj2 (Z.leb_le 0 _)) by lia. rewrite lookup_app_r, lookup_app_l by lia.
    f_equal. lia.
  - destruct (decide (i < off)).
    + rewrite lookup_app_l by lia. apply lookup_take_lt. lia.
    + rewrite lookup_app_r, lookup_app_r by lia. rewrite lookup_drop. f_equal. lia.
Qed.

Lemma zfill_spec l off x n :
  0 <= off -> 0 <= n -> off + n <= zlen l ->
  exists l', zfill l off x n = Some l' /\ length l' = length l /\
    forall i, zget l' i = if decide (off <= i < off + n) then Some x else zget l i.
Proof.
  intros H1 H2 H3. unfold zfill. rewrite (proj2 (Z.leb_le 0 n)) by done.
  rewrite zwrite_Some by (rewrite ?length_replicate; lia). eexists. split; [done|].
  pose proof (zwrite_Some l off (replicate (Z.to_nat n) x)) as Hw.
  rewrite length_replicate in Hw. specialize (Hw H1 ltac:(lia)).
  rewrite length_replicate. split; [exact (zwrite_length _ _ _ _ Hw)|].
  intros i. rewrite (zget_zwrite _ _ _ _ i Hw).
  rewrite length_replicate, Z2Nat.id by lia. case_decide as Hd; [|done].
  unfold zget. rewrite (proj2 (Z.leb_le 0 _)) by lia. apply lookup_replicate_2. lia.
Qed.

Lemma zset_app_r l1 free x :
  (0 < length free)%nat -> zset (l1 ++ free) (zlen l1) x = Some (l1 ++ x :: drop 1 free).
Proof.
  intros Hlen. rewrite zset_Some by (rewrite length_app; lia).
  rewrite Nat2Z.id. destruct free as [|y free]; simpl in *; [lia|].
  f_equal. rewrite insert_app_r_alt by lia. by rewrite Nat.sub_diag.
Qed.

Lemma zslice_app_r l1 free n :
  0 <= n <= zlen free -> zslice (l1 ++ free) (zlen l1) n = Some (take (Z.to_nat n) free).
Proof.
  intros Hn. rewrite zslice_Some by (rewrite ?length_app; lia).
  by rewrite Nat2Z.id, drop_app_length.
Qed.
End buffers.

(** ** Byte order

    [le_bytes n z] are the [n] bytes of [z], lowest first, as a little-endian
    machine stores it; [le_val] reads them back.  The network order is the
    reverse. *)

Fixpoint le_bytes (n : nat) (z : Z) : list Z :=
  match n with
  | O => []
  | S n => u8 z :: le_bytes n (z / 256)
  end.

Fixpoint le_val (bs : list Z) : Z :=
  match bs with
  | [] => 0
  | b :: bs => b + 256 * le_val bs
  end.

Definition be_bytes (n : nat) (z : Z) : list Z := rev (le_bytes n z).
Definition be_val (bs : list Z) : Z := le_val (rev bs).

(** A word at an offset of a buffer, as a load or a store through a cast
    pointer moves it. *)
Definition get_le32 (l : list Z) (off : Z) : option Z := le_val <$> zslice l off 4.
Definition put_le32 (l : list Z) (off z : Z) : option (list Z) := zwrite l off (le_bytes 4 z).

Lemma length_le_bytes n z : length (le_bytes n z) = n.
Proof. revert z. induction n as [|n IH]; intros z; simpl; [done|]. by rewrite IH. Qed.

Lemma length_be_bytes n z : length (be_bytes n z) = n.
Proof. unfold be_bytes. by rewrite length_rev, length_le_bytes. Qed.

Lemma le_bytes_ok n z : Forall is_byte (le_bytes n z).
Proof. revert z. induction n as [|n IH]; intros z; simpl; auto with cint. Qed.

Lemma le_val_bytes n z : 0 <= z < 256 ^ Z.of_nat n -> le_val (le_bytes n z) = z.
Proof.
  revert z. induction n as [|n IH]; intros z Hz; simpl; [simpl in Hz; lia|].
  rewrite Nat2Z.inj_succ, Z.pow_succ_r in Hz by lia.
  rewrite IH by (split; [apply Z.div_pos; lia|apply Z.div_lt_upper_bound; lia]).
  unfold u8. change (2 ^ 8) with 256. pose proof (Z.div_mod z 256). lia.
Qed.

Lemma le_bytes_val bs : Forall is_byte bs -> le_bytes (length bs) (le_val bs) = bs.
Proof.
  induction 1 as [|b bs Hb Hbs IH]; simpl; [done|]. unfold is_byte in Hb. f_equal.
  - unfold u8. change (2 ^ 8) with 256.
    rewrite Z.mul_comm, Z.mod_add by lia. by apply Z.mod_small.
  - rewrite Z.mul_comm, Z.div_add, Z.div_small by lia. done.
Qed.

Lemma le_val_range bs : Forall is_byte bs -> 0 <= le_val bs < 256 ^ zlen bs.
Proof.
  induction 1 as [|b bs Hb Hbs IH]; simpl; [lia|].
  rewrite Nat2Z.inj_succ, Z.pow_succ_r by lia. unfold is_byte in Hb. lia.
Qed.

Lemma be_val_bytes n z : 0 <= z < 256 ^ Z.of_nat n -> be_val (be_bytes n z) = z.
Proof. intros Hz. unfold be_val, be_bytes. by rewrite rev_involutive, le_val_bytes. Qed.

Lemma le_val_bytes32 z : is_u32 z -> le_val (le_bytes 4 z) = z.
Proof. intros Hz. apply le_val_bytes. exact Hz. Qed.

Lemma be_val_bytes32 z : is_u32 z -> be_val (be_bytes 4 z) = z.
Proof. intros Hz. apply be_val_bytes. exact Hz. Qed.

#[export] Hint Resolve le_bytes_ok : cint.

#[global] Arguments le_bytes : simpl never.
#[global] Arguments le_val : simpl never.

Lemma get_le32_mid l1 d l2 off :
  0 <= off -> off + 4 <= zlen d -> get_le32 (l1 ++ d ++ l2) (zlen l1 + off) = get_le32 d off.
Proof. intros. unfold get_le32. by rewrite zslice_mid by lia. Qed.

Lemma get_le32_app l1 z l2 :
  is_u32 z -> get_le32 (l1 ++ le_bytes 4 z ++ l2) (zlen l1) = Some z.
Proof.
  intros Hz. unfold get_le32. replace 4 with (zlen (le_bytes 4 z)) at 2 by done.
  rewrite zslice_app. simpl. by rewrite le_val_bytes32.
Qed.

(** ** C strings

    A C string is the list of its bytes without the terminating NUL. *)

Definition is_char (c : Z) : Prop := 0 < c < 256.
Abbreviation is_cstr s := (Forall is_char s).

(** The bytes of a string literal. *)
Definition bs (s : string) : list Z :=
  map (fun c => Z.of_N (Ascii.N_of_ascii c)) (String.list_ascii_of_string s).

(** The string that starts at the head of a buffer; [None] when no NUL stops it
    inside the buffer. *)
Fixpoint cstr (l : list Z) : option (list Z) :=
  match l with
  | [] => None
  | c :: l => if c =? 0 then Some [] else cons c <$> cstr l
  end.

Definition cstr_at (l : list Z) (off : Z) : option (list Z) :=
  if (0 <=? off) && (off <=? zlen l) then cstr (drop (Z.to_nat off) l) else None.

(** [strchr (s, c)] split at the first hit: what precedes [c] and what follows. *)
Fixpoint split_at (c : Z) (s : list Z) : option (list Z * list Z) :=
  match s with
  | [] => None
  | x :: s =>
      if x =? c then Some ([], s)
      else '(a, b) ← split_at c s; Some (x :: a, b)
  end.

Lemma cstr_app s l : is_cstr s -> cstr (s ++ 0 :: l) = Some s.
Proof.
  induction 1 as [|c s Hc Hs IH]; simpl; [done|]. unfold is_char in Hc.
  rewrite (proj2 (Z.eqb_neq c 0)) by lia. by rewrite IH.
Qed.

Lemma cstr_at_app l1 s l2 : is_cstr s -> cstr_at (l1 ++ s ++ 0 :: l2) (zlen l1) = Some s.
Proof.
  intros Hs. unfold cstr_at. rewrite (proj2 (Z.leb_le 0 _)) by lia.
  rewrite (proj2 (Z.leb_le _ _)) by (rewrite length_app; lia). simpl.
  rewrite Nat2Z.id, drop_app_length. by apply cstr_app.
Qed.

Lemma cstr_inv l s : Forall is_byte l -> cstr l = Some s -> is_cstr s /\ exists l', l = s ++ 0 :: l'.
Proof.
  intros Hl. revert s. induction Hl as [|c l Hc Hl IH]; intros s; simpl; [done|].
  destruct (Z.eqb_spec c 0) as [->|Hne].
  - intros [= <-]. split; [done|]. by exists l.
  - destruct (cstr l) as [s'|]; [|done]. intros [= <-].
    destruct (IH s' eq_refl) as [Hs' [l' ->]]. split; [|by exists l'].
    constructor; [|done]. unfold is_char, is_byte in *. lia.
Qed.

Lemma split_at_app c a b : c ∉ a -> split_at c (a ++ c :: b) = Some (a, b).
Proof.
  induction a as [|x a IH]; simpl; intros Hc; [by rewrite Z.eqb_refl|].
  apply not_elem_of_cons in Hc as [Hne Hc].
  rewrite (proj2 (Z.eqb_neq x c)) by done. by rewrite IH.
Qed.

Lemma split_at_Some c s a b : split_at c s = Some (a, b) -> s = a ++ c :: b /\ c ∉ a.
Proof.
  revert a b. induction s as [|x s IH]; simpl; intros a b; [done|].
  destruct (Z.eqb_spec x c) as [->|Hne].
  - intros [= <- <-]. split; [done|]. apply not_elem_of_nil.
  - destruct (split_at c s) as [[a' b']|]; simpl; [|done]. intros [= <- <-].
    destruct (IH a' b' eq_refl) as [-> Hc]. split; [done|]. by apply not_elem_of_cons.
Qed.

(** Reassociates a sequence of fallible steps. *)
Lemma bind_assoc_option {A B C} (f : A -> option B) (g : B -> option C) (o : option A) :
  (x ← o; y ← f x; g y) = (y ← (x ← o; f x); g y).
Proof. by destruct o. Qed.

(** ** Sublists *)

Lemma sublist_elem {A} (l k : list A) x : l `sublist_of` k -> x ∈ l -> x ∈ k.
Proof.
  induction 1 as [|y l k _ IH|y l k _ IH]; [done| |]; rewrite ?elem_of_cons; tauto.
Qed.

Lemma sublist_Forall {A} (P : A -> Prop) (l k : list A) :
  l `sublist_of` k -> Forall P k -> Forall P l.
Proof. rewrite !Forall_forall. eauto using sublist_elem. Qed.

Lemma sublist_NoDup {A} (l k : list A) : l `sublist_of` k -> NoDup k -> NoDup l.
Proof.
  induction 1 as [|y l k Hs IH|y l k Hs IH]; rewrite ?NoDup_cons; [done| |tauto].
  intros [Hy Hk]. split; [|by apply IH]. intros Hin. by eapply Hy, sublist_elem.
Qed.

Lemma sublist_fmap {A B} (f : A -> B) (l k : list A) :
  l `sublist_of` k -> (f <$> l) `sublist_of` (f <$> k).
Proof.
  induction 1; [done|by apply sublist_skip|by apply sublist_cons].
Qed.

(** A test that holds of every byte. *)
Lemma byte_forall (P : Z -> bool) : forallb P (seqZ 0 256) = true -> forall c, is_byte c -> P c = true.
Proof. intros H c Hc. apply forallb_forall with (x := c) in H; [done|]. apply list_elem_of_In, elem_of_seqZ. unfold is_byte in Hc. lia. Qed.

#[export] Instance is_byte_dec b : Decision (is_byte b).
Proof. unfold is_byte. apply _. Defined.

#[export] Instance is_char_dec c : Decision (is_char c).
Proof. unfold is_char. apply _. Defined.

(** Decides a closed decidable proposition by evaluation. *)
Ltac eval_decide := apply (bool_decide_unpack _); vm_compute; exact I.
