(* ===== verification/Libc.v ===== *)
(** The C library as the modelled programs use it: numbers in strings, options on
    the command line, and files. *)

From stdpp Require Import gmap.
From S2P Require Import Prelude.

(** ** Numbers in strings *)

Definition hex_digit (d : Z) : Z := if d <? 10 then 48 + d else 55 + d.

(** The [n] lowest hexadecimal digits, most significant first. *)
Fixpoint hex_digits (n : nat) (z : Z) : list Z :=
  match n with
  | O => []
  | S n => hex_digits n (z / 16) ++ [hex_digit (z mod 16)]
  end.

(** [sprintf] with "0x%04X" and "0x%08X" of an argument that fits the width. *)
Definition sprintf_0x (n : nat) (z : Z) : list Z := [48; 120] ++ hex_digits n z.

Definition is_space (c : Z) : bool := (c =? 32) || ((9 <=? c) && (c <=? 13)).

Definition digit_val (c : Z) : Z :=
  if (48 <=? c) && (c <=? 57) then c - 48
  else if (65 <=? c) && (c <=? 90) then c - 55
  else if (97 <=? c) && (c <=? 122) then c - 87
  else 36.

Fixpoint skip_space (s : list Z) : list Z :=
  match s with
  | c :: s' => if is_space c then skip_space s' else s
  | [] => []
  end.

(** Digits up to the first that does not belong to the base. *)
Fixpoint strtoul_digits (base acc : Z) (s : list Z) : Z :=
  match s with
  | c :: s => if digit_val c <? base then strtoul_digits base (acc * base + digit_val c) s else acc
  | [] => acc
  end.

(** The magnitude with base 0: "0x" and a hexadecimal digit selects 16, a
    leading "0" selects 8. *)
Definition strtoul_mag (s : list Z) : Z :=
  match s with
  | 48 :: x :: d :: s' =>
      if ((x =? 120) || (x =? 88)) && (digit_val d <? 16)
      then strtoul_digits 16 0 (d :: s')
      else strtoul_digits 8 0 s
  | 48 :: _ => strtoul_digits 8 0 s
  | _ => strtoul_digits 10 0 s
  end.

(** [strtoul (s, NULL, 0)] with a 32-bit [unsigned long]: out of range values
    saturate, a minus sign negates in the unsigned type. *)
Definition strtoul0 (s : list Z) : Z :=
  let s := skip_space s in
  let '(neg, s) := match s with
                   | 45 :: s' => (true, s')
                   | 43 :: s' => (false, s')
                   | _ => (false, s)
                   end in
  let m := strtoul_mag s in
  if 2 ^ 32 <=? m then 2 ^ 32 - 1 else if neg then u32 (- m) else m.

Lemma strtoul_digits_nonneg base s : 0 <= base -> forall acc, 0 <= acc -> 0 <= strtoul_digits base acc s.
Proof.
  intros Hb. induction s as [|c s IH]; intros acc Ha; simpl; [done|].
  destruct (_ <? _); [|done]. apply IH. assert (0 <= digit_val c); [|nia].
  unfold digit_val. repeat case_match; lia.
Qed.

Lemma strtoul_mag_nonneg s : 0 <= strtoul_mag s.
Proof. unfold strtoul_mag. repeat case_match; apply strtoul_digits_nonneg; lia. Qed.

Lemma strtoul0_range s : is_u32 (strtoul0 s).
Proof.
  unfold strtoul0. destruct (match skip_space s with | 45 :: _ => _ | _ => _ end) as [neg s'].
  pose proof (strtoul_mag_nonneg s'). destruct (Z.leb_spec (2 ^ 32) (strtoul_mag s')); [width|].
  destruct neg; [apply u32_range|width].
Qed.

(** [strtol (s, NULL, base)] with a 32-bit [long], for base 0 and base 10. *)
Definition strtol_with (mag : list Z -> Z) (s : list Z) : Z :=
  let s := skip_space s in
  let '(neg, s) := match s with
                   | 45 :: s' => (true, s')
                   | 43 :: s' => (false, s')
                   | _ => (false, s)
                   end in
  let m := mag s in
  if neg then Z.max (- 2 ^ 31) (- m) else Z.min (2 ^ 31 - 1) m.

Definition strtol0 : list Z -> Z := strtol_with strtoul_mag.
Definition atoi : list Z -> Z := strtol_with (strtoul_digits 10 0).

Lemma strtol0_range s : - 2 ^ 31 <= strtol0 s < 2 ^ 31.
Proof.
  unfold strtol0, strtol_with. destruct (match skip_space s with | 45 :: _ => _ | _ => _ end) as [neg s'].
  pose proof (strtoul_mag_nonneg s'). destruct neg; lia.
Qed.

(** [strstr (s, pat) != NULL] *)
Fixpoint contains (pat s : list Z) : bool :=
  bool_decide (take (length pat) s = pat) || match s with [] => false | _ :: s => contains pat s end.

(** A number of at most [width] digits: its value, if there is a digit, and the rest. *)
Fixpoint scan_num (base : Z) (width : nat) (s : list Z) (acc : option Z) : option Z * list Z :=
  match width, s with
  | S width, c :: rest =>
      if digit_val c <? base then scan_num base width rest (Some (default 0 acc * base + digit_val c)) else (acc, s)
  | _, _ => (acc, s)
  end.

(** [sscanf (dev, "mtd%d", &i)]: the number that is stored and what is left of the line. *)
Definition scan_mtd_num (dev : list Z) : option (Z * list Z) :=
  if decide (take 3 dev = bs "mtd") then
    let s := skip_space (drop 3 dev) in
    let '(neg, s) := match s with 45 :: s => (true, s) | 43 :: s => (false, s) | _ => (false, s) end in
    let '(n, s) := scan_num 10 (length s) s None in
    (fun n => (s32 (if neg : bool then - n else n), s)) <$> n
  else None.

(** ** Options

    [getopt] as POSIX has it: it stops at the first operand, at "-" and after "--".
    A cluster [-xyz] is walked one character at a time; an option that takes an
    argument takes the rest of its cluster or the next word.  [63] is ['?']. *)

Inductive optkind := NoArg | WithArg | Unknown.

(** One cluster: the options found, and whether the last one still wants a word. *)
Fixpoint getopt_cluster (kind : Z -> optkind) (s : list Z) : list (Z * list Z) * option Z :=
  match s with
  | [] => ([], None)
  | c :: s =>
      match kind c with
      | NoArg => let '(os, w) := getopt_cluster kind s in ((c, []) :: os, w)
      | WithArg => match s with [] => ([], Some c) | _ => ([(c, s)], None) end
      | Unknown => let '(os, w) := getopt_cluster kind s in ((63, []) :: os, w)
      end
  end.

Fixpoint getopt (kind : Z -> optkind) (args : list (list Z)) : list (Z * list Z) :=
  match args with
  | (45 :: c :: s) :: args =>
      if bool_decide (c :: s = [45]) then []
      else
        match getopt_cluster kind (c :: s), args with
        | (os, None), _ => os ++ getopt kind args
        | (os, Some c), a :: args => os ++ (c, a) :: getopt kind args
        | (os, Some c), [] => os ++ [(63, [])]
        end
  | _ => []
  end.

(** What is left when [getopt] is done: [argv + optind]. *)
Fixpoint getopt_operands (kind : Z -> optkind) (args : list (list Z)) : list (list Z) :=
  match args with
  | (45 :: c :: s) :: rest =>
      if bool_decide (c :: s = [45]) then rest
      else
        match (getopt_cluster kind (c :: s)).2, rest with
        | None, _ => getopt_operands kind rest
        | Some _, _ :: rest => getopt_operands kind rest
        | Some _, [] => []
        end
  | _ => args
  end.

(** What [errno] is after [strtoul (s, NULL, 0)]: the number does not fit, or, in a library
    that says so ([einval]), there is no digit. *)
Definition strtoul0_fails (einval : bool) (s : list Z) : bool :=
  let s := skip_space s in
  let s := match s with 45 :: s' => s' | 43 :: s' => s' | _ => s end in
  (2 ^ 32 <=? strtoul_mag s) || (einval && match s with c :: _ => 10 <=? digit_val c | [] => true end).

(** ** Files

    A file system maps paths to contents.  [can_create] says which paths can be
    opened for writing, [file_max] is the size no file can exceed (a write that
    would pass it is short). *)

Abbreviation path := (list Z).
Abbreviation filesys := (gmap path (list Z)).

Record file := File { f_path : path; f_pos : Z }.

Definition contents (fs : filesys) (p : path) : list Z := default [] (fs !! p).

Definition fopen_r (fs : filesys) (p : path) : option file :=
  _ ← fs !! p; Some (File p 0).

Definition fopen_w (can_create : path -> bool) (fs : filesys) (p : path) : option (filesys * file) :=
  if can_create p then Some (<[p := []]> fs, File p 0) else None.

(** [fseek (f, off, SEEK_SET)] with a 32-bit [long]: a negative offset is refused. *)
Definition fseek (f : file) (off : Z) : file :=
  let off := s32 off in if off <? 0 then f else File (f_path f) off.

Definition fread (fs : filesys) (f : file) (n : Z) : list Z * file :=
  let d := take (Z.to_nat n) (drop (Z.to_nat (f_pos f)) (contents fs (f_path f))) in
  (d, File (f_path f) (f_pos f + zlen d)).

(** What a write does to the contents: a gap before the position reads as zeros, and
    writing nothing does nothing. *)
Definition splice (c : list Z) (pos : Z) (d : list Z) : list Z :=
  match d with
  | [] => c
  | _ => take (Z.to_nat pos) (c ++ replicate (Z.to_nat pos - length c) 0) ++ d ++
         drop (Z.to_nat pos + length d) c
  end.

Definition fwrite (file_max : Z) (fs : filesys) (f : file) (d : list Z) : filesys * file * Z :=
  let d := take (Z.to_nat (file_max - f_pos f)) d in
  (<[f_path f := splice (contents fs (f_path f)) (f_pos f) d]> fs,
   File (f_path f) (f_pos f + zlen d), zlen d).

Lemma contents_insert fs p c : contents (<[p := c]> fs) p = c.
Proof. unfold contents. by rewrite lookup_insert_eq. Qed.

Lemma contents_insert_ne fs p q c : p <> q -> contents (<[p := c]> fs) q = contents fs q.
Proof. intros Hne. unfold contents. by rewrite lookup_insert_ne. Qed.

(** Appending, after a gap or not, and overwriting a prefix. *)
Lemma splice_gap c n d :
  d <> [] -> splice c (zlen c + Z.of_nat n) d = c ++ replicate n 0 ++ d.
Proof.
  intros Hd. unfold splice. destruct d as [|x d]; [done|].
  replace (Z.to_nat (zlen c + Z.of_nat n)) with (length c + n)%nat by lia.
  replace (length c + n - length c)%nat with n by lia.
  rewrite take_ge by (rewrite length_app, length_replicate; lia). rewrite drop_ge by lia.
  by rewrite app_nil_r, <- app_assoc.
Qed.

Lemma splice_end c d : splice c (zlen c) d = c ++ d.
Proof.
  destruct d as [|x d]; [by rewrite app_nil_r|]. rewrite <- (Z.add_0_r (zlen c)). by apply (splice_gap c 0).
Qed.

Lemma splice_start c d : splice c 0 d = d ++ drop (length d) c.
Proof. by destruct d. Qed.
