(* ===== verification/Crc.v ===== *)
(** Cyclic redundancy checks.

    Three tools of the tree carry a table-driven CRC: [nvram] a CRC-8
    (package/utils/nvram/src/crc.c), [otrx] and [mtd] a CRC-32
    (package/utils/otrx/src/otrx.c, package/system/mtd/src/crc32.[ch]).  All
    are reflected CRCs, so one section develops the theory once: a bit-serial
    shift register as the reference, the theorem that a lookup table computes
    eight of its steps, and injectivity, from which a corrupted byte is always
    detected. *)

From S2P Require Import Prelude.

(** ** The shift register *)

Section reflected.
Context (poly : Z).

(** One bit: shift towards the least significant bit, feed the polynomial
    back when a one falls out. *)
Definition crc_step (c : Z) : Z :=
  if Z.odd c then Z.lxor (Z.shiftr c 1) poly else Z.shiftr c 1.

Definition crc_step8 (c : Z) : Z := Nat.iter 8 crc_step c.

(** The reference: a byte enters the low end and is shifted out bit by bit. *)
Definition crc_bitwise (c b : Z) : Z := crc_step8 (Z.lxor c b).

Lemma crc_step_lxor x y : crc_step (Z.lxor x y) = Z.lxor (crc_step x) (crc_step y).
Proof.
  unfold crc_step. rewrite <- !Z.bit0_odd, Z.lxor_spec, Z.shiftr_lxor, !Z.bit0_odd.
  destruct (Z.odd x), (Z.odd y); simpl; apply Z.bits_inj'; intros i _;
    rewrite !Z.lxor_spec; destruct (Z.testbit _ i), (Z.testbit _ i), (Z.testbit poly i); done.
Qed.

Lemma crc_iter_lxor n x y :
  Nat.iter n crc_step (Z.lxor x y) = Z.lxor (Nat.iter n crc_step x) (Nat.iter n crc_step y).
Proof. induction n as [|n IH]; simpl; [done|]. by rewrite IH, crc_step_lxor. Qed.

(** Shifting in zeros is division by two. *)
Lemma crc_iter_shiftl n z : Nat.iter n crc_step (Z.shiftl z (Z.of_nat n)) = z.
Proof.
  induction n as [|n IH]; [apply Z.shiftl_0_r|].
  rewrite Nat.iter_succ_r. rewrite <- IH at 2. f_equal.
  unfold crc_step. replace (Z.shiftl z (Z.of_nat (S n))) with (2 * Z.shiftl z (Z.of_nat n)).
  - rewrite Z.odd_mul. simpl. rewrite Z.shiftr_div_pow2 by lia.
    change (2 ^ 1) with 2. rewrite Z.mul_comm. apply Z.div_mul. lia.
  - rewrite !Z.shiftl_mul_pow2, Nat2Z.inj_succ, Z.pow_succ_r by lia. lia.
Qed.

Lemma split_low_byte x : Z.lxor (Z.land x 255) (Z.shiftl (Z.shiftr x 8) 8) = x.
Proof.
  change 255 with (Z.ones 8). rewrite Z.land_ones by lia.
  assert (0 <= x mod 2 ^ 8 < 2 ^ 8) as Hm by (apply Z.mod_pos_bound; lia).
  rewrite Z.lxor_comm, <- Z.add_nocarry_lxor.
  - rewrite Z.shiftl_mul_pow2, Z.shiftr_div_pow2 by lia.
    pose proof (Z.div_mod x (2 ^ 8)). lia.
  - apply Z.bits_inj'. intros i Hi. rewrite Z.land_spec, Z.bits_0.
    destruct (Z.lt_ge_cases i 8); [by rewrite Z.shiftl_spec_low|].
    by rewrite (testbit_small 8 (x mod 2 ^ 8) i), andb_false_r by lia.
Qed.

(** Eight steps depend on the low byte through a 256-entry table. *)
Lemma crc_step8_split x :
  crc_step8 x = Z.lxor (crc_step8 (Z.land x 255)) (Z.shiftr x 8).
Proof.
  rewrite <- (split_low_byte x) at 1. unfold crc_step8.
  rewrite crc_iter_lxor. f_equal. apply (crc_iter_shiftl 8).
Qed.

Lemma shiftr8_byte c b : is_byte b -> Z.shiftr (Z.lxor c b) 8 = Z.shiftr c 8.
Proof.
  intros Hb. rewrite Z.shiftr_lxor, (Z.shiftr_div_pow2 b 8), Z.div_small, Z.lxor_0_r
    by (unfold is_byte in Hb; lia). done.
Qed.

(** A table that tabulates [crc_step8] on bytes. *)
Definition is_crc_table (tbl : list Z) : Prop :=
  forall i, 0 <= i < 256 -> tbl !!! Z.to_nat i = crc_step8 i.

Lemma land255_range x : 0 <= Z.land x 255 < 256.
Proof. rewrite land_ones_u8. apply u8_range. Qed.

(** The table-driven update is the bit-serial one. *)
Lemma table_update_bitwise tbl c b :
  is_crc_table tbl -> is_byte b ->
  Z.lxor (tbl !!! Z.to_nat (Z.land (Z.lxor c b) 255)) (Z.shiftr c 8) = crc_bitwise c b.
Proof.
  intros Htbl Hb. unfold crc_bitwise. rewrite (crc_step8_split (Z.lxor c b)).
  by rewrite Htbl, shiftr8_byte by (try apply land255_range; done).
Qed.

(** From here on the register has [W] bits and the polynomial its top bit. *)
Context (W : Z) (HW : 8 <= W) (Hpoly : 2 ^ (W - 1) <= poly < 2 ^ W).

Lemma crc_step_range c : 0 <= c < 2 ^ W -> 0 <= crc_step c < 2 ^ W.
Proof.
  intros Hc. unfold crc_step.
  pose proof (shiftr_width W 1 c ltac:(lia) Hc) as Hs. assert (0 < 2 ^ (W - 1)) by lia.
  destruct (Z.odd c); [|done]. apply lxor_width; lia.
Qed.

(** The bit that fell out is the top bit of the result, so no two states merge. *)
Lemma crc_step_inj x y :
  0 <= x < 2 ^ W -> 0 <= y < 2 ^ W -> crc_step x = crc_step y -> x = y.
Proof.
  assert (forall c, 0 <= c < 2 ^ W -> Z.testbit (crc_step c) (W - 1) = Z.odd c) as Htop.
  { intros c Hc. assert (Z.testbit (Z.shiftr c 1) (W - 1) = false) as Hs.
    { rewrite Z.shiftr_spec by lia. apply (testbit_small W); lia. }
    assert (Z.testbit poly (W - 1) = true) as Hp.
    { replace (W - 1) with (Z.log2 poly); [apply Z.bit_log2; lia|].
      apply Z.log2_unique; [lia|]. by replace (Z.succ (W - 1)) with W by lia. }
    unfold crc_step. destruct (Z.odd c); [by rewrite Z.lxor_spec, Hs, Hp|done]. }
  intros Hx Hy Heq. assert (Z.odd x = Z.odd y) as Hodd.
  { rewrite <- (Htop x), <- (Htop y) by done. by rewrite Heq. }
  assert (Z.shiftr x 1 = Z.shiftr y 1) as Hsh.
  { unfold crc_step in Heq. rewrite <- Hodd in Heq. destruct (Z.odd x); [|done].
    apply (f_equal (fun z => Z.lxor z poly)) in Heq.
    by rewrite !Z.lxor_assoc, !Z.lxor_nilpotent, !Z.lxor_0_r in Heq. }
  rewrite !Z.shiftr_div_pow2 in Hsh by lia. change (2 ^ 1) with 2 in Hsh.
  pose proof (Z.div_mod x 2). pose proof (Z.div_mod y 2).
  pose proof (Zmod_odd x). pose proof (Zmod_odd y). rewrite Hodd in *. lia.
Qed.

Lemma crc_iter_range n c : 0 <= c < 2 ^ W -> 0 <= Nat.iter n crc_step c < 2 ^ W.
Proof. intros Hc. induction n as [|n IH]; simpl; [done|]. by apply crc_step_range. Qed.

Lemma crc_iter_inj n x y :
  0 <= x < 2 ^ W -> 0 <= y < 2 ^ W ->
  Nat.iter n crc_step x = Nat.iter n crc_step y -> x = y.
Proof.
  intros Hx Hy. induction n as [|n IH]; simpl; [done|]. intros Heq.
  apply IH, crc_step_inj; auto using crc_iter_range.
Qed.

Lemma byte_width b : is_byte b -> 0 <= b < 2 ^ W.
Proof.
  unfold is_byte. intros Hb. split; [lia|]. apply Z.lt_le_trans with (2 ^ 8); [lia|].
  apply Z.pow_le_mono_r; lia.
Qed.

Lemma crc_bitwise_range c b : 0 <= c < 2 ^ W -> is_byte b -> 0 <= crc_bitwise c b < 2 ^ W.
Proof.
  intros Hc Hb. apply crc_iter_range, lxor_width; auto using byte_width. lia.
Qed.

Lemma crc_bitwise_inj_state c c' b :
  0 <= c < 2 ^ W -> 0 <= c' < 2 ^ W -> is_byte b ->
  crc_bitwise c b = crc_bitwise c' b -> c = c'.
Proof.
  intros Hc Hc' Hb Heq.
  apply crc_iter_inj in Heq; [|apply lxor_width; auto using byte_width; lia..].
  apply (f_equal (fun z => Z.lxor z b)) in Heq.
  by rewrite !Z.lxor_assoc, !Z.lxor_nilpotent, !Z.lxor_0_r in Heq.
Qed.

Lemma crc_bitwise_inj_byte c b b' :
  0 <= c < 2 ^ W -> is_byte b -> is_byte b' ->
  crc_bitwise c b = crc_bitwise c b' -> b = b'.
Proof.
  intros Hc Hb Hb' Heq.
  apply crc_iter_inj in Heq; [|apply lxor_width; auto using byte_width; lia..].
  apply (f_equal (Z.lxor c)) in Heq.
  by rewrite <- !Z.lxor_assoc, !Z.lxor_nilpotent, !Z.lxor_0_l in Heq.
Qed.

(** The register after a whole message. *)
Definition crc_run (c : Z) (bs : list Z) : Z := fold_left crc_bitwise bs c.

Lemma crc_run_app c bs bs' : crc_run c (bs ++ bs') = crc_run (crc_run c bs) bs'.
Proof. apply fold_left_app. Qed.

Lemma crc_run_range c bs :
  0 <= c < 2 ^ W -> Forall is_byte bs -> 0 <= crc_run c bs < 2 ^ W.
Proof.
  intros Hc Hbs. revert c Hc. induction Hbs as [|b bs Hb Hbs IH]; intros c Hc; simpl; [done|].
  by apply IH, crc_bitwise_range.
Qed.

Lemma crc_run_inj c c' bs :
  0 <= c < 2 ^ W -> 0 <= c' < 2 ^ W -> Forall is_byte bs ->
  crc_run c bs = crc_run c' bs -> c = c'.
Proof.
  intros Hc Hc' Hbs. revert c c' Hc Hc'.
  induction Hbs as [|b bs Hb Hbs IH]; intros c c' Hc Hc'; simpl; [done|].
  intros Heq%IH; auto using crc_bitwise_range. by apply crc_bitwise_inj_state in Heq.
Qed.

(** Changing one byte of a message always changes its CRC. *)
Lemma crc_run_detects_byte c pre b b' post :
  0 <= c < 2 ^ W -> Forall is_byte pre -> is_byte b -> is_byte b' -> Forall is_byte post ->
  crc_run c (pre ++ b :: post) = crc_run c (pre ++ b' :: post) -> b = b'.
Proof.
  intros Hc Hpre Hb Hb' Hpost. rewrite !crc_run_app. simpl.
  assert (0 <= crc_run c pre < 2 ^ W) by by apply crc_run_range.
  intros Heq%crc_run_inj; auto using crc_bitwise_range.
  by apply crc_bitwise_inj_byte in Heq.
Qed.
End reflected.

(** Checks the 256 entries of a concrete table against the reference. *)
Definition check_crc_table (poly : Z) (tbl : list Z) : bool :=
  forallb (fun i => tbl !!! i =? crc_step8 poly (Z.of_nat i)) (seq 0 256).

Lemma check_crc_table_sound poly tbl :
  check_crc_table poly tbl = true -> is_crc_table poly tbl.
Proof.
  unfold check_crc_table. rewrite forallb_forall. intros Hall i Hi.
  specialize (Hall (Z.to_nat i)). rewrite in_seq, Z.eqb_eq, Z2Nat.id in Hall by lia.
  apply Hall. lia.
Qed.

(** ** CRC-8 of nvram *)

Definition crc8_poly : Z := 0xAB.

Definition crc8_table : list Z :=
  [0x00; 0xF7; 0xB9; 0x4E; 0x25; 0xD2; 0x9C; 0x6B;
   0x4A; 0xBD; 0xF3; 0x04; 0x6F; 0x98; 0xD6; 0x21;
   0x94; 0x63; 0x2D; 0xDA; 0xB1; 0x46; 0x08; 0xFF;
   0xDE; 0x29; 0x67; 0x90; 0xFB; 0x0C; 0x42; 0xB5;
   0x7F; 0x88; 0xC6; 0x31; 0x5A; 0xAD; 0xE3; 0x14;
   0x35; 0xC2; 0x8C; 0x7B; 0x10; 0xE7; 0xA9; 0x5E;
   0xEB; 0x1C; 0x52; 0xA5; 0xCE; 0x39; 0x77; 0x80;
   0xA1; 0x56; 0x18; 0xEF; 0x84; 0x73; 0x3D; 0xCA;
   0xFE; 0x09; 0x47; 0xB0; 0xDB; 0x2C; 0x62; 0x95;
   0xB4; 0x43; 0x0D; 0xFA; 0x91; 0x66; 0x28; 0xDF;
   0x6A; 0x9D; 0xD3; 0x24; 0x4F; 0xB8; 0xF6; 0x01;
   0x20; 0xD7; 0x99; 0x6E; 0x05; 0xF2; 0xBC; 0x4B;
   0x81; 0x76; 0x38; 0xCF; 0xA4; 0x53; 0x1D; 0xEA;
   0xCB; 0x3C; 0x72; 0x85; 0xEE; 0x19; 0x57; 0xA0;
   0x15; 0xE2; 0xAC; 0x5B; 0x30; 0xC7; 0x89; 0x7E;
   0x5F; 0xA8; 0xE6; 0x11; 0x7A; 0x8D; 0xC3; 0x34;
   0xAB; 0x5C; 0x12; 0xE5; 0x8E; 0x79; 0x37; 0xC0;
   0xE1; 0x16; 0x58; 0xAF; 0xC4; 0x33; 0x7D; 0x8A;
   0x3F; 0xC8; 0x86; 0x71; 0x1A; 0xED; 0xA3; 0x54;
   0x75; 0x82; 0xCC; 0x3B; 0x50; 0xA7; 0xE9; 0x1E;
   0xD4; 0x23; 0x6D; 0x9A; 0xF1; 0x06; 0x48; 0xBF;
   0x9E; 0x69; 0x27; 0xD0; 0xBB; 0x4C; 0x02; 0xF5;
   0x40; 0xB7; 0xF9; 0x0E; 0x65; 0x92; 0xDC; 0x2B;
   0x0A; 0xFD; 0xB3; 0x44; 0x2F; 0xD8; 0x96; 0x61;
   0x55; 0xA2; 0xEC; 0x1B; 0x70; 0x87; 0xC9; 0x3E;
   0x1F; 0xE8; 0xA6; 0x51; 0x3A; 0xCD; 0x83; 0x74;
   0xC1; 0x36; 0x78; 0x8F; 0xE4; 0x13; 0x5D; 0xAA;
   0x8B; 0x7C; 0x32; 0xC5; 0xAE; 0x59; 0x17; 0xE0;
   0x2A; 0xDD; 0x93; 0x64; 0x0F; 0xF8; 0xB6; 0x41;
   0x60; 0x97; 0xD9; 0x2E; 0x45; 0xB2; 0xFC; 0x0B;
   0xBE; 0x49; 0x07; 0xF0; 0x9B; 0x6C; 0x22; 0xD5;
   0xF4; 0x03; 0x4D; 0xBA; 0xD1; 0x26; 0x68; 0x9F].

(** [hndcrc8]: the caller passes the register in and gets it back. *)
Definition hndcrc8 (pdata : list Z) (crc : Z) : Z :=
  fold_left (fun crc b => crc8_table !!! Z.to_nat (Z.land (Z.lxor crc b) 255)) pdata crc.

Lemma crc8_table_ok : is_crc_table crc8_poly crc8_table.
Proof. apply check_crc_table_sound. vm_compute. reflexivity. Qed.

(** The CRC-8 has no shifted-out part: the register is one byte. *)
Lemma hndcrc8_run bs c :
  is_byte c -> Forall is_byte bs -> hndcrc8 bs c = crc_run crc8_poly c bs.
Proof.
  intros Hc Hbs. revert c Hc. induction Hbs as [|b bs Hb Hbs IH]; intros c Hc; [done|].
  assert (crc8_table !!! Z.to_nat (Z.land (Z.lxor c b) 255) = crc_bitwise crc8_poly c b) as Hstep.
  { rewrite <- (table_update_bitwise crc8_poly crc8_table c b crc8_table_ok Hb).
    rewrite (Z.shiftr_div_pow2 c 8), Z.div_small, Z.lxor_0_r by (unfold is_byte in Hc; lia). done. }
  simpl. rewrite Hstep. apply IH.
  apply (crc_bitwise_range crc8_poly 8); unfold crc8_poly; [lia|lia|exact Hc|exact Hb].
Qed.

Lemma hndcrc8_app bs bs' c : hndcrc8 (bs ++ bs') c = hndcrc8 bs' (hndcrc8 bs c).
Proof. apply fold_left_app. Qed.

Lemma hndcrc8_range bs c : is_byte c -> Forall is_byte bs -> is_byte (hndcrc8 bs c).
Proof.
  intros Hc Hbs. rewrite hndcrc8_run by done.
  apply (crc_run_range crc8_poly 8); unfold crc8_poly; [lia|lia|exact Hc|exact Hbs].
Qed.

(** ** CRC-32 of otrx and mtd *)

Definition crc32_poly : Z := 0xEDB88320.

Definition crc32_tbl : list Z :=
  [0x00000000; 0x77073096; 0xee0e612c; 0x990951ba;
   0x076dc419; 0x706af48f; 0xe963a535; 0x9e6495a3;
   0x0edb8832; 0x79dcb8a4; 0xe0d5e91e; 0x97d2d988;
   0x09b64c2b; 0x7eb17cbd; 0xe7b82d07; 0x90bf1d91;
   0x1db71064; 0x6ab020f2; 0xf3b97148; 0x84be41de;
   0x1adad47d; 0x6ddde4eb; 0xf4d4b551; 0x83d385c7;
   0x136c9856; 0x646ba8c0; 0xfd62f97a; 0x8a65c9ec;
   0x14015c4f; 0x63066cd9; 0xfa0f3d63; 0x8d080df5;
   0x3b6e20c8; 0x4c69105e; 0xd56041e4; 0xa2677172;
   0x3c03e4d1; 0x4b04d447; 0xd20d85fd; 0xa50ab56b;
   0x35b5a8fa; 0x42b2986c; 0xdbbbc9d6; 0xacbcf940;
   0x32d86ce3; 0x45df5c75; 0xdcd60dcf; 0xabd13d59;
   0x26d930ac; 0x51de003a; 0xc8d75180; 0xbfd06116;
   0x21b4f4b5; 0x56b3c423; 0xcfba9599; 0xb8bda50f;
   0x2802b89e; 0x5f058808; 0xc60cd9b2; 0xb10be924;
   0x2f6f7c87; 0x58684c11; 0xc1611dab; 0xb6662d3d;
   0x76dc4190; 0x01db7106; 0x98d220bc; 0xefd5102a;
   0x71b18589; 0x06b6b51f; 0x9fbfe4a5; 0xe8b8d433;
   0x7807c9a2; 0x0f00f934; 0x9609a88e; 0xe10e9818;
   0x7f6a0dbb; 0x086d3d2d; 0x91646c97; 0xe6635c01;
   0x6b6b51f4; 0x1c6c6162; 0x856530d8; 0xf262004e;
   0x6c0695ed; 0x1b01a57b; 0x8208f4c1; 0xf50fc457;
   0x65b0d9c6; 0x12b7e950; 0x8bbeb8ea; 0xfcb9887c;
   0x62dd1ddf; 0x15da2d49; 0x8cd37cf3; 0xfbd44c65;
   0x4db26158; 0x3ab551ce; 0xa3bc0074; 0xd4bb30e2;
   0x4adfa541; 0x3dd895d7; 0xa4d1c46d; 0xd3d6f4fb;
   0x4369e96a; 0x346ed9fc; 0xad678846; 0xda60b8d0;
   0x44042d73; 0x33031de5; 0xaa0a4c5f; 0xdd0d7cc9;
   0x5005713c; 0x270241aa; 0xbe0b1010; 0xc90c2086;
   0x5768b525; 0x206f85b3; 0xb966d409; 0xce61e49f;
   0x5edef90e; 0x29d9c998; 0xb0d09822; 0xc7d7a8b4;
   0x59b33d17; 0x2eb40d81; 0xb7bd5c3b; 0xc0ba6cad;
   0xedb88320; 0x9abfb3b6; 0x03b6e20c; 0x74b1d29a;
   0xead54739; 0x9dd277af; 0x04db2615; 0x73dc1683;
   0xe3630b12; 0x94643b84; 0x0d6d6a3e; 0x7a6a5aa8;
   0xe40ecf0b; 0x9309ff9d; 0x0a00ae27; 0x7d079eb1;
   0xf00f9344; 0x8708a3d2; 0x1e01f268; 0x6906c2fe;
   0xf762575d; 0x806567cb; 0x196c3671; 0x6e6b06e7;
   0xfed41b76; 0x89d32be0; 0x10da7a5a; 0x67dd4acc;
   0xf9b9df6f; 0x8ebeeff9; 0x17b7be43; 0x60b08ed5;
   0xd6d6a3e8; 0xa1d1937e; 0x38d8c2c4; 0x4fdff252;
   0xd1bb67f1; 0xa6bc5767; 0x3fb506dd; 0x48b2364b;
   0xd80d2bda; 0xaf0a1b4c; 0x36034af6; 0x41047a60;
   0xdf60efc3; 0xa867df55; 0x316e8eef; 0x4669be79;
   0xcb61b38c; 0xbc66831a; 0x256fd2a0; 0x5268e236;
   0xcc0c7795; 0xbb0b4703; 0x220216b9; 0x5505262f;
   0xc5ba3bbe; 0xb2bd0b28; 0x2bb45a92; 0x5cb36a04;
   0xc2d7ffa7; 0xb5d0cf31; 0x2cd99e8b; 0x5bdeae1d;
   0x9b64c2b0; 0xec63f226; 0x756aa39c; 0x026d930a;
   0x9c0906a9; 0xeb0e363f; 0x72076785; 0x05005713;
   0x95bf4a82; 0xe2b87a14; 0x7bb12bae; 0x0cb61b38;
   0x92d28e9b; 0xe5d5be0d; 0x7cdcefb7; 0x0bdbdf21;
   0x86d3d2d4; 0xf1d4e242; 0x68ddb3f8; 0x1fda836e;
   0x81be16cd; 0xf6b9265b; 0x6fb077e1; 0x18b74777;
   0x88085ae6; 0xff0f6a70; 0x66063bca; 0x11010b5c;
   0x8f659eff; 0xf862ae69; 0x616bffd3; 0x166ccf45;
   0xa00ae278; 0xd70dd2ee; 0x4e048354; 0x3903b3c2;
   0xa7672661; 0xd06016f7; 0x4969474d; 0x3e6e77db;
   0xaed16a4a; 0xd9d65adc; 0x40df0b66; 0x37d83bf0;
   0xa9bcae53; 0xdebb9ec5; 0x47b2cf7f; 0x30b5ffe9;
   0xbdbdf21c; 0xcabac28a; 0x53b39330; 0x24b4a3a6;
   0xbad03605; 0xcdd70693; 0x54de5729; 0x23d967bf;
   0xb3667a2e; 0xc4614ab8; 0x5d681b02; 0x2a6f2b94;
   0xb40bbe37; 0xc30c8ea1; 0x5a05df1b; 0x2d02ef8d].

(** [otrx_crc32] starts from all ones and does not complement the result. *)
Definition otrx_crc32_update (crc b : Z) : Z :=
  Z.lxor (crc32_tbl !!! Z.to_nat (Z.land (Z.lxor crc b) 255)) (Z.shiftr crc 8).

Definition otrx_crc32 (buf : list Z) : Z := fold_left otrx_crc32_update buf 0xffffffff.

(** [crc32_table], [crc32] and [crc32buf] of mtd. *)
Definition crc32_table : list Z :=
  [0x00000000; 0x77073096; 0xee0e612c; 0x990951ba;
   0x076dc419; 0x706af48f; 0xe963a535; 0x9e6495a3;
   0x0edb8832; 0x79dcb8a4; 0xe0d5e91e; 0x97d2d988;
   0x09b64c2b; 0x7eb17cbd; 0xe7b82d07; 0x90bf1d91;
   0x1db71064; 0x6ab020f2; 0xf3b97148; 0x84be41de;
   0x1adad47d; 0x6ddde4eb; 0xf4d4b551; 0x83d385c7;
   0x136c9856; 0x646ba8c0; 0xfd62f97a; 0x8a65c9ec;
   0x14015c4f; 0x63066cd9; 0xfa0f3d63; 0x8d080df5;
   0x3b6e20c8; 0x4c69105e; 0xd56041e4; 0xa2677172;
   0x3c03e4d1; 0x4b04d447; 0xd20d85fd; 0xa50ab56b;
   0x35b5a8fa; 0x42b2986c; 0xdbbbc9d6; 0xacbcf940;
   0x32d86ce3; 0x45df5c75; 0xdcd60dcf; 0xabd13d59;
   0x26d930ac; 0x51de003a; 0xc8d75180; 0xbfd06116;
   0x21b4f4b5; 0x56b3c423; 0xcfba9599; 0xb8bda50f;
   0x2802b89e; 0x5f058808; 0xc60cd9b2; 0xb10be924;
   0x2f6f7c87; 0x58684c11; 0xc1611dab; 0xb6662d3d;
   0x76dc4190; 0x01db7106; 0x98d220bc; 0xefd5102a;
   0x71b18589; 0x06b6b51f; 0x9fbfe4a5; 0xe8b8d433;
   0x7807c9a2; 0x0f00f934; 0x9609a88e; 0xe10e9818;
   0x7f6a0dbb; 0x086d3d2d; 0x91646c97; 0xe6635c01;
   0x6b6b51f4; 0x1c6c6162; 0x856530d8; 0xf262004e;
   0x6c0695ed; 0x1b01a57b; 0x8208f4c1; 0xf50fc457;
   0x65b0d9c6; 0x12b7e950; 0x8bbeb8ea; 0xfcb9887c;
   0x62dd1ddf; 0x15da2d49; 0x8cd37cf3; 0xfbd44c65;
   0x4db26158; 0x3ab551ce; 0xa3bc0074; 0xd4bb30e2;
   0x4adfa541; 0x3dd895d7; 0xa4d1c46d; 0xd3d6f4fb;
   0x4369e96a; 0x346ed9fc; 0xad678846; 0xda60b8d0;
   0x44042d73; 0x33031de5; 0xaa0a4c5f; 0xdd0d7cc9;
   0x5005713c; 0x270241aa; 0xbe0b1010; 0xc90c2086;
   0x5768b525; 0x206f85b3; 0xb966d409; 0xce61e49f;
   0x5edef90e; 0x29d9c998; 0xb0d09822; 0xc7d7a8b4;
   0x59b33d17; 0x2eb40d81; 0xb7bd5c3b; 0xc0ba6cad;
   0xedb88320; 0x9abfb3b6; 0x03b6e20c; 0x74b1d29a;
   0xead54739; 0x9dd277af; 0x04db2615; 0x73dc1683;
   0xe3630b12; 0x94643b84; 0x0d6d6a3e; 0x7a6a5aa8;
   0xe40ecf0b; 0x9309ff9d; 0x0a00ae27; 0x7d079eb1;
   0xf00f9344; 0x8708a3d2; 0x1e01f268; 0x6906c2fe;
   0xf762575d; 0x806567cb; 0x196c3671; 0x6e6b06e7;
   0xfed41b76; 0x89d32be0; 0x10da7a5a; 0x67dd4acc;
   0xf9b9df6f; 0x8ebeeff9; 0x17b7be43; 0x60b08ed5;
   0xd6d6a3e8; 0xa1d1937e; 0x38d8c2c4; 0x4fdff252;
   0xd1bb67f1; 0xa6bc5767; 0x3fb506dd; 0x48b2364b;
   0xd80d2bda; 0xaf0a1b4c; 0x36034af6; 0x41047a60;
   0xdf60efc3; 0xa867df55; 0x316e8eef; 0x4669be79;
   0xcb61b38c; 0xbc66831a; 0x256fd2a0; 0x5268e236;
   0xcc0c7795; 0xbb0b4703; 0x220216b9; 0x5505262f;
   0xc5ba3bbe; 0xb2bd0b28; 0x2bb45a92; 0x5cb36a04;
   0xc2d7ffa7; 0xb5d0cf31; 0x2cd99e8b; 0x5bdeae1d;
   0x9b64c2b0; 0xec63f226; 0x756aa39c; 0x026d930a;
   0x9c0906a9; 0xeb0e363f; 0x72076785; 0x05005713;
   0x95bf4a82; 0xe2b87a14; 0x7bb12bae; 0x0cb61b38;
   0x92d28e9b; 0xe5d5be0d; 0x7cdcefb7; 0x0bdbdf21;
   0x86d3d2d4; 0xf1d4e242; 0x68ddb3f8; 0x1fda836e;
   0x81be16cd; 0xf6b9265b; 0x6fb077e1; 0x18b74777;
   0x88085ae6; 0xff0f6a70; 0x66063bca; 0x11010b5c;
   0x8f659eff; 0xf862ae69; 0x616bffd3; 0x166ccf45;
   0xa00ae278; 0xd70dd2ee; 0x4e048354; 0x3903b3c2;
   0xa7672661; 0xd06016f7; 0x4969474d; 0x3e6e77db;
   0xaed16a4a; 0xd9d65adc; 0x40df0b66; 0x37d83bf0;
   0xa9bcae53; 0xdebb9ec5; 0x47b2cf7f; 0x30b5ffe9;
   0xbdbdf21c; 0xcabac28a; 0x53b39330; 0x24b4a3a6;
   0xbad03605; 0xcdd70693; 0x54de5729; 0x23d967bf;
   0xb3667a2e; 0xc4614ab8; 0x5d681b02; 0x2a6f2b94;
   0xb40bbe37; 0xc30c8ea1; 0x5a05df1b; 0x2d02ef8d].

Definition crc32 (val : Z) (s : list Z) : Z :=
  fold_left (fun val b => Z.lxor (crc32_table !!! Z.to_nat (Z.land (Z.lxor val b) 255))
                            (Z.shiftr val 8)) s val.

Definition crc32buf (buf : list Z) : Z := crc32 0xFFFFFFFF buf.

Lemma crc32_tbl_ok : is_crc_table crc32_poly crc32_tbl.
Proof. apply check_crc_table_sound. vm_compute. reflexivity. Qed.

Lemma crc32_table_ok : is_crc_table crc32_poly crc32_table.
Proof. apply check_crc_table_sound. vm_compute. reflexivity. Qed.

Lemma otrx_crc32_run bs c :
  Forall is_byte bs -> fold_left otrx_crc32_update bs c = crc_run crc32_poly c bs.
Proof.
  intros Hbs. revert c. induction Hbs as [|b bs Hb Hbs IH]; intros c; [done|].
  simpl. unfold otrx_crc32_update at 2.
  by rewrite (table_update_bitwise crc32_poly crc32_tbl c b crc32_tbl_ok Hb), IH.
Qed.

Lemma crc32_run bs c : Forall is_byte bs -> crc32 c bs = crc_run crc32_poly c bs.
Proof.
  intros Hbs. unfold crc32. revert c. induction Hbs as [|b bs Hb Hbs IH]; intros c; [done|].
  simpl. by rewrite (table_update_bitwise crc32_poly crc32_table c b crc32_table_ok Hb), IH.
Qed.

Lemma crc32_poly_width : 8 <= 32 /\ 2 ^ (32 - 1) <= crc32_poly < 2 ^ 32.
Proof. unfold crc32_poly. lia. Qed.

Lemma otrx_crc32_range bs : Forall is_byte bs -> is_u32 (otrx_crc32 bs).
Proof.
  intros Hbs. unfold otrx_crc32. rewrite otrx_crc32_run by done.
  apply crc_run_range; [apply crc32_poly_width..| |done]. lia.
Qed.

(** * Theorems *)

(** C37: The three table-driven CRCs are the CRCs their polynomials define: on every byte
    string, [hndcrc8] (nvram, reflected x^8+x^7+x^6+x^4+x^2+1), [otrx_crc32] (otrx) and
    [crc32] (mtd, both reflected IEEE 802.3) shift in one bit at a time exactly as the
    bit-serial definition does. *)
Theorem table_crcs_are_bit_serial (bs : list Z) (c8 c32 : Z) :
  Forall is_byte bs -> is_byte c8 ->
  hndcrc8 bs c8 = crc_run crc8_poly c8 bs /\
  otrx_crc32 bs = crc_run crc32_poly 0xffffffff bs /\
  crc32 c32 bs = crc_run crc32_poly c32 bs.
Proof.
  intros Hb Hc. split; [by apply hndcrc8_run|]. split; [by apply otrx_crc32_run|by apply crc32_run].
Qed.

Lemma table_crcs_are_bit_serial_witness :
  Forall is_byte [1; 2; 255] /\
  hndcrc8 [1; 2; 255] 0xff = crc_run crc8_poly 0xff [1; 2; 255] /\
  otrx_crc32 [1; 2; 255] = crc_run crc32_poly 0xffffffff [1; 2; 255] /\
  crc32 0 [1; 2; 255] = crc_run crc32_poly 0 [1; 2; 255].
Proof.
  assert (Forall is_byte [1; 2; 255]) as H by (repeat constructor; unfold is_byte; lia).
  split; [exact H|]. apply (table_crcs_are_bit_serial [1; 2; 255] 0xff 0 H). unfold is_byte; lia.
Defined.
