(* ===== verification/Nvram.v ===== *)
(** The NVRAM variable store (package/utils/nvram/src/nvram.c, nvram.h). *)

From stdpp Require Import gmap.
From S2P Require Import Prelude Libc Crc.

(** ** Data *)

Definition NVRAM_HASH_SIZE : nat := 257.
Definition NVRAM_MIN_SPACE : Z := 0x8000.
Definition NVRAM_MAGIC : Z := 0x48534C46.
Definition NVRAM_VERSION : Z := 1.
Definition NVRAM_CRC_START_POSITION : Z := 9.
Definition NVRAM_HEADER_SIZE : Z := 20.
Definition NVRAM_ROUNDUP (x y : Z) : Z := (x + (y - 1)) / y * y.

(** sdinitvals.h *)
Definition SDRAM_INIT : Z := 0x419.
Definition SDRAM_CONFIG : Z := 0x0000.
Definition SDRAM_REFRESH : Z := Z.lor (Z.land 0x40 0xff) 0x8000.

Record nvram_header := Header {
  magic : Z;
  len : Z;
  crc_ver_init : Z;    (* 0:7 crc, 8:15 ver, 16:31 sdram_init *)
  config_refresh : Z;  (* 0:15 sdram_config, 16:31 sdram_refresh *)
  config_ncdl : Z
}.

(** A tuple; its [next] pointer is the position in the list of its bucket.  The
    value is [None] when [t->value] is a null pointer. *)
Record nvram_tuple := Tuple { name : list Z; value : option (list Z) }.

(** A handle: [mmap_base] is the address and [mmap] the contents of the mapping. *)
Record nvram_handle := Handle {
  fd : Z;
  mmap_base : Z;
  mmap : list Z;
  length_ : Z;
  offset : Z;
  nvram_hash : list (list nvram_tuple);
  nvram_dead : list nvram_tuple
}.

Definition with_mmap (h : nvram_handle) (m : list Z) : nvram_handle :=
  Handle (fd h) (mmap_base h) m (length_ h) (offset h) (nvram_hash h) (nvram_dead h).

Definition with_table (h : nvram_handle) (tbl : list (list nvram_tuple)) (dead : list nvram_tuple)
  : nvram_handle :=
  Handle (fd h) (mmap_base h) (mmap h) (length_ h) (offset h) tbl dead.

(** The packed little-endian image of the header structure. *)
Definition header_bytes (hd : nvram_header) : list Z :=
  le_bytes 4 (magic hd) ++ le_bytes 4 (len hd) ++ le_bytes 4 (crc_ver_init hd) ++
  le_bytes 4 (config_refresh hd) ++ le_bytes 4 (config_ncdl hd).

(** [nvram_header]: the structure at [&h->mmap[h->offset]]. *)
Definition nvram_header_of (h : nvram_handle) : option nvram_header :=
  a ← get_le32 (mmap h) (offset h);
  b ← get_le32 (mmap h) (offset h + 4);
  c ← get_le32 (mmap h) (offset h + 8);
  d ← get_le32 (mmap h) (offset h + 12);
  e ← get_le32 (mmap h) (offset h + 16);
  Some (Header a b c d e).

(** ** Helper functions *)

(** [hash]: plain [char] is unsigned on ARM. *)
Definition hash (s : list Z) : Z := fold_left (fun hash c => u32 (31 * hash + c)) s 0.

Definition bucket_of (n : list Z) : nat := Z.to_nat (hash n mod Z.of_nat NVRAM_HASH_SIZE).

(** The walk [for (prev = ..., t = *prev; t && strcmp(t->name, name); ...)]: the
    tuples before the hit, the hit and the ones behind it. *)
Fixpoint find_tuple (n : list Z) (b : list nvram_tuple)
  : option (list nvram_tuple * nvram_tuple * list nvram_tuple) :=
  match b with
  | [] => None
  | t :: b =>
      if decide (name t = n) then Some ([], t, b)
      else '(pre, u, post) ← find_tuple n b; Some (t :: pre, u, post)
  end.

Definition _nvram_free (h : nvram_handle) : nvram_handle :=
  with_table h (replicate NVRAM_HASH_SIZE []) [].

Section store.
(** Whether the allocator satisfies a request of a given size. *)
Context (malloc_ok : Z -> bool).

(** [_nvram_realloc]: the returned tuple and whether the pointer is [t] itself,
    or a failure with what is left in [t]. *)
Definition _nvram_realloc (h : nvram_handle) (t : option nvram_tuple) (n v : list Z)
  : (nvram_tuple * bool) + option nvram_tuple :=
  if u32 (length_ h - offset h) <? zlen v + 1 then inr t
  else
    let alloc :=
      match t with
      | Some t => Some (t, true)
      | None => if malloc_ok (12 + zlen n + 1) then Some (Tuple n None, false) else None
      end in
    match alloc with
    | None => inr None
    | Some (t', same) =>
        if decide (value t' = Some v) then inl (t', same)
        else if malloc_ok (zlen v + 1) then inl (Tuple (name t') (Some v), same)
        else inr (if same then Some (Tuple (name t') None) else None)
    end.

(** [nvram_get]; a name is [None] for a null pointer. *)
Definition nvram_get (h : nvram_handle) (nm : option (list Z)) : option (list Z) :=
  n ← nm;
  b ← nvram_hash h !! bucket_of n;
  '(_, t, _) ← find_tuple n b;
  value t.

(** [nvram_set]; the second component is the return value, -12 being -ENOMEM. *)
Definition nvram_set (h : nvram_handle) (n v : list Z) : nvram_handle * Z :=
  let i := bucket_of n in
  let b := nvram_hash h !!! i in
  match find_tuple n b with
  | Some (pre, t, post) =>
      match _nvram_realloc h (Some t) n v with
      | inr t' =>
          (with_table h (<[i := pre ++ default t t' :: post]> (nvram_hash h)) (nvram_dead h), -12)
      | inl (u, true) =>
          (with_table h (<[i := pre ++ u :: post]> (nvram_hash h)) (nvram_dead h), 0)
      | inl (u, false) =>
          (with_table h (<[i := u :: pre ++ post]> (nvram_hash h)) (t :: nvram_dead h), 0)
      end
  | None =>
      match _nvram_realloc h None n v with
      | inr _ => (h, -12)
      | inl (u, _) => (with_table h (<[i := u :: b]> (nvram_hash h)) (nvram_dead h), 0)
      end
  end.

(** [nvram_unset] *)
Definition nvram_unset (h : nvram_handle) (nm : option (list Z)) : nvram_handle * Z :=
  match nm with
  | None => (h, 0)
  | Some n =>
      let i := bucket_of n in
      let b := nvram_hash h !!! i in
      match find_tuple n b with
      | Some (pre, t, post) =>
          (with_table h (<[i := pre ++ post]> (nvram_hash h)) (t :: nvram_dead h), 0)
      | None => (h, 0)
      end
  end.

(** [nvram_getall]: the copies are pushed in front, so the result is reversed;
    the first failed allocation of a bucket ends the walk of that bucket. *)
Definition nvram_getall (h : nvram_handle) : list nvram_tuple :=
  fold_left (fun l b =>
    fold_left (fun l t => t :: l) (if malloc_ok 12 then b else []) l)
    (nvram_hash h) [].

(** The loop of [_nvram_rehash] over "name=value\0 ... \0\0". *)
Fixpoint rehash_loop (fuel : nat) (h : nvram_handle) (nm : Z) : option nvram_handle :=
  match fuel with
  | O => None
  | S fuel =>
      s ← cstr_at (mmap h) nm;
      match s with
      | [] => Some h
      | _ =>
          match split_at 61 s with
          | None => Some h
          | Some (n, v) => rehash_loop fuel (fst (nvram_set h n v)) (nm + zlen s + 1)
          end
      end
  end.

(** Sets a variable only when it is missing. *)
Definition set_default (h : nvram_handle) (n v : list Z) : nvram_handle :=
  match nvram_get h (Some n) with
  | Some _ => h
  | None => fst (nvram_set h n v)
  end.

(** [_nvram_rehash]; it always returns 0. *)
Definition _nvram_rehash (h : nvram_handle) : option (nvram_handle * Z) :=
  header ← nvram_header_of h;
  h ← rehash_loop (S (length (mmap h))) (_nvram_free h) (offset h + NVRAM_HEADER_SIZE);
  let h := set_default h (bs "sdram_init")
             (sprintf_0x 4 (u16 (Z.shiftr (crc_ver_init header) 16))) in
  let h := set_default h (bs "sdram_config")
             (sprintf_0x 4 (u16 (Z.land (config_refresh header) 0xffff))) in
  let h := set_default h (bs "sdram_refresh")
             (sprintf_0x 4 (u16 (Z.land (Z.shiftr (config_refresh header) 16) 0xffff))) in
  let h := set_default h (bs "sdram_ncdl") (sprintf_0x 8 (config_ncdl header)) in
  Some (h, 0).

(** The header words [nvram_commit] derives from the SDRAM variables, or the
    built-in defaults when one of them is missing. *)
Definition sdram_words (h : nvram_handle) : Z * Z * Z :=
  match nvram_get h (Some (bs "sdram_init")), nvram_get h (Some (bs "sdram_config")),
        nvram_get h (Some (bs "sdram_refresh")), nvram_get h (Some (bs "sdram_ncdl")) with
  | Some init, Some config, Some refresh, Some ncdl =>
      (Z.lor (Z.shiftl NVRAM_VERSION 8) (Z.shiftl (Z.land (strtoul0 init) 0xffff) 16),
       Z.lor (Z.land (strtoul0 config) 0xffff) (Z.shiftl (Z.land (strtoul0 refresh) 0xffff) 16),
       strtoul0 ncdl)
  | _, _, _, _ =>
      (Z.lor (Z.shiftl NVRAM_VERSION 8) (Z.shiftl SDRAM_INIT 16),
       Z.lor SDRAM_CONFIG (Z.shiftl SDRAM_REFRESH 16),
       0)
  end.

(** "name=value" and its NUL. *)
Definition tuple_bytes (n v : list Z) : list Z := n ++ 61 :: v ++ [0].

(** The inner loop that writes out a bucket; a tuple that does not fit ends it. *)
Fixpoint write_bucket (m : list Z) (ptr end_ : Z) (b : list nvram_tuple) : option (list Z * Z) :=
  match b with
  | [] => Some (m, ptr)
  | t :: b =>
      v ← value t;
      if end_ <? ptr + zlen (name t) + 1 + zlen v + 1 then Some (m, ptr)
      else
        m ← zwrite m ptr (tuple_bytes (name t) v);
        write_bucket m (ptr + (zlen (name t) + 1 + zlen v) + 1) end_ b
  end.

Fixpoint write_table (m : list Z) (ptr end_ : Z) (tbl : list (list nvram_tuple))
  : option (list Z * Z) :=
  match tbl with
  | [] => Some (m, ptr)
  | b :: tbl => '(m, ptr) ← write_bucket m ptr end_ b; write_table m ptr end_ tbl
  end.

(** "End with a double NULL and pad to 4 bytes": [(int)ptr % 4] is the C
    remainder of the address taken as a signed integer. *)
Definition terminate (base : Z) (m : list Z) (ptr : Z) : option (list Z * Z) :=
  m ← zset m ptr 0;
  let ptr := ptr + 1 in
  let r := Z.rem (s32 (base + ptr)) 4 in
  m ← (if r =? 0 then Some m else zfill m ptr 0 (4 - r));
  Some (m, ptr + 1).

(** [nvram_commit].  The five header words are stored together at the end; they
    lie below the data area the other stores change. *)
Definition nvram_commit (nvram_part_size : Z) (h : nvram_handle) : option (nvram_handle * Z) :=
  let hdr := offset h in
  let '(cvi, cr, ncdl) := sdram_words h in
  let ptr := hdr + NVRAM_HEADER_SIZE in
  m ← zfill (mmap h) ptr 255 (nvram_part_size - offset h - NVRAM_HEADER_SIZE);
  let end_ := hdr + nvram_part_size - offset h - 2 in
  '(m, ptr) ← write_table m ptr end_ (nvram_hash h);
  '(m, ptr) ← terminate (mmap_base h) m ptr;
  let hlen := u32 (NVRAM_ROUNDUP (ptr - hdr) 4) in
  let tmp := Header 0 0 cvi cr ncdl in
  tmp_tail ← zslice (header_bytes tmp) NVRAM_CRC_START_POSITION
               (NVRAM_HEADER_SIZE - NVRAM_CRC_START_POSITION);
  data ← zslice m (hdr + NVRAM_HEADER_SIZE) (u32 (hlen - NVRAM_HEADER_SIZE));
  let crc := hndcrc8 data (hndcrc8 tmp_tail 0xff) in
  m ← zwrite m hdr (header_bytes (Header NVRAM_MAGIC hlen (Z.lor cvi crc) cr ncdl));
  _nvram_rehash (with_mmap h m).

(** The search of [nvram_open] for the magic word; [None] is a read outside the
    mapping, [Some None] a search without result. *)
Fixpoint find_magic (m : list Z) (i : Z) (n : nat) : option (option Z) :=
  match n with
  | O => Some None
  | S n =>
      w ← get_le32 m (i * 4);
      if w =? NVRAM_MAGIC then Some (Some (i * 4)) else find_magic m (i + 1) n
  end.

(** [nvram_open] from the point where the file is open and mapped: [map] is the
    descriptor, address and contents, or [None] when open or mmap failed.  The
    handle record takes 1048 bytes. *)
Definition nvram_open (nvram_part_size : Z) (map : option (Z * Z * list Z)) (rdonly : bool)
  : option (option nvram_handle) :=
  match map with
  | None => Some None
  | Some (fd, base, m) =>
      found ← find_magic m 0 (S (Z.to_nat (u32 (nvram_part_size - NVRAM_MIN_SPACE) / 4)));
      match found with
      | None => Some None
      | Some off =>
          if malloc_ok 1048 then
            let h := Handle fd base m nvram_part_size off (replicate NVRAM_HASH_SIZE []) [] in
            header ← nvram_header_of h;
            if (magic header =? NVRAM_MAGIC) &&
               (rdonly || (len header <? u32 (length_ h - offset h)))
            then '(h, _) ← _nvram_rehash h; Some (Some h)
            else Some None
          else Some None
      end
  end.
End store.

(** ** The abstract view: a finite map from names to values *)

Definition tuple_pair (t : nvram_tuple) : option (list Z * list Z) := pair (name t) <$> value t.

Definition vars (h : nvram_handle) : gmap (list Z) (list Z) :=
  list_to_map (omap tuple_pair (mjoin (nvram_hash h))).

(** Every tuple sits in the bucket of its name, and no name occurs twice. *)
Definition bucket_ok (i : nat) (b : list nvram_tuple) : Prop :=
  Forall (fun t => bucket_of (name t) = i) b /\ NoDup (name <$> b).

Record wf (h : nvram_handle) : Prop := {
  wf_size : length (nvram_hash h) = NVRAM_HASH_SIZE;
  wf_buckets : forall i b, nvram_hash h !! i = Some b -> bucket_ok i b
}.

Lemma bucket_of_lt n : (bucket_of n < NVRAM_HASH_SIZE)%nat.
Proof.
  unfold bucket_of. pose proof (Z.mod_pos_bound (hash n) (Z.of_nat NVRAM_HASH_SIZE)).
  unfold NVRAM_HASH_SIZE in *. lia.
Qed.

Lemma wf_bucket h n :
  wf h -> nvram_hash h !! bucket_of n = Some (nvram_hash h !!! bucket_of n).
Proof.
  intros [Hsize _]. apply list_lookup_lookup_total_lt. rewrite Hsize. apply bucket_of_lt.
Qed.

Lemma find_tuple_Some n b pre t post :
  find_tuple n b = Some (pre, t, post) -> b = pre ++ t :: post /\ name t = n.
Proof.
  revert pre t post. induction b as [|u b IH]; intros pre t post; simpl; [done|].
  case_decide as Hn; [by intros [= <- <- <-]|].
  destruct (find_tuple n b) as [[[pre' t'] post']|]; simpl; [|done].
  intros [= <- <- <-]. by destruct (IH _ _ _ eq_refl) as [-> ->].
Qed.

Lemma find_tuple_None n b : find_tuple n b = None -> n ∉ name <$> b.
Proof.
  induction b as [|u b IH]; simpl; [by intros; apply not_elem_of_nil|].
  case_decide as Hn; [done|]. destruct (find_tuple n b) as [[[??]?]|]; [done|].
  intros _. apply not_elem_of_cons. auto.
Qed.

Lemma names_NoDup_from (tbl : list (list nvram_tuple)) (k : nat) :
  (forall i b, tbl !! i = Some b -> bucket_ok (k + i) b) -> NoDup (name <$> mjoin tbl).
Proof.
  revert k. induction tbl as [|b tbl IH]; intros k Hok; simpl; [constructor|].
  rewrite fmap_app. apply NoDup_app. split; [apply (Hok 0%nat b eq_refl)|]. split.
  - intros n Hn Hn'. apply list_elem_of_fmap in Hn as (t & -> & Ht).
    apply list_elem_of_fmap in Hn' as (u & Hnu & Hu).
    apply list_elem_of_join in Hu as (b' & Hu & Hb'). apply list_elem_of_lookup in Hb' as [j Hj].
    destruct (Hok 0%nat b eq_refl) as [Hb _]. destruct (Hok (S j) b' Hj) as [Hb' _].
    rewrite Forall_forall in Hb, Hb'. specialize (Hb t Ht). specialize (Hb' u Hu).
    rewrite Hnu in Hb. lia.
  - apply (IH (S k)). intros j b' Hj. specialize (Hok (S j) b' Hj).
    by replace (S k + j)%nat with (k + S j)%nat by lia.
Qed.

Lemma names_NoDup h : wf h -> NoDup (name <$> mjoin (nvram_hash h)).
Proof. intros [_ Hb]. by apply (names_NoDup_from _ 0). Qed.

Lemma NoDup_tuple_pairs ts : NoDup (name <$> ts) -> NoDup (omap tuple_pair ts).*1.
Proof.
  induction ts as [|t ts IH]; simpl; [done|]. intros [Hn Hnd]%NoDup_cons.
  unfold tuple_pair at 1. destruct (value t) as [v|]; simpl; [|auto].
  constructor; [|auto]. intros Hin. apply Hn.
  apply list_elem_of_fmap in Hin as ([n' v'] & Heq & Hin).
  apply list_elem_of_omap in Hin as (u & Hu & Hp). unfold tuple_pair in Hp.
  destruct (value u); simplify_eq/=. apply list_elem_of_fmap. by exists u.
Qed.

Lemma vars_spec h n v :
  wf h -> vars h !! n = Some v <->
  exists t, t ∈ mjoin (nvram_hash h) /\ name t = n /\ value t = Some v.
Proof.
  intros Hwf. unfold vars.
  rewrite <- elem_of_list_to_map by (apply NoDup_tuple_pairs, names_NoDup, Hwf).
  rewrite list_elem_of_omap. unfold tuple_pair. split.
  - intros (t & Ht & Hp). destruct (value t) eqn:?; simplify_eq/=. eauto.
  - intros (t & Ht & <- & Hv). exists t. by rewrite Hv.
Qed.

Lemma in_table h t :
  wf h -> t ∈ mjoin (nvram_hash h) <-> t ∈ nvram_hash h !!! bucket_of (name t).
Proof.
  intros Hwf. rewrite list_elem_of_join. split.
  - intros (b & Ht & [i Hi]%list_elem_of_lookup). destruct (wf_buckets h Hwf i b Hi) as [Hb _].
    rewrite Forall_forall in Hb. rewrite (Hb t Ht). by rewrite (list_lookup_total_correct _ _ _ Hi).
  - intros Ht. exists (nvram_hash h !!! bucket_of (name t)). split; [done|].
    apply list_elem_of_lookup. eexists. by apply wf_bucket.
Qed.

Lemma nvram_get_spec h n v :
  wf h -> nvram_get h (Some n) = Some v <->
  exists t, t ∈ mjoin (nvram_hash h) /\ name t = n /\ value t = Some v.
Proof.
  intros Hwf. unfold nvram_get. simpl. rewrite (wf_bucket h n Hwf). simpl.
  destruct (find_tuple n _) as [[[pre t] post]|] eqn:Hf; simpl.
  - apply find_tuple_Some in Hf as [Hb Hn]. split.
    + intros Hv. exists t. rewrite in_table by done. rewrite Hn, Hb. set_solver.
    + intros (u & Hu & Hnu & Hv). rewrite in_table in Hu by done. rewrite Hnu, Hb in Hu.
      destruct (wf_buckets h Hwf _ _ (wf_bucket h n Hwf)) as [_ Hnd]. rewrite Hb in Hnd.
      enough (t = u) as -> by done. apply elem_of_app in Hu. rewrite elem_of_cons in Hu.
      rewrite fmap_app, fmap_cons, NoDup_app, NoDup_cons in Hnd.
      destruct Hnd as (_ & Hdis & Hni & _). destruct Hu as [Hu|[Hu|Hu]]; [|done|].
      * destruct (Hdis n); [apply list_elem_of_fmap; by exists u|].
        rewrite Hn. set_solver.
      * destruct Hni. rewrite Hn. apply list_elem_of_fmap. by exists u.
  - split; [done|]. intros (u & Hu & Hnu & _). rewrite in_table in Hu by done.
    rewrite Hnu in Hu. apply find_tuple_None in Hf. destruct Hf.
    apply list_elem_of_fmap. by exists u.
Qed.

(** [nvram_get] reads the abstract map. *)
Lemma nvram_get_vars h n : wf h -> nvram_get h (Some n) = vars h !! n.
Proof.
  intros Hwf. apply option_eq. intros v. by rewrite nvram_get_spec, vars_spec.
Qed.

(** ** Operations against the map *)

Definition bucket_get (n : list Z) (b : list nvram_tuple) : option (list Z) :=
  '(_, t, _) ← find_tuple n b; value t.

Lemma bucket_get_cons n t b :
  bucket_get n (t :: b) = if decide (name t = n) then value t else bucket_get n b.
Proof.
  unfold bucket_get. simpl. case_decide; [done|]. by destruct (find_tuple n b) as [[[??]?]|].
Qed.

Lemma bucket_get_None n b : n ∉ name <$> b -> bucket_get n b = None.
Proof.
  induction b as [|t b IH]; [done|]. rewrite fmap_cons, not_elem_of_cons. intros [Hne Hn].
  rewrite bucket_get_cons. case_decide; [congruence|auto].
Qed.

Lemma bucket_get_replace m n pre t u post :
  name t = n -> name u = n -> n ∉ name <$> pre ->
  bucket_get m (pre ++ u :: post)
  = if decide (m = n) then value u else bucket_get m (pre ++ t :: post).
Proof.
  intros Ht Hu Hpre. induction pre as [|w pre IH]; simpl; rewrite !bucket_get_cons.
  - rewrite Ht, Hu. repeat case_decide; congruence.
  - rewrite fmap_cons, not_elem_of_cons in Hpre. destruct Hpre as [Hw Hpre]. rewrite IH by done.
    repeat case_decide; congruence.
Qed.

Lemma bucket_get_remove m n pre t post :
  name t = n -> n ∉ name <$> pre -> n ∉ name <$> post ->
  bucket_get m (pre ++ post) = if decide (m = n) then None else bucket_get m (pre ++ t :: post).
Proof.
  intros Ht Hpre Hpost. induction pre as [|w pre IH]; simpl.
  - rewrite bucket_get_cons, Ht. case_decide as Hm; [subst m; by apply bucket_get_None|].
    by rewrite decide_False by congruence.
  - rewrite fmap_cons, not_elem_of_cons in Hpre. destruct Hpre as [Hw Hpre].
    rewrite !bucket_get_cons, IH by done. repeat case_decide; congruence.
Qed.

Lemma NoDup_around n pre t post :
  NoDup (name <$> (pre ++ t :: post)) -> name t = n ->
  (n ∉ name <$> pre) /\ (n ∉ name <$> post) /\ NoDup (name <$> (pre ++ post)).
Proof.
  rewrite !fmap_app, fmap_cons, !NoDup_app, NoDup_cons.
  intros (Hpre & Hdis & Hni & Hpost) <-. set_solver.
Qed.

Section table_update.
Context (h : nvram_handle) (n : list Z) (Hwf : wf h).
#[local] Abbreviation here := (bucket_of n).
#[local] Abbreviation chain := (nvram_hash h !!! bucket_of n).

Lemma here_ok : bucket_ok here chain.
Proof. apply (wf_buckets h Hwf). by apply wf_bucket. Qed.

Lemma wf_update b' dead :
  bucket_ok here b' -> wf (with_table h (<[here := b']> (nvram_hash h)) dead).
Proof.
  intros Hb'. destruct Hwf as [Hsize Hbs]. split; simpl; [by rewrite length_insert|].
  intros j c. rewrite list_lookup_insert_Some. intros [(<- & <- & _)|[_ Hc]]; auto.
Qed.

Lemma vars_update b' dead m :
  bucket_ok here b' ->
  vars (with_table h (<[here := b']> (nvram_hash h)) dead) !! m
  = if decide (bucket_of m = here) then bucket_get m b' else vars h !! m.
Proof.
  intros Hb'. rewrite <- !nvram_get_vars by auto using wf_update.
  unfold nvram_get. simpl. case_decide as Hm.
  - rewrite Hm, list_lookup_insert_eq; [done|].
    rewrite (wf_size h Hwf). apply bucket_of_lt.
  - by rewrite list_lookup_insert_ne by congruence.
Qed.

Lemma vars_here m : bucket_of m = here -> vars h !! m = bucket_get m chain.
Proof.
  intros Hm. rewrite <- nvram_get_vars by done. unfold nvram_get. simpl.
  by rewrite wf_bucket, Hm.
Qed.

(** Replacing, adding and removing one tuple. *)
Lemma vars_replace pre t post u dead :
  find_tuple n chain = Some (pre, t, post) -> name u = n ->
  let h' := with_table h (<[here := pre ++ u :: post]> (nvram_hash h)) dead in
  wf h' /\ vars h' = match value u with Some v => <[n := v]> (vars h) | None => delete n (vars h) end.
Proof.
  intros [Hb Ht]%find_tuple_Some Hu. destruct here_ok as [Hall Hnd]. rewrite Hb in Hall, Hnd.
  destruct (NoDup_around n pre t post Hnd Ht) as (Hpre & Hpost & Hnd').
  assert (bucket_ok here (pre ++ u :: post)) as Hok.
  { split; [|by rewrite fmap_app, fmap_cons, Hu, <- Ht, <- fmap_cons, <- fmap_app].
    rewrite !Forall_app, !Forall_cons in *. rewrite Hu. naive_solver. }
  split; [by apply wf_update|]. apply map_eq. intros m. rewrite vars_update by done.
  case_decide as Hm.
  - rewrite (bucket_get_replace m n pre t u post), <- Hb, <- vars_here by done.
    case_decide as Hmn; [rewrite Hmn|]; destruct (value u); by simplify_map_eq.
  - assert (m <> n) by (intros ->; done). destruct (value u); by simplify_map_eq.
Qed.

Lemma vars_add u dead :
  find_tuple n chain = None -> name u = n ->
  let h' := with_table h (<[here := u :: chain]> (nvram_hash h)) dead in
  wf h' /\ vars h' = match value u with Some v => <[n := v]> (vars h) | None => vars h end.
Proof.
  intros Hf%find_tuple_None Hu. destruct here_ok as [Hall Hnd].
  assert (bucket_ok here (u :: chain)) as Hok.
  { split; [constructor; [by rewrite Hu|done]|]. rewrite fmap_cons, Hu. by constructor. }
  split; [by apply wf_update|]. apply map_eq. intros m. rewrite vars_update by done.
  case_decide as Hm.
  - rewrite bucket_get_cons, Hu, <- vars_here by done. case_decide as Hmn.
    + rewrite <- Hmn. destruct (value u); [by rewrite lookup_insert_eq|].
      by rewrite vars_here, bucket_get_None.
    + destruct (value u); by simplify_map_eq.
  - assert (m <> n) by (intros ->; done). destruct (value u); by simplify_map_eq.
Qed.

Lemma vars_remove pre t post dead :
  find_tuple n chain = Some (pre, t, post) ->
  let h' := with_table h (<[here := pre ++ post]> (nvram_hash h)) dead in
  wf h' /\ vars h' = delete n (vars h).
Proof.
  intros [Hb Ht]%find_tuple_Some. destruct here_ok as [Hall Hnd]. rewrite Hb in Hall, Hnd.
  destruct (NoDup_around n pre t post Hnd Ht) as (Hpre & Hpost & Hnd').
  assert (bucket_ok here (pre ++ post)) as Hok.
  { split; [|done]. rewrite !Forall_app, !Forall_cons in *. naive_solver. }
  split; [by apply wf_update|]. apply map_eq. intros m. rewrite vars_update by done.
  case_decide as Hm.
  - rewrite (bucket_get_remove m n pre t post), <- Hb, <- vars_here by done.
    case_decide as Hmn; [rewrite Hmn|]; by simplify_map_eq.
  - assert (m <> n) by (intros ->; done). by simplify_map_eq.
Qed.
End table_update.

Definition fits (h : nvram_handle) (v : list Z) : Prop := zlen v + 1 <= u32 (length_ h - offset h).

(** The part of a handle the table operations do not touch. *)
Definition frame (h : nvram_handle) := (fd h, mmap_base h, mmap h, length_ h, offset h).

Lemma frame_inv h h' :
  frame h = frame h' ->
  mmap_base h = mmap_base h' /\ mmap h = mmap h' /\ length_ h = length_ h' /\ offset h = offset h'.
Proof. unfold frame. by intros [= _ -> -> -> ->]. Qed.

Section operations.
Context (malloc_ok : Z -> bool).

Lemma realloc_fits h t n v :
  fits h v -> malloc_ok (12 + zlen n + 1) = true -> malloc_ok (zlen v + 1) = true ->
  _nvram_realloc malloc_ok h t n v
  = inl (match t with Some t => (Tuple (name t) (Some v), true) | None => (Tuple n (Some v), false) end).
Proof.
  intros Hfit Hm1 Hm2. unfold _nvram_realloc, fits in *.
  rewrite (proj2 (Z.ltb_ge _ _)) by lia. rewrite Hm1, Hm2.
  destruct t as [[n' v']|]; simpl; [|done]. case_decide as Hv; [by rewrite Hv|done].
Qed.

Lemma realloc_too_long h t n v : ~ fits h v -> _nvram_realloc malloc_ok h t n v = inr t.
Proof.
  intros Hfit. unfold _nvram_realloc, fits in *. by rewrite (proj2 (Z.ltb_lt _ _)) by lia.
Qed.

Lemma nvram_set_ok h n v :
  wf h -> fits h v -> malloc_ok (12 + zlen n + 1) = true -> malloc_ok (zlen v + 1) = true ->
  exists h', nvram_set malloc_ok h n v = (h', 0) /\ wf h' /\ vars h' = <[n := v]> (vars h).
Proof.
  intros Hwf Hfit Hm1 Hm2. unfold nvram_set.
  destruct (find_tuple n _) as [[[pre t] post]|] eqn:Hf; rewrite realloc_fits by done.
  - eexists. split; [done|]. apply (vars_replace h n Hwf pre t post (Tuple (name t) (Some v))); [done|].
    by apply find_tuple_Some in Hf as [_ Ht].
  - eexists. split; [done|]. by apply (vars_add h n Hwf (Tuple n (Some v))).
Qed.

Lemma nvram_set_too_long h n v :
  wf h -> ~ fits h v ->
  exists h', nvram_set malloc_ok h n v = (h', -12) /\ wf h' /\ vars h' = vars h.
Proof.
  intros Hwf Hfit. unfold nvram_set.
  destruct (find_tuple n _) as [[[pre t] post]|] eqn:Hf; rewrite realloc_too_long by done;
    [|by exists h].
  pose proof (find_tuple_Some _ _ _ _ _ Hf) as [Hb Ht]. eexists. split; [done|]. simpl.
  destruct (vars_replace h n Hwf pre t post t (nvram_dead h) Hf Ht) as [Hwf' Hvars].
  split; [done|]. rewrite <- Hb in *. rewrite list_insert_id in * by by apply wf_bucket. done.
Qed.

Lemma nvram_set_frame h n v : frame (fst (nvram_set malloc_ok h n v)) = frame h.
Proof.
  unfold nvram_set. destruct (find_tuple n _) as [[[pre t] post]|];
    destruct (_nvram_realloc _ _ _ _ _) as [[u []]|]; done.
Qed.

Lemma nvram_unset_ok h n :
  wf h -> exists h', nvram_unset h (Some n) = (h', 0) /\ wf h' /\ vars h' = delete n (vars h).
Proof.
  intros Hwf. unfold nvram_unset. destruct (find_tuple n _) as [[[pre t] post]|] eqn:Hf.
  - eexists. split; [done|]. by apply (vars_remove h n Hwf pre t post).
  - exists h. split; [done|]. split; [done|]. symmetry. apply delete_id.
    rewrite (vars_here h n Hwf) by done. by apply bucket_get_None, find_tuple_None.
Qed.

Lemma nvram_free_wf h : wf (_nvram_free h) /\ vars (_nvram_free h) = ∅.
Proof.
  split.
  - split; [done|]. intros i b [-> _]%lookup_replicate. split; constructor.
  - unfold vars, _nvram_free, NVRAM_HASH_SIZE. simpl. done.
Qed.

Lemma frame_fits h h' v : frame h = frame h' -> fits h v -> fits h' v.
Proof. unfold frame, fits. by intros [= _ _ _ -> ->]. Qed.

(** Setting a sequence of variables inserts them one after the other. *)
Definition set_all (h : nvram_handle) (ps : list (list Z * list Z)) : nvram_handle :=
  fold_left (fun h p => fst (nvram_set malloc_ok h p.1 p.2)) ps h.

Lemma set_all_ok h ps :
  (forall z, malloc_ok z = true) -> wf h -> Forall (fun p => fits h p.2) ps -> NoDup ps.*1 ->
  wf (set_all h ps) /\ frame (set_all h ps) = frame h /\
  vars (set_all h ps) = list_to_map ps ∪ vars h.
Proof.
  intros Hm. revert h. induction ps as [|[n v] ps IH]; intros h Hwf Hfit Hnd; simpl.
  - split; [done|]. split; [done|]. by rewrite (left_id_L ∅ (∪)).
  - apply Forall_cons in Hfit as [Hv Hfit]. apply NoDup_cons in Hnd as [Hn Hnd]. simpl in *.
    destruct (nvram_set_ok h n v Hwf Hv (Hm _) (Hm _)) as (h' & Heq & Hwf' & Hvars).
    pose proof (nvram_set_frame h n v) as Hfr. rewrite Heq in *. simpl in *.
    destruct (IH h' Hwf') as (Hw & Hf & Hvs); [|done|].
    + eapply Forall_impl; [exact Hfit|]. intros p. by apply frame_fits.
    + split; [done|]. split; [by rewrite Hf|]. rewrite Hvs, Hvars.
      rewrite <- insert_union_l. rewrite insert_union_r; [done|].
      by apply not_elem_of_list_to_map_1.
Qed.
End operations.

(** ** The flash image *)

(** The data area: every variable as "name=value" and a NUL. *)
Definition image (ps : list (list Z * list Z)) : list Z :=
  ps ≫= (fun p => tuple_bytes p.1 p.2).

#[global] Arguments image : simpl never.
#[global] Arguments bs : simpl never.

(** A variable whose image can be read back. *)
Definition well_named (p : list Z * list Z) : Prop := is_cstr p.1 /\ (61 ∉ p.1) /\ is_cstr p.2.

Definition sdram_defaults (hd : nvram_header) : gmap (list Z) (list Z) :=
  {[ bs "sdram_init" := sprintf_0x 4 (u16 (Z.shiftr (crc_ver_init hd) 16)) ]} ∪
  {[ bs "sdram_config" := sprintf_0x 4 (u16 (Z.land (config_refresh hd) 0xffff)) ]} ∪
  {[ bs "sdram_refresh" := sprintf_0x 4 (u16 (Z.land (Z.shiftr (config_refresh hd) 16) 0xffff)) ]} ∪
  {[ bs "sdram_ncdl" := sprintf_0x 8 (config_ncdl hd) ]}.

Definition header_ok (hd : nvram_header) : Prop :=
  is_u32 (magic hd) /\ is_u32 (len hd) /\ is_u32 (crc_ver_init hd) /\
  is_u32 (config_refresh hd) /\ is_u32 (config_ncdl hd).

Lemma length_header_bytes hd : length (header_bytes hd) = 20%nat.
Proof. done. Qed.

Lemma length_tuple_bytes n v : zlen (tuple_bytes n v) = zlen n + 1 + zlen v + 1.
Proof. unfold tuple_bytes. rewrite length_app. simpl. rewrite length_app. simpl. lia. Qed.

Lemma image_cons n v ps : image ((n, v) :: ps) = tuple_bytes n v ++ image ps.
Proof. done. Qed.

Lemma image_app ps qs : image (ps ++ qs) = image ps ++ image qs.
Proof. unfold image. apply bind_app. Qed.

Lemma length_image_ge ps : (length ps <= length (image ps))%nat.
Proof.
  induction ps as [|[n v] ps IH]; [done|]. rewrite image_cons, length_app.
  pose proof (length_tuple_bytes n v). simpl. lia.
Qed.

Lemma nvram_header_of_image h P hd D :
  mmap h = P ++ header_bytes hd ++ D -> zlen P = offset h -> header_ok hd ->
  nvram_header_of h = Some hd.
Proof.
  intros Hm HP (?&?&?&?&?). unfold nvram_header_of.
  rewrite Hm, <- HP. rewrite <- (Z.add_0_r (zlen P)) at 1.
  rewrite !get_le32_mid by (rewrite ?length_header_bytes; lia).
  change (get_le32 (header_bytes hd) 0) with (Some (le_val (le_bytes 4 (magic hd)))).
  change (get_le32 (header_bytes hd) 4) with (Some (le_val (le_bytes 4 (len hd)))).
  change (get_le32 (header_bytes hd) 8) with (Some (le_val (le_bytes 4 (crc_ver_init hd)))).
  change (get_le32 (header_bytes hd) 12) with (Some (le_val (le_bytes 4 (config_refresh hd)))).
  change (get_le32 (header_bytes hd) 16) with (Some (le_val (le_bytes 4 (config_ncdl hd)))).
  cbn [mbind option_bind]. rewrite !le_val_bytes32 by done. by destruct hd.
Qed.

Section image_io.
Context (malloc_ok : Z -> bool) (Hmalloc : forall z, malloc_ok z = true).

(** Parsing the data area sets its variables in order. *)
Lemma rehash_loop_image fuel h P ps tail :
  mmap h = P ++ image ps ++ 0 :: tail -> Forall well_named ps -> (length ps < fuel)%nat ->
  rehash_loop malloc_ok fuel h (zlen P) = Some (set_all malloc_ok h ps).
Proof.
  revert fuel h P. induction ps as [|[n v] ps IH]; intros fuel h P Hm Hok Hfuel;
    (destruct fuel as [|fuel]; [simpl in Hfuel; lia|]); simpl.
  - pose proof (cstr_at_app P [] tail (List.Forall_nil _)) as Hc. simpl in Hc, Hm.
    by rewrite Hm, Hc.
  - apply Forall_cons in Hok as [(Hn & Heq & Hv) Hok]. simpl in Heq.
    set (s := n ++ 61 :: v).
    assert (is_cstr s) as Hs.
    { unfold s. apply Forall_app. split; [done|]. constructor; [unfold is_char; lia|done]. }
    assert (mmap h = P ++ s ++ 0 :: image ps ++ 0 :: tail) as Hm'.
    { rewrite Hm, image_cons. unfold s, tuple_bytes.
      rewrite <- !app_assoc. simpl. by rewrite <- app_assoc. }
    rewrite Hm', cstr_at_app by done. simpl.
    assert (s <> []) by (unfold s; by destruct n). destruct s as [|c s'] eqn:Es; [done|].
    rewrite <- Es. unfold s at 1. rewrite split_at_app by done.
    replace (zlen P + zlen s + 1) with (zlen (P ++ s ++ [0])) by (rewrite !length_app; simpl; lia).
    apply IH; [|done|simpl in Hfuel; lia].
    pose proof (nvram_set_frame malloc_ok h n v) as Hfr. unfold frame in Hfr.
    injection Hfr as _ _ Hmm _ _. rewrite Hmm, Hm'. by rewrite <- !app_assoc, <- Es.
Qed.

Lemma set_default_ok h n v :
  wf h -> fits h v ->
  wf (set_default malloc_ok h n v) /\ frame (set_default malloc_ok h n v) = frame h /\
  vars (set_default malloc_ok h n v) = vars h ∪ {[ n := v ]}.
Proof.
  intros Hwf Hfit. unfold set_default. rewrite nvram_get_vars by done.
  destruct (vars h !! n) as [w|] eqn:Hn.
  - split; [done|]. split; [done|]. apply map_eq. intros m. rewrite lookup_union.
    destruct (decide (m = n)) as [->|]; simplify_map_eq; [done|].
    by destruct (vars h !! m).
  - destruct (nvram_set_ok malloc_ok h n v Hwf Hfit (Hmalloc _) (Hmalloc _)) as (h' & Heq & Hwf' & Hvars).
    pose proof (nvram_set_frame malloc_ok h n v) as Hfr. rewrite Heq in *. simpl in *.
    split; [done|]. split; [done|]. rewrite Hvars. by rewrite insert_union_singleton_r.
Qed.

Lemma length_hex_digits k z : length (hex_digits k z) = k.
Proof. revert z. induction k as [|k IH]; intros z; simpl; [done|]. rewrite length_app, IH. simpl. lia. Qed.

Lemma sprintf_fits h k z : (k <= 8)%nat -> 20 <= u32 (length_ h - offset h) -> fits h (sprintf_0x k z).
Proof. intros Hk Hh. unfold fits, sprintf_0x. rewrite length_app, length_hex_digits. simpl. lia. Qed.

Lemma rehash_image h P hd ps tail :
  mmap h = P ++ header_bytes hd ++ image ps ++ 0 :: tail -> zlen P = offset h -> header_ok hd ->
  Forall well_named ps -> NoDup ps.*1 -> Forall (fun p => fits h p.2) ps ->
  20 <= u32 (length_ h - offset h) ->
  exists h', _nvram_rehash malloc_ok h = Some (h', 0) /\ wf h' /\ frame h' = frame h /\
    vars h' = list_to_map ps ∪ sdram_defaults hd.
Proof.
  intros Hm HP Hhd Hok Hnd Hfit Hroom. unfold _nvram_rehash.
  rewrite (nvram_header_of_image h P hd (image ps ++ 0 :: tail)) by done. cbn [mbind option_bind].
  pose proof (length_image_ge ps) as Hlen.
  replace (offset h + NVRAM_HEADER_SIZE) with (zlen (P ++ header_bytes hd))
    by (rewrite length_app, length_header_bytes; unfold NVRAM_HEADER_SIZE; lia).
  rewrite (rehash_loop_image _ _ _ ps tail);
    [|simpl; by rewrite Hm, <- app_assoc|done|rewrite Hm, !length_app; simpl; lia].
  cbn [mbind option_bind].
  destruct (nvram_free_wf h) as [Hwf0 Hv0].
  destruct (set_all_ok malloc_ok (_nvram_free h) ps) as (Hwf1 & Hf1 & Hv1); [done|done|done|done|].
  rewrite Hv0, (right_id_L ∅ (∪)) in Hv1.
  set (good := fun g m => wf g /\ frame g = frame h /\ vars g = m).
  assert (forall g m n k z, (k <= 8)%nat -> good g m ->
    good (set_default malloc_ok g n (sprintf_0x k z)) (m ∪ {[ n := sprintf_0x k z ]})) as Hdef.
  { intros g m n k z Hk (Hwf & Hfr & <-).
    destruct (set_default_ok g n (sprintf_0x k z)) as (?&?&?); [done| |unfold good; split_and!; congruence].
    injection Hfr as _ _ _ Hl Ho. apply sprintf_fits; [done|]. by rewrite Hl, Ho. }
  assert (good (set_all malloc_ok (_nvram_free h) ps) (list_to_map ps)) as H1 by done.
  eexists. split; [reflexivity|]. unfold sdram_defaults. rewrite !(assoc_L (∪)).
  apply Hdef; [lia|]. apply Hdef; [lia|]. apply Hdef; [lia|]. by apply Hdef; [lia|].
Qed.
End image_io.

(** ** Writing the image *)

(** Which variables of a bucket, and of the table, find room: a bucket is cut at
    the first one that does not fit, later buckets go on. *)
Fixpoint fit_bucket (room : Z) (b : list nvram_tuple) : list (list Z * list Z) :=
  match b with
  | [] => []
  | t :: b =>
      let p := (name t, default [] (value t)) in
      if room <? zlen (tuple_bytes p.1 p.2) then []
      else p :: fit_bucket (room - zlen (tuple_bytes p.1 p.2)) b
  end.

Fixpoint fit_table (room : Z) (tbl : list (list nvram_tuple)) : list (list Z * list Z) :=
  match tbl with
  | [] => []
  | b :: tbl => let ps := fit_bucket room b in ps ++ fit_table (room - zlen (image ps)) tbl
  end.

Definition has_value (t : nvram_tuple) : Prop := is_Some (value t).

Lemma fit_bucket_room room b : 0 <= room -> zlen (image (fit_bucket room b)) <= room.
Proof.
  revert room. induction b as [|t b IH]; intros room Hr; simpl; [done|].
  destruct (Z.ltb_spec room (zlen (tuple_bytes (name t) (default [] (value t))))); [done|].
  rewrite image_cons, length_app. specialize (IH _ (proj2 (Z.le_0_sub _ _) H)). lia.
Qed.

Lemma fit_table_room room tbl : 0 <= room -> zlen (image (fit_table room tbl)) <= room.
Proof.
  revert room. induction tbl as [|b tbl IH]; intros room Hr; simpl; [done|].
  rewrite image_app, length_app. pose proof (fit_bucket_room room b Hr).
  specialize (IH (room - zlen (image (fit_bucket room b))) ltac:(lia)). lia.
Qed.

Lemma write_bucket_image b : forall P free end_,
  Forall has_value b -> zlen P <= end_ -> end_ <= zlen (P ++ free) ->
  let ps := fit_bucket (end_ - zlen P) b in
  write_bucket (P ++ free) (zlen P) end_ b
  = Some (P ++ image ps ++ drop (length (image ps)) free, zlen (P ++ image ps)).
Proof.
  induction b as [|t b IH]; intros P free end_ Hv Hlo Hhi; simpl.
  - rewrite drop_0. by rewrite app_nil_r.
  - apply Forall_cons in Hv as [[v Ht] Hv]. rewrite Ht. simpl.
    rewrite length_tuple_bytes. destruct (Z.ltb_spec end_ (zlen P + zlen (name t) + 1 + zlen v + 1));
      destruct (Z.ltb_spec (end_ - zlen P) (zlen (name t) + 1 + zlen v + 1)); try lia.
    + simpl. rewrite drop_0. by rewrite app_nil_r.
    + pose proof (length_tuple_bytes (name t) v) as Hl. rewrite length_app in Hhi.
      rewrite zwrite_app_r by lia. simpl. set (d := tuple_bytes (name t) v) in *.
      replace (zlen P + (zlen (name t) + 1 + zlen v) + 1) with (zlen (P ++ d))
        by (rewrite length_app; lia).
      rewrite (app_assoc P), IH; [|done|rewrite length_app; lia|
        rewrite !length_app, length_drop; lia].
      replace (end_ - zlen P - (zlen (name t) + 1 + zlen v + 1)) with (end_ - zlen (P ++ d))
        by (rewrite length_app; lia).
      rewrite image_cons. fold d. rewrite (length_app d), drop_drop, <- !app_assoc. done.
Qed.

Lemma write_table_image tbl : forall P free end_,
  Forall (Forall has_value) tbl -> zlen P <= end_ -> end_ <= zlen (P ++ free) ->
  let ps := fit_table (end_ - zlen P) tbl in
  write_table (P ++ free) (zlen P) end_ tbl
  = Some (P ++ image ps ++ drop (length (image ps)) free, zlen (P ++ image ps)).
Proof.
  induction tbl as [|b tbl IH]; intros P free end_ Hv Hlo Hhi; simpl.
  - rewrite drop_0. by rewrite app_nil_r.
  - apply Forall_cons in Hv as [Hb Hv]. rewrite write_bucket_image by done. simpl.
    set (ps := fit_bucket (end_ - zlen P) b).
    pose proof (fit_bucket_room (end_ - zlen P) b ltac:(lia)) as Hroom. fold ps in Hroom.
    rewrite length_app in Hhi. rewrite (app_assoc P), IH;
      [|done|rewrite length_app; lia|rewrite !length_app, length_drop; lia].
    replace (end_ - zlen (P ++ image ps)) with (end_ - zlen P - zlen (image ps))
      by (rewrite length_app; lia).
    rewrite image_app, (length_app (image ps)), drop_drop, <- !app_assoc. done.
Qed.

(** With the mapping below 2 GiB the remainder is the alignment of the offset. *)
Lemma rem_low_address base ptr :
  0 <= base -> base mod 4 = 0 -> 0 <= ptr -> base + ptr < 2 ^ 31 ->
  Z.rem (s32 (base + ptr)) 4 = ptr mod 4.
Proof.
  intros Hb Hal Hp Hlt. rewrite s32_id by lia. rewrite Z.rem_mod_nonneg by lia.
  rewrite <- Z.add_mod_idemp_l, Hal by lia. done.
Qed.

Lemma terminate_low base P free :
  0 <= base -> base mod 4 = 0 -> base + zlen (P ++ free) <= 2 ^ 31 ->
  zlen (P ++ free) mod 4 = 0 -> 2 <= zlen free ->
  exists tail, terminate base (P ++ free) (zlen P) = Some (P ++ 0 :: tail, zlen P + 2) /\
    length tail = (length free - 1)%nat /\ (Forall is_byte free -> Forall is_byte tail).
Proof.
  intros Hb Hal Hhi Htot Hfree. rewrite length_app in *. unfold terminate.
  rewrite zset_app_r by lia. cbn [mbind option_bind].
  rewrite rem_low_address by lia. set (r := (zlen P + 1) mod 4).
  assert (0 <= r < 4) by (apply Z.mod_pos_bound; lia).
  destruct (Z.eqb_spec r 0) as [Hr|Hr]; cbn [mbind option_bind].
  - exists (drop 1 free). split; [do 2 f_equal; lia|]. rewrite length_drop. split; [done|].
    apply Forall_drop.
  - unfold zfill. rewrite (proj2 (Z.leb_le 0 (4 - r))) by lia.
    replace (P ++ 0 :: drop 1 free) with ((P ++ [0]) ++ drop 1 free) by by rewrite <- app_assoc.
    replace (zlen P + 1) with (zlen (P ++ [0])) by (rewrite length_app; simpl; lia).
    assert (4 - r <= zlen free - 1) as Hfit.
    { pose proof (Z.div_mod (zlen P + 1) 4). pose proof (Z.div_mod (zlen P + zlen free) 4). lia. }
    rewrite zwrite_app_r by (rewrite length_replicate, length_drop; lia). cbn [mbind option_bind].
    eexists. split; [do 2 f_equal; [rewrite <- app_assoc; done|rewrite length_app; simpl; lia]|].
    rewrite length_app, length_replicate, !length_drop. split; [lia|].
    intros Hf. apply Forall_app. split; [|by apply Forall_drop, Forall_drop].
    apply Forall_replicate. unfold is_byte. lia.
Qed.

(** ** Committing *)

(** A handle on a mapping of [part] bytes whose variables can be written out. *)
Record ready (part : Z) (h : nvram_handle) : Prop := {
  ready_wf : wf h;
  ready_map : zlen (mmap h) = part /\ length_ h = part;
  ready_part : part < 2 ^ 31 /\ part mod 4 = 0;
  ready_offset : 0 <= offset h /\ offset h mod 4 = 0 /\ offset h + 24 <= part;
  ready_vals : Forall (Forall has_value) (nvram_hash h);
  ready_names : Forall well_named (omap tuple_pair (mjoin (nvram_hash h)))
}.

(** The mapping lies in the lower or in the upper half of the address space. *)
Definition low_mapped (part : Z) (h : nvram_handle) : Prop :=
  0 <= mmap_base h /\ mmap_base h mod 4 = 0 /\ mmap_base h + part <= 2 ^ 31.

Definition high_mapped (part : Z) (h : nvram_handle) : Prop :=
  2 ^ 31 <= mmap_base h /\ mmap_base h mod 4 = 0 /\ mmap_base h + part <= 2 ^ 32.

(** What [nvram_commit] has room for. *)
Definition room (h : nvram_handle) : Z := length_ h - 2 - (offset h + NVRAM_HEADER_SIZE).
Definition written (h : nvram_handle) : list (list Z * list Z) := fit_table (room h) (nvram_hash h).

Lemma fit_bucket_sublist r b :
  Forall has_value b -> fit_bucket r b `sublist_of` omap tuple_pair b.
Proof.
  revert r. induction b as [|t b IH]; intros r Hv; simpl; [done|].
  apply Forall_cons in Hv as [[v Ht] Hv]. unfold tuple_pair at 1. rewrite Ht. simpl.
  destruct (_ <? _); [apply sublist_nil_l|]. by apply sublist_skip, IH.
Qed.

Lemma fit_table_sublist r tbl :
  Forall (Forall has_value) tbl -> fit_table r tbl `sublist_of` omap tuple_pair (mjoin tbl).
Proof.
  revert r. induction tbl as [|b tbl IH]; intros r Hv; simpl; [done|].
  apply Forall_cons in Hv as [Hb Hv]. rewrite omap_app.
  apply sublist_app; [by apply fit_bucket_sublist|by apply IH].
Qed.

Lemma written_sublist part h :
  ready part h -> written h `sublist_of` omap tuple_pair (mjoin (nvram_hash h)).
Proof. intros Hr. apply fit_table_sublist, Hr. Qed.

Lemma written_ok part h :
  ready part h -> Forall well_named (written h) /\ NoDup (written h).*1.
Proof.
  intros Hr. pose proof (written_sublist part h Hr) as Hsub. split.
  - eapply sublist_Forall; [exact Hsub|]. apply Hr.
  - eapply sublist_NoDup; [by apply sublist_fmap|]. apply NoDup_tuple_pairs, names_NoDup, Hr.
Qed.

(** The header that goes with the image. *)
Definition commit_header (h : nvram_handle) (hlen crc : Z) : nvram_header :=
  let '(cvi, cr, ncdl) := sdram_words h in Header NVRAM_MAGIC hlen (Z.lor cvi crc) cr ncdl.

Lemma sdram_words_ok h :
  exists k cr ncdl, sdram_words h = (Z.shiftl (1 + k * 256) 8, cr, ncdl) /\
    0 <= k < 2 ^ 16 /\ is_u32 cr /\ is_u32 ncdl.
Proof.
  assert (forall k, 0 <= k < 2 ^ 16 ->
    Z.lor (Z.shiftl NVRAM_VERSION 8) (Z.shiftl k 16) = Z.shiftl (1 + k * 256) 8) as Hcvi.
  { intros k Hk. rewrite Z.lor_comm, lor_shiftl_add by done.
    change (Z.shiftl NVRAM_VERSION 8) with 256. rewrite Z.shiftl_mul_pow2 by lia. lia. }
  assert (forall a b, 0 <= a < 2 ^ 16 -> 0 <= b < 2 ^ 16 -> is_u32 (Z.lor a (Z.shiftl b 16))) as Hcr.
  { intros a b Ha Hb. rewrite Z.lor_comm, lor_shiftl_add by lia. width. }
  unfold sdram_words.
  destruct (nvram_get h (Some (bs "sdram_init"))) as [init|]; [|eexists _, _, _; by rewrite Hcvi].
  destruct (nvram_get h (Some (bs "sdram_config"))) as [config|]; [|eexists _, _, _; by rewrite Hcvi].
  destruct (nvram_get h (Some (bs "sdram_refresh"))) as [refresh|]; [|eexists _, _, _; by rewrite Hcvi].
  destruct (nvram_get h (Some (bs "sdram_ncdl"))) as [ncdl|]; [|eexists _, _, _; by rewrite Hcvi].
  rewrite !land_ones_u16. eexists _, _, _. rewrite Hcvi by apply u16_range.
  split; [done|]. split; [apply u16_range|]. split; [apply Hcr; apply u16_range|apply strtoul0_range].
Qed.

Lemma roundup4 x : NVRAM_ROUNDUP x 4 mod 4 = 0 /\ x <= NVRAM_ROUNDUP x 4 <= x + 3.
Proof.
  unfold NVRAM_ROUNDUP. split; [by apply Z.mod_mul|].
  pose proof (Z.div_mod (x + (4 - 1)) 4). pose proof (Z.mod_pos_bound (x + (4 - 1)) 4). lia.
Qed.

Lemma commit_header_ok h hlen crc :
  is_u32 hlen -> is_byte crc -> header_ok (commit_header h hlen crc).
Proof.
  intros Hl Hc. unfold commit_header, header_ok.
  destruct (sdram_words_ok h) as (k & cr & ncdl & -> & Hk & Hcr & Hn). simpl.
  split; [unfold NVRAM_MAGIC; width|]. split; [done|]. split; [|done].
  rewrite lor_shiftl_add by (unfold is_byte in Hc; lia). width.
Qed.

(** The bytes the checksum covers: the header from the version byte on, and the
    data area. *)
Definition crc_span (hd : nvram_header) (data : list Z) : list Z := drop 9 (header_bytes hd) ++ data.

(** The checksum byte itself lies below the span. *)
Lemma crc_span_header h hlen crc data :
  is_byte crc -> let '(cvi, cr, ncdl) := sdram_words h in
  crc_span (commit_header h hlen crc) data = crc_span (Header 0 0 cvi cr ncdl) data.
Proof.
  intros Hc. unfold commit_header.
  destruct (sdram_words_ok h) as (k & cr & ncdl & -> & Hk & Hcr & Hn).
  unfold crc_span, header_bytes. simpl. rewrite lor_shiftl_add by (unfold is_byte in Hc; lia).
  rewrite Z.shiftl_mul_pow2 by lia. change (2 ^ 8) with 256.
  rewrite Z.div_add_l, Z.div_mul, Z.div_small, Z.add_0_r by (unfold is_byte in Hc; lia). done.
Qed.

Lemma written_room part h : ready part h -> zlen (image (written h)) <= room h.
Proof.
  intros Hr. apply fit_table_room. destruct Hr as [_ [_ ?] _ (?&?&?) _ _].
  unfold room, NVRAM_HEADER_SIZE. lia.
Qed.

Section commit.
Context (malloc_ok : Z -> bool) (part : Z) (h : nvram_handle) (Hr : ready part h).
Context (P H D : list Z) (Hm : mmap h = P ++ H ++ D) (HP : zlen P = offset h) (HH : length H = 20%nat).

#[local] Abbreviation ps := (written h).

Lemma data_length : zlen D = part - offset h - 20.
Proof.
  destruct (ready_map part h Hr) as [Hl _]. rewrite Hm, !length_app, HH in Hl. lia.
Qed.

Lemma image_bytes : Forall is_byte (image ps).
Proof.
  destruct (written_ok part h Hr) as [Hw _]. induction Hw as [|[n v] qs (Hn & _ & Hv) _ IH]; [constructor|].
  rewrite image_cons. unfold tuple_bytes. simpl in *.
  assert (forall s, is_cstr s -> Forall is_byte s) as Hcs.
  { intros s Hs. eapply Forall_impl; [exact Hs|]. unfold is_char, is_byte. lia. }
  rewrite !Forall_app, Forall_cons, Forall_app, Forall_cons. unfold is_byte at 2 4.
  repeat split; auto; lia.
Qed.

(** Clearing the data area and writing out the tuples. *)
Lemma commit_fill :
  exists free,
    (m ← zfill (mmap h) (offset h + NVRAM_HEADER_SIZE) 255 (part - offset h - NVRAM_HEADER_SIZE);
     write_table m (offset h + NVRAM_HEADER_SIZE) (offset h + part - offset h - 2) (nvram_hash h))
    = Some ((P ++ H) ++ image ps ++ free, zlen ((P ++ H) ++ image ps)) /\
    zlen free = zlen D - zlen (image ps) /\ Forall is_byte free.
Proof.
  pose proof data_length as HD. pose proof (written_room part h Hr) as Hroom.
  destruct Hr as [_ [Hmap Hlen] _ (Ho & Ho4 & Hor) Hvals _]. unfold room, NVRAM_HEADER_SIZE in *.
  set (Q := P ++ H).
  assert (zlen Q = offset h + 20) as HQ by (unfold Q; rewrite length_app, HH; lia).
  rewrite Hm, (app_assoc P). fold Q. rewrite <- HQ.
  unfold zfill. rewrite (proj2 (Z.leb_le 0 _)) by lia.
  replace (Z.to_nat (part - offset h - 20)) with (length D) by lia.
  rewrite zwrite_app_r by (rewrite length_replicate; lia). cbn [mbind option_bind].
  rewrite length_replicate, drop_all, app_nil_r.
  rewrite write_table_image; [|done|lia|rewrite length_app, length_replicate; lia].
  replace (offset h + part - offset h - 2 - zlen Q) with (room h)
    by (unfold room, NVRAM_HEADER_SIZE; lia). fold ps. rewrite drop_replicate.
  eexists. split; [reflexivity|]. rewrite length_replicate. split; [lia|].
  apply Forall_replicate. width.
Qed.

(** The image [nvram_commit] leaves behind before it parses it again. *)
Lemma commit_image :
  low_mapped part h ->
  exists tail hlen crc,
    let hd := commit_header h hlen crc in
    nvram_commit malloc_ok part h
    = _nvram_rehash malloc_ok (with_mmap h (P ++ header_bytes hd ++ image ps ++ 0 :: tail)) /\
    zlen (P ++ header_bytes hd ++ image ps ++ 0 :: tail) = part /\
    hlen = NVRAM_ROUNDUP (20 + zlen (image ps) + 2) 4 /\ 20 <= hlen <= part - offset h /\
    is_byte crc /\
    crc = hndcrc8 (crc_span hd (take (Z.to_nat (hlen - 20)) (image ps ++ 0 :: tail))) 0xff.
Proof.
  intros (Hb & Hb4 & Hbm). pose proof data_length as HD.
  destruct commit_fill as (free & Hfill & Hfree & Hfb).
  pose proof (written_room part h Hr) as Hroom.
  destruct Hr as [_ [_ Hlen] [Hp4 Hpm] (Ho & Ho4 & Hor) _ _]. unfold room, NVRAM_HEADER_SIZE in Hroom.
  unfold nvram_commit, commit_header. destruct (sdram_words h) as [[cvi cr] ncdl] eqn:Hsd.
  rewrite bind_assoc_option, Hfill. cbn [mbind option_bind]. rewrite (app_assoc (P ++ H)).
  assert (zlen ((P ++ H) ++ image ps) = offset h + 20 + zlen (image ps)) as HQ
    by (rewrite !length_app, HH; lia).
  destruct (terminate_low (mmap_base h) ((P ++ H) ++ image ps) free) as (tail & Ht & Htl & Htb);
    [done|done|rewrite length_app; lia| |lia|].
  { rewrite length_app. replace (Z.of_nat (_ + _)) with part by lia. done. }
  rewrite Ht. cbn [mbind option_bind]. rewrite HQ.
  replace (offset h + 20 + zlen (image ps) + 2 - offset h) with (20 + zlen (image ps) + 2) by lia.
  destruct (roundup4 (20 + zlen (image ps) + 2)) as [Hr4 Hrb].
  set (hlen := NVRAM_ROUNDUP (20 + zlen (image ps) + 2) 4) in *.
  assert (hlen <= part - offset h) as Hhl by (clearbody hlen; Z.div_mod_to_equations; lia).
  rewrite (u32_id hlen), (u32_id (hlen - NVRAM_HEADER_SIZE)) by (unfold NVRAM_HEADER_SIZE; width).
  unfold NVRAM_HEADER_SIZE, NVRAM_CRC_START_POSITION.
  rewrite (zslice_Some (header_bytes _)) by (rewrite ?length_header_bytes; lia).
  replace (offset h + 20) with (zlen (P ++ H)) by (rewrite length_app; lia).
  cbn [mbind option_bind]. rewrite <- (app_assoc (P ++ H)), zslice_app_r
    by (rewrite length_app; simpl; lia). cbn [mbind option_bind].
  set (data := take _ (image ps ++ 0 :: tail)).
  change (take _ (drop _ _)) with (drop 9 (header_bytes (Header 0 0 cvi cr ncdl))).
  rewrite <- hndcrc8_app. fold (crc_span (Header 0 0 cvi cr ncdl) data).
  set (crc := hndcrc8 (crc_span _ _) 255).
  assert (is_byte crc) as Hcrc.
  { apply hndcrc8_range; [width|]. apply Forall_app. split.
    - apply Forall_drop. unfold header_bytes. repeat apply Forall_app_2; apply le_bytes_ok.
    - apply Forall_take, Forall_app. split; [apply image_bytes|]. constructor; [width|auto]. }
  rewrite <- (app_assoc P H), <- HP, zwrite_app by done. cbn [mbind option_bind].
  exists tail, hlen, crc. split; [done|]. split.
  { rewrite !length_app, length_header_bytes. simpl length. lia. }
  split; [done|]. split; [lia|]. split; [done|].
  pose proof (crc_span_header h hlen crc data Hcrc) as Hspan. unfold commit_header in Hspan.
  rewrite Hsd in Hspan. transitivity (hndcrc8 (crc_span (Header 0 0 cvi cr ncdl) data) 255); [done|].
  by rewrite <- Hspan.
Qed.
End commit.

Lemma fit_bucket_full b : forall r,
  Forall has_value b -> zlen (image (omap tuple_pair b)) <= r -> fit_bucket r b = omap tuple_pair b.
Proof.
  induction b as [|t b IH]; intros r Hv Hr; simpl in *; [done|].
  apply Forall_cons in Hv as [[v Ht] Hv]. unfold tuple_pair at 1 in Hr. unfold tuple_pair at 1.
  rewrite Ht in *. simpl in *. rewrite image_cons, length_app in Hr.
  change (list_omap _ _ tuple_pair b) with (omap tuple_pair b) in *.
  rewrite (proj2 (Z.ltb_ge _ _)) by lia. f_equal. apply IH; [done|lia].
Qed.

Lemma fit_table_full tbl : forall r,
  Forall (Forall has_value) tbl -> zlen (image (omap tuple_pair (mjoin tbl))) <= r ->
  fit_table r tbl = omap tuple_pair (mjoin tbl).
Proof.
  induction tbl as [|b tbl IH]; intros r Hv Hr; simpl in *; [done|].
  apply Forall_cons in Hv as [Hb Hv]. rewrite omap_app, image_app, length_app in *.
  rewrite fit_bucket_full by (done || lia). f_equal. apply IH; [done|lia].
Qed.

(** The size of everything the table holds. *)
Definition image_size (h : nvram_handle) : Z :=
  zlen (image (omap tuple_pair (mjoin (nvram_hash h)))).

Lemma written_full part h :
  ready part h -> image_size h <= room h -> list_to_map (written h) = vars h.
Proof. intros Hr Hsz. unfold written, vars. f_equal. apply fit_table_full; [apply Hr|done]. Qed.

(** The mapping around the header, for any handle a commit can run on. *)
Lemma ready_layout part h :
  ready part h -> exists P H D, mmap h = P ++ H ++ D /\ zlen P = offset h /\ length H = 20%nat.
Proof.
  intros [_ [Hmap _] _ (Ho & _ & Hor) _ _].
  exists (take (Z.to_nat (offset h)) (mmap h)),
    (take 20 (drop (Z.to_nat (offset h)) (mmap h))), (drop 20 (drop (Z.to_nat (offset h)) (mmap h))).
  rewrite take_drop, take_drop, !length_take, length_drop. split; [done|]. lia.
Qed.

(** Everything written out fits the length check of [_nvram_realloc]. *)
Lemma written_fits part h h' :
  ready part h -> length_ h' = length_ h -> offset h' = offset h ->
  Forall (fun p => fits h' p.2) (written h) /\ 20 <= u32 (length_ h' - offset h').
Proof.
  intros Hr Hl Ho. pose proof (written_room part h Hr) as Hroom.
  destruct Hr as [_ [Hmap Hlen] [? _] (?&?&?) _ _].
  unfold fits. rewrite Hl, Ho, u32_id by (unfold is_u32; lia). split; [|lia].
  unfold room, NVRAM_HEADER_SIZE in Hroom. apply Forall_forall. intros [n v] Hin.
  apply list_elem_of_split in Hin as (l1 & l2 & Heq). rewrite Heq in Hroom.
  rewrite image_app, image_cons, !length_app in Hroom. pose proof (length_tuple_bytes n v).
  simpl. lia.
Qed.

(** What a commit leaves: the image on flash and the table parsed from it. *)
Lemma commit_spec malloc_ok part h :
  (forall z, malloc_ok z = true) -> ready part h -> low_mapped part h ->
  exists h' P tail hlen crc,
    let hd := commit_header h hlen crc in
    nvram_commit malloc_ok part h = Some (h', 0) /\ wf h' /\
    vars h' = list_to_map (written h) ∪ sdram_defaults hd /\
    mmap h' = P ++ header_bytes hd ++ image (written h) ++ 0 :: tail /\
    P = take (Z.to_nat (offset h)) (mmap h) /\
    zlen P = offset h /\ zlen (mmap h') = part /\ length_ h' = part /\ offset h' = offset h /\
    header_ok hd /\ hlen = NVRAM_ROUNDUP (20 + zlen (image (written h)) + 2) 4 /\
    20 <= hlen <= part - offset h /\ is_byte crc /\
    crc = hndcrc8 (crc_span hd (take (Z.to_nat (hlen - 20)) (image (written h) ++ 0 :: tail))) 0xff.
Proof.
  intros Hm Hr Hlow. destruct (ready_layout part h Hr) as (P & H & D & Hl & HP & HH).
  destruct (commit_image malloc_ok part h Hr P H D Hl HP HH Hlow)
    as (tail & hlen & crc & Hc & Hlen & Hhl & Hb & Hcb & Hcrc).
  pose proof (ready_part part h Hr) as [Hp31 _].
  assert (header_ok (commit_header h hlen crc)) as Hhd.
  { apply commit_header_ok; [|done]. destruct (ready_offset part h Hr). width. }
  destruct (written_ok part h Hr) as [Hok Hnd].
  set (m := P ++ header_bytes (commit_header h hlen crc) ++ image (written h) ++ 0 :: tail) in *.
  destruct (written_fits part h (with_mmap h m) Hr eq_refl eq_refl) as [Hfit Hroom].
  destruct (rehash_image malloc_ok Hm (with_mmap h m) P _ (written h) tail eq_refl HP Hhd Hok Hnd
    Hfit Hroom) as (h' & Hrh & Hwf & Hfr & Hv).
  injection Hfr as _ _ Hmm Hll Hoo. destruct (ready_map part h Hr) as [_ Hlp].
  exists h', P, tail, hlen, crc. cbn zeta. rewrite Hc, Hrh, Hmm, Hll, Hoo.
  rewrite <- HP, Hl, Nat2Z.id, take_app_length. split; [reflexivity|].
  split; [exact Hwf|]. split; [exact Hv|]. split; [reflexivity|]. split; [reflexivity|].
  split; [reflexivity|]. split; [exact Hlen|]. split; [exact Hlp|]. split; [reflexivity|].
  split; [exact Hhd|]. split; [exact Hhl|]. split; [lia|]. split; [exact Hcb|exact Hcrc].
Qed.
