(* ===== verification/NvramSpec.v ===== *)
(** Theorems about the NVRAM variable store: the table refines a finite map, a
    commit writes an image that parses back to the same map, and where it does
    not. *)

From stdpp Require Import gmap.
From S2P Require Import Prelude Libc Crc Nvram.

(** ** A concrete handle for the witnesses *)

Definition always (_ : Z) : bool := true.

Lemma always_ok z : always z = true.
Proof. done. Qed.

(** A 32 KiB partition with the magic word at its start and nothing else. *)
Definition demo_blank : nvram_handle :=
  Handle 3 0x10000 (le_bytes 4 NVRAM_MAGIC ++ replicate (Z.to_nat 32764) 0) 32768 0
    (replicate NVRAM_HASH_SIZE []) [].

Definition demo_vars : list (list Z * list Z) :=
  [(bs "lan_ipaddr", bs "192.168.1.1"); (bs "sdram_init", bs "0x0009");
   (bs "sdram_config", bs "0x0062"); (bs "sdram_refresh", bs "0x8040");
   (bs "sdram_ncdl", bs "0x00000000"); (bs "os_name", bs "linux")].

Definition demo : nvram_handle := set_all always demo_blank demo_vars.

Lemma demo_blank_wf : wf demo_blank.
Proof. split; [done|]. intros i b [-> _]%lookup_replicate. split; constructor. Qed.

Lemma demo_blank_vars : vars demo_blank = ∅.
Proof. vm_compute. reflexivity. Qed.

Lemma demo_spec :
  wf demo /\ frame demo = frame demo_blank /\ vars demo = list_to_map demo_vars ∪ vars demo_blank.
Proof.
  apply set_all_ok; [apply always_ok|apply demo_blank_wf| |].
  - assert (u32 (length_ demo_blank - offset demo_blank) = 32768) as Hu by done.
    unfold fits. rewrite Hu. repeat constructor; vm_compute; discriminate.
  - eval_decide.
Qed.

#[export] Instance has_value_dec t : Decision (has_value t).
Proof. unfold has_value. apply _. Defined.

#[export] Instance well_named_dec p : Decision (well_named p).
Proof. unfold well_named. apply _. Defined.

Lemma demo_length : zlen (mmap demo_blank) = 32768.
Proof. vm_compute. reflexivity. Qed.

Lemma demo_frame :
  mmap_base demo = 0x10000 /\ mmap demo = mmap demo_blank /\ length_ demo = 32768 /\ offset demo = 0.
Proof. destruct demo_spec as (_ & Hfr & _). exact (frame_inv _ _ Hfr). Qed.

#[global] Opaque demo_blank.

Lemma demo_ready : ready 32768 demo.
Proof.
  destruct demo_frame as (Hb & Hm & Hl & Ho). split.
  - apply demo_spec.
  - rewrite Hm, Hl. split; [exact demo_length|reflexivity].
  - split; [lia|reflexivity].
  - rewrite Ho. split; [lia|split; [reflexivity|lia]].
  - eval_decide.
  - eval_decide.
Qed.

Lemma demo_low : low_mapped 32768 demo.
Proof.
  destruct demo_frame as (Hb & _). unfold low_mapped. rewrite Hb. split; [lia|split; [reflexivity|lia]].
Qed.

(** ** The table is a finite map *)

(** [nvram_set] of a value that fits updates exactly one variable: the map of
    the handle gains the pair, [nvram_get] of the name returns the value and
    every other name reads as before; the table stays well formed. *)
Theorem nvram_set_refines malloc_ok h n v :
  wf h -> fits h v -> malloc_ok (12 + zlen n + 1) = true -> malloc_ok (zlen v + 1) = true ->
  exists h', nvram_set malloc_ok h n v = (h', 0) /\ wf h' /\ vars h' = <[n := v]> (vars h) /\
    forall m, nvram_get h' (Some m) = if decide (m = n) then Some v else nvram_get h (Some m).
Proof.
  intros Hwf Hfit Hm1 Hm2. destruct (nvram_set_ok malloc_ok h n v Hwf Hfit Hm1 Hm2) as (h' & Heq & Hwf' & Hv).
  exists h'. split; [done|]. split; [done|]. split; [done|]. intros m.
  rewrite !nvram_get_vars, Hv by done. case_decide; subst; by simplify_map_eq.
Qed.

Lemma nvram_set_refines_witness :
  exists h', nvram_set always demo (bs "os_name") (bs "openwrt") = (h', 0) /\
    nvram_get h' (Some (bs "os_name")) = Some (bs "openwrt") /\
    nvram_get h' (Some (bs "lan_ipaddr")) = nvram_get demo (Some (bs "lan_ipaddr")).
Proof.
  destruct (nvram_set_refines always demo (bs "os_name") (bs "openwrt")) as (h' & Heq & _ & _ & Hget);
    [apply demo_ready|vm_compute; discriminate|done|done|].
  exists h'. split; [exact Heq|]. rewrite !Hget. split; done.
Defined.

(** [nvram_unset] removes exactly the named variable and always returns 0. *)
Theorem nvram_unset_refines h n :
  wf h ->
  exists h', nvram_unset h (Some n) = (h', 0) /\ wf h' /\ vars h' = delete n (vars h) /\
    forall m, nvram_get h' (Some m) = if decide (m = n) then None else nvram_get h (Some m).
Proof.
  intros Hwf. destruct (nvram_unset_ok h n Hwf) as (h' & Heq & Hwf' & Hv).
  exists h'. split; [done|]. split; [done|]. split; [done|]. intros m.
  rewrite !nvram_get_vars, Hv by done. case_decide; subst; by simplify_map_eq.
Qed.

Lemma nvram_unset_refines_witness :
  exists h', nvram_unset demo (Some (bs "os_name")) = (h', 0) /\ nvram_get h' (Some (bs "os_name")) = None.
Proof.
  destruct (nvram_unset_refines demo (bs "os_name")) as (h' & Heq & _ & _ & Hget); [apply demo_ready|].
  exists h'. split; [exact Heq|]. by rewrite Hget.
Defined.

(** A value longer than the partition is refused with -ENOMEM and changes no
    variable. *)
Theorem nvram_set_rejects malloc_ok h n v :
  wf h -> u32 (length_ h - offset h) < zlen v + 1 ->
  exists h', nvram_set malloc_ok h n v = (h', -12) /\ wf h' /\ vars h' = vars h.
Proof. intros Hwf Hlen. apply nvram_set_too_long; [done|]. unfold fits. lia. Qed.

Lemma nvram_set_rejects_witness :
  exists h', nvram_set always demo (bs "x") (replicate (Z.to_nat 32768) 65) = (h', -12) /\ vars h' = vars demo.
Proof.
  destruct (nvram_set_rejects always demo (bs "x") (replicate (Z.to_nat 32768) 65)) as (h' & Heq & _ & Hv);
    [apply demo_ready|vm_compute; reflexivity|]. exists h'. split; [exact Heq|exact Hv].
Defined.

(** When [realloc] fails on a variable that exists, its old value is lost too:
    the call returns -ENOMEM, the variable no longer reads, and its tuple stays
    in the table with a null value. *)
Theorem nvram_set_oom_drops_value malloc_ok h n v w :
  wf h -> fits h v -> malloc_ok (zlen v + 1) = false ->
  nvram_get h (Some n) = Some w -> w <> v ->
  exists h', nvram_set malloc_ok h n v = (h', -12) /\ wf h' /\ vars h' = delete n (vars h) /\
    Tuple n None ∈ mjoin (nvram_hash h').
Proof.
  intros Hwf Hfit Hm Hget Hne. unfold nvram_get in Hget. simpl in Hget.
  rewrite (wf_bucket h n Hwf) in Hget. simpl in Hget. unfold nvram_set.
  destruct (find_tuple n _) as [[[pre t] post]|] eqn:Hf; simpl in Hget; [|done].
  pose proof (find_tuple_Some _ _ _ _ _ Hf) as [_ Ht].
  assert (_nvram_realloc malloc_ok h (Some t) n v = inr (Some (Tuple n None))) as ->.
  { unfold _nvram_realloc, fits in *. rewrite (proj2 (Z.ltb_ge _ _)) by lia.
    rewrite decide_False by congruence. by rewrite Hm, Ht. }
  eexists. split; [reflexivity|]. simpl default.
  destruct (vars_replace h n Hwf pre t post (Tuple n None) (nvram_dead h) Hf eq_refl) as [Hwf' Hv].
  split; [exact Hwf'|]. split; [exact Hv|]. rewrite in_table by exact Hwf'. simpl.
  rewrite list_lookup_total_insert_eq; [set_solver|]. rewrite (wf_size h Hwf). apply bucket_of_lt.
Qed.

Lemma nvram_set_oom_drops_value_witness :
  exists h', nvram_set (fun z => z <? 10) demo (bs "os_name") (bs "a longer name") = (h', -12) /\
    vars h' = delete (bs "os_name") (vars demo).
Proof.
  destruct (nvram_set_oom_drops_value (fun z => z <? 10) demo (bs "os_name") (bs "a longer name")
    (bs "linux")) as (h' & Heq & _ & Hv & _);
    [apply demo_ready|vm_compute; discriminate|reflexivity|vm_compute; reflexivity|discriminate|].
  exists h'. split; [exact Heq|exact Hv].
Defined.

(** ** Hexadecimal parameters *)

Lemma digit_val_hex d : 0 <= d < 16 -> digit_val (hex_digit d) = d.
Proof.
  intros Hd. unfold hex_digit. destruct (Z.ltb_spec d 10); unfold digit_val.
  - rewrite (proj2 (Z.leb_le 48 _)), (proj2 (Z.leb_le _ 57)) by lia. simpl. lia.
  - rewrite (proj2 (Z.leb_gt _ 57)) by lia. rewrite andb_false_r.
    rewrite (proj2 (Z.leb_le 65 _)), (proj2 (Z.leb_le _ 90)) by lia. simpl. lia.
Qed.

Lemma strtoul_digits_hex k z : forall acc rest,
  0 <= z < 16 ^ Z.of_nat k ->
  strtoul_digits 16 acc (hex_digits k z ++ rest) = strtoul_digits 16 (acc * 16 ^ Z.of_nat k + z) rest.
Proof.
  revert z. induction k as [|k IH]; intros z acc rest Hz.
  - simpl in *. f_equal. lia.
  - rewrite Nat2Z.inj_succ, Z.pow_succ_r in * by lia. cbn [hex_digits]. rewrite <- app_assoc, IH.
    + simpl. assert (0 <= z mod 16 < 16) by (apply Z.mod_pos_bound; lia).
      rewrite digit_val_hex by done. rewrite (proj2 (Z.ltb_lt _ _)) by lia. f_equal.
      pose proof (Z.div_mod z 16). lia.
    + split; [apply Z.div_pos; lia|apply Z.div_lt_upper_bound; lia].
Qed.

Lemma hex_digits_head k z : 0 <= z < 16 ^ Z.of_nat (S k) ->
  exists d s, hex_digits (S k) z = d :: s /\ digit_val d < 16.
Proof.
  revert z. induction k as [|k IH]; intros z Hz.
  - simpl. eexists _, _. split; [done|]. assert (0 <= z mod 16 < 16) by (apply Z.mod_pos_bound; lia).
    rewrite digit_val_hex; lia.
  - rewrite Nat2Z.inj_succ, Z.pow_succ_r in Hz by lia. destruct (IH (z / 16)) as (d & s & Heq & Hd).
    { split; [apply Z.div_pos; lia|apply Z.div_lt_upper_bound; lia]. }
    cbn [hex_digits] in *. rewrite Heq. eexists _, _. split; [done|done].
Qed.

(** A number printed with "0x%04X" or "0x%08X" reads back through [strtoul]: the
    SDRAM words survive the trip from the header into the variables and back. *)
Theorem strtoul_sprintf k z :
  (k < 8)%nat -> 0 <= z < 16 ^ Z.of_nat (S k) -> strtoul0 (sprintf_0x (S k) z) = z.
Proof.
  intros Hk Hz. unfold strtoul0, sprintf_0x.
  destruct (hex_digits_head k z Hz) as (d & s & Heq & Hd).
  change (skip_space ([48; 120] ++ hex_digits (S k) z)) with (48 :: 120 :: hex_digits (S k) z).
  assert (strtoul_mag (48 :: 120 :: hex_digits (S k) z) = z) as Hmag.
  { rewrite Heq. cbn -[digit_val strtoul_digits]. rewrite (proj2 (Z.ltb_lt _ _)) by done.
    rewrite <- Heq. rewrite <- (app_nil_r (hex_digits (S k) z)), strtoul_digits_hex by done.
    simpl. lia. }
  cbv iota. rewrite Hmag. rewrite (proj2 (Z.leb_gt _ _)); [done|].
  apply Z.lt_le_trans with (16 ^ Z.of_nat (S k)); [lia|].
  change (2 ^ 32) with (16 ^ 8). apply Z.pow_le_mono_r; lia.
Qed.

Lemma strtoul_sprintf_witness :
  sprintf_0x 4 0x8040 = bs "0x8040" /\ strtoul0 (sprintf_0x 4 0x8040) = 0x8040.
Proof. split; [reflexivity|]. apply (strtoul_sprintf 3); [lia|simpl; lia]. Defined.

(** ** Committing *)

Definition sdram_names : list (list Z) :=
  [bs "sdram_init"; bs "sdram_config"; bs "sdram_refresh"; bs "sdram_ncdl"].

Lemma sdram_defaults_dom hd n : is_Some (sdram_defaults hd !! n) -> n ∈ sdram_names.
Proof.
  unfold sdram_defaults, sdram_names. intros [v Hv].
  rewrite !lookup_union_Some_raw, !lookup_singleton_Some in Hv. set_solver.
Qed.

(** Defaults for names that are set add nothing. *)
Lemma union_defaults m hd : (forall n, n ∈ sdram_names -> is_Some (m !! n)) -> m ∪ sdram_defaults hd = m.
Proof.
  intros Hsd. apply map_eq. intros n. rewrite lookup_union. destruct (m !! n) as [v|] eqn:Hn; [by destruct (sdram_defaults _ !! n)|].
  destruct (sdram_defaults _ !! n) as [w|] eqn:Hd; [|done].
  destruct (Hsd n) as [v Hv]; [eapply sdram_defaults_dom; by rewrite Hd|congruence].
Qed.

(** Without loss: when everything fits and the four SDRAM variables are set, a
    commit returns 0, never leaves its buffers, and the table it parses back
    from the flash image holds exactly the variables it held before. *)
Theorem nvram_commit_roundtrip malloc_ok part h :
  (forall z, malloc_ok z = true) -> ready part h -> low_mapped part h ->
  image_size h <= room h -> (forall n, n ∈ sdram_names -> is_Some (vars h !! n)) ->
  exists h', nvram_commit malloc_ok part h = Some (h', 0) /\ wf h' /\ vars h' = vars h.
Proof.
  intros Hm Hr Hlow Hsz Hsd.
  destruct (commit_spec malloc_ok part h Hm Hr Hlow) as (h' & P & tail & hlen & crc & Heq & Hwf & Hv & _).
  exists h'. split; [exact Heq|]. split; [exact Hwf|]. rewrite Hv, (written_full part h Hr Hsz).
  by apply union_defaults.
Qed.

Lemma demo_sdram n : n ∈ sdram_names -> is_Some (vars demo !! n).
Proof.
  intros Hn. destruct demo_spec as (_ & _ & ->). rewrite demo_blank_vars.
  revert n Hn. apply Forall_forall. eval_decide.
Qed.

Lemma nvram_commit_roundtrip_witness :
  exists h', nvram_commit always 32768 demo = Some (h', 0) /\ vars h' = vars demo.
Proof.
  destruct (nvram_commit_roundtrip always 32768 demo) as (h' & Heq & _ & Hv);
    [apply always_ok|apply demo_ready|apply demo_low|vm_compute; discriminate|apply demo_sdram|].
  exists h'. split; [exact Heq|exact Hv].
Defined.

(** In general a commit keeps what found room, bucket by bucket, completes the
    SDRAM variables from the header, and still returns 0: a variable that did
    not fit is gone afterwards, and no other variable changes. *)
Theorem nvram_commit_keeps_written malloc_ok part h :
  (forall z, malloc_ok z = true) -> ready part h -> low_mapped part h ->
  exists h', nvram_commit malloc_ok part h = Some (h', 0) /\ wf h' /\
    (forall n v, (n, v) ∈ written h -> nvram_get h' (Some n) = Some v) /\
    (forall n, n ∉ (written h).*1 -> n ∉ sdram_names -> nvram_get h' (Some n) = None) /\
    zlen (image (written h)) <= room h /\
    written h `sublist_of` omap tuple_pair (mjoin (nvram_hash h)).
Proof.
  intros Hm Hr Hlow.
  destruct (commit_spec malloc_ok part h Hm Hr Hlow) as (h' & P & tail & hlen & crc & Heq & Hwf & Hv & _).
  destruct (written_ok part h Hr) as [_ Hnd].
  exists h'. split; [exact Heq|]. split; [exact Hwf|]. split; [|split; [|split]].
  - intros n v Hin. rewrite nvram_get_vars, Hv by exact Hwf.
    by apply lookup_union_Some_l, elem_of_list_to_map_1.
  - intros n Hn Hs. rewrite nvram_get_vars, Hv by exact Hwf. apply lookup_union_None. split.
    + by apply not_elem_of_list_to_map_1.
    + destruct (sdram_defaults _ !! n) eqn:Hd; [|done]. destruct Hs. eapply sdram_defaults_dom. by rewrite Hd.
  - by apply (written_room part).
  - by apply (written_sublist part).
Qed.

Lemma nvram_commit_keeps_written_witness :
  exists h', nvram_commit always 32768 demo = Some (h', 0) /\
    nvram_get h' (Some (bs "os_name")) = Some (bs "linux") /\ nvram_get h' (Some (bs "wan")) = None.
Proof.
  destruct (nvram_commit_keeps_written always 32768 demo) as (h' & Heq & _ & Hin & Hout & _);
    [apply always_ok|apply demo_ready|apply demo_low|].
  exists h'. split; [exact Heq|]. split; [apply Hin; eval_decide|apply Hout; eval_decide].
Defined.

(** ** Opening a committed partition again *)

(** How many words [nvram_open] inspects. *)
Definition magic_words (part : Z) : nat := S (Z.to_nat (u32 (part - NVRAM_MIN_SPACE) / 4)).

(** A later search finds the same word when nothing before it changed. *)
Lemma find_magic_stable m m' k : forall i off,
  find_magic m i k = Some (Some off) ->
  (forall j, i <= j -> j * 4 < off -> get_le32 m' (j * 4) = get_le32 m (j * 4)) ->
  get_le32 m' off = Some NVRAM_MAGIC -> find_magic m' i k = Some (Some off).
Proof.
  induction k as [|k IH]; intros i off; simpl; [done|]. intros Hf Hsame Hoff.
  destruct (get_le32 m (i * 4)) as [w|] eqn:Hw; [|done]. simpl in Hf.
  destruct (Z.eqb_spec w NVRAM_MAGIC) as [->|Hne].
  - injection Hf as <-. by rewrite Hoff.
  - assert (i * 4 < off) as Hlt.
    { clear -Hf. assert (forall k i off, find_magic m i k = Some (Some off) -> i * 4 <= off) as Hge.
      { clear. induction k as [|k IH]; intros i off; simpl; [done|].
        destruct (get_le32 m (i * 4)); [|done]. simpl. destruct (_ =? _); [intros [= <-]; lia|].
        intros ?%IH. lia. }
      apply Hge in Hf. lia. }
    rewrite Hsame, Hw by lia. simpl. rewrite (proj2 (Z.eqb_neq _ _)) by done.
    apply IH; [done| |done]. intros j Hj. apply Hsame. lia.
Qed.

Lemma commit_header_magic h hlen crc :
  magic (commit_header h hlen crc) = NVRAM_MAGIC /\ len (commit_header h hlen crc) = hlen.
Proof. unfold commit_header. by destruct (sdram_words h) as [[? ?] ?]. Qed.

(** The search finds the header of a committed image where it was. *)
Lemma find_magic_committed part h h' hlen crc P tail :
  ready part h -> find_magic (mmap h) 0 (magic_words part) = Some (Some (offset h)) ->
  let hd := commit_header h hlen crc in
  mmap h' = P ++ header_bytes hd ++ image (written h) ++ 0 :: tail ->
  P = take (Z.to_nat (offset h)) (mmap h) -> zlen P = offset h ->
  find_magic (mmap h') 0 (magic_words part) = Some (Some (offset h)).
Proof.
  intros Hr Hf hd Hmm HPt HP. destruct (ready_offset part h Hr) as (Ho & Ho4 & _).
  destruct (commit_header_magic h hlen crc) as [Hmag _]. fold hd in Hmag.
  apply (find_magic_stable (mmap h)); [exact Hf| |].
  - intros j Hj Hlt. unfold get_le32. f_equal.
    rewrite Hmm, <- (take_drop (Z.to_nat (offset h)) (mmap h)), <- HPt. apply zslice_prefix.
    rewrite HP. Z.div_mod_to_equations. lia.
  - rewrite Hmm, <- HP, <- (Z.add_0_r (zlen P)), get_le32_mid by (rewrite ?length_header_bytes; lia).
    change (get_le32 (header_bytes hd) 0) with (Some (le_val (le_bytes 4 (magic hd)))).
    by rewrite Hmag.
Qed.

(** The header [nvram_open] finds on a committed image. *)
Lemma open_committed malloc_ok part h h' hlen crc P tail fd base rdonly :
  (forall z, malloc_ok z = true) -> ready part h ->
  find_magic (mmap h) 0 (magic_words part) = Some (Some (offset h)) ->
  let hd := commit_header h hlen crc in
  mmap h' = P ++ header_bytes hd ++ image (written h) ++ 0 :: tail ->
  P = take (Z.to_nat (offset h)) (mmap h) -> zlen P = offset h -> header_ok hd ->
  exists g, length_ g = part /\ offset g = offset h /\ mmap g = mmap h' /\
    nvram_open malloc_ok part (Some (fd, base, mmap h')) rdonly
    = if rdonly || (hlen <? u32 (part - offset h))
      then '(g, _) ← _nvram_rehash malloc_ok g; Some (Some g) else Some None.
Proof.
  intros Hm Hr Hf hd Hmm HPt HP Hhd. destruct (ready_offset part h Hr) as (Ho & Ho4 & _).
  destruct (commit_header_magic h hlen crc) as [Hmag Hhl]. fold hd in Hmag, Hhl.
  pose proof (find_magic_committed part h h' hlen crc P tail Hr Hf Hmm HPt HP) as Hfind.
  set (g := Handle fd base (mmap h') part (offset h) (replicate NVRAM_HASH_SIZE []) []).
  exists g. split; [reflexivity|]. split; [reflexivity|]. split; [reflexivity|].
  unfold nvram_open. fold (magic_words part). rewrite Hfind. cbn [mbind option_bind]. rewrite Hm.
  fold g. rewrite (nvram_header_of_image g P hd (image (written h) ++ 0 :: tail));
    [|exact Hmm|exact HP|exact Hhd].
  cbn [mbind option_bind]. rewrite Hmag, Hhl, Z.eqb_refl. reflexivity.
Qed.

(** C3: What a commit wrote is there when the partition is opened for writing again, provided it leaves at least four spare
    bytes: every variable that found room has its value, no other variable is there but the SDRAM ones, which are completed from the
    header, and the handle of the commit shows the same (there is memory, and the mapping lies below 2 GiB).  When all variables found room none is lost or changed. *)
Theorem nvram_commit_reopen malloc_ok part h fd base :
  (forall z, malloc_ok z = true) -> ready part h -> low_mapped part h ->
  find_magic (mmap h) 0 (magic_words part) = Some (Some (offset h)) ->
  zlen (image (written h)) + 4 <= room h ->
  exists h' g, nvram_commit malloc_ok part h = Some (h', 0) /\
    nvram_open malloc_ok part (Some (fd, base, mmap h')) false = Some (Some g) /\
    wf g /\ vars g = vars h' /\
    (forall n v, (n, v) ∈ written h -> nvram_get g (Some n) = Some v) /\
    (forall n, n ∉ (written h).*1 -> n ∉ sdram_names -> nvram_get g (Some n) = None) /\
    (image_size h <= room h ->
       (forall n v, nvram_get h (Some n) = Some v -> nvram_get g (Some n) = Some v) /\
       (forall n, n ∉ sdram_names -> nvram_get g (Some n) = nvram_get h (Some n))).
Proof.
  intros Hm Hr Hlow Hf Hspare.
  destruct (commit_spec malloc_ok part h Hm Hr Hlow) as
    (h' & P & tail & hlen & crc & Heq & Hwf & Hv & Hmm & HPt & HP & Hpl & Hl & Ho & Hhd & Hhl & Hb & _).
  destruct (open_committed malloc_ok part h h' hlen crc P tail fd base false Hm Hr Hf Hmm HPt HP Hhd)
    as (g & Hgl & Hgo & Hgm & Hopen).
  destruct (ready_part part h Hr) as [Hp31 _]. destruct (ready_map part h Hr) as [_ Hlen].
  destruct (ready_offset part h Hr) as (Ho0 & _).
  destruct (written_fits part h g Hr) as [Hfit Hroom]; [congruence|congruence|].
  destruct (written_ok part h Hr) as [Hok Hnd].
  destruct (rehash_image malloc_ok Hm g P (commit_header h hlen crc) (written h) tail) as
    (g' & Hrh & Hwf' & _ & Hv'); [congruence|congruence|exact Hhd|exact Hok|exact Hnd|exact Hfit|exact Hroom|].
  exists h', g'. split; [exact Heq|]. split; [|split; [exact Hwf'|split; [congruence|]]].
  - rewrite Hopen, Hrh. unfold room, NVRAM_HEADER_SIZE in Hspare.
    destruct (roundup4 (20 + zlen (image (written h)) + 2)) as [_ Hru].
    rewrite u32_id by width. rewrite (proj2 (Z.ltb_lt hlen _)) by lia. reflexivity.
  - assert (forall n, n ∉ sdram_names -> nvram_get g' (Some n) = (list_to_map (written h) : gmap _ _) !! n) as Hout.
    { intros n Hn. rewrite nvram_get_vars, Hv', lookup_union by exact Hwf'.
      destruct (sdram_defaults _ !! n) eqn:Hd; [destruct Hn; eapply sdram_defaults_dom; by rewrite Hd|by destruct (list_to_map _ !! n)]. }
    assert (forall n v, (list_to_map (written h) : gmap _ _) !! n = Some v -> nvram_get g' (Some n) = Some v) as Hin
      by (intros n v Hnv; rewrite nvram_get_vars, Hv' by exact Hwf'; by apply lookup_union_Some_l).
    split; [intros n v Hnv; by apply Hin, elem_of_list_to_map_1|]. split; [intros n Hn Hs; rewrite Hout by done; by apply not_elem_of_list_to_map_1|].
    intros Hsz. rewrite (written_full part h Hr Hsz) in Hin, Hout. pose proof (ready_wf part h Hr) as Hwfh.
    split; [intros n v; rewrite (nvram_get_vars h n Hwfh); apply Hin|intros n Hn; rewrite (nvram_get_vars h n Hwfh); by apply Hout].
Qed.

Lemma nvram_commit_reopen_witness :
  exists h' g, nvram_commit always 32768 demo = Some (h', 0) /\
    nvram_open always 32768 (Some (4, 0x20000, mmap h')) false = Some (Some g) /\
    nvram_get g (Some (bs "os_name")) = Some (bs "linux") /\ nvram_get g (Some (bs "wan")) = None.
Proof.
  destruct (nvram_commit_reopen always 32768 demo 4 0x20000) as (h' & g & Heq & Ho & _ & _ & Hin & Hout & _);
    [apply always_ok|apply demo_ready|apply demo_low|vm_compute; reflexivity|vm_compute; discriminate|].
  exists h', g. split; [exact Heq|]. split; [exact Ho|]. split; [apply Hin; eval_decide|apply Hout; eval_decide].
Defined.

(** A commit that fills the partition up to the last three bytes returns 0 but
    locks itself out: the length it stores equals the room behind the header,
    and [nvram_open] for writing refuses that length. *)
Theorem nvram_commit_full_not_reopened malloc_ok part h fd base :
  (forall z, malloc_ok z = true) -> ready part h -> low_mapped part h ->
  find_magic (mmap h) 0 (magic_words part) = Some (Some (offset h)) ->
  room h - zlen (image (written h)) < 4 ->
  exists h', nvram_commit malloc_ok part h = Some (h', 0) /\
    nvram_open malloc_ok part (Some (fd, base, mmap h')) false = Some None.
Proof.
  intros Hm Hr Hlow Hf Hfull.
  destruct (commit_spec malloc_ok part h Hm Hr Hlow) as
    (h' & P & tail & hlen & crc & Heq & Hwf & Hv & Hmm & HPt & HP & Hpl & Hl & Ho & Hhd & Hhl & Hb & _).
  destruct (open_committed malloc_ok part h h' hlen crc P tail fd base false Hm Hr Hf Hmm HPt HP Hhd)
    as (g & _ & _ & _ & Hopen).
  destruct (ready_part part h Hr) as [Hp31 Hp4]. destruct (ready_map part h Hr) as [_ Hlen].
  destruct (ready_offset part h Hr) as (Ho0 & Ho4 & _).
  exists h'. split; [exact Heq|]. rewrite Hopen. unfold room, NVRAM_HEADER_SIZE in Hfull.
  destruct (roundup4 (20 + zlen (image (written h)) + 2)) as [Hr4 Hru]. rewrite <- Hhl in *.
  rewrite u32_id by width.
  rewrite (proj2 (Z.ltb_ge hlen _)); [reflexivity|]. clear -Hfull Hlen Hru Hr4 Hp4 Ho4.
  Z.div_mod_to_equations. lia.
Qed.

(** The demonstration handle filled up. *)
Definition demo_big : list (list Z * list Z) := [(bs "big", replicate (Z.to_nat 32622) 65)].
Definition demo_full : nvram_handle := set_all always demo demo_big.

Lemma demo_full_spec :
  wf demo_full /\ frame demo_full = frame demo /\ vars demo_full = list_to_map demo_big ∪ vars demo.
Proof.
  apply set_all_ok; [apply always_ok|apply demo_ready| |eval_decide].
  constructor; [|constructor]. unfold fits. destruct demo_frame as (_ & _ & -> & ->).
  vm_compute. discriminate.
Qed.

Lemma demo_full_frame :
  mmap_base demo_full = 0x10000 /\ mmap demo_full = mmap demo_blank /\
  length_ demo_full = 32768 /\ offset demo_full = 0.
Proof.
  destruct demo_full_spec as (_ & Hfr & _). destruct (frame_inv _ _ Hfr) as (-> & -> & -> & ->).
  exact demo_frame.
Qed.

(** The table of [demo_full] at an arbitrary address. *)
Definition demo_full_at (base : Z) : nvram_handle :=
  Handle 3 base (mmap demo_blank) 32768 0 (nvram_hash demo_full) [].

Lemma demo_full_at_ready base : ready 32768 (demo_full_at base).
Proof.
  split.
  - destruct demo_full_spec as ([Hs Hb] & _). by split.
  - split; [exact demo_length|reflexivity].
  - split; [lia|reflexivity].
  - simpl. split; [lia|split; [reflexivity|lia]].
  - eval_decide.
  - eval_decide.
Qed.

Lemma nvram_commit_full_not_reopened_witness :
  exists h', nvram_commit always 32768 (demo_full_at 0x10000) = Some (h', 0) /\
    nvram_open always 32768 (Some (4, 0x20000, mmap h')) false = Some None.
Proof.
  apply (nvram_commit_full_not_reopened always 32768 (demo_full_at 0x10000) 4 0x20000);
    [apply always_ok|apply demo_full_at_ready|split; [simpl; lia|split; [reflexivity|simpl; lia]]|
     vm_compute; reflexivity|vm_compute; reflexivity].
Defined.

(** ** High addresses *)

(** Above 2 GiB [(int)ptr % 4] is negative, and the padding is four bytes too long. *)
Lemma rem_high_address base ptr :
  2 ^ 31 <= base -> base mod 4 = 0 -> 0 <= ptr -> base + ptr < 2 ^ 32 -> ptr mod 4 <> 0 ->
  Z.rem (s32 (base + ptr)) 4 = ptr mod 4 - 4.
Proof.
  intros Hb Hal Hp Hlt Hne. unfold s32.
  replace ((base + ptr + 2 ^ 31) mod 2 ^ 32) with (base + ptr - 2 ^ 31)
    by (apply (Z.mod_unique _ _ 1); lia).
  replace (base + ptr - 2 ^ 31 - 2 ^ 31) with (- (2 ^ 32 - base - ptr)) by lia.
  rewrite Z.rem_opp_l, Z.rem_mod_nonneg by lia. Z.div_mod_to_equations. lia.
Qed.

(** On a mapping in the upper half of the address space, as 32-bit kernels place
    them, a commit of a nearly full partition writes its padding past the end of
    the mapping. *)
Theorem nvram_commit_high_address_overrun malloc_ok part h :
  ready part h -> high_mapped part h -> room h - zlen (image (written h)) < 3 ->
  nvram_commit malloc_ok part h = None.
Proof.
  intros Hr (Hb & Hb4 & Hbm) Hfull.
  destruct (ready_layout part h Hr) as (P & H & D & Hl & HP & HH).
  destruct (commit_fill part h Hr P H D Hl HP HH) as (free & Hfill & Hfree & _).
  pose proof (data_length part h Hr P H D Hl HP HH) as HD.
  pose proof (written_room part h Hr) as Hroom.
  destruct (ready_part part h Hr) as [_ Hp4]. destruct (ready_map part h Hr) as [_ Hlen].
  destruct (ready_offset part h Hr) as (Ho0 & Ho4 & _).
  unfold nvram_commit. destruct (sdram_words h) as [[cvi cr] ncdl].
  rewrite bind_assoc_option, Hfill. cbn [mbind option_bind]. rewrite (app_assoc (P ++ H)).
  assert (zlen ((P ++ H) ++ image (written h)) = offset h + 20 + zlen (image (written h))) as HQ
    by (rewrite !length_app, HH; lia).
  set (Q := (P ++ H) ++ image (written h)) in *. unfold room, NVRAM_HEADER_SIZE in *.
  unfold terminate. rewrite zset_app_r by lia. cbn [mbind option_bind].
  assert ((zlen Q + 1) mod 4 = 3 - (part - zlen Q - 2)) as Hmod.
  { symmetry. apply (Z.mod_unique _ _ (part / 4 - 1)); [lia|].
    pose proof (Z.div_mod part 4). lia. }
  rewrite rem_high_address by lia. rewrite Hmod.
  rewrite (proj2 (Z.eqb_neq _ _)) by lia. unfold zfill. rewrite (proj2 (Z.leb_le 0 _)) by lia.
  unfold zwrite. rewrite (proj2 (Z.leb_gt _ (zlen (Q ++ _)))); [by rewrite andb_false_r|].
  rewrite length_replicate, length_app. simpl length. rewrite length_drop. lia.
Qed.

Lemma nvram_commit_high_address_overrun_witness :
  nvram_commit always 32768 (demo_full_at 0xb6f00000) = None.
Proof.
  apply nvram_commit_high_address_overrun;
    [apply demo_full_at_ready|split; [simpl; lia|split; [reflexivity|simpl; lia]]|
     vm_compute; reflexivity].
Defined.
