(* ===== verification/NvramCli.v ===== *)
(** The nvram command line tool (package/utils/nvram/src/cli.c).

    The command loop is written against [VarStore], the interface of the variable store, which
    the handle of [Nvram] implements.  What a session has to do is said without it: the
    arguments are read as commands, and each command changes a finite map and gives its answer. *)

From stdpp Require Import gmap.
From S2P Require Import Prelude Libc Crc Nvram NvramSpec.

(** ** The interface *)

Abbreviation varmap := (gmap (list Z) (list Z)).

Class VarStore (S : Type) := {
  vs_get : S -> option (list Z) -> option (list Z);
  vs_set : S -> list Z -> list Z -> S * Z;
  vs_unset : S -> option (list Z) -> S * Z;
  vs_all : S -> list (list Z * list Z);
  (** the view of a store, its invariant, and the longest value it takes, with its NUL *)
  vs_inv : S -> Prop;
  vs_map : S -> varmap;
  vs_limit : S -> Z;
  vs_get_map s n : vs_inv s -> vs_get s (Some n) = vs_map s !! n;
  vs_set_map s n v : vs_inv s -> zlen v + 1 <= vs_limit s ->
    exists s', vs_set s n v = (s', 0) /\ vs_inv s' /\ vs_map s' = <[n := v]> (vs_map s) /\ vs_limit s' = vs_limit s;
  vs_set_long s n v : vs_inv s -> vs_limit s < zlen v + 1 ->
    exists s', vs_set s n v = (s', -12) /\ vs_inv s' /\ vs_map s' = vs_map s /\ vs_limit s' = vs_limit s;
  vs_unset_map s n : vs_inv s ->
    exists s', vs_unset s (Some n) = (s', 0) /\ vs_inv s' /\ vs_map s' = delete n (vs_map s) /\ vs_limit s' = vs_limit s;
  vs_all_map s : vs_inv s -> vs_all s ≡ₚ map_to_list (vs_map s)
}.

(** The implementation, with an allocator that does not fail. *)
Lemma nvram_getall_pairs malloc_ok h :
  malloc_ok 12 = true -> nvram_getall malloc_ok h = rev (mjoin (nvram_hash h)).
Proof.
  intros Hm. unfold nvram_getall. rewrite Hm.
  assert (forall (b l : list nvram_tuple), fold_left (fun l t => t :: l) b l = rev b ++ l) as Hin.
  { clear. induction b as [|t b IH]; intros l; simpl; [done|]. by rewrite IH, <- app_assoc. }
  assert (forall (tbl : list (list nvram_tuple)) (l : list nvram_tuple), fold_left (fun l b => fold_left (fun l t => t :: l) b l) tbl l
    = rev (mjoin tbl) ++ l) as Hout.
  { clear -Hin. induction tbl as [|b tbl IH]; intros l; simpl; [done|].
    by rewrite IH, Hin, rev_app_distr, app_assoc. }
  by rewrite Hout, app_nil_r.
Qed.

Lemma nvram_getall_map malloc_ok h :
  malloc_ok 12 = true -> wf h ->
  omap tuple_pair (nvram_getall malloc_ok h) ≡ₚ map_to_list (vars h).
Proof.
  intros Hm Hwf. rewrite nvram_getall_pairs by done. unfold vars.
  rewrite map_to_list_to_map by (by apply NoDup_tuple_pairs, names_NoDup).
  apply omap_Permutation. symmetry. apply Permutation_rev.
Qed.

(** The longest value a handle takes. *)
Definition value_limit (h : nvram_handle) : Z := u32 (length_ h - offset h).

Lemma frame_limit h h' : frame h' = frame h -> value_limit h' = value_limit h.
Proof. unfold frame, value_limit. by intros [= _ _ _ -> ->]. Qed.

#[export, refine] Instance nvram_store : VarStore nvram_handle := {
  vs_get := nvram_get;
  vs_set := nvram_set (fun _ => true);
  vs_unset := nvram_unset;
  vs_all h := omap tuple_pair (nvram_getall (fun _ => true) h);
  vs_inv := wf;
  vs_map := vars;
  vs_limit := value_limit
}.
Proof.
  - intros h n. apply nvram_get_vars.
  - intros h n v Hwf Hfit. destruct (nvram_set_ok (fun _ => true) h n v Hwf Hfit eq_refl eq_refl)
      as (h' & Heq & Hwf' & Hv).
    pose proof (nvram_set_frame (fun _ => true) h n v) as Hfr. rewrite Heq in Hfr.
    exists h'. split; [done|]. split; [done|]. split; [done|]. by apply frame_limit.
  - intros h n v Hwf Hlong. destruct (nvram_set_too_long (fun _ => true) h n v Hwf) as (h' & Heq & Hwf' & Hv);
      [unfold fits, value_limit in *; lia|].
    pose proof (nvram_set_frame (fun _ => true) h n v) as Hfr. rewrite Heq in Hfr.
    exists h'. split; [done|]. split; [done|]. split; [done|]. by apply frame_limit.
  - intros h n Hwf. destruct (nvram_unset_ok h n Hwf) as (h' & Heq & Hwf' & Hv).
    exists h'. split; [done|]. split; [done|]. split; [done|].
    apply frame_limit. unfold nvram_unset in Heq.
    destruct (find_tuple n _) as [[[? ?] ?]|]; by injection Heq as <-.
  - intros h Hwf. by apply nvram_getall_map.
Defined.

(** ** Commands *)

(** What the tool prints. *)
Record info := Info {
  i_magic : Z; i_len : Z; i_offset : Z; i_crc : Z; i_calculated : Z;
  i_version : Z; i_init : Z; i_config : Z; i_refresh : Z; i_ncdl : Z; i_available : Z
}.

Inductive line :=
  | LPair (n v : list Z)   (* "%s=%s" *)
  | LVal (v : list Z)      (* "%s" *)
  | LInfo (i : info).

Section cli.
Context {S : Type} `{VarStore S}.

Definition do_show (s : S) : list line * Z :=
  match vs_all s with
  | [] => ([], 1)
  | l => (map (fun p => LPair p.1 p.2) l, 0)
  end.

Definition do_get (s : S) (var : list Z) : list line * Z :=
  match vs_get s (Some var) with
  | Some val => ([LVal val], 0)
  | None => ([], 1)
  end.

Definition do_unset (s : S) (var : list Z) : S * Z := vs_unset s (Some var).

(** The buffer [var] holds the part before the first "=". *)
Definition do_set (s : S) (pair : list Z) : S * Z :=
  match split_at 61 pair with
  | Some (var, val) => vs_set s var val
  | None => (s, 1)
  end.

(** The state of the loop over the arguments. *)
Record cli := Cli { store : S; stat : Z; done_ : Z; commit : bool; out : list line }.

Context (do_info : S -> list line * Z).

Fixpoint main_loop (args : list (list Z)) (c : cli) : cli :=
  match args with
  | [] => c
  | a :: rest =>
      if decide (a = bs "show") then
        let '(o, st) := do_show (store c) in
        main_loop rest (Cli (store c) st (done_ c + 1) (commit c) (out c ++ o))
      else if decide (a = bs "info") then
        let '(o, st) := do_info (store c) in
        main_loop rest (Cli (store c) st (done_ c + 1) (commit c) (out c ++ o))
      else if decide (a = bs "get" \/ a = bs "unset" \/ a = bs "set") then
        match rest with
        | [] => Cli (store c) (stat c) 0 (commit c) (out c)
        | arg :: rest =>
            match a with
            | 103 :: _ =>
                let '(o, st) := do_get (store c) arg in
                main_loop rest (Cli (store c) st (done_ c + 1) (commit c) (out c ++ o))
            | 117 :: _ =>
                let '(s, st) := do_unset (store c) arg in
                main_loop rest (Cli s st (done_ c + 1) (commit c) (out c))
            | 115 :: _ =>
                let '(s, st) := do_set (store c) arg in
                main_loop rest (Cli s st (done_ c + 1) (commit c) (out c))
            | _ => main_loop rest (Cli (store c) (stat c) (done_ c + 1) (commit c) (out c))
            end
        end
      else if decide (a = bs "commit") then
        main_loop rest (Cli (store c) (stat c) (done_ c + 1) true (out c))
      else Cli (store c) (stat c) 0 (commit c) (out c)
  end.

(** The scan for commands that write.  [++i < argc] moves on before the next
    comparison, which then reads [argv[argc]], a null pointer: [None]. *)
Fixpoint wants_write (args : list (list Z)) : option bool :=
  match args with
  | [] => Some false
  | a :: rest =>
      if decide (a = bs "set") then
        match rest with [] => None | _ => Some true end
      else if decide (a = bs "unset") then
        match rest with [] => None | _ => Some true end
      else if decide (a = bs "commit") then Some true
      else wants_write rest
  end.

End cli.

Arguments cli : clear implicits.
Arguments Cli {S}.

(** [do_info] of a handle: the CRC is computed over the header from the version
    byte and the data behind it. *)
Definition do_info (h : nvram_handle) : option info :=
  hdr ← nvram_header_of h;
  span ← zslice (mmap h) (offset h + NVRAM_CRC_START_POSITION)
           (u32 (len hdr - NVRAM_CRC_START_POSITION));
  Some (Info (magic hdr) (len hdr) (offset h)
    (Z.land (crc_ver_init hdr) 0xff) (hndcrc8 span 0xff)
    (Z.land (Z.shiftr (crc_ver_init hdr) 8) 0xff)
    (Z.land (Z.shiftr (crc_ver_init hdr) 16) 0xffff)
    (Z.land (config_refresh hdr) 0xffff)
    (Z.land (Z.shiftr (config_refresh hdr) 16) 0xffff)
    (config_ncdl hdr) (u32 (length_ h - offset h - len hdr))).

(** ** What a session has to do *)

(** The commands of the usage text; [CSet] has the operand as it is given. *)
Inductive request :=
  | CShow | CInfo | CGet (n : list Z) | CSet (arg : list Z) | CUnset (n : list Z) | CCommit.

#[export] Instance request_eq_dec : EqDecision request.
Proof. solve_decision. Defined.

(** The commands on a command line, up to a word that is none or lacks its operand. *)
Fixpoint parse (args : list (list Z)) : list request * bool :=
  match args with
  | [] => ([], false)
  | a :: rest =>
      if decide (a = bs "show") then prod_map (cons CShow) id (parse rest)
      else if decide (a = bs "info") then prod_map (cons CInfo) id (parse rest)
      else if decide (a = bs "commit") then prod_map (cons CCommit) id (parse rest)
      else match rest with
      | [] => ([], true)
      | x :: rest =>
          if decide (a = bs "get") then prod_map (cons (CGet x)) id (parse rest)
          else if decide (a = bs "set") then prod_map (cons (CSet x)) id (parse rest)
          else if decide (a = bs "unset") then prod_map (cons (CUnset x)) id (parse rest)
          else ([], true)
      end
  end.

(** What a command does to the variables: a value longer than [limit] is not stored. *)
Definition effect (limit : Z) (c : request) (m : varmap) : varmap :=
  match c with
  | CSet arg => match split_at 61 arg with Some (n, v) => if decide (zlen v + 1 <= limit) then <[n := v]> m else m | None => m end
  | CUnset n => delete n m
  | _ => m
  end.

(** The lines a command prints and the status behind it, when it was [st].  "show" prints the
    variables in an order of its own; what "info" prints of the header is left open. *)
Inductive answers (limit : Z) (m : varmap) (st : Z) : request -> list line -> Z -> Prop :=
  | answers_show p ps : p :: ps ≡ₚ map_to_list m -> answers limit m st CShow (map (fun p => LPair p.1 p.2) (p :: ps)) 0
  | answers_empty : m = ∅ -> answers limit m st CShow [] 1
  | answers_info o : answers limit m st CInfo o 0
  | answers_found n v : m !! n = Some v -> answers limit m st (CGet n) [LVal v] 0
  | answers_unknown n : m !! n = None -> answers limit m st (CGet n) [] 1
  | answers_set arg n v : split_at 61 arg = Some (n, v) -> zlen v + 1 <= limit -> answers limit m st (CSet arg) [] 0
  | answers_long arg n v : split_at 61 arg = Some (n, v) -> limit < zlen v + 1 -> answers limit m st (CSet arg) [] (-12)
  | answers_no_value arg : split_at 61 arg = None -> answers limit m st (CSet arg) [] 1
  | answers_unset n : answers limit m st (CUnset n) [] 0
  | answers_commit : answers limit m st CCommit [] st.

(** A session: output and last status. *)
Inductive session (limit : Z) : list request -> varmap -> Z -> list line -> Z -> Prop :=
  | session_nil m st : session limit [] m st [] st
  | session_cons c cs m st o st1 os st2 : answers limit m st c o st1 -> session limit cs (effect limit c m) st1 os st2 ->
      session limit (c :: cs) m st (o ++ os) st2.

(** The variables behind it. *)
Definition effects (limit : Z) (cs : list request) (m : varmap) : varmap := fold_left (fun m c => effect limit c m) cs m.

(** Without "show" and "info" the answers are a function of the map. *)
Definition reply (limit : Z) (m : varmap) (st : Z) (c : request) : list line * Z :=
  match c with
  | CGet n => match m !! n with Some v => ([LVal v], 0) | None => ([], 1) end
  | CSet arg => match split_at 61 arg with Some (_, v) => ([], if decide (zlen v + 1 <= limit) then 0 else -12) | None => ([], 1) end
  | CUnset _ => ([], 0)
  | _ => ([], st)
  end.

Fixpoint replies (limit : Z) (cs : list request) (m : varmap) (st : Z) : list line * Z :=
  match cs with
  | [] => ([], st)
  | c :: cs =>
      let '(o, st) := reply limit m st c in
      let '(os, st) := replies limit cs (effect limit c m) st in (o ++ os, st)
  end.

(** ** Theorems *)

Lemma session_replies limit cs m st o st' : Forall (fun c => c <> CShow /\ c <> CInfo) cs ->
  session limit cs m st o st' -> (o, st') = replies limit cs m st.
Proof.
  intros Hc Hs. revert Hc. induction Hs as [|c cs m st o st1 os st2 Ha _ IH]; intros Hc; [done|].
  apply Forall_cons in Hc as [[H1 H2] Hc]. cbn [replies]. assert ((o, st1) = reply limit m st c) as <-; [|by rewrite <- (IH Hc)].
  destruct Ha as [| | |n v E|n E|arg n v E Hl|arg n v E Hl|arg E| |]; try done; cbn [reply]; rewrite E; try done;
    [by rewrite decide_True|by rewrite decide_False by lia].
Qed.

Section sessions.
Context {S : Type} `{VarStore S} (info : S -> list line).
#[local] Abbreviation loop := (main_loop (fun s => (info s, 0))).

(** The loop over the arguments from [c] on does what the commands [cs] are to do. *)
Definition does (cs : list request) (bad : bool) (c c' : cli S) : Prop :=
  let limit := vs_limit (store c) in
  vs_inv (store c') /\ vs_limit (store c') = limit /\ vs_map (store c') = effects limit cs (vs_map (store c)) /\
  done_ c' = (if bad then 0 else done_ c + zlen cs) /\ commit c' = commit c || bool_decide (CCommit ∈ cs) /\
  exists os, out c' = out c ++ os /\ session limit cs (vs_map (store c)) (stat c) os (stat c').

(** One command in front. *)
Lemma does_cons a c cs bad s st o c' :
  answers (vs_limit (store c)) (vs_map (store c)) (stat c) a o st ->
  vs_map s = effect (vs_limit (store c)) a (vs_map (store c)) -> vs_limit s = vs_limit (store c) ->
  does cs bad (Cli s st (done_ c + 1) (commit c || bool_decide (a = CCommit)) (out c ++ o)) c' -> does (a :: cs) bad c c'.
Proof.
  intros Ha Hm Hl (Hi & Hl' & Hm' & Hd & Hc & os & Ho & Hs). cbn [store stat done_ commit out] in *. rewrite Hm, Hl in *.
  split; [done|]. split; [done|]. split; [done|]. split; [rewrite Hd; cbn [length]; destruct bad; lia|]. split.
  - rewrite Hc, <- orb_assoc. f_equal. destruct (decide (a = CCommit)) as [->|Hne].
    + by rewrite !bool_decide_eq_true_2 by (done || apply elem_of_cons; by left).
    + rewrite (bool_decide_eq_false_2 (a = CCommit)) by done. apply bool_decide_ext. rewrite elem_of_cons. naive_solver.
  - exists (o ++ os). rewrite Ho, <- app_assoc. split; [done|]. by econstructor.
Qed.

(** The loop behind it, when it does what it is to do. *)
Definition loop_ok (args : list (list Z)) : Prop := forall c, vs_inv (store c) -> does (parse args).1 (parse args).2 c (loop args c).

Lemma then_does a rest c s st o com out' : loop_ok rest ->
  answers (vs_limit (store c)) (vs_map (store c)) (stat c) a o st -> vs_inv s ->
  vs_map s = effect (vs_limit (store c)) a (vs_map (store c)) -> vs_limit s = vs_limit (store c) ->
  com = commit c || bool_decide (a = CCommit) -> out' = out c ++ o ->
  does (prod_map (cons a) id (parse rest)).1 (prod_map (cons a) id (parse rest)).2 c (loop rest (Cli s st (done_ c + 1) com out')).
Proof. intros Hl Ha Hi Hm Hlim -> ->. cbn [prod_map fst snd id]. eapply does_cons; [exact Ha|exact Hm|exact Hlim|]. by apply Hl. Qed.

(** [then_does] at a command [a], with the rest of the arguments behind it. *)
Ltac then_command a := eapply (then_does a); [assumption| | try done.. ]; rewrite ?app_nil_r, ?orb_false_r, ?orb_true_r; try done.

Lemma show_does rest c : loop_ok rest -> vs_inv (store c) ->
  does (prod_map (cons CShow) id (parse rest)).1 (prod_map (cons CShow) id (parse rest)).2 c
    (let '(o, st) := do_show (store c) in loop rest (Cli (store c) st (done_ c + 1) (commit c) (out c ++ o))).
Proof.
  intros Hl Hinv. unfold do_show. pose proof (vs_all_map (store c) Hinv) as Hall. destruct (vs_all (store c)) as [|q qs].
  - then_command CShow. apply answers_empty. by apply map_to_list_empty_iff, Permutation_nil.
  - then_command CShow. by apply answers_show.
Qed.

Lemma get_does n rest c : loop_ok rest -> vs_inv (store c) ->
  does (prod_map (cons (CGet n)) id (parse rest)).1 (prod_map (cons (CGet n)) id (parse rest)).2 c
    (let '(o, st) := do_get (store c) n in loop rest (Cli (store c) st (done_ c + 1) (commit c) (out c ++ o))).
Proof.
  intros Hl Hinv. unfold do_get. rewrite vs_get_map by done.
  destruct (vs_map (store c) !! n) as [v|] eqn:Hx; then_command (CGet n); by constructor.
Qed.

Lemma unset_does n rest c : loop_ok rest -> vs_inv (store c) ->
  does (prod_map (cons (CUnset n)) id (parse rest)).1 (prod_map (cons (CUnset n)) id (parse rest)).2 c
    (let '(s, st) := do_unset (store c) n in loop rest (Cli s st (done_ c + 1) (commit c) (out c))).
Proof.
  intros Hl Hinv. unfold do_unset. destruct (vs_unset_map (store c) n Hinv) as (s' & -> & Hi' & Hm' & Hl').
  then_command (CUnset n). constructor.
Qed.

Lemma set_does arg rest c : loop_ok rest -> vs_inv (store c) ->
  does (prod_map (cons (CSet arg)) id (parse rest)).1 (prod_map (cons (CSet arg)) id (parse rest)).2 c
    (let '(s, st) := do_set (store c) arg in loop rest (Cli s st (done_ c + 1) (commit c) (out c))).
Proof.
  intros Hl Hinv. unfold do_set. destruct (split_at 61 arg) as [[n v]|] eqn:Hs.
  - destruct (decide (zlen v + 1 <= vs_limit (store c))) as [Hfit|Hlong].
    + destruct (vs_set_map (store c) n v Hinv Hfit) as (s' & -> & Hi' & Hm' & Hl').
      then_command (CSet arg); [by econstructor|]. cbn [effect]. by rewrite Hs, decide_True.
    + destruct (vs_set_long (store c) n v Hinv ltac:(lia)) as (s' & -> & Hi' & Hm' & Hl').
      then_command (CSet arg); [eapply answers_long; [done|lia]|]. cbn [effect]. by rewrite Hs, decide_False.
  - then_command (CSet arg); [by constructor|]. cbn [effect]. by rewrite Hs.
Qed.

(** The loop ends at a word it does not know. *)
Lemma stop_does c : vs_inv (store c) -> does [] true c (Cli (store c) (stat c) 0 (commit c) (out c)).
Proof.
  intros Hi. unfold does. cbn [store stat done_ commit out length]. rewrite orb_false_r.
  split_and!; try done. exists []. rewrite app_nil_r. split; [done|constructor].
Qed.

Lemma main_loop_does args : loop_ok args.
Proof.
  induction args as [args IH] using (induction_ltof1 _ (@length _)). unfold ltof in IH. intros c Hinv. destruct args as [|a rest].
  { unfold does. cbn [parse main_loop fst snd length]. rewrite Z.add_0_r, orb_false_r. split_and!; try done.
    exists []. rewrite app_nil_r. split; [done|constructor]. }
  assert (loop_ok rest) as Hrest by (apply IH; simpl; lia). cbn [main_loop parse].
  destruct (decide (a = bs "show")) as [->|Hshow]; [by apply show_does|].
  destruct (decide (a = bs "info")) as [->|Hinfo]; [then_command CInfo; constructor|].
  destruct (decide (a = bs "commit")) as [->|Hcom].
  { rewrite decide_False by (intros [|[|]]; discriminate). eapply (then_does CCommit); try done; [constructor|by rewrite bool_decide_eq_true_2, orb_true_r|by rewrite app_nil_r]. }
  destruct (decide (a = bs "get" \/ _)) as [Hcmd|Hno].
  2:{ destruct rest as [|x rest]; [by apply stop_does|]. rewrite !decide_False by naive_solver. by apply stop_does. }
  destruct rest as [|x rest]; [by apply stop_does|]. assert (loop_ok rest) as Hrest' by (apply IH; simpl; lia).
  destruct Hcmd as [->|[->| ->]]; rewrite ?decide_True by done; rewrite ?decide_False by discriminate; cbn [bs map String.list_ascii_of_string].
  - by apply get_does.
  - by apply unset_does.
  - by apply set_does.
Qed.
End sessions.

(** C23: A session of the command line does what its arguments say, whatever they are: read as
    commands up to a word that is none or lacks its operand, they are carried out one after the
    other on the variables as a finite map, "set" storing the part behind the first equals sign
    unless it is longer than the partition (then nothing changes and the status is -12),
    "unset" removing a variable, "get" printing the value, "show" all variables, each once and
    with its value; the last status, the number of commands and whether a commit was asked for
    are those of the commands.  What "info" prints of the header is left open; memory does not
    run out. *)
Theorem cli_session_refines_map info h args :
  wf h ->
  let limit := u32 (length_ h - offset h) in
  let '(cs, bad) := parse args in
  let c := main_loop (fun s => (info s, 0)) args (Cli h 1 0 false []) in
  wf (store c) /\ vars (store c) = effects limit cs (vars h) /\ session limit cs (vars h) 1 (out c) (stat c) /\
  done_ c = (if bad then 0 else zlen cs) /\ commit c = bool_decide (CCommit ∈ cs).
Proof.
  intros Hwf limit. pose proof (main_loop_does info args (Cli h 1 0 false []) Hwf) as Hd. destruct (parse args) as [cs bad].
  destruct Hd as (Hi & _ & Hm & Hd & Hc & os & Ho & Hs). cbn [store stat done_ commit out app fst snd] in *. rewrite Ho. done.
Qed.

Definition cli_demo_handle : nvram_handle :=
  Handle 3 0x10000 (replicate 64 0) 64 0 (replicate NVRAM_HASH_SIZE []) [].

Definition cli_demo_args : list (list Z) :=
  [bs "set"; bs "os_name=linux"; bs "show"; bs "get"; bs "os_name"; bs "unset"; bs "os_name"; bs "get"; bs "os_name"].

Lemma cli_session_refines_map_witness :
  let c := main_loop (fun s => ([], 0)) cli_demo_args (Cli cli_demo_handle 1 0 false []) in
  vars (store c) = ∅ /\ done_ c = 5 /\ commit c = false /\
  session 64 [CSet (bs "os_name=linux"); CShow; CGet (bs "os_name"); CUnset (bs "os_name"); CGet (bs "os_name")] ∅ 1 (out c) (stat c).
Proof.
  assert (wf cli_demo_handle) as Hwf by (split; [done|]; intros i b [-> _]%lookup_replicate; split; constructor).
  pose proof (cli_session_refines_map (fun _ => []) cli_demo_handle cli_demo_args Hwf) as H. cbv zeta in H.
  assert (parse cli_demo_args = ([CSet (bs "os_name=linux"); CShow; CGet (bs "os_name"); CUnset (bs "os_name"); CGet (bs "os_name")], false)) as E
    by (vm_compute; reflexivity).
  assert (vars cli_demo_handle = ∅) as Ev by (vm_compute; reflexivity).
  assert (u32 (length_ cli_demo_handle - offset cli_demo_handle) = 64) as El by (vm_compute; reflexivity).
  rewrite E, Ev, El in H. destruct H as (_ & Hv & Hs & Hd & Hc). cbv zeta.
  split; [rewrite Hv; vm_compute; reflexivity|]. split; [rewrite Hd; reflexivity|]. split; [rewrite Hc; reflexivity|exact Hs].
Defined.

(** The scan for write commands dereferences a null pointer exactly when the last
    argument is "set" or "unset" and nothing before it asked for a write, as in
    a bare [nvram set]. *)
Theorem wants_write_null_iff args :
  wants_write args = None <->
  exists pre a, args = pre ++ [a] /\ (a = bs "set" \/ a = bs "unset") /\
    Forall (fun b => b <> bs "set" /\ b <> bs "unset" /\ b <> bs "commit") pre.
Proof.
  induction args as [|a rest IH]; simpl.
  { split; [done|]. intros (pre & a & Heq & _). by destruct pre. }
  assert (forall b, (b = bs "set" \/ b = bs "unset") -> a = b ->
    match rest with [] => None | _ => Some true end = None <->
    exists pre c, a :: rest = pre ++ [c] /\ (c = bs "set" \/ c = bs "unset") /\
      Forall (fun b => b <> bs "set" /\ b <> bs "unset" /\ b <> bs "commit") pre) as Hlast.
  { intros b Hb ->. destruct rest as [|r rest]; split; try done.
    - intros _. exists [], b. by repeat split.
    - intros (pre & c & Heq & _ & Hpre). destruct pre as [|p pre]; [by destruct rest|].
      injection Heq as -> _. apply Forall_cons in Hpre as [(H1 & H2 & _) _]. naive_solver. }
  destruct (decide (a = bs "set")) as [->|Hs]; [by apply (Hlast (bs "set")); auto|].
  destruct (decide (a = bs "unset")) as [->|Hu]; [by apply (Hlast (bs "unset")); auto|].
  clear Hlast. destruct (decide (a = bs "commit")) as [->|Hc].
  - split; [done|]. intros (pre & c & Heq & Hc & Hpre). destruct pre as [|p pre].
    + injection Heq as <- _. destruct Hc; discriminate.
    + injection Heq as <- _. apply Forall_cons in Hpre as [(_ & _ & H3) _]. done.
  - rewrite IH. split; intros (pre & c & Heq & Hcc & Hpre).
    + exists (a :: pre), c. rewrite Heq. split; [done|]. split; [done|]. by constructor.
    + destruct pre as [|p pre]; [injection Heq as -> _; naive_solver|].
      injection Heq as -> ->. apply Forall_cons in Hpre as [_ Hpre]. eauto.
Qed.

(** After a commit "nvram info" reports a checksum that matches: the CRC it
    recomputes over the flash image equals the one stored in the header. *)
Theorem commit_info_crc malloc_ok part h :
  (forall z, malloc_ok z = true) -> ready part h -> low_mapped part h ->
  exists h' i, nvram_commit malloc_ok part h = Some (h', 0) /\ do_info h' = Some i /\
    i_crc i = i_calculated i /\ i_magic i = NVRAM_MAGIC /\ i_version i = NVRAM_VERSION.
Proof.
  intros Hm Hr Hlow. destruct (commit_spec malloc_ok part h Hm Hr Hlow) as
    (h' & P & tail & hlen & crc & Heq & _ & _ & Hmm & _ & HP & Hpl & Hl & Ho & Hhd & Hhl & Hb & Hcb & Hcrc).
  set (hd := commit_header h hlen crc) in *.
  destruct (ready_part part h Hr) as [Hp31 _]. destruct (ready_offset part h Hr) as (Ho0 & _).
  assert (len hd = hlen) as Hlenhd
    by (unfold hd, commit_header; by destruct (sdram_words h) as [[? ?] ?]).
  exists h'. unfold do_info.
  rewrite (nvram_header_of_image h' P hd (image (written h) ++ 0 :: tail));
    [|exact Hmm|congruence|exact Hhd].
  cbn [mbind option_bind]. rewrite Hlenhd. unfold NVRAM_CRC_START_POSITION.
  rewrite (u32_id (hlen - 9)) by width.
  assert (zslice (mmap h') (offset h' + 9) (hlen - 9)
    = Some (crc_span hd (take (Z.to_nat (hlen - 20)) (image (written h) ++ 0 :: tail)))) as ->.
  { rewrite Hmm in *. rewrite zslice_Some by lia. f_equal. unfold crc_span.
    rewrite drop_app_ge, drop_app_le by (rewrite ?length_header_bytes; lia).
    replace (Z.to_nat (offset h' + 9) - length P)%nat with 9%nat by lia.
    rewrite take_app_ge by (rewrite length_drop, length_header_bytes; lia).
    f_equal. f_equal. rewrite length_drop, length_header_bytes. lia. }
  cbn [mbind option_bind]. rewrite <- Hcrc. eexists. split; [exact Heq|]. split; [reflexivity|]. simpl.
  unfold hd, commit_header. destruct (sdram_words_ok h) as (k & cr & ncdl & -> & Hk & _). simpl.
  rewrite lor_shiftl_add by (unfold is_byte in Hcb; lia).
  rewrite !land_ones_u8, Z.shiftr_div_pow2 by lia. unfold u8. change (2 ^ 8) with 256.
  unfold is_byte in Hcb. rewrite Z.div_add_l, (Z.div_small crc) by lia.
  rewrite (Z.add_comm (_ * 256)), Z.mod_add, Z.mod_small by lia.
  rewrite Z.add_0_r, Z.mod_add by lia. done.
Qed.

Lemma commit_info_crc_witness :
  exists h' i, nvram_commit always 32768 demo = Some (h', 0) /\ do_info h' = Some i /\
    i_crc i = i_calculated i.
Proof.
  destruct (commit_info_crc always 32768 demo) as (h' & i & Heq & Hi & Hc & _);
    [apply always_ok|apply demo_ready|apply demo_low|].
  exists h', i. split; [exact Heq|]. split; [exact Hi|exact Hc].
Defined.
