(* ===== verification/NvramFlow.v ===== *)
(** The nvram tool as a whole (package/utils/nvram/src/cli.c, nvram.c): finding the
    partition, the staging copy in /tmp, a session of commands on it, and copying it back to
    flash. *)

From stdpp Require Import gmap.
From S2P Require Import Prelude Libc Crc Nvram NvramSpec NvramCli.

(** ** The partition in /proc/mtd *)

(** [sscanf (dev, "mtd%d: %08x", &i, &part_size)]: what is stored; [None] when nothing is.
    [stale] is what [part_size] held before. *)
Definition scan_mtd (stale : Z) (dev : list Z) : option (Z * Z) :=
  match scan_mtd_num dev with
  | None => None
  | Some (i, 58 :: s) =>
      let '(x, _) := scan_num 16 8 (skip_space s) None in
      Some (i, match x with Some x => x | None => stale end)
  | Some (i, _) => Some (i, stale)
  end.

(** ** The system around the tool *)

(** The staging file and the block devices. *)
Record world := World { staging : option (list Z); mtdblock : Z -> option (list Z) }.

Section system.
(** The lines of /proc/mtd, which devices have a node, what [part_size] holds before the
    first scan; whether a file in /tmp can be created and removed, and its room; descriptor
    and address of a mapping. *)
Context (proc_mtd : option (list (list Z))) (is_block : Z -> bool) (stale : Z).
Context (can_create can_unlink : bool) (tmp_room : nat) (fd_ base : Z).

(** The loop over the lines: [nvram_part_size] and the number of the device. *)
Fixpoint find_mtd_loop (lines : list (list Z)) (nvram_part_size part_size : Z) : Z * option Z :=
  match lines with
  | [] => (nvram_part_size, None)
  | dev :: lines =>
      if contains (bs "nvram") dev then
        match scan_mtd part_size dev with
        | None => find_mtd_loop lines nvram_part_size part_size
        | Some (i, size) => if is_block i then (u32 size, Some i) else find_mtd_loop lines (u32 size) size
        end
      else find_mtd_loop lines nvram_part_size part_size
  end.

Definition nvram_find_mtd (nvram_part_size : Z) : Z * option Z :=
  match proc_mtd with
  | None => (nvram_part_size, None)
  | Some lines => find_mtd_loop lines nvram_part_size stale
  end.

(** [read (fd, buf, sizeof(buf)) == sizeof(buf)] *)
Definition read_all (f : list Z) (n : Z) : option (list Z) := zslice f 0 n.

Definition nvram_to_staging (part : Z) (w : world) : Z * world * Z :=
  let '(part, mtd) := nvram_find_mtd part in
  match mtd with
  | Some i =>
      if part =? 0 then (part, w, -1)
      else
        match mtdblock w i ≫= fun f => read_all f part with
        | Some buf =>
            let old := staging w in
            if match old with Some _ => true | None => can_create end then
              let d := take tmp_room buf in
              (part, World (Some (d ++ drop (length d) (default [] old))) (mtdblock w), 0)
            else (part, w, -1)
        | None => (part, w, -1)
        end
  | None => (part, w, -1)
  end.

(** A device takes what it has room for. *)
Definition dev_store (f buf : list Z) : list Z := take (length f) buf ++ drop (length buf) f.

Definition staging_to_nvram (part : Z) (w : world) : Z * world * Z :=
  let '(part, mtd) := nvram_find_mtd part in
  match mtd with
  | Some i =>
      if part =? 0 then (part, w, -1)
      else
        match staging w with
        | None => (part, w, -1)
        | Some s =>
            match read_all s part, mtdblock w i with
            | Some buf, Some f =>
                let blocks j := if j =? i then Some (dev_store f buf) else mtdblock w j in
                if can_unlink then (part, World None blocks, 0) else (part, World (Some s) blocks, 1)
            | _, _ => (part, w, -1)
            end
        end
  | None => (part, w, -1)
  end.

(** A mapping of [part] bytes: behind the end of the file the last page reads as zeroes, and
    what is stored there does not reach the file. *)
Definition map_file (part : Z) (c : list Z) : list Z :=
  take (Z.to_nat part) (c ++ replicate (Z.to_nat (- zlen c mod 4096)) 0).

(** [nvram_open] of a file. *)
Definition open_file (part : Z) (f : option (list Z)) (rdonly : bool) : Z * option (option nvram_handle) :=
  let '(part, ok) := if part =? 0 then let '(part, mtd) := nvram_find_mtd part in (part, bool_decide (is_Some mtd)) else (part, true) in
  if negb ok || (part =? 0) then (part, Some None)
  else (part, nvram_open (fun _ => true) part ((fun c => (fd_, base, map_file part c)) <$> f) rdonly).

Definition nvram_open_rdonly (part : Z) (w : world) : Z * option (option nvram_handle) :=
  match staging w with
  | Some s => open_file part (Some s) true
  | None =>
      let '(part, mtd) := nvram_find_mtd part in
      match mtd with
      | Some i => open_file part (mtdblock w i) true
      | None => (part, Some None)
      end
  end.

Definition nvram_open_staging (part : Z) (w : world) : Z * world * option (option nvram_handle) :=
  let '(part, w, r) := match staging w with Some _ => (part, w, 0) | None => nvram_to_staging part w end in
  if r =? 0 then let '(part, h) := open_file part (staging w) false in (part, w, h)
  else (part, w, Some None).

(** [main]: the world, the exit status and the output.  A session that writes works on a
    shared mapping of the staging file, which [nvram_commit] changes; reading ones on a
    private mapping. *)
Definition nvram_main (info_of : nvram_handle -> list line * Z) (args : list (list Z)) (w : world) : option (world * Z * list line) :=
  write ← wants_write args;
  let '(part, w, h) :=
    if write : bool then nvram_open_staging 0 w
    else let '(part, h) := nvram_open_rdonly 0 w in (part, w, h) in
  h ← h;
  match h with
  | None => Some (w, 1, [])
  | Some h =>
      match args with
      | [] => Some (w, 1, [])
      | _ =>
          let c := main_loop info_of args (Cli h 1 0 false []) in
          '(w, st) ←
            (if write then
               '(h, r) ← nvram_commit (fun _ => true) part (store c);
               Some (World (Some (dev_store (default [] (staging w)) (mmap h))) (mtdblock w), r)
             else Some (w, stat c));
          let '(w, st) := if commit c then let '(_, w, r) := staging_to_nvram part w in (w, r) else (w, st) in
          Some (w, if done_ c =? 0 then 1 else st, out c)
      end
  end.
End system.

(** ** Invariants of a session *)

(** Every variable in the table has a value. *)
Definition valued (h : nvram_handle) : Prop := Forall (Forall has_value) (nvram_hash h).

Lemma valued_bucket h i : valued h -> Forall has_value (nvram_hash h !!! i).
Proof.
  intros Hv. destruct (nvram_hash h !! i) as [b|] eqn:Hb; [|by rewrite list_lookup_total_alt, Hb].
  rewrite (list_lookup_total_correct _ _ _ Hb). by apply (Forall_lookup_1 _ _ _ _ Hv Hb).
Qed.

Lemma valued_found h n pre t post : valued h -> find_tuple n (nvram_hash h !!! bucket_of n) = Some (pre, t, post) ->
  Forall has_value pre /\ has_value t /\ Forall has_value post.
Proof.
  intros Hv Hf. apply find_tuple_Some in Hf as [Hb _]. pose proof (valued_bucket h (bucket_of n) Hv) as Hbv.
  rewrite Hb, Forall_app, Forall_cons in Hbv. naive_solver.
Qed.

Lemma set_valued h n v : valued h -> valued (fst (nvram_set (fun _ => true) h n v)).
Proof.
  intros Hv. unfold nvram_set. destruct (find_tuple n _) as [[[pre t] post]|] eqn:Hf.
  - destruct (valued_found h n pre t post Hv Hf) as (Hp & Ht & Hq). unfold _nvram_realloc.
    destruct (_ <? _); [|destruct (decide _)]; apply Forall_insert; try exact Hv; apply Forall_app_2; try exact Hp;
      (apply Forall_cons_2; [first [exact Ht|by eexists]|exact Hq]).
  - pose proof (valued_bucket h (bucket_of n) Hv) as Hb. unfold _nvram_realloc.
    destruct (_ <? _); [exact Hv|]. apply Forall_insert; [exact Hv|]. apply Forall_cons_2; [by eexists|exact Hb].
Qed.

Lemma unset_valued h n : valued h -> valued (fst (nvram_unset h (Some n))).
Proof.
  intros Hv. unfold nvram_unset. destruct (find_tuple n _) as [[[pre t] post]|] eqn:Hf; [|done].
  destruct (valued_found h n pre t post Hv Hf) as (Hp & _ & Hq). cbn [fst]. apply Forall_insert; [done|]. by apply Forall_app_2.
Qed.

Lemma rehash_valued h h' r : _nvram_rehash (fun _ => true) h = Some (h', r) -> valued h'.
Proof.
  unfold _nvram_rehash. destruct (nvram_header_of h) as [hd|]; [|done]. cbn [mbind option_bind].
  destruct (rehash_loop _ _ _ _) as [h1|] eqn:Hl; [|done]. cbn [mbind option_bind].
  assert (valued h1) as H1.
  { revert Hl. generalize (S (length (mmap h))) (offset h + NVRAM_HEADER_SIZE). intros fuel nm.
    assert (valued (_nvram_free h)) as H0 by (apply Forall_replicate; constructor).
    revert H0 nm. generalize (_nvram_free h). induction fuel as [|fuel IH]; intros h0 H0 nm; cbn [rehash_loop]; [done|].
    destruct (cstr_at _ _) as [[|c s]|]; cbn [mbind option_bind]; [by intros [= <-]| |done].
    destruct (split_at _ _) as [[n v]|]; [|by intros [= <-]]. apply IH. by apply set_valued. }
  assert (forall g n v, valued g -> valued (set_default (fun _ => true) g n v)) as Hd.
  { intros g n v Hg. unfold set_default. destruct (nvram_get g _); [done|]. by apply set_valued. }
  intros [= <- _]. by repeat apply Hd.
Qed.

(** A session keeps what every set and unset of C strings keeps. *)
Lemma main_loop_inv {T} `{VarStore T} info_of (I : T -> Prop) :
  (forall s n v, well_named (n, v) -> I s -> I (fst (vs_set s n v))) -> (forall s n, I s -> I (fst (vs_unset s (Some n)))) ->
  forall args c, Forall (fun a => is_cstr a) args -> I (store c) -> I (store (main_loop info_of args c)).
Proof.
  intros Hset Hunset args. induction args as [args IH] using (induction_ltof1 _ (@length _)). unfold ltof in IH.
  intros c Hc Hi. destruct args as [|a rest]; [done|]. apply Forall_cons in Hc as [_ Hc]. cbn [main_loop].
  destruct (decide (a = bs "show")); [destruct (do_show _); by apply IH; [simpl; lia| |]|].
  destruct (decide (a = bs "info")); [destruct (info_of _); by apply IH; [simpl; lia| |]|].
  destruct (decide (a = bs "get" \/ _)) as [Hcmd|_].
  - destruct rest as [|arg rest]; [done|]. apply Forall_cons in Hc as [Harg Hc]. destruct Hcmd as [->|[->| ->]]; cbn [bs map String.list_ascii_of_string].
    + destruct (do_get _ _). by apply IH; [simpl; lia| |].
    + unfold do_unset. pose proof (Hunset (store c) arg Hi) as Hu. destruct (vs_unset _ _) as [s st]. by apply IH; [simpl; lia| |].
    + unfold do_set. destruct (split_at 61 arg) as [[var val]|] eqn:Hs; [|by apply IH; [simpl; lia| |]].
      apply split_at_Some in Hs as [-> Hn]. pose proof (Hset (store c) var val) as Hu. rewrite Forall_app, Forall_cons in Harg.
      destruct Harg as (H1 & _ & H2). specialize (Hu ltac:(by repeat split) Hi). destruct (vs_set _ _ _) as [s st]. by apply IH; [simpl; lia| |].
  - destruct (decide (a = bs "commit")); [by apply IH; [simpl; lia| |]|done].
Qed.

(** A session without a writing command changes nothing. *)
Definition reading (a : list Z) : Prop := a <> bs "set" /\ a <> bs "unset" /\ a <> bs "commit".

Lemma wants_write_false args : wants_write args = Some false -> Forall reading args.
Proof.
  induction args as [|a rest IH]; [constructor|]. cbn [wants_write].
  destruct (decide (a = bs "set")); [by destruct rest|]. destruct (decide (a = bs "unset")); [by destruct rest|].
  destruct (decide (a = bs "commit")); [done|]. intros Hw. constructor; [done|by apply IH].
Qed.

Lemma main_loop_reading {T} `{VarStore T} info_of args : forall c, Forall reading args ->
  store (main_loop info_of args c) = store c /\ commit (main_loop info_of args c) = commit c.
Proof.
  induction args as [args IH] using (induction_ltof1 _ (@length _)). unfold ltof in IH.
  intros c Hc. destruct args as [|a rest]; [done|]. apply Forall_cons in Hc as [(H1 & H2 & H3) Hc]. cbn [main_loop].
  destruct (decide (a = bs "show")); [destruct (do_show _); exact (IH rest ltac:(simpl; lia) (Cli _ _ _ _ _) Hc)|].
  destruct (decide (a = bs "info")); [destruct (info_of _); exact (IH rest ltac:(simpl; lia) (Cli _ _ _ _ _) Hc)|].
  destruct (decide (a = bs "get" \/ _)) as [[->|[->| ->]]|_]; try done; [|by rewrite decide_False].
  destruct rest as [|arg rest]; [done|]. apply Forall_cons in Hc as [_ Hc]. cbn [bs map String.list_ascii_of_string].
  destruct (do_get _ _). exact (IH rest ltac:(simpl; lia) (Cli _ _ _ _ _) Hc).
Qed.

(** ** What is stored in a partition *)

Definition named (m : varmap) : Prop := map_Forall (fun n v => well_named (n, v)) m.

(** The room the variables of a map take. *)
Definition map_bytes (m : varmap) : Z := zlen (image (map_to_list m)).

Lemma image_perm ps qs : ps ≡ₚ qs -> length (image ps) = length (image qs).
Proof.
  induction 1 as [|[n v] ps qs _ IH|[n v] [n' v'] ps|]; [done| | |congruence]; rewrite !image_cons, !length_app; lia.
Qed.

Lemma pairs_vars h : wf h -> omap tuple_pair (mjoin (nvram_hash h)) ≡ₚ map_to_list (vars h).
Proof. intros Hwf. unfold vars. rewrite map_to_list_to_map; [done|]. by apply NoDup_tuple_pairs, names_NoDup. Qed.

Lemma pairs_named h : wf h -> named (vars h) -> Forall well_named (omap tuple_pair (mjoin (nvram_hash h))).
Proof.
  intros Hwf Hn. rewrite (pairs_vars h Hwf). apply Forall_forall. intros [n v] Hin. apply elem_of_map_to_list in Hin. by apply Hn.
Qed.

Lemma sprintf_cstr k z : is_cstr (sprintf_0x k z).
Proof.
  unfold sprintf_0x. apply Forall_app. split; [repeat constructor; unfold is_char; lia|]. revert z.
  induction k as [|k IH]; intros z; cbn [hex_digits]; [constructor|]. apply Forall_app. split; [apply IH|].
  constructor; [|constructor]. pose proof (Z.mod_pos_bound z 16). unfold hex_digit, is_char. destruct (_ <? _) eqn:?; lia.
Qed.

Lemma sdram_defaults_named hd : named (sdram_defaults hd).
Proof.
  intros n v Hv. pose proof (sdram_defaults_dom hd n (ex_intro _ v Hv)) as Hn. revert Hv. unfold sdram_defaults.
  rewrite !lookup_union_Some_raw, !lookup_singleton_Some. intros Hv.
  split; [|split]; cbn [fst snd].
  - clear Hv. revert n Hn. apply Forall_forall. eval_decide.
  - clear Hv. revert n Hn. apply Forall_forall. eval_decide.
  - naive_solver eauto using sprintf_cstr.
Qed.

(** What a commit puts in the place of SDRAM variables that are missing. *)
Definition builtin : varmap :=
  list_to_map [(bs "sdram_init", bs "0x0419"); (bs "sdram_config", bs "0x0000"); (bs "sdram_refresh", bs "0x8040"); (bs "sdram_ncdl", bs "0x00000000")].
Definition complete (m : varmap) : varmap := m ∪ builtin.

Lemma builtin_dom n : n ∈ sdram_names -> is_Some (builtin !! n).
Proof. revert n. apply Forall_forall. eval_decide. Qed.

Lemma builtin_header h hlen crc : is_byte crc ->
  sdram_words h = (Z.lor (Z.shiftl NVRAM_VERSION 8) (Z.shiftl SDRAM_INIT 16), Z.lor SDRAM_CONFIG (Z.shiftl SDRAM_REFRESH 16), 0) ->
  sdram_defaults (commit_header h hlen crc) = builtin.
Proof.
  intros Hc Hw. unfold commit_header, sdram_defaults. rewrite Hw. cbn [crc_ver_init config_refresh config_ncdl].
  rewrite Z.shiftr_lor, (Z.shiftr_div_pow2 crc), (Z.div_small crc), Z.lor_0_r by (unfold is_byte in *; lia). vm_compute. reflexivity.
Qed.

(** The variables a commit stores are completed with those of its header. *)
Lemma commit_completes h hlen crc : wf h -> is_byte crc -> vars h ∪ sdram_defaults (commit_header h hlen crc) = complete (vars h).
Proof.
  intros Hwf Hc. destruct (decide (Forall (fun n => is_Some (vars h !! n)) sdram_names)) as [Hall|Hmiss].
  - rewrite Forall_forall in Hall. rewrite union_defaults by done. symmetry. unfold complete.
    rewrite <- (builtin_header (Handle 0 0 [] 0 0 (replicate NVRAM_HASH_SIZE []) []) 0 0) by (done || (vm_compute; reflexivity)). by apply union_defaults.
  - unfold complete. rewrite builtin_header; [done|done|]. unfold sdram_words. rewrite !nvram_get_vars by done.
    destruct (vars h !! bs "sdram_init") eqn:E1; [|done]. destruct (vars h !! bs "sdram_config") eqn:E2; [|done].
    destruct (vars h !! bs "sdram_refresh") eqn:E3; [|done]. destruct (vars h !! bs "sdram_ncdl") eqn:E4; [|done].
    destruct Hmiss. repeat (apply Forall_cons_2; [rewrite ?E1, ?E2, ?E3, ?E4; by eexists|]). constructor.
Qed.

(** [D] is a partition of [part] bytes whose image, [off] bytes in, opens for writing and holds
    the variables [m]. *)
Record stored (part off : Z) (D : list Z) (m : varmap) : Prop := {
  stored_len : zlen D = part;
  stored_part : part < 2 ^ 31 /\ part mod 4 = 0;
  stored_magic : find_magic D 0 (magic_words part) = Some (Some off);
  stored_image : exists P hd ps tail, D = P ++ header_bytes hd ++ image ps ++ 0 :: tail /\ zlen P = off /\
    header_ok hd /\ magic hd = NVRAM_MAGIC /\ len hd < part - off /\ Forall well_named ps /\ NoDup ps.*1 /\
    m = list_to_map ps ∪ sdram_defaults hd
}.

Lemma find_magic_aligned D k : forall i off, find_magic D i k = Some (Some off) -> off mod 4 = 0.
Proof.
  induction k as [|k IH]; intros i off; cbn [find_magic]; [done|]. destruct (get_le32 D _); [|done]. cbn [mbind option_bind].
  destruct (_ =? _); [intros [= <-]; by apply Z.mod_mul|apply IH].
Qed.

Lemma stored_off part off D m : stored part off D m -> 0 <= off /\ off mod 4 = 0 /\ off + 24 <= part.
Proof.
  intros [Hl [_ Hp] Hf (P & hd & ps & tail & -> & HP & _)]. pose proof (find_magic_aligned _ _ _ _ Hf) as Ho.
  rewrite !length_app, length_header_bytes in Hl. cbn [length] in Hl. Z.div_mod_to_equations. lia.
Qed.

Lemma stored_named part off D m : stored part off D m -> named m.
Proof.
  intros [_ _ _ (P & hd & ps & tail & _ & _ & _ & _ & _ & Hok & _ & ->)] n v [Hin|[_ Hin]]%lookup_union_Some_raw.
  - apply elem_of_list_to_map_2 in Hin. by apply (proj1 (Forall_forall _ _) Hok).
  - by apply (sdram_defaults_named hd).
Qed.

(** Opening it gives a handle with those variables. *)
Lemma open_stored part off D m fd base rdonly :
  stored part off D m ->
  exists h, nvram_open (fun _ => true) part (Some (fd, base, D)) rdonly = Some (Some h) /\ wf h /\ vars h = m /\ valued h /\
    frame h = (fd, base, D, part, off).
Proof.
  intros Hst. destruct (stored_off part off D m Hst) as (Ho & Ho4 & Hop).
  destruct Hst as [Hl [Hp Hp4] Hf (P & hd & ps & tail & HD & HP & Hhd & Hmag & Hhl & Hok & Hnd & Hm)].
  set (h := Handle fd base D part off (replicate NVRAM_HASH_SIZE []) []).
  assert (zlen (image ps) + 21 <= part - off) as Hroom.
  { rewrite HD, !length_app, length_header_bytes in Hl. cbn [length] in Hl. lia. }
  assert (Forall (fun p => fits h p.2) ps) as Hfit.
  { apply Forall_forall. intros [n v] Hin. apply list_elem_of_split in Hin as (l1 & l2 & Heq). unfold fits.
    cbn [h length_ offset snd]. rewrite u32_id by width. rewrite Heq, image_app, image_cons, !length_app in Hroom.
    pose proof (length_tuple_bytes n v). lia. }
  destruct (rehash_image (fun _ => true) (fun _ => eq_refl) h P hd ps tail) as (h' & Hrh & Hwf & Hfr & Hv);
    [exact HD|exact HP|exact Hhd|exact Hok|exact Hnd|exact Hfit|cbn [h length_ offset]; rewrite u32_id by width; lia|].
  exists h'. split; [|split; [done|split; [congruence|split; [by eapply rehash_valued|exact Hfr]]]].
  unfold nvram_open. fold (magic_words part). rewrite Hf. cbn [mbind option_bind]. fold h.
  rewrite (nvram_header_of_image h P hd (image ps ++ 0 :: tail)) by done. cbn [mbind option_bind].
  rewrite Hmag, Z.eqb_refl. cbn [andb h length_ offset]. rewrite u32_id by width.
  rewrite (proj2 (Z.ltb_lt _ _)), orb_true_r by lia. fold h. by rewrite Hrh.
Qed.

(** Committing the variables of such a handle stores them, with the SDRAM ones. *)
Lemma commit_stored part off D m h fd base :
  stored part off D m -> frame h = (fd, base, D, part, off) -> wf h -> valued h -> named (vars h) ->
  0 <= base -> base mod 4 = 0 -> base + part <= 2 ^ 31 ->
  map_bytes (vars h) + 26 <= part - off ->
  exists h', nvram_commit (fun _ => true) part h = Some (h', 0) /\ stored part off (mmap h') (complete (vars h)).
Proof.
  intros Hst Hfr Hwf Hval Hnm Hb Hb4 Hbp Hsz. pose proof (stored_off part off D m Hst) as (Ho & Ho4 & Hop).
  destruct Hst as [Hl [Hp Hp4] Hf _]. injection Hfr as Hfd Hbase Hmm Hlen Hoff.
  assert (ready part h) as Hr by (split; rewrite ?Hmm, ?Hlen, ?Hoff; try done; by apply pairs_named).
  assert (image_size h + 4 <= room h) as Hroom.
  { unfold image_size, room, map_bytes, NVRAM_HEADER_SIZE in *. rewrite (image_perm _ _ (pairs_vars h Hwf)). lia. }
  destruct (commit_spec (fun _ => true) part h) as
    (h' & P & tail & hlen & crc & Heq & Hwf' & Hv & Hm' & HPt & HP & Hpl & Hl' & Ho' & Hhd & Hhl & Hb' & Hcb & _);
    [done|done|by rewrite <- Hbase in *|].
  pose proof (find_magic_committed part h h' hlen crc P tail Hr ltac:(by rewrite Hmm, Hoff) Hm' HPt HP) as Hf'.
  destruct (commit_header_magic h hlen crc) as [Hmag Hhl']. destruct (written_ok part h Hr) as [Hok Hnd].
  rewrite (written_full part h Hr) in Hv by lia. rewrite Hoff in *.
  exists h'. split; [exact Heq|]. split; [exact Hpl|done|exact Hf'|].
  exists P, (commit_header h hlen crc), (written h), tail. split; [exact Hm'|]. split; [exact HP|]. split; [exact Hhd|].
  split; [exact Hmag|]. split; [|split; [exact Hok|split; [exact Hnd|]]].
  - rewrite Hhl', Hhl. destruct (roundup4 (20 + zlen (image (written h)) + 2)) as [_ Hru].
    assert (zlen (image (written h)) <= image_size h); [|unfold room, NVRAM_HEADER_SIZE in *; lia].
    unfold image_size, written. by rewrite fit_table_full by (done || (unfold image_size in *; lia)).
  - rewrite (written_full part h Hr) by lia. symmetry. by apply commit_completes.
Qed.

(** ** What a call has to do *)

(** What a user sees: the variables a session works on, and those in flash. *)
Record view := View { cur : varmap; saved : varmap }.

(** A call is one that writes when "set", "unset" or "commit" is among its arguments, in
    whatever place. *)
Definition writing (args : list (list Z)) : bool :=
  bool_decide (Exists (fun a => a = bs "set" \/ a = bs "unset" \/ a = bs "commit") args).

(** The view behind a call: a writing one completes the SDRAM variables. *)
Definition view_next (limit : Z) (args : list (list Z)) (a : view) : view :=
  let cs := (parse args).1 in
  if writing args then
    let m := complete (effects limit cs (cur a)) in View m (if decide (CCommit ∈ cs) then m else saved a)
  else a.

(** The exit status, when the last one of the session is [st]: 1 for a call without commands or
    with a word that is none, 0 for a writing one. *)
Definition call_status (args : list (list Z)) (st : Z) : Z :=
  let '(cs, bad) := parse args in
  if bad || bool_decide (cs = []) then 1 else if writing args then 0 else st.

(** A life of the device: calls of the tool, and reboots, which empty /tmp. *)
Inductive event := Call (args : list (list Z)) | Reboot.

(** What a life has to look like: status and output of each call, and the view at the end. *)
Inductive lives (limit : Z) : list event -> view -> list (Z * list line) -> view -> Prop :=
  | lives_end a : lives limit [] a [] a
  | lives_call args evs a o st os a' : session limit (parse args).1 (cur a) 1 o st -> lives limit evs (view_next limit args a) os a' ->
      lives limit (Call args :: evs) a ((call_status args st, o) :: os) a'
  | lives_reboot evs a os a' : lives limit evs (View (saved a) (saved a)) os a' -> lives limit (Reboot :: evs) a os a'.

(** The calls it can be: C strings for arguments, not a bare "set" or "unset" at the end (where
    the scan for writing commands follows a null pointer), and four bytes of the partition are left
    by what a writing call stores. *)
Definition admissible (part off : Z) (args : list (list Z)) (a : view) : Prop :=
  Forall (fun x => is_cstr x) args /\ wants_write args <> None /\
  (writing args = true -> map_bytes (effects (part - off) (parse args).1 (cur a)) + 26 <= part - off).

Fixpoint admissible_run (part off : Z) (evs : list event) (a : view) : Prop :=
  match evs with
  | [] => True
  | Reboot :: evs => admissible_run part off evs (View (saved a) (saved a))
  | Call args :: evs => admissible part off args a /\ admissible_run part off evs (view_next (part - off) args a)
  end.

Lemma wants_write_writing args w : wants_write args = Some w -> writing args = w.
Proof.
  intros Hw. destruct w.
  - apply bool_decide_eq_true_2. revert Hw. induction args as [|a rest IH]; cbn [wants_write]; [done|]. rewrite Exists_cons.
    destruct (decide (a = bs "set")); [by auto|]. destruct (decide (a = bs "unset")); [by auto|].
    destruct (decide (a = bs "commit")); [by auto|]. auto.
  - apply bool_decide_eq_false_2. intros (a & Ha & Hor)%Exists_exists.
    apply wants_write_false in Hw. rewrite Forall_forall in Hw. destruct (Hw a Ha) as (? & ? & ?). naive_solver.
Qed.

(** ** A call does it *)

Section refinement.
Context (proc_mtd : option (list (list Z))) (is_block : Z -> bool) (stale : Z) (tmp_room : nat) (fd_ base : Z).
Context (part off i : Z) (Hfind : nvram_find_mtd proc_mtd is_block stale 0 = (part, Some i)).
Context (Hb : 0 <= base) (Hb4 : base mod 4 = 0) (Hbp : base + part <= 2 ^ 31) (Htmp : part <= Z.of_nat tmp_room).
Context (info : nvram_handle -> list line).

#[local] Abbreviation call := (nvram_main proc_mtd is_block stale true true tmp_room fd_ base (fun h => (info h, 0))).

(** The staging file, where there is one, is what a session works on. *)
Definition represents (w : world) (a : view) : Prop :=
  (exists D, mtdblock w i = Some D /\ stored part off D (saved a)) /\
  match staging w with None => cur a = saved a | Some s => stored part off s (cur a) end.

Lemma find_mtd_stable lines : forall p q st s j,
  find_mtd_loop is_block lines p st = (s, Some j) -> find_mtd_loop is_block lines q st = (s, Some j).
Proof.
  induction lines as [|dev lines IH]; intros p q st s j; cbn [find_mtd_loop]; [done|].
  destruct (contains _ _); [|apply IH]. destruct (scan_mtd _ _) as [[k sz]|]; [|apply IH]. destruct (is_block k); [done|apply IH].
Qed.

Lemma find_mtd_any p : nvram_find_mtd proc_mtd is_block stale p = (part, Some i).
Proof. unfold nvram_find_mtd in *. destruct proc_mtd; [by eapply find_mtd_stable|done]. Qed.

Lemma read_all_full D : zlen D = part -> read_all D part = Some D.
Proof.
  intros Hl. unfold read_all. rewrite zslice_Some by lia. f_equal. rewrite drop_0. rewrite <- Hl, Nat2Z.id. apply firstn_all.
Qed.

Lemma map_file_full D : zlen D = part -> map_file part D = D.
Proof. intros Hl. unfold map_file. rewrite <- Hl, Nat2Z.id. apply take_app_length. Qed.

Lemma dev_store_full D E : zlen D = part -> zlen E = part -> dev_store D E = E.
Proof. intros HD HE. unfold dev_store. rewrite take_ge, drop_ge, app_nil_r by lia. done. Qed.

Lemma open_file_stored p D m rdonly :
  (p = 0 \/ p = part) -> stored part off D m ->
  exists h, open_file proc_mtd is_block stale fd_ base p (Some D) rdonly = (part, Some (Some h)) /\
    wf h /\ vars h = m /\ valued h /\ frame h = (fd_, base, D, part, off).
Proof.
  intros Hp Hst. destruct (open_stored part off D m fd_ base rdonly Hst) as (h & Ho & Hh). exists h. split; [|exact Hh].
  pose proof (stored_off part off D m Hst) as (H0 & _ & H24).
  assert ((part =? 0) = false) as Hnz by (apply Z.eqb_neq; lia). unfold open_file. destruct Hp as [->| ->].
  - rewrite Z.eqb_refl, find_mtd_any, bool_decide_eq_true_2, Hnz by (by eexists). cbn [negb orb].
    cbn [fmap option_fmap option_map]. rewrite map_file_full by apply Hst. by rewrite Ho.
  - rewrite Hnz. cbn [negb orb]. rewrite Hnz.
    cbn [fmap option_fmap option_map]. rewrite map_file_full by apply Hst. by rewrite Ho.
Qed.

(** A session that writes works on the staging file, made from flash where there is none. *)
Lemma open_staging_spec w a : represents w a ->
  exists D h, nvram_open_staging proc_mtd is_block stale true tmp_room fd_ base 0 w = (part, World (Some D) (mtdblock w), Some (Some h)) /\
    stored part off D (cur a) /\ wf h /\ vars h = cur a /\ valued h /\ frame h = (fd_, base, D, part, off).
Proof.
  intros [(F & HF & HFs) Hs]. unfold nvram_open_staging. destruct w as [[s|] blk]; cbn [staging mtdblock] in *.
  - destruct (open_file_stored 0 s (cur a) false) as (h & Ho & Hh); [auto|done|].
    exists s, h. rewrite Z.eqb_refl, Ho. done.
  - unfold nvram_to_staging. rewrite find_mtd_any. pose proof (stored_off _ _ _ _ HFs) as (H0 & _ & H24).
    rewrite (proj2 (Z.eqb_neq part 0)) by lia. cbn [mtdblock staging]. rewrite HF. cbn [mbind option_bind].
    rewrite read_all_full by apply HFs. cbn [default]. rewrite take_ge, drop_nil, app_nil_r by (destruct HFs as [<- _ _ _]; lia).
    rewrite Z.eqb_refl. cbn [staging]. rewrite <- Hs in HFs.
    destruct (open_file_stored part F (cur a) false) as (h & Ho & Hh); [auto|done|]. exists F, h. by rewrite Ho.
Qed.

(** The loop over the arguments on a handle opened from such an image. *)
Lemma session_loop args a D h :
  Forall (fun x => is_cstr x) args -> stored part off D (cur a) -> wf h -> vars h = cur a -> valued h -> frame h = (fd_, base, D, part, off) ->
  let c := main_loop (fun h => (info h, 0)) args (Cli h 1 0 false []) in
  wf (store c) /\ valued (store c) /\ frame (store c) = (fd_, base, D, part, off) /\ named (vars (store c)) /\
  vars (store c) = effects (part - off) (parse args).1 (cur a) /\ session (part - off) (parse args).1 (cur a) 1 (out c) (stat c) /\
  done_ c = (if (parse args).2 then 0 else zlen (parse args).1) /\ commit c = bool_decide (CCommit ∈ (parse args).1).
Proof.
  intros Hc Hst Hwf Hv Hval Hfr c.
  assert (value_limit h = part - off) as Hlim.
  { injection Hfr as _ _ _ Hl Ho. unfold value_limit. rewrite Hl, Ho. pose proof (stored_off _ _ _ _ Hst) as (H0 & _ & H24).
    destruct (stored_part _ _ _ _ Hst) as [Hp31 _]. by rewrite u32_id by width. }
  pose proof (main_loop_does info args (Cli h 1 0 false []) Hwf) as (Hi & _ & Hm & Hd & Hco & os & Ho & Hs).
  cbn [store stat done_ commit out app vs_map vs_limit vs_inv nvram_store] in *. rewrite Hlim, Hv in *. fold c in Hi, Hm, Hd, Hco, Ho, Hs.
  rewrite Ho. split; [done|]. split; [|split; [|split; [|done]]].
  - apply (main_loop_inv _ valued); [|apply unset_valued|done|done]. intros s n v _. apply set_valued.
  - apply (main_loop_inv _ (fun s => frame s = (fd_, base, D, part, off))); [| |done|done].
    + intros s n v _ Hs'. cbn [vs_set nvram_store]. by rewrite nvram_set_frame.
    + intros s n Hs'. cbn [vs_unset nvram_store]. unfold nvram_unset. by destruct (find_tuple n _) as [[[? ?] ?]|].
  - apply (main_loop_inv _ (fun s => wf s /\ named (vars s)) ) with (args := args); [| |done|].
    + intros s n v Hn [Hs1 Hs2]. destruct (Z_le_gt_dec (zlen v + 1) (value_limit s)) as [Hfit|Hlong].
      * destruct (@vs_set_map _ nvram_store s n v Hs1 Hfit) as (s' & -> & Hw' & Hm' & _). split; [done|]. cbn [fst]. change (vars s') with (vs_map s').
        rewrite Hm'. by apply map_Forall_insert_2.
      * destruct (@vs_set_long _ nvram_store s n v Hs1) as (s' & -> & Hw' & Hm' & _); [cbn [vs_limit nvram_store]; lia|]. split; [done|].
        cbn [fst]. change (vars s') with (vs_map s'). by rewrite Hm'.
    + intros s n [Hs1 Hs2]. destruct (@vs_unset_map _ nvram_store s n Hs1) as (s' & -> & Hw' & Hm' & _). split; [done|]. cbn [fst]. change (vars s') with (vs_map s').
      rewrite Hm'. by apply map_Forall_delete.
    + cbn [store]. rewrite Hv. split; [done|by eapply stored_named].
Qed.

Lemma status_done {T} args (c : cli T) st : done_ c = (if (parse args).2 then 0 else zlen (parse args).1) ->
  (if done_ c =? 0 then 1 else if writing args then 0 else st) = call_status args st.
Proof.
  intros ->. unfold call_status. destruct (parse args) as [cs []]; cbn [fst snd orb]; [done|]. destruct cs as [|x cs]; [done|].
  rewrite bool_decide_eq_false_2 by done. by rewrite (proj2 (Z.eqb_neq _ 0)) by (cbn [length]; lia).
Qed.

(** Copying the staging file back and removing it. *)
Lemma to_flash w s m : mtdblock w i <> None -> (forall D, mtdblock w i = Some D -> zlen D = part) -> staging w = Some s -> stored part off s m ->
  exists w', staging_to_nvram proc_mtd is_block stale true part w = (part, w', 0) /\ staging w' = None /\ mtdblock w' i = Some s.
Proof.
  intros Hd Hl Hs Hst. pose proof (stored_off _ _ _ _ Hst) as (H0 & _ & H24). pose proof (stored_len _ _ _ _ Hst) as Hsl.
  unfold staging_to_nvram. rewrite find_mtd_any, (proj2 (Z.eqb_neq part 0)), Hs, read_all_full by lia.
  destruct (mtdblock w i) as [D|]; [|done]. rewrite dev_store_full by auto. eexists. split; [reflexivity|]. split; [done|].
  cbn [mtdblock]. by rewrite Z.eqb_refl.
Qed.

(** What a call does. *)
Definition call_does (args : list (list Z)) (w : world) (a : view) : Prop :=
  exists w' st o, call args w = Some (w', call_status args st, o) /\ session (part - off) (parse args).1 (cur a) 1 o st /\
    represents w' (view_next (part - off) args a).

Lemma session_writes args w a : represents w a -> admissible part off args a -> wants_write args = Some true -> call_does args w a.
Proof.
  intros Hrep (Hcs & _ & Hroom) Hw. destruct (open_staging_spec w a Hrep) as (D & h & Ho & Hst & Hwf & Hv & Hval & Hfr).
  pose proof (wants_write_writing args true Hw) as Hwr. specialize (Hroom Hwr).
  destruct (session_loop args a D h Hcs Hst Hwf Hv Hval Hfr) as (Hcwf & Hcval & Hcfr & Hnm & Hcv & Hses & Hcd & Hcc).
  destruct Hrep as [(F & HF & HFs) _]. unfold call_does, nvram_main. rewrite Hw. cbn [mbind option_bind]. rewrite Ho. cbn [mbind option_bind].
  set (c := main_loop _ args _) in *. rewrite <- Hcv in Hroom.
  destruct (commit_stored part off D (cur a) (store c) fd_ base) as (h' & Hcom & Hst'); try done.
  destruct args as [|arg args]; [done|]. rewrite Hcom. cbn [mbind option_bind staging mtdblock default].
  rewrite dev_store_full by (first [apply Hst|apply Hst']). rewrite Hcc. rewrite Hcv in Hst'.
  pose proof (status_done (arg :: args) c (stat c) Hcd) as Hstat. rewrite Hwr in Hstat. unfold view_next. rewrite Hwr.
  set (m := complete _) in *. destruct (decide (CCommit ∈ (parse (arg :: args)).1)) as [Hin|Hout].
  - rewrite bool_decide_eq_true_2 by done.
    destruct (to_flash (World (Some (mmap h')) (mtdblock w)) (mmap h') m) as (w' & Hf & Hs' & Hm'); cbn [mtdblock staging]; try done.
    { by rewrite HF. } { rewrite HF. intros E [= <-]. apply HFs. }
    rewrite Hf, Hstat. eexists _, _, _. split; [reflexivity|]. split; [exact Hses|].
    split; [by exists (mmap h')|]. by rewrite Hs'.
  - rewrite bool_decide_eq_false_2, Hstat by done. eexists _, _, _. split; [reflexivity|]. split; [exact Hses|].
    split; [by exists F|]. done.
Qed.

Lemma open_rdonly_spec w a : represents w a ->
  exists D h, nvram_open_rdonly proc_mtd is_block stale fd_ base 0 w = (part, Some (Some h)) /\
    stored part off D (cur a) /\ wf h /\ vars h = cur a /\ valued h /\ frame h = (fd_, base, D, part, off).
Proof.
  intros [(F & HF & HFs) Hs]. unfold nvram_open_rdonly. destruct (staging w) as [s|].
  - destruct (open_file_stored 0 s (cur a) true) as (h & Ho & Hh); [auto|done|]. eauto.
  - rewrite find_mtd_any, HF. rewrite <- Hs in HFs. destruct (open_file_stored part F (cur a) true) as (h & Ho & Hh); [auto|done|]. eauto.
Qed.

Lemma session_reads args w a : represents w a -> admissible part off args a -> wants_write args = Some false -> call_does args w a.
Proof.
  intros Hrep (Hcs & _ & _) Hw. destruct (open_rdonly_spec w a Hrep) as (D & h & Ho & Hst & Hwf & Hv & Hval & Hfr).
  pose proof (wants_write_writing args false Hw) as Hwr.
  destruct (session_loop args a D h Hcs Hst Hwf Hv Hval Hfr) as (_ & _ & _ & _ & _ & Hses & Hcd & _).
  destruct (main_loop_reading (fun h => (info h, 0)) args (Cli h 1 0 false []) (wants_write_false args Hw)) as [_ Hcc].
  unfold call_does, nvram_main. rewrite Hw. cbn [mbind option_bind]. rewrite Ho. cbn [mbind option_bind].
  unfold view_next. rewrite Hwr. destruct args as [|arg args].
  - exists w, 1, []. split; [reflexivity|]. split; [constructor|done].
  - set (c := main_loop _ _ _) in *. cbn [commit] in Hcc. pose proof (status_done (arg :: args) c (stat c) Hcd) as Hstat. rewrite Hwr in Hstat.
    rewrite Hcc, Hstat. eexists _, _, _. split; [reflexivity|]. split; [exact Hses|done].
Qed.

(** ** Calls and reboots *)

Lemma session_refines args w a : represents w a -> admissible part off args a -> call_does args w a.
Proof.
  intros Hrep Hadm. destruct (wants_write args) as [[]|] eqn:Hw; [by apply session_writes|by apply session_reads|].
  by destruct Hadm as (_ & Hn & _).
Qed.

Lemma reboot_represents w a : represents w a -> represents (World None (mtdblock w)) (View (saved a) (saved a)).
Proof. intros [Hf _]. by split. Qed.
End refinement.

(** A life of the device, run. *)
Fixpoint run_world (call : list (list Z) -> world -> option (world * Z * list line)) (evs : list event) (w : world)
  : option (world * list (Z * list line)) :=
  match evs with
  | [] => Some (w, [])
  | Reboot :: evs => run_world call evs (World None (mtdblock w))
  | Call args :: evs =>
      '(w, st, o) ← call args w;
      '(w, os) ← run_world call evs w;
      Some (w, (st, o) :: os)
  end.

(** C2: The tool keeps its promise over a sequence of calls and reboots: each call is a session
    of commands over the variables in use, a finite map, and prints and returns what the
    commands say ("show", "info", unknown words, missing operands and values that are too long
    included).  A call with "set", "unset" or "commit" among its arguments changes the variables
    in use for every later call until a reboot, and the saved ones exactly when it commits; it
    also puts the four SDRAM variables back, with built-in values, where they were unset; other
    calls change nothing.  There is memory, /tmp has room for the partition and its mapping lies
    below 2 GiB.  Not covered: a partition that writing calls would fill up to the last
    four bytes (variables are dropped or the image no longer opens), and a bare "set" or
    "unset" as the last argument, where the tool follows a null pointer. *)
Theorem nvram_life_refines proc_mtd is_block stale tmp_room fd_ base part off i info evs w a :
  nvram_find_mtd proc_mtd is_block stale 0 = (part, Some i) ->
  0 <= base -> base mod 4 = 0 -> base + part <= 2 ^ 31 -> part <= Z.of_nat tmp_room ->
  represents part off i w a -> admissible_run part off evs a ->
  exists w' a' os,
    run_world (nvram_main proc_mtd is_block stale true true tmp_room fd_ base (fun h => (info h, 0))) evs w = Some (w', os) /\
    lives (part - off) evs a os a' /\ represents part off i w' a'.
Proof.
  intros Hfind Hb Hb4 Hbp Htmp. revert w a. induction evs as [|[args|] evs IH]; intros w a Hrep Hadm; cbn [run_world].
  - eexists _, _, _. split; [done|]. split; [constructor|done].
  - destruct Hadm as [Hcall Hadm].
    destruct (session_refines proc_mtd is_block stale tmp_room fd_ base part off i Hfind Hb Hb4 Hbp Htmp info args w a Hrep Hcall)
      as (w1 & st & o & Hw1 & Hs1 & Hr1).
    destruct (IH w1 _ Hr1 Hadm) as (w2 & a2 & os & Hw2 & Ha2 & Hr2). rewrite Hw1. cbn [mbind option_bind]. rewrite Hw2.
    eexists _, _, _. split; [reflexivity|]. split; [by constructor|done].
  - destruct (IH (World None (mtdblock w)) (View (saved a) (saved a))) as (w2 & a2 & os & Hw2 & Ha2 & Hr2); [by eapply reboot_represents|done|].
    eexists _, _, _. split; [exact Hw2|]. split; [by constructor|done].
Qed.

#[export] Instance admissible_dec part off args a : Decision (admissible part off args a).
Proof. unfold admissible. apply _. Defined.

#[export] Instance admissible_run_dec part off evs : forall a, Decision (admissible_run part off evs a).
Proof. induction evs as [|[args|] evs IH]; intros a; cbn [admissible_run]; apply _. Defined.

Definition flow_header : nvram_header := Header NVRAM_MAGIC 200 0x04190100 0x80400000 0.
Definition flow_flash : list Z :=
  header_bytes flow_header ++ image demo_vars ++ 0 :: replicate (Z.to_nat (32768 - 21 - zlen (image demo_vars))) 255.
Definition flow_world : world := World None (fun j => if j =? 3 then Some flow_flash else None).
Definition flow_vars : varmap := list_to_map demo_vars ∪ sdram_defaults flow_header.
Definition flow_proc : list (list Z) :=
  [bs "dev:    size   erasesize  name"; bs "mtd0: 00040000 00010000 boot"; bs "mtd3: 00008000 00001000 nvram"].

Lemma flow_stored : stored 32768 0 flow_flash flow_vars.
Proof.
  split; [vm_compute; reflexivity|split; [lia|reflexivity]|vm_compute; reflexivity|].
  eexists [], flow_header, demo_vars, _. split; [reflexivity|]. split; [reflexivity|]. split; [|split; [reflexivity|]].
  - unfold header_ok, is_u32. vm_compute. intuition discriminate.
  - split; [reflexivity|]. split; [eval_decide|]. split; [eval_decide|reflexivity].
Qed.

#[global] Opaque flow_flash.

Definition flow_events : list event :=
  [Call [bs "set"; bs "wan=dhcp"; bs "get"; bs "wan"]; Call [bs "get"; bs "wan"]; Reboot; Call [bs "get"; bs "wan"];
   Call [bs "set"; bs "wan=pppoe"; bs "unset"; bs "os_name"; bs "unset"; bs "sdram_init"]; Call [bs "commit"]; Reboot; Call [bs "get"; bs "wan"; bs "get"; bs "sdram_init"; bs "get"; bs "os_name"]].

Lemma nvram_life_refines_witness :
  exists w', run_world (nvram_main (Some flow_proc) (fun _ => true) 0 true true (Z.to_nat 65536) 3 0x10000 (fun _ => ([], 0))) flow_events flow_world =
    Some (w', [(0, [LVal (bs "dhcp")]); (0, [LVal (bs "dhcp")]); (1, []); (0, []); (0, []); (1, [LVal (bs "pppoe"); LVal (bs "0x0419")])]).
Proof.
  destruct (nvram_life_refines (Some flow_proc) (fun _ => true) 0 (Z.to_nat 65536) 3 0x10000 32768 0 3 (fun _ => [])
    flow_events flow_world (View flow_vars flow_vars)) as (w' & a' & os & Hw & Ha & _);
    [vm_compute; reflexivity|lia|reflexivity|lia|lia| | |].
  - split; [|reflexivity]. exists flow_flash. split; [reflexivity|exact flow_stored].
  - eval_decide.
  - exists w'. rewrite Hw. do 2 f_equal. unfold flow_events in Ha.
    repeat match goal with
    | H : lives _ (_ :: _) _ _ _ |- _ => inversion H; clear H; subst
    | H : lives _ [] _ _ _ |- _ => inversion H; clear H; subst
    end.
    repeat match goal with
    | H : session _ _ _ _ _ _ |- _ =>
        apply session_replies in H; [|vm_compute; repeat (apply Forall_cons_2; [by split|]); constructor]; vm_compute in H; injection H as -> ->
    end.
    vm_compute. reflexivity.
Defined.
