(* ===== verification/Lzss.v ===== *)
(** The LZSS coder of the MIB library (package/libs/libapmib/files/apmib/apmib.c,
    [InsertNode], [InitTree], [DeleteNode], [Encode], [Decode]): every MIB setting
    is stored on flash in this format. *)

From S2P Require Import Prelude.

(** ** Data *)

Definition N : Z := 4096.
Definition F : Z := 18.
Definition THRESHOLD : Z := 2.
Definition NIL : Z := N.

(** [struct lzss_buffer] and the two globals [InsertNode] sets. *)
Record lzss := Lzss {
  text_buf : list Z;
  lson : list Z;
  rson : list Z;
  dad : list Z;
  match_position : Z;
  match_length : Z
}.

Definition set_text (b : list Z) (t : lzss) : lzss :=
  Lzss b (lson t) (rson t) (dad t) (match_position t) (match_length t).
Definition set_match (p l : Z) (t : lzss) : lzss :=
  Lzss (text_buf t) (lson t) (rson t) (dad t) p l.

(** Stores into the three index arrays. *)
Definition put_lson (i x : Z) (t : lzss) : option lzss :=
  a ← zset (lson t) i x; Some (Lzss (text_buf t) a (rson t) (dad t) (match_position t) (match_length t)).
Definition put_rson (i x : Z) (t : lzss) : option lzss :=
  a ← zset (rson t) i x; Some (Lzss (text_buf t) (lson t) a (dad t) (match_position t) (match_length t)).
Definition put_dad (i x : Z) (t : lzss) : option lzss :=
  a ← zset (dad t) i x; Some (Lzss (text_buf t) (lson t) (rson t) a (match_position t) (match_length t)).

(** ** Trees *)

(** [for (i = 1; i < F; i++) if ((cmp = key[i] - text_buf[p + i]) != 0) break;]
    [cmp] is an unsigned short. *)
Fixpoint compare_loop (n : nat) (tb : list Z) (r p i cmp : Z) : option (Z * Z) :=
  match n with
  | O => Some (i, cmp)
  | S n =>
      a ← zget tb (r + i);
      b ← zget tb (p + i);
      let cmp := u16 (a - b) in
      if negb (cmp =? 0) then Some (i, cmp) else compare_loop n tb r p (i + 1) cmp
  end.

(** The [while (1)] of [InsertNode]: [inl] is the [return] after linking [r] at the
    end of a path, [inr p] the [break] on a full match with node [p]. *)
Fixpoint insert_loop (fuel : nat) (t : lzss) (r p cmp : Z) : option (lzss + lzss * Z) :=
  match fuel with
  | O => None
  | S fuel =>
      next ← (if 0 <=? cmp then zget (rson t) p else zget (lson t) p);
      if negb (next =? NIL) then
        let p := next in
        '(i, cmp) ← compare_loop (Z.to_nat (F - 1)) (text_buf t) r p 1 cmp;
        if match_length t <? i then
          let t := set_match p i t in
          if F <=? i then Some (inr (t, p)) else insert_loop fuel t r p cmp
        else insert_loop fuel t r p cmp
      else
        t ← (if 0 <=? cmp then put_rson p r t else put_lson p r t);
        t ← put_dad r p t;
        Some (inl t)
  end.

(** [InsertNode]; a path never visits a node twice, so [N + 1] rounds suffice. *)
Definition InsertNode (t : lzss) (r : Z) : option lzss :=
  key0 ← zget (text_buf t) r;
  let p := N + 1 + key0 in
  t ← put_lson r NIL t;
  t ← put_rson r NIL t;
  let t := set_match (match_position t) 0 t in
  res ← insert_loop (Z.to_nat (N + 1)) t r p 1;
  match res with
  | inl t => Some t
  | inr (t, p) =>
      dp ← zget (dad t) p; t ← put_dad r dp t;
      lp ← zget (lson t) p; t ← put_lson r lp t;
      rp ← zget (rson t) p; t ← put_rson r rp t;
      lp ← zget (lson t) p; t ← put_dad lp r t;
      rp ← zget (rson t) p; t ← put_dad rp r t;
      dp ← zget (dad t) p;
      rdp ← zget (rson t) dp;
      t ← (if rdp =? p then put_rson dp r t else put_lson dp r t);
      put_dad p NIL t
  end.

Definition InitTree (t : lzss) : option lzss :=
  rs ← zfill (rson t) (N + 1) NIL 256;
  da ← zfill (dad t) 0 NIL N;
  Some (Lzss (text_buf t) (lson t) rs da (match_position t) (match_length t)).

(** [do { q = rson[q]; } while (rson[q] != NIL);] *)
Fixpoint rightmost (fuel : nat) (rs : list Z) (q : Z) : option Z :=
  match fuel with
  | O => None
  | S fuel =>
      q ← zget rs q;
      nx ← zget rs q;
      if negb (nx =? NIL) then rightmost fuel rs q else Some q
  end.

(** [DeleteNode] *)
Definition DeleteNode (t : lzss) (p : Z) : option lzss :=
  dp ← zget (dad t) p;
  if dp =? NIL then Some t
  else
    rp ← zget (rson t) p;
    lp ← zget (lson t) p;
    '(t, q) ←
      (if rp =? NIL then Some (t, lp)
       else if lp =? NIL then Some (t, rp)
       else
         let q := lp in
         rq ← zget (rson t) q;
         '(t, q) ←
           (if negb (rq =? NIL) then
              q ← rightmost (Z.to_nat (N + 1)) (rson t) q;
              dq ← zget (dad t) q; lq ← zget (lson t) q;
              t ← put_rson dq lq t;
              lq ← zget (lson t) q; dq ← zget (dad t) q;
              t ← put_dad lq dq t;
              lp ← zget (lson t) p;
              t ← put_lson q lp t;
              lp ← zget (lson t) p;
              t ← put_dad lp q t;
              Some (t, q)
            else Some (t, q));
         rp ← zget (rson t) p;
         t ← put_rson q rp t;
         rp ← zget (rson t) p;
         t ← put_dad rp q t;
         Some (t, q));
    dp ← zget (dad t) p;
    t ← put_dad q dp t;
    dp ← zget (dad t) p;
    rdp ← zget (rson t) dp;
    t ← (if rdp =? p then put_rson dp q t else put_lson dp q t);
    put_dad p NIL t.

(** ** Encoder *)

Record encoder := Encoder {
  e_tree : lzss;
  e_len : Z; e_r : Z; e_s : Z;
  e_pos : Z;                       (* ulPos *)
  e_code : list Z;                 (* code_buf *)
  e_ptr : Z;                       (* code_buf_ptr *)
  e_mask : Z;
  e_out : list Z                   (* ucOutput[0 .. enIdx) *)
}.

Definition advance (x : Z) : Z := Z.land (x + 1) (N - 1).

Section encode.
Context (ucInput : list Z) (inLen : Z).

(** [for (len = 0; (len < F) && ulPos < inLen; len++) text_buf[r + len] = ucInput[ulPos++];] *)
Fixpoint read_first (n : nat) (tb : list Z) (r len pos : Z) : option (list Z * Z * Z) :=
  match n with
  | O => Some (tb, len, pos)
  | S n =>
      if pos <? inLen then
        c ← zget ucInput pos;
        tb ← zset tb (r + len) c;
        read_first n tb r (len + 1) (pos + 1)
      else Some (tb, len, pos)
  end.

(** [for (i = 1; i <= F; i++) InsertNode(r - i);] *)
Fixpoint insert_first (n : nat) (t : lzss) (r i : Z) : option lzss :=
  match n with
  | O => Some t
  | S n => t ← InsertNode t (r - i); insert_first n t r (i + 1)
  end.

(** One code unit into [code_buf], and the buffer out when eight are full. *)
Definition emit (e : encoder) : option encoder :=
  let t := e_tree e in
  let ml := if e_len e <? match_length t then e_len e else match_length t in
  '(ml, code, ptr) ←
    (if ml <=? THRESHOLD then
       c0 ← zget (e_code e) 0;
       code ← zset (e_code e) 0 (Z.lor c0 (e_mask e));
       c ← zget (text_buf t) (e_r e);
       code ← zset code (e_ptr e) c;
       Some (1, code, e_ptr e + 1)
     else
       code ← zset (e_code e) (e_ptr e) (u8 (match_position t));
       code ← zset code (e_ptr e + 1)
                (u8 (Z.lor (Z.land (Z.shiftr (match_position t) 4) 0xf0) (ml - (THRESHOLD + 1))));
       Some (ml, code, e_ptr e + 2));
  let t := set_match (match_position t) ml t in
  let mask := u8 (Z.shiftl (e_mask e) 1) in
  if mask =? 0 then
    unit ← zslice code 0 ptr;
    code ← zset code 0 0;
    Some (Encoder t (e_len e) (e_r e) (e_s e) (e_pos e) code 1 1 (e_out e ++ unit))
  else
    Some (Encoder t (e_len e) (e_r e) (e_s e) (e_pos e) code ptr mask (e_out e)).

(** The body of the [for] that replaces old strings by new bytes. *)
Definition read_step (e : encoder) : option encoder :=
  c ← zget ucInput (e_pos e);
  t ← DeleteNode (e_tree e) (e_s e);
  tb ← zset (text_buf t) (e_s e) c;
  tb ← (if e_s e <? F - 1 then zset tb (e_s e + N) c else Some tb);
  let r := advance (e_r e) in
  t ← InsertNode (set_text tb t) r;
  Some (Encoder t (e_len e) r (advance (e_s e)) (e_pos e + 1)
          (e_code e) (e_ptr e) (e_mask e) (e_out e)).

(** The body of the [while] after the end of the text. *)
Definition tail_step (e : encoder) : option encoder :=
  t ← DeleteNode (e_tree e) (e_s e);
  let r := advance (e_r e) in
  let len := e_len e - 1 in
  t ← (if negb (len =? 0) then InsertNode t r else Some t);
  Some (Encoder t len r (advance (e_s e)) (e_pos e) (e_code e) (e_ptr e) (e_mask e) (e_out e)).

(** [for (i = 0; i < last_match_length && ulPos < inLen; i++)]; the second
    component is how many positions are left, [last_match_length - i]. *)
Fixpoint read_loop (n : nat) (e : encoder) : option (encoder * nat) :=
  match n with
  | O => Some (e, O)
  | S n' => if e_pos e <? inLen then e ← read_step e; read_loop n' e else Some (e, n)
  end.

(** [while (i++ < last_match_length)] *)
Fixpoint tail_loop (n : nat) (e : encoder) : option encoder :=
  match n with
  | O => Some e
  | S n => e ← tail_step e; tail_loop n e
  end.

(** [do { ... } while (len > 0);] *)
Fixpoint encode_loop (fuel : nat) (e : encoder) : option encoder :=
  match fuel with
  | O => None
  | S fuel =>
      e ← emit e;
      '(e, rest) ← read_loop (Z.to_nat (match_length (e_tree e))) e;
      e ← tail_loop rest e;
      if 0 <? e_len e then encode_loop fuel e else Some e
  end.

(** [Encode]: the bytes written to [ucOutput]; the return value is their number. *)
Definition Encode (malloc_ok : bool) : option (list Z) :=
  if negb malloc_ok then Some []
  else
    t ← InitTree (Lzss (replicate (Z.to_nat (N + F - 1)) 0) (replicate (Z.to_nat (N + 1)) 0)
                    (replicate (Z.to_nat (N + 257)) 0) (replicate (Z.to_nat (N + 1)) 0) 0 0);
    let r := N - F in
    tb ← zfill (text_buf t) 0 32 r;
    '(tb, len, pos) ← read_first (Z.to_nat F) tb r 0 0;
    if len =? 0 then Some []
    else
      t ← insert_first (Z.to_nat F) (set_text tb t) r 1;
      t ← InsertNode t r;
      e ← encode_loop (Z.to_nat inLen)
            (Encoder t len r 0 pos (replicate 17 0) 1 1 []);
      if 1 <? e_ptr e then
        unit ← zslice (e_code e) 0 (e_ptr e);
        Some (e_out e ++ unit)
      else Some (e_out e).
End encode.

(** ** Decoder *)

(** The ring buffer comes from [malloc]: a byte that was never written is [None],
    and reading it ends the model. *)
Record decoder := Decoder {
  d_text : list (option Z);
  d_r : Z;
  d_flags : Z;
  d_pos : Z;                       (* ulPos *)
  d_out : list Z                   (* ucOutput[0 .. ulExpLen) *)
}.

Section decode.
Context (ucInput : list Z) (inLen : Z).

(** [ucOutput[ulExpLen++] = c; text_buf[r++] = c; r &= (N - 1);] *)
Definition put_char (d : decoder) (c : Z) : option decoder :=
  tb ← zset (d_text d) (d_r d) (Some c);
  Some (Decoder tb (advance (d_r d)) (d_flags d) (d_pos d) (d_out d ++ [c])).

(** [for (k = 0; k <= j; k++) { c = text_buf[(i + k) & (N - 1)]; ... }] *)
Fixpoint copy_loop (n : nat) (d : decoder) (i k : Z) : option decoder :=
  match n with
  | O => Some d
  | S n =>
      c ← zget (d_text d) (Z.land (i + k) (N - 1));
      c ← c;
      d ← put_char d c;
      copy_loop n d i (k + 1)
  end.

Definition at_input (d : decoder) (flags pos : Z) : decoder :=
  Decoder (d_text d) (d_r d) flags pos (d_out d).

(** The [while (1)]; every [break] is the result.  The byte is fetched before the
    position is compared with [inLen]. *)
Fixpoint decode_loop (fuel : nat) (d : decoder) : option decoder :=
  match fuel with
  | O => None
  | S fuel =>
      let flags := Z.shiftr (d_flags d) 1 in
      fetched ←
        (if Z.land flags 256 =? 0 then
           c ← zget ucInput (d_pos d);
           if inLen <? d_pos d + 1 then Some None
           else Some (Some (at_input d (Z.lor c 0xff00) (d_pos d + 1)))
         else Some (Some (at_input d flags (d_pos d))));
      match fetched with
      | None => Some d
      | Some d =>
          if negb (Z.land (d_flags d) 1 =? 0) then
            c ← zget ucInput (d_pos d);
            if inLen <? d_pos d + 1 then Some d
            else
              d ← put_char (at_input d (d_flags d) (d_pos d + 1)) c;
              decode_loop fuel d
          else
            i ← zget ucInput (d_pos d);
            if inLen <? d_pos d + 1 then Some d
            else
              j ← zget ucInput (d_pos d + 1);
              if inLen <? d_pos d + 2 then Some d
              else
                let i := Z.lor i (Z.shiftl (Z.land j 0xf0) 4) in
                let j := Z.land j 0x0f + THRESHOLD in
                d ← copy_loop (Z.to_nat (j + 1)) (at_input d (d_flags d) (d_pos d + 2)) i 0;
                decode_loop fuel d
      end
  end.

(** [Decode]: the bytes written to [ucOutput]; the return value is their number. *)
Definition Decode (malloc_ok : bool) : option (list Z) :=
  if negb malloc_ok then Some []
  else
    tb ← zfill (replicate (Z.to_nat (N + F - 1)) None) 0 (Some 32) (N - F);
    d ← decode_loop (S (Z.to_nat inLen)) (Decoder tb (N - F) 0 0 []);
    Some (d_out d).
End decode.
