(* ===== verification/LzssTree.v ===== *)
(** The search structure of the LZSS encoder.

    [cmp] is declared unsigned, so the test [cmp >= 0] of [InsertNode] always
    holds and the binary search trees degenerate to chains of right sons.  The
    invariant below states exactly that: 256 doubly linked lists, one per first
    character, threaded through [rson] and [dad], with [lson] always empty. *)

From S2P Require Import Prelude Lzss.

(** ** Arrays after a store *)

Definition upd (i x : Z) (l : list Z) : list Z := <[Z.to_nat i := x]> l.

Lemma zset_upd l i x : 0 <= i < zlen l -> zset l i x = Some (upd i x l).
Proof. apply zset_Some. Qed.

Lemma length_upd i x l : length (upd i x l) = length l.
Proof. apply length_insert. Qed.

Lemma zget_upd i x l j :
  0 <= i < zlen l -> zget (upd i x l) j = if decide (i = j) then Some x else zget l j.
Proof.
  intros Hi. case_decide as Hij.
  - subst j. eapply zget_zset_eq. by apply zset_upd.
  - eapply zget_zset_ne; [by apply zset_upd|done].
Qed.

Lemma put_lson_ok i x t : 0 <= i < zlen (lson t) ->
  put_lson i x t = Some (Lzss (text_buf t) (upd i x (lson t)) (rson t) (dad t) (match_position t) (match_length t)).
Proof. intros Hi. unfold put_lson. by rewrite zset_upd. Qed.

Lemma put_rson_ok i x t : 0 <= i < zlen (rson t) ->
  put_rson i x t = Some (Lzss (text_buf t) (lson t) (upd i x (rson t)) (dad t) (match_position t) (match_length t)).
Proof. intros Hi. unfold put_rson. by rewrite zset_upd. Qed.

Lemma put_dad_ok i x t : 0 <= i < zlen (dad t) ->
  put_dad i x t = Some (Lzss (text_buf t) (lson t) (rson t) (upd i x (dad t)) (match_position t) (match_length t)).
Proof. intros Hi. unfold put_dad. by rewrite zset_upd. Qed.

(** Symbolic execution: unfold a bind whose first step has a known result. *)
Ltac step := cbn [mbind option_bind text_buf lson rson dad match_position match_length].

(** ** Linked segments *)

Fixpoint seg (t : lzss) (p : Z) (l : list Z) (q : Z) : Prop :=
  match l with
  | [] => p = q
  | x :: l =>
      zget (rson t) p = Some x /\ zget (dad t) x = Some p /\ zget (lson t) x = Some NIL /\ seg t x l q
  end.

Lemma seg_app t p l1 l2 q : seg t p (l1 ++ l2) q <-> exists m, seg t p l1 m /\ seg t m l2 q.
Proof.
  revert p. induction l1 as [|x l1 IH]; intros p; simpl.
  - split; [by exists p|]. by intros (m & -> & Hm).
  - rewrite IH. naive_solver.
Qed.

Lemma seg_end t p l q : seg t p l q -> q = p /\ l = [] \/ q ∈ l.
Proof.
  revert p. induction l as [|x l IH]; intros p; simpl; [by left|].
  intros (_ & _ & _ & Hs). right. destruct (IH x Hs) as [[-> _]|Hq]; set_solver.
Qed.

(** A segment only depends on its own cells. *)
Lemma seg_frame t t' p l q :
  seg t p l q -> NoDup (p :: l) ->
  (forall x, x ∈ l -> zget (dad t') x = zget (dad t) x /\ zget (lson t') x = zget (lson t) x) ->
  (forall x, x ∈ p :: l -> x <> q -> zget (rson t') x = zget (rson t) x) ->
  seg t' p l q.
Proof.
  revert p. induction l as [|x l IH]; intros p; simpl; [done|].
  intros (Hr & Hd & Hl & Hs) [Hp Hnd]%NoDup_cons Hdl Hrs.
  assert (p <> q) as Hpq.
  { intros ->. destruct (seg_end t x l q Hs) as [[-> _]|Hq]; set_solver. }
  destruct (Hdl x) as [Hd' Hl']; [set_solver|].
  split; [rewrite Hrs; [done|set_solver|done]|]. split; [by rewrite Hd'|]. split; [by rewrite Hl'|].
  apply IH; [done|done| |].
  - intros y Hy. apply Hdl. set_solver.
  - intros y Hy. apply Hrs. set_solver.
Qed.

(** ** The invariant *)

Record tree_inv (t : lzss) (ch : Z -> list Z) : Prop := {
  ti_text : zlen (text_buf t) = N + F - 1;
  ti_lson : zlen (lson t) = N + 1;
  ti_rson : zlen (rson t) = N + 257;
  ti_dad : zlen (dad t) = N + 1;
  ti_bytes : Forall is_byte (text_buf t);
  ti_chain : forall c, is_byte c ->
    exists q, seg t (N + 1 + c) (ch c) q /\ zget (rson t) q = Some NIL;
  ti_node : forall c x, is_byte c -> x ∈ ch c -> 0 <= x < N /\ zget (text_buf t) x = Some c;
  ti_nodup : forall c, is_byte c -> NoDup (ch c);
  ti_free : forall x, 0 <= x < N -> (forall c, is_byte c -> x ∉ ch c) -> zget (dad t) x = Some NIL
}.

Definition in_tree (ch : Z -> list Z) (x : Z) : Prop := exists c, is_byte c /\ x ∈ ch c.

Lemma tree_inv_ext t ch ch' :
  (forall c, is_byte c -> ch c = ch' c) -> tree_inv t ch -> tree_inv t ch'.
Proof.
  intros Heq [? ? ? ? ? Hc Hn Hd Hf]. split; try done.
  - intros c Hb. rewrite <- Heq by done. auto.
  - intros c x Hb. rewrite <- Heq by done. auto.
  - intros c Hb. rewrite <- Heq by done. auto.
  - intros x Hx Hni. apply Hf; [done|]. intros c Hb. rewrite Heq by done. auto.
Qed.

(** Chains of different characters are disjoint. *)
Lemma ti_unique t ch c c' x :
  tree_inv t ch -> is_byte c -> is_byte c' -> x ∈ ch c -> x ∈ ch c' -> c = c'.
Proof.
  intros Hi Hc Hc' Hx Hx'. destruct (ti_node t ch Hi c x Hc Hx) as [_ H1].
  destruct (ti_node t ch Hi c' x Hc' Hx') as [_ H2]. congruence.
Qed.

Lemma ti_root_NoDup t ch c : tree_inv t ch -> is_byte c -> NoDup (N + 1 + c :: ch c).
Proof.
  intros Hi Hc. constructor; [|by apply (ti_nodup t ch)].
  intros [Hx _]%(ti_node t ch Hi c); [|done]. unfold is_byte in Hc. lia.
Qed.

Lemma chain_length (l : list Z) : NoDup l -> (forall x, x ∈ l -> 0 <= x < N) -> (length l <= Z.to_nat N)%nat.
Proof.
  intros Hnd Hr. assert (l ⊆+ seqZ 0 N) as Hs.
  { apply NoDup_submseteq; [done|]. intros x Hx. apply elem_of_seqZ. specialize (Hr x Hx). lia. }
  apply submseteq_length in Hs. by rewrite length_seqZ in Hs.
Qed.

(** The chain around one of its nodes. *)
Lemma chain_split t ch c pre x post :
  tree_inv t ch -> is_byte c -> ch c = pre ++ x :: post ->
  exists m q, seg t (N + 1 + c) pre m /\ zget (rson t) m = Some x /\ zget (dad t) x = Some m /\
    zget (lson t) x = Some NIL /\ seg t x post q /\ zget (rson t) q = Some NIL /\
    0 <= m < N + 257 /\ m <> NIL /\ 0 <= x < N /\
    m ∈ N + 1 + c :: pre.
Proof.
  intros Hi Hc Heq. destruct (ti_chain t ch Hi c Hc) as (q & Hs & Hq). rewrite Heq in Hs.
  apply seg_app in Hs as (m & Hpre & Hr & Hd & Hl & Hpost). exists m, q.
  assert (0 <= x < N) as Hx by (apply (ti_node t ch Hi c); [done|rewrite Heq; set_solver]).
  assert (m ∈ N + 1 + c :: pre) as Hm.
  { destruct (seg_end _ _ _ _ Hpre) as [[-> _]|Hin]; set_solver. }
  assert (0 <= m < N + 257 /\ m <> NIL) as [Hmr Hmn].
  { unfold is_byte, NIL in *. apply elem_of_cons in Hm as [->|Hin]; [unfold N in *; lia|].
    assert (0 <= m < N) by (apply (ti_node t ch Hi c); [done|rewrite Heq; set_solver]). lia. }
  by split_and!; try done; try lia.
Qed.

(** A chain other than the one being changed survives stores that stay away from it. *)
Lemma chain_other t t' ch c :
  tree_inv t ch -> is_byte c ->
  (forall x, x ∈ ch c -> zget (dad t') x = zget (dad t) x /\ zget (lson t') x = zget (lson t) x) ->
  (forall x, x ∈ N + 1 + c :: ch c -> zget (rson t') x = zget (rson t) x) ->
  exists q, seg t' (N + 1 + c) (ch c) q /\ zget (rson t') q = Some NIL.
Proof.
  intros Hi Hc Hdl Hrs. destruct (ti_chain t ch Hi c Hc) as (q & Hs & Hq). exists q. split.
  - apply (seg_frame t); [done|by apply (ti_root_NoDup t ch)|done|]. intros x Hx _. auto.
  - rewrite Hrs; [done|]. destruct (seg_end _ _ _ _ Hs) as [[-> _]|Hin]; set_solver.
Qed.

(** ** Deleting a node *)

(** The successor of a node as [rson] stores it. *)
Definition head_or_nil (l : list Z) : Z := match l with [] => NIL | y :: _ => y end.

Lemma seg_rson t x l q :
  seg t x l q -> zget (rson t) q = Some NIL -> zget (rson t) x = Some (head_or_nil l).
Proof. destruct l as [|y l]; simpl; [by intros -> ->|]. by intros (-> & _). Qed.

Definition unlink (t : lzss) (m x q : Z) : lzss :=
  Lzss (text_buf t) (lson t) (upd m q (rson t)) (upd x NIL (upd q m (dad t)))
    (match_position t) (match_length t).

Lemma head_or_nil_range (l : list Z) :
  (forall x, x ∈ l -> 0 <= x < N) -> 0 <= head_or_nil l < N + 1.
Proof.
  destruct l as [|y l]; simpl; intros H; [unfold NIL, N; lia|].
  assert (0 <= y < N) by (apply H; set_solver). lia.
Qed.

Lemma DeleteNode_absent t ch x :
  tree_inv t ch -> 0 <= x < N -> ~ in_tree ch x -> DeleteNode t x = Some t.
Proof.
  intros Hi Hx Hni. unfold DeleteNode. rewrite (ti_free t ch Hi x Hx); [done|].
  intros c Hc Hin. apply Hni. by exists c.
Qed.

Section delete.
Context (t : lzss) (ch : Z -> list Z) (Hi : tree_inv t ch).
Context (c : Z) (Hc : is_byte c) (pre post : list Z) (x : Z) (Hch : ch c = pre ++ x :: post).

Lemma delete_nodup : NoDup (N + 1 + c :: pre ++ x :: post).
Proof. rewrite <- Hch. by apply (ti_root_NoDup t ch). Qed.

Lemma delete_nodes y : y ∈ pre ++ x :: post -> 0 <= y < N.
Proof. rewrite <- Hch. intros Hy. by apply (ti_node t ch Hi c). Qed.

Lemma post_head : 0 <= head_or_nil post < N + 1.
Proof. apply head_or_nil_range. intros y Hy. apply delete_nodes. set_solver. Qed.

(** The head of the rest is not a node before it. *)
Lemma post_head_fresh y : y ∈ N + 1 + c :: pre ++ [x] -> y <> NIL -> y <> head_or_nil post.
Proof.
  pose proof delete_nodup as Hnd. rewrite (cons_middle x), app_assoc, app_comm_cons in Hnd.
  apply NoDup_app in Hnd as (_ & Hdis & _). intros Hy Hnil ->.
  destruct post as [|z post']; simpl in *; [done|]. by apply (Hdis z Hy), elem_of_cons; left.
Qed.

Context (m q : Z) (Hpre : seg t (N + 1 + c) pre m) (Hrm : zget (rson t) m = Some x).
Context (Hdx : zget (dad t) x = Some m) (Hlx : zget (lson t) x = Some NIL).
Context (Hpost : seg t x post q) (Hq : zget (rson t) q = Some NIL).
Context (Hm : 0 <= m < N + 257) (Hmn : m <> NIL) (Hx : 0 <= x < N) (Hmin : m ∈ N + 1 + c :: pre).

Lemma DeleteNode_present : DeleteNode t x = Some (unlink t m x (head_or_nil post)).
Proof.
  unfold DeleteNode. rewrite Hdx. cbn [mbind option_bind].
  rewrite (proj2 (Z.eqb_neq m NIL)) by done.
  rewrite (seg_rson t x post q Hpost Hq), Hlx. cbn [mbind option_bind].
  pose proof post_head as Hh.
  assert (x <> head_or_nil post) as Hne by (apply post_head_fresh; [set_solver|unfold NIL; lia]).
  rewrite Z.eqb_refl.
  assert (exists q', (if head_or_nil post =? NIL then Some (t, NIL) else Some (t, head_or_nil post))
    = Some (t, q') /\ q' = head_or_nil post) as (q' & -> & ->).
  { destruct (Z.eqb_spec (head_or_nil post) NIL) as [->|]; by eexists. }
  step. rewrite Hdx. step. rewrite put_dad_ok by (rewrite (ti_dad t ch Hi); lia). step.
  rewrite zget_upd, decide_False by (done || rewrite (ti_dad t ch Hi); lia).
  rewrite Hdx. step. rewrite Hrm. step. rewrite Z.eqb_refl.
  rewrite put_rson_ok by (simpl; rewrite (ti_rson t ch Hi); lia). step.
  by rewrite put_dad_ok by (simpl; rewrite length_upd, (ti_dad t ch Hi); lia).
Qed.

Lemma unlink_chain :
  exists q', seg (unlink t m x (head_or_nil post)) (N + 1 + c) (pre ++ post) q' /\
    zget (rson (unlink t m x (head_or_nil post))) q' = Some NIL.
Proof.
  pose proof delete_nodup as Hnd. pose proof post_head as Hh. pose proof delete_nodes as Hno.
  pose proof (ti_rson t ch Hi) as Lr. pose proof (ti_dad t ch Hi) as Ld.
  assert (seg (unlink t m x (head_or_nil post)) (N + 1 + c) pre m) as Hpre'.
  { apply (seg_frame t); [done| | |].
    - rewrite app_comm_cons in Hnd. by apply NoDup_app in Hnd as (? & _).
    - intros y Hy. simpl. split; [|done]. rewrite !zget_upd by (rewrite ?length_upd; lia).
      rewrite !decide_False; [done| |].
      + intros <-. destruct (post_head_fresh (head_or_nil post)); [set_solver| |done].
        specialize (Hno (head_or_nil post)). unfold NIL. set_solver by lia.
      + intros <-. rewrite app_comm_cons in Hnd. apply NoDup_app in Hnd as (_ & Hdis & _).
        apply (Hdis x); set_solver.
    - intros y _ Hy. simpl. rewrite zget_upd by lia. by rewrite decide_False. }
  assert (seg_after : forall y post', post = y :: post' -> seg (unlink t m x y) y post' q).
  { intros y post' E. pose proof Hpost as Hp. rewrite E in Hp. destruct Hp as (_ & _ & _ & Hp).
    rewrite E in Hnd, Hno. rewrite app_comm_cons, (cons_middle x), (app_assoc _ [x]) in Hnd.
    apply NoDup_app in Hnd as (_ & Hdis & Hndp).
    apply (seg_frame t); [done|done| |].
    - intros z Hz. simpl. split; [|done]. assert (0 <= y < N) by (apply Hno; set_solver).
      rewrite !zget_upd by (rewrite ?length_upd; lia). rewrite !decide_False; [done| |].
      + intros <-. by apply NoDup_cons in Hndp as [? _].
      + intros <-. apply (Hdis x); set_solver.
    - intros z Hz _. simpl. rewrite zget_upd by lia. rewrite decide_False; [done|].
      intros <-. apply (Hdis m); set_solver. }
  assert (post = [] \/ exists y post', post = y :: post') as [E|(y & post' & E)]
    by (destruct post; eauto).
  - exists m. rewrite E, app_nil_r in *. split; [done|]. simpl. rewrite zget_upd by lia.
    by rewrite decide_True.
  - pose proof (seg_after y post' E) as Hs. exists q. rewrite E in *. simpl head_or_nil in *.
    destruct Hpost as (Hry & Hdy & Hly & _). 
    assert (x <> y) as Hxy.
    { intros ->. rewrite app_comm_cons in Hnd. apply NoDup_app in Hnd as (_ & _ & Hnd).
      apply NoDup_cons in Hnd as [Hnd _]. set_solver. }
    split.
    + apply seg_app. exists m. split; [done|]. simpl.
      rewrite !zget_upd by (rewrite ?length_upd; lia).
      rewrite decide_True, decide_False, decide_True by done. by split_and!.
    + simpl. rewrite zget_upd by lia. rewrite decide_False; [done|]. intros <-.
      destruct (seg_end _ _ _ _ Hs) as [[Hmy _]|Hin].
      * rewrite app_comm_cons in Hnd. apply NoDup_app in Hnd as (_ & Hdis & _).
        apply (Hdis m); [set_solver|rewrite Hmy; set_solver].
      * rewrite app_comm_cons in Hnd. apply NoDup_app in Hnd as (_ & Hdis & _).
        apply (Hdis m); set_solver.
Qed.

(** Unlinking keeps the invariant, with the node gone from its chain. *)
Lemma unlink_inv :
  tree_inv (unlink t m x (head_or_nil post)) (fun d => if decide (d = c) then pre ++ post else ch d).
Proof.
  pose proof delete_nodup as Hnd. pose proof post_head as Hh. pose proof delete_nodes as Hno.
  pose proof (ti_rson t ch Hi) as Lr. pose proof (ti_dad t ch Hi) as Ld.
  assert (forall y, y ∈ pre ++ post -> y ∈ ch c) as Hsub by (rewrite Hch; set_solver).
  assert (forall d y, is_byte d -> d <> c -> y ∈ ch d -> y ∉ ch c) as Hdisj.
  { intros d y Hd Hne Hy Hy'. apply Hne. by apply (ti_unique t ch d c y). }
  assert (head_or_nil post = NIL \/ head_or_nil post ∈ ch c) as Hhd.
  { rewrite Hch. destruct post; simpl; [by left|right; set_solver]. }
  split; simpl; rewrite ?length_upd; try apply Hi.
  - intros d Hd. case_decide as E; [rewrite E; apply unlink_chain|].
    apply (chain_other t (unlink t m x (head_or_nil post)) ch); [done|done| |].
    + intros y Hy. split; [|done]. simpl. pose proof (ti_node t ch Hi d y Hd Hy) as [Hyr _].
      pose proof (Hdisj d y Hd E Hy) as Hyc.
      rewrite !zget_upd by (rewrite ?length_upd; lia). rewrite !decide_False; [done| |].
      * intros <-. destruct Hhd as [Hn|Hn]; [unfold NIL in Hn; lia|done].
      * intros <-. apply Hyc. rewrite Hch. set_solver.
    + intros y Hy. simpl. rewrite zget_upd by lia. rewrite decide_False; [done|]. intros <-.
      apply elem_of_cons in Hmin as [Hm1|Hm1]; apply elem_of_cons in Hy as [Hm2|Hm2].
      * apply E. lia.
      * pose proof (ti_node t ch Hi d m Hd Hm2). unfold is_byte in *. lia.
      * assert (0 <= m < N) by (apply Hno; set_solver). unfold is_byte in *. lia.
      * apply (Hdisj d m Hd E Hm2). rewrite Hch. set_solver.
  - intros d y Hd. case_decide as E; [rewrite E|]; intros Hy; apply (ti_node t ch Hi); auto.
  - intros d Hd. case_decide as E; [|by apply (ti_nodup t ch)].
    apply (sublist_NoDup _ (pre ++ x :: post)); [|by apply NoDup_cons in Hnd as [_ ?]].
    apply sublist_app; [done|by constructor].
  - intros y Hy Hni. rewrite !zget_upd by (rewrite ?length_upd; lia).
    case_decide as E1; [done|]. rewrite decide_False.
    + apply (ti_free t ch Hi y Hy). intros d Hd Hin. apply (Hni d Hd). case_decide as E; [|done].
      rewrite E, Hch in Hin. set_solver.
    + intros <-. destruct Hhd as [Hn|Hn]; [unfold NIL in Hn; lia|]. apply (Hni c Hc).
      rewrite decide_True by done. rewrite Hch in Hn. set_solver.
Qed.
End delete.

(** [DeleteNode] never fails, leaves the text and the match alone, and afterwards the
    node is not in the tree and every other node is where it was. *)
Lemma DeleteNode_spec t ch x :
  tree_inv t ch -> 0 <= x < N ->
  exists t' ch', DeleteNode t x = Some t' /\ tree_inv t' ch' /\ text_buf t' = text_buf t /\
    match_position t' = match_position t /\ match_length t' = match_length t /\
    forall y, in_tree ch' y <-> in_tree ch y /\ y <> x.
Proof.
  intros Hi Hx. destruct (zget_lt_is_Some (text_buf t) x) as [c Hc];
    [rewrite (ti_text t ch Hi); unfold F; lia|].
  assert (is_byte c) as Hb by (eapply zget_Forall; [apply (ti_bytes t ch Hi)|done]).
  destruct (decide (x ∈ ch c)) as [Hin|Hni].
  - apply list_elem_of_split in Hin as (pre & post & Hch).
    destruct (chain_split t ch c pre x post Hi Hb Hch) as (m & q & H1 & H2 & H3 & H4 & H5 & H6 & H7 & H8 & H9 & H10).
    eexists _, _. split; [by apply (DeleteNode_present t ch Hi c Hb pre post x Hch m q)|].
    split; [by apply (unlink_inv t ch Hi c Hb pre post x Hch m q)|]. split_and!; try done.
    pose proof (ti_nodup t ch Hi c Hb) as Hnd. rewrite Hch in Hnd.
    apply NoDup_app in Hnd as (_ & Hd1 & [Hd2 _]%NoDup_cons).
    intros y. unfold in_tree. split.
    + intros (d & Hd & Hy). case_decide as E.
      * subst d. split; [exists c; rewrite Hch; set_solver|]. intros ->.
        apply elem_of_app in Hy as [Hy|Hy]; [apply (Hd1 x Hy); set_solver|done].
      * split; [by exists d|]. intros ->. apply E. apply (ti_unique t ch d c x); try done.
        rewrite Hch. set_solver.
    + intros [(d & Hd & Hy) Hne]. exists d. split; [done|]. case_decide as E; [|done].
      subst d. rewrite Hch in Hy. set_solver.
  - assert (~ in_tree ch x) as Hnt.
    { intros (d & Hd & Hy). destruct (ti_node t ch Hi d x Hd Hy) as [_ Hg]. congruence. }
    exists t, ch. split; [by apply (DeleteNode_absent t ch)|]. split_and!; try done.
    intros y. split; [|tauto]. intros Hy. split; [done|]. by intros ->.
Qed.

(** ** Inserting a node *)

(** Changing one chain.  Nodes are sorted into chains by their character, so stores
    to nodes of character [c] leave every other chain alone. *)
Lemma tree_inv_update t t' ch c l :
  tree_inv t ch -> is_byte c -> text_buf t' = text_buf t ->
  zlen (lson t') = N + 1 -> zlen (rson t') = N + 257 -> zlen (dad t') = N + 1 ->
  (exists q, seg t' (N + 1 + c) l q /\ zget (rson t') q = Some NIL) ->
  (forall y, y ∈ l -> 0 <= y < N /\ zget (text_buf t) y = Some c) -> NoDup l ->
  (forall y, 0 <= y < N -> zget (text_buf t) y <> Some c ->
     zget (dad t') y = zget (dad t) y /\ zget (lson t') y = zget (lson t) y /\
     zget (rson t') y = zget (rson t) y) ->
  (forall d, is_byte d -> d <> c -> zget (rson t') (N + 1 + d) = zget (rson t) (N + 1 + d)) ->
  (forall y, 0 <= y < N -> zget (text_buf t) y = Some c -> y ∉ l -> zget (dad t') y = Some NIL) ->
  tree_inv t' (fun d => if decide (d = c) then l else ch d).
Proof.
  intros Hi Hc Ht Ll Lr Ld Hl Hn Hnd Hoth Hroot Hfree.
  assert (forall d y, is_byte d -> d <> c -> y ∈ ch d -> 0 <= y < N /\ zget (text_buf t) y <> Some c) as Hk.
  { intros d y Hd Hne Hy. destruct (ti_node t ch Hi d y Hd Hy) as [? ?]. split; [done|congruence]. }
  split; try done; rewrite ?Ht; try apply Hi.
  - intros d Hd. case_decide as E; [by rewrite E|]. apply (chain_other t t' ch); [done|done| |].
    + intros y Hy. by destruct (Hoth y) as (? & ? & ?); [apply (Hk d)..|].
    + intros y [->|Hy]%elem_of_cons; [by apply Hroot|]. by apply Hoth; apply (Hk d).
  - intros d y Hd. case_decide as E; [rewrite E; apply Hn|]. by apply (ti_node t ch Hi).
  - intros d Hd. case_decide; [done|]. by apply (ti_nodup t ch).
  - intros y Hy Hni. destruct (decide (zget (text_buf t) y = Some c)) as [E|E].
    + apply Hfree; [done|done|]. specialize (Hni c Hc). by rewrite decide_True in Hni.
    + destruct (Hoth y Hy E) as (-> & _). apply (ti_free t ch Hi); [done|]. intros d Hd Hin.
      specialize (Hni d Hd). case_decide as E'; [|done]. subst d.
      by destruct (ti_node t ch Hi c y Hd Hin).
Qed.

(** What the comparison loop finds: the first [i] characters agree. *)
Lemma compare_loop_spec tb r p n : forall i cmp,
  Forall is_byte tb -> 0 <= r -> 0 <= p -> 0 <= i ->
  r + i + Z.of_nat n <= zlen tb -> p + i + Z.of_nat n <= zlen tb -> 0 <= cmp ->
  exists i' cmp', compare_loop n tb r p i cmp = Some (i', cmp') /\ i <= i' <= i + Z.of_nat n /\ 0 <= cmp' /\
    (forall k, i <= k < i' -> zget tb (r + k) = zget tb (p + k)) /\
    (i' < i + Z.of_nat n -> zget tb (r + i') <> zget tb (p + i')).
Proof.
  induction n as [|n IH]; intros i cmp Hb Hr Hp Hi Hrl Hpl Hcmp; simpl.
  { exists i, cmp. split_and!; [done|lia|lia|done| |lia]. intros k Hk. lia. }
  destruct (zget_lt_is_Some tb (r + i)) as [a Ha]; [lia|].
  destruct (zget_lt_is_Some tb (p + i)) as [b Hbb]; [lia|].
  rewrite Ha, Hbb. cbn [mbind option_bind].
  assert (0 <= u16 (a - b)) as H0 by (unfold u16; apply Z.mod_pos_bound; lia).
  destruct (Z.eqb_spec (u16 (a - b)) 0) as [E|E]; simpl.
  - assert (a = b) as Hab.
    { pose proof (zget_Forall _ _ _ _ Hb Ha). pose proof (zget_Forall _ _ _ _ Hb Hbb).
      unfold is_byte, u16 in *. Z.div_mod_to_equations. lia. }
    destruct (IH (i + 1) (u16 (a - b))) as (i' & cmp' & -> & Hi' & Hc' & Hk & Hd); try done; try lia.
    exists i', cmp'. split_and!; [done|lia|lia|done| |intros; apply Hd; lia]. intros k Hki.
    destruct (decide (k = i)) as [->|]; [congruence|]. apply Hk. lia.
  - exists i, (u16 (a - b)). split_and!; [done|lia|lia|done|intros k Hk; lia|].
    rewrite Ha, Hbb. intros _ [= ->]. by rewrite Z.sub_diag in E.
Qed.

(** A match of the string at [r]: none, or a node of the set [P]. *)
Definition matches (tb : list Z) (r : Z) (P : Z -> Prop) (mp ml : Z) : Prop :=
  ml = 0 \/ P mp /\ 0 < ml <= F /\ forall k, 0 <= k < ml -> zget tb (r + k) = zget tb (mp + k).

(** No string of the set [P] shares more than [ml] characters with the one at [r]. *)
Definition longest (tb : list Z) (r : Z) (P : Z -> Prop) (ml : Z) : Prop :=
  forall x l, P x -> 0 <= l <= F -> (forall k, 0 <= k < l -> zget tb (r + k) = zget tb (x + k)) -> l <= ml.

Lemma matches_range tb r P mp ml : matches tb r P mp ml -> 0 <= ml <= F.
Proof. intros [->|(_ & ? & _)]; unfold F in *; lia. Qed.

Section insert_path.
Context (t : lzss) (r c : Z) (P : Z -> Prop).
Context (Hb : Forall is_byte (text_buf t)) (Lt : zlen (text_buf t) = N + F - 1).
Context (Ld : zlen (dad t) = N + 1) (Lr : zlen (rson t) = N + 257).
Context (Hr : 0 <= r < N) (Hrc : zget (text_buf t) r = Some c).
Context (HP : forall x, P x -> 0 <= x < N /\ zget (text_buf t) x = Some c).

(** One round: the comparison with the next node. *)
Lemma compare_node x cmp : P x -> 0 <= cmp ->
  exists i cmp', compare_loop (Z.to_nat (F - 1)) (text_buf t) r x 1 cmp = Some (i, cmp') /\
    0 <= cmp' /\ 0 < i <= F /\ matches (text_buf t) r P x i /\ longest (text_buf t) r (eq x) i.
Proof.
  intros Hx Hcmp. destruct (HP x Hx) as [Hxr Hxc].
  destruct (compare_loop_spec (text_buf t) r x (Z.to_nat (F - 1)) 1 cmp)
    as (i & cmp' & -> & Hi & Hc' & Hk & Hd); try done; try (unfold F in *; lia).
  assert (0 < i <= F) by (unfold F in *; lia).
  exists i, cmp'. split_and!; try done; try lia.
  - right. split_and!; try done; try lia.
    intros k Hkr. destruct (decide (k = 0)) as [->|]; [rewrite !Z.add_0_r; congruence|].
    apply Hk. lia.
  - intros y l <- Hl Heq. destruct (decide (l <= i)) as [|Hgt]; [done|exfalso].
    apply Hd; [unfold F in *; lia|]. apply Heq. lia.
Qed.

Lemma insert_loop_spec rest : forall p q cmp mp ml fuel,
  (length rest < fuel)%nat -> seg t p rest q -> zget (rson t) q = Some NIL ->
  (forall x, x ∈ rest -> P x) -> 0 <= cmp -> matches (text_buf t) r P mp ml ->
  exists mp' ml', matches (text_buf t) r P mp' ml' /\ ml <= ml' /\
    longest (text_buf t) r (fun x => x ∈ rest) ml' /\
    (insert_loop fuel (set_match mp ml t) r p cmp =
       Some (inl (Lzss (text_buf t) (lson t) (upd q r (rson t)) (upd r q (dad t)) mp' ml')) \/
     mp' ∈ rest /\ ml' = F /\
     insert_loop fuel (set_match mp ml t) r p cmp = Some (inr (set_match mp' F t, mp'))).
Proof.
  induction rest as [|x rest IH]; intros p q cmp mp ml fuel Hf Hs Hq Hall Hcmp Hm;
    (destruct fuel as [|fuel]; [simpl in Hf; lia|]); cbn [insert_loop];
    change (rson (set_match mp ml t)) with (rson t); change (text_buf (set_match mp ml t)) with (text_buf t).
  - simpl in Hs. subst p. rewrite (proj2 (Z.leb_le 0 cmp)) by done. rewrite Hq. step.
    rewrite Z.eqb_refl. simpl negb. cbn match. pose proof (zget_Some_lt _ _ _ Hq).
    rewrite put_rson_ok by (simpl; lia). step. rewrite put_dad_ok by (simpl; lia). step.
    exists mp, ml. split_and!; [done|done|by intros x l []%elem_of_nil|]. by left.
  - destruct Hs as (Hrp & _ & _ & Hs). rewrite (proj2 (Z.leb_le 0 cmp)) by done. rewrite Hrp. step.
    assert (P x) as Hx by (apply Hall; set_solver). destruct (HP x Hx) as [Hxr _].
    rewrite (proj2 (Z.eqb_neq x NIL)) by (unfold NIL; lia). simpl negb. cbn match.
    destruct (compare_node x cmp Hx Hcmp) as (i & cmp' & Hcl & Hc' & Hi & Hmx & Hlx).
    change (text_buf (set_match mp ml t)) with (text_buf t). rewrite Hcl. step.
    change (match_length (set_match mp ml t)) with ml.
    assert (forall mp ml, matches (text_buf t) r P mp ml -> _) as IH'
      by (intros mp0 ml0 Hm0; refine (IH x q cmp' mp0 ml0 fuel _ Hs Hq _ Hc' Hm0);
          [simpl in Hf; lia|intros; apply Hall; set_solver]).
    assert (forall ml', i <= ml' -> longest (text_buf t) r (fun y => y ∈ rest) ml' ->
      longest (text_buf t) r (fun y => y ∈ x :: rest) ml') as Hcons.
    { intros ml' Hle Hl y l [->|Hy]%elem_of_cons Hl0 Heq; [|by apply (Hl y)].
      transitivity i; [by apply (Hlx x)|done]. }
    destruct (Z.ltb_spec ml i) as [Hlt|Hge].
    + destruct (Z.leb_spec F i) as [HF|HF].
      * assert (i = F) as -> by lia. exists x, F. split_and!; [done|lia|by intros y l _ [_ ?]|]. right.
        split_and!; [set_solver|done|done].
      * destruct (IH' x i Hmx) as (mp' & ml' & Hm' & Hle & Hl' & [E|(? & ? & E)]); exists mp', ml';
          (split_and!; [done|lia|by apply Hcons|]); [left; exact E|right; split_and!; [set_solver|done|exact E]].
    + destruct (IH' mp ml Hm) as (mp' & ml' & Hm' & Hle & Hl' & [E|(? & ? & E)]); exists mp', ml';
        (split_and!; [done|lia|apply Hcons; [lia|done]|]); [left; exact E|right; split_and!; [set_solver|done|exact E]].
Qed.
End insert_path.

Lemma seg_set_match t mp ml p l q : seg (set_match mp ml t) p l q <-> seg t p l q.
Proof. revert p. induction l as [|x l IH]; intros p; simpl; [done|]. by rewrite IH. Qed.

Lemma tree_inv_match t ch mp ml : tree_inv t ch -> tree_inv (set_match mp ml t) ch.
Proof.
  intros [? ? ? ? ? Hc ? ? ?]. split; try done. intros c Hb. destruct (Hc c Hb) as (q & Hs & Hq).
  exists q. split; [|done]. by apply seg_set_match.
Qed.

Section insert.
Context (t : lzss) (ch : Z -> list Z) (Hi : tree_inv t ch).
Context (r c : Z) (Hr : 0 <= r < N) (Hrc : zget (text_buf t) r = Some c) (Hnew : ~ in_tree ch r).

Lemma insert_byte : is_byte c.
Proof. eapply zget_Forall; [apply (ti_bytes t ch Hi)|exact Hrc]. Qed.

Lemma insert_fresh : r ∉ ch c.
Proof. intros Hin. apply Hnew. exists c. split; [apply insert_byte|done]. Qed.

Lemma root_range : N < N + 1 + c < N + 257.
Proof. pose proof insert_byte as Hb. unfold is_byte in Hb. lia. Qed.

Lemma chain_nodes y : y ∈ ch c -> 0 <= y < N /\ zget (text_buf t) y = Some c.
Proof. apply (ti_node t ch Hi), insert_byte. Qed.

Lemma root_nodup : NoDup (N + 1 + c :: ch c).
Proof. apply (ti_root_NoDup t ch); [done|apply insert_byte]. Qed.


(** Initialising the two sons of the new node disturbs nothing. *)
Lemma blank_inv mp ml :
  tree_inv (Lzss (text_buf t) (upd r NIL (lson t)) (upd r NIL (rson t)) (dad t) mp ml) ch.
Proof.
  pose proof insert_byte as Hb. pose proof insert_fresh as Hf. pose proof root_range as Hrt.
  pose proof chain_nodes as Hn. pose proof root_nodup as Hnd.
  pose proof (ti_lson t ch Hi) as Ll. pose proof (ti_rson t ch Hi) as Lr.
  apply (tree_inv_ext _ (fun d => if decide (d = c) then ch c else ch d)).
  { intros d _. by case_decide as E; [rewrite E|]. }
  apply (tree_inv_update t); simpl; rewrite ?length_upd; try done; try apply Hi; try done.
  - refine (chain_other t (Lzss _ (upd r NIL (lson t)) (upd r NIL (rson t)) _ _ _) ch c Hi Hb _ _);
      intros y Hy; simpl.
    + split; [done|]. rewrite zget_upd by lia. rewrite decide_False; [done|]. by intros <-.
    + rewrite zget_upd by lia. rewrite decide_False; [done|]. intros <-.
      apply elem_of_cons in Hy as [Hy|Hy]; [lia|done].
  - intros y Hy Hne. rewrite !zget_upd by lia. rewrite !decide_False by congruence. done.
  - intros d Hd Hne. rewrite zget_upd by lia. rewrite decide_False; [done|].
    unfold is_byte in Hd. lia.
  - intros y Hy Hyc Hni. apply (ti_free t ch Hi y Hy). intros d Hd Hin.
    destruct (ti_node t ch Hi d y Hd Hin) as [_ Hg]. assert (d = c) as -> by congruence. done.
Qed.

Context (Hrr : zget (rson t) r = Some NIL) (Hrl : zget (lson t) r = Some NIL).

(** Linking the new node after the last one. *)
Lemma append_inv q mp ml :
  seg t (N + 1 + c) (ch c) q -> zget (rson t) q = Some NIL ->
  tree_inv (Lzss (text_buf t) (lson t) (upd q r (rson t)) (upd r q (dad t)) mp ml)
    (fun d => if decide (d = c) then ch c ++ [r] else ch d).
Proof.
  intros Hs Hq.
  pose proof insert_byte as Hb. pose proof insert_fresh as Hf. pose proof root_range as Hrt.
  pose proof chain_nodes as Hn. pose proof root_nodup as Hnd.
  pose proof (ti_dad t ch Hi) as Ld. pose proof (ti_rson t ch Hi) as Lr.
  assert (q ∈ N + 1 + c :: ch c) as Hqin.
  { destruct (seg_end _ _ _ _ Hs) as [[-> _]|?]; set_solver. }
  assert (q <> r /\ 0 <= q < N + 257) as [Hqr Hq0].
  { apply elem_of_cons in Hqin as [->|Hin]; [lia|]. pose proof (Hn q Hin). split; [by intros ->|lia]. }
  apply (tree_inv_update t); simpl; rewrite ?length_upd; try done; try apply Hi; try done.
  - exists r. split.
    + apply seg_app. exists q. split.
      * apply (seg_frame t); [done|done| |]; simpl.
        -- intros y Hy. rewrite zget_upd by lia. rewrite decide_False; [done|]. by intros <-.
        -- intros y Hy Hyq. rewrite zget_upd by lia. by rewrite decide_False by done.
      * simpl. rewrite !zget_upd by lia. by rewrite !decide_True by done.
    + rewrite zget_upd by lia. by rewrite decide_False by done.
  - intros y [Hy|Hy]%elem_of_app; [by apply Hn|]. by apply list_elem_of_singleton in Hy as ->.
  - apply NoDup_app. split_and!; [by apply NoDup_cons in Hnd as [_ ?]| |apply NoDup_singleton].
    intros y Hy Hy2. apply list_elem_of_singleton in Hy2 as ->. done.
  - intros y Hy Hne. rewrite !zget_upd by lia. rewrite !decide_False; [done| |congruence].
    intros <-. apply elem_of_cons in Hqin as [->|Hin]; [lia|]. by destruct (Hn _ Hin).
  - intros d Hd Hne. rewrite zget_upd by lia. rewrite decide_False; [done|]. unfold is_byte in Hd.
    intros ->. apply elem_of_cons in Hqin as [?|Hin]; [lia|]. destruct (Hn _ Hin). lia.
  - intros y Hy Hyc [Hni Hyr]%not_elem_of_app. rewrite zget_upd by lia.
    rewrite decide_False by (intros ->; set_solver). apply (ti_free t ch Hi y Hy). intros d Hd Hin.
    destruct (ti_node t ch Hi d y Hd Hin) as [_ Hg]. assert (d = c) as -> by congruence. done.
Qed.

(** Putting the new node in the place of [p]. *)
Definition replaced (m p h mp ml : Z) : lzss :=
  Lzss (text_buf t) (upd r NIL (lson t)) (upd m r (upd r h (rson t)))
    (upd p NIL (upd h r (upd NIL r (upd r m (dad t))))) mp ml.

Context (pre post : list Z) (p : Z) (Hch : ch c = pre ++ p :: post).
Context (m q : Z) (Hpre : seg t (N + 1 + c) pre m) (Hpost : seg t p post q).
Context (Hq : zget (rson t) q = Some NIL) (Hm : m ∈ N + 1 + c :: pre) (Hm0 : 0 <= m < N + 257).

Lemma replace_distinct : m <> r /\ p <> r /\ 0 <= p < N /\ m <> p.
Proof.
  pose proof root_range as Hrt. pose proof chain_nodes as Hn. pose proof insert_fresh as Hf.
  pose proof root_nodup as Hnd. rewrite Hch in Hnd, Hn, Hf.
  assert (0 <= p < N) as Hp by (apply Hn; set_solver).
  rewrite app_comm_cons in Hnd. apply NoDup_app in Hnd as (_ & Hdis & _).
  split_and!; [|set_solver|lia|lia|intros E; apply (Hdis m Hm); set_solver].
  apply elem_of_cons in Hm as [E|Hin]; [lia|]. intros E. apply Hf. rewrite <- E. set_solver.
Qed.

Lemma replace_head : 0 <= head_or_nil post < N + 1 /\ head_or_nil post <> r /\ head_or_nil post <> p /\
  (head_or_nil post = NIL \/ head_or_nil post ∈ post).
Proof.
  pose proof chain_nodes as Hn. pose proof insert_fresh as Hf.
  pose proof root_nodup as Hnd. rewrite Hch in Hnd, Hn, Hf.
  rewrite app_comm_cons in Hnd. apply NoDup_app in Hnd as (_ & _ & [Hp _]%NoDup_cons).
  assert (0 <= p < N) as Hp0 by (apply Hn; set_solver).
  destruct post as [|y post']; simpl; [unfold NIL; split_and!; try lia; by left|].
  assert (0 <= y < N) by (apply Hn; set_solver).
  split_and!; try lia; [set_solver|set_solver|right; set_solver].
Qed.

Lemma replace_others y : y ∈ pre \/ y ∈ post -> 0 <= y < N /\ y <> r /\ y <> p.
Proof.
  pose proof chain_nodes as Hn. pose proof insert_fresh as Hf. pose proof root_nodup as Hnd.
  rewrite Hch in Hnd, Hn, Hf. rewrite app_comm_cons in Hnd.
  apply NoDup_app in Hnd as (_ & Hdis & [Hpp _]%NoDup_cons). intros Hin.
  assert (y ∈ pre ++ p :: post) as Hin' by set_solver. destruct (Hn y Hin').
  split_and!; [lia..|by intros ->|].
  intros ->. destruct Hin as [Hin|Hin]; [apply (Hdis p); set_solver|done].
Qed.

Lemma replace_disjoint y : y ∈ N + 1 + c :: pre -> y ∉ post.
Proof.
  pose proof root_nodup as Hnd. rewrite Hch, app_comm_cons in Hnd.
  apply NoDup_app in Hnd as (_ & Hdis & _). intros Hy Hy'. apply (Hdis y Hy). set_solver.
Qed.

Context (mp ml : Z).
Notation t' := (replaced m p (head_or_nil post) mp ml).

Lemma replace_lengths : zlen (lson t') = N + 1 /\ zlen (rson t') = N + 257 /\ zlen (dad t') = N + 1.
Proof. simpl. rewrite !length_upd. split_and!; apply Hi. Qed.

Lemma replace_pre : seg t' (N + 1 + c) pre m.
Proof.
  pose proof replace_head as (Hh0 & Hhr & Hhp & Hhin). pose proof root_nodup as Hnd.
  pose proof (ti_dad t ch Hi) as Ld. pose proof (ti_rson t ch Hi) as Lr. pose proof (ti_lson t ch Hi) as Ll.
  rewrite Hch, app_comm_cons in Hnd. apply NoDup_app in Hnd as (Hnd & _ & _).
  pose proof replace_distinct as (Hmr & Hpr & Hp & Hmp). pose proof root_range as Hrt.
  apply (seg_frame t); [done|done| |]; unfold replaced; simpl.
  - intros y Hin. destruct (replace_others y) as (? & ? & ?); [by left|].
    rewrite !zget_upd by (rewrite ?length_upd; unfold NIL; lia).
    rewrite !decide_False; try done; try (unfold NIL; lia). intros <-.
    destruct Hhin as [E|E]; [unfold NIL in E; lia|]. apply (replace_disjoint (head_or_nil post)); set_solver.
  - intros y Hin Hne. rewrite !zget_upd by (rewrite ?length_upd; lia). rewrite !decide_False; try done.
    intros <-. apply elem_of_cons in Hin as [E|Hin]; [lia|]. destruct (replace_others r); auto; lia.
Qed.

Lemma replace_post y post' : post = y :: post' -> seg t' y post' q.
Proof.
  pose proof replace_head as (Hh0 & Hhr & Hhp & Hhin). pose proof root_nodup as Hnd.
  pose proof (ti_dad t ch Hi) as Ld. pose proof (ti_rson t ch Hi) as Lr. pose proof (ti_lson t ch Hi) as Ll.
  rewrite Hch, app_comm_cons in Hnd. apply NoDup_app in Hnd as (_ & _ & [_ Hnd]%NoDup_cons).
  pose proof replace_distinct as (Hmr & Hpr & Hp & Hmp). pose proof root_range as Hrt.
  intros E. pose proof Hpost as Hp'. rewrite E in Hp', Hnd. destruct Hp' as (_ & _ & _ & Hp').
  apply (seg_frame t); [done|done| |]; unfold replaced; simpl.
  - intros z Hz. destruct (replace_others z) as (? & ? & ?); [rewrite E; set_solver|].
    rewrite !zget_upd by (rewrite ?length_upd; unfold NIL; lia).
    rewrite !decide_False; try done; try (unfold NIL; lia). rewrite E. simpl. intros <-.
    by apply NoDup_cons in Hnd as [? _].
  - intros z Hz _. assert (z ∈ post) as Hzp by (rewrite E; set_solver).
    destruct (replace_others z) as (? & ? & ?); [by right|].
    rewrite !zget_upd by (rewrite ?length_upd; lia). rewrite !decide_False; try done.
    intros <-. by apply (replace_disjoint m).
Qed.

Lemma replace_links :
  zget (rson t') m = Some r /\ zget (rson t') r = Some (head_or_nil post) /\
  zget (dad t') r = Some m /\ zget (lson t') r = Some NIL.
Proof.
  pose proof replace_head as (Hh0 & Hhr & Hhp & Hhin).
  pose proof replace_distinct as (Hmr & Hpr & Hp & Hmp). unfold replaced; simpl.
  pose proof (ti_dad t ch Hi) as Ld. pose proof (ti_rson t ch Hi) as Lr. pose proof (ti_lson t ch Hi) as Ll.
  rewrite !zget_upd by (rewrite ?length_upd; unfold NIL; lia).
  repeat first [rewrite decide_True by done | rewrite decide_False by (done || unfold NIL; lia)]. done.
Qed.

Lemma replace_chain :
  exists q', seg t' (N + 1 + c) (pre ++ r :: post) q' /\ zget (rson t') q' = Some NIL.
Proof.
  pose proof replace_distinct as (Hmr & Hpr & Hp & Hmp).
  pose proof replace_head as (Hh0 & Hhr & Hhp & Hhin). pose proof replace_links as (G1 & G2 & G3 & G4).
  pose proof (ti_dad t ch Hi) as Ld. pose proof (ti_rson t ch Hi) as Lr. pose proof (ti_lson t ch Hi) as Ll.
  assert (post = [] \/ exists y post', post = y :: post') as [E|(y & post' & E)] by (destruct post; eauto).
  - exists r. split; [apply seg_app; exists m; split; [apply replace_pre|]; rewrite E in *; by simpl|].
    rewrite G2, E. done.
  - exists q. pose proof (replace_post y post' E) as Hs2. split.
    + apply seg_app. exists m. split; [apply replace_pre|]. rewrite E at 2. cbn [seg].
      rewrite G1, G2, G3, G4, E. simpl head_or_nil.
      pose proof Hpost as Hp'. rewrite E in Hp'. destruct Hp' as (_ & _ & Hl & _).
      rewrite E in Hh0, Hhr, Hhp, Hs2. simpl in Hh0, Hhr, Hhp, Hs2.
      split_and!; try done; unfold replaced; simpl.
      * rewrite !zget_upd by (rewrite ?length_upd; unfold NIL; lia).
        rewrite decide_False by lia. by rewrite decide_True by done.
      * rewrite zget_upd by lia. by rewrite decide_False by lia.
    + assert (q ∈ post) as Hqp by (destruct (seg_end _ _ _ _ Hs2) as [[E2 _]|?]; rewrite E, ?E2; set_solver).
      destruct (replace_others q) as (? & ? & ?); [by right|].
      unfold replaced; simpl. rewrite !zget_upd by (rewrite ?length_upd; lia).
      rewrite !decide_False; try done. intros E2. apply (replace_disjoint m Hm). by rewrite E2.
Qed.

Lemma replace_inv : tree_inv t' (fun d => if decide (d = c) then pre ++ r :: post else ch d).
Proof.
  pose proof replace_lengths as (Ll' & Lr' & Ld'). pose proof insert_byte as Hb.
  pose proof replace_distinct as (Hmr & Hpr & Hp & Hmp). pose proof root_range as Hrt.
  pose proof replace_head as (Hh0 & Hhr & Hhp & Hhin). pose proof chain_nodes as Hn.
  pose proof (ti_dad t ch Hi) as Ld. pose proof (ti_rson t ch Hi) as Lr. pose proof (ti_lson t ch Hi) as Ll.
  assert (p ∈ ch c) as Hpc by (rewrite Hch; set_solver).
  assert (forall y, zget (text_buf t) y <> Some c -> y <> m /\ y <> head_or_nil post \/ N <= y) as Hoth.
  { intros y Hy. destruct (decide (N <= y)) as [|Hlt]; [by right|]. left. split.
    - intros ->. pose proof Hm as [E|Hin]%elem_of_cons; [lia|]. apply Hy, Hn. rewrite Hch. set_solver.
    - intros ->. destruct Hhin as [E|Hin]; [unfold NIL in E; lia|]. apply Hy, Hn. rewrite Hch. set_solver. }
  apply (tree_inv_update t); try done; try apply replace_chain.
  - intros y Hy. apply elem_of_app in Hy as [Hy|Hy]; [apply Hn; rewrite Hch; set_solver|].
    apply elem_of_cons in Hy as [->|Hy]; [done|apply Hn; rewrite Hch; set_solver].
  - pose proof (ti_nodup t ch Hi c Hb) as Hnd. rewrite Hch in Hnd.
    apply NoDup_app in Hnd as (N1 & N2 & [_ N3]%NoDup_cons). apply NoDup_app. split_and!; [done| |].
    + intros y Hy [->|Hy']%elem_of_cons; [destruct (replace_others r); auto; lia|]. apply (N2 y Hy). set_solver.
    + constructor; [|done]. intros Hin. destruct (replace_others r); auto; lia.
  - intros y Hy Hne. destruct (Hoth y Hne) as [[? ?]|?]; [|lia]. unfold replaced; simpl.
    assert (y <> r /\ y <> p) as [? ?] by (split; intros ->; [done|by apply Hne, Hn]).
    rewrite !zget_upd by (rewrite ?length_upd; unfold NIL; lia).
    rewrite !decide_False by (unfold NIL; lia). done.
  - intros d Hd Hne. unfold is_byte in Hd. unfold replaced; simpl.
    rewrite !zget_upd by (rewrite ?length_upd; lia). rewrite !decide_False; try done; [lia|].
    intros E. pose proof Hm as [?|Hin]%elem_of_cons; [lia|]. destruct (replace_others m); auto. lia.
  - intros y Hy Hyc Hni. unfold replaced; simpl. rewrite zget_upd by (rewrite ?length_upd; lia).
    case_decide as E; [done|]. rewrite !zget_upd by (rewrite ?length_upd; unfold NIL; lia).
    rewrite !decide_False.
    + apply (ti_free t ch Hi y Hy). intros d Hd Hin. destruct (ti_node t ch Hi d y Hd Hin) as [_ Hg].
      assert (d = c) as -> by congruence. rewrite Hch in Hin. set_solver.
    + intros <-. set_solver.
    + unfold NIL. lia.
    + intros <-. destruct Hhin as [E'|Hin]; [unfold NIL in E'; lia|]. set_solver.
Qed.

(** The tail of [InsertNode] after a full match. *)
Lemma replace_code : zget (rson t) m = Some p -> zget (dad t) p = Some m -> zget (lson t) p = Some NIL ->
  (dp ← zget (dad (set_match mp ml t)) p; t0 ← put_dad r dp (set_match mp ml t);
    lp ← zget (lson t0) p; t0 ← put_lson r lp t0;
    rp ← zget (rson t0) p; t0 ← put_rson r rp t0;
    lp ← zget (lson t0) p; t0 ← put_dad lp r t0;
    rp ← zget (rson t0) p; t0 ← put_dad rp r t0;
    dp ← zget (dad t0) p;
    rdp ← zget (rson t0) dp;
    t0 ← (if rdp =? p then put_rson dp r t0 else put_lson dp r t0);
    put_dad p NIL t0) = Some t'.
Proof.
  intros Hrm Hdp Hlp.
  pose proof replace_distinct as (Hmr & Hpr & Hp & Hmp). pose proof root_range as Hrt.
  pose proof replace_head as (Hh0 & Hhr & Hhp & Hhin).
  pose proof (ti_dad t ch Hi) as Ld. pose proof (ti_rson t ch Hi) as Lr. pose proof (ti_lson t ch Hi) as Ll.
  unfold set_match. step. rewrite Hdp. step. rewrite put_dad_ok by (simpl; lia). step.
  rewrite Hlp. step. rewrite put_lson_ok by (simpl; lia). step.
  rewrite (seg_rson t p post q Hpost Hq). step. rewrite put_rson_ok by (simpl; lia). step.
  rewrite zget_upd, decide_False by lia. rewrite Hlp. step.
  rewrite put_dad_ok by (simpl; rewrite length_upd; unfold NIL; lia). step.
  rewrite zget_upd, decide_False by lia. rewrite (seg_rson t p post q Hpost Hq). step.
  rewrite put_dad_ok by (simpl; rewrite !length_upd; lia). step.
  rewrite !zget_upd by (rewrite ?length_upd; unfold NIL; lia).
  rewrite !decide_False by (unfold NIL; lia). rewrite Hdp. step.
  rewrite zget_upd, decide_False by lia. rewrite Hrm. step. rewrite Z.eqb_refl.
  rewrite put_rson_ok by (simpl; rewrite length_upd; lia). step.
  by rewrite put_dad_ok by (simpl; rewrite !length_upd; lia).
Qed.
End insert.

(** [InsertNode] never fails, leaves the text alone and at most adds its node; the
    match it reports is a node of the tree whose text agrees with the new string. *)
Lemma InsertNode_spec t ch r :
  tree_inv t ch -> 0 <= r < N -> ~ in_tree ch r ->
  exists t' ch', InsertNode t r = Some t' /\ tree_inv t' ch' /\ text_buf t' = text_buf t /\
    (forall y, in_tree ch' y -> in_tree ch y \/ y = r) /\
    matches (text_buf t) r (in_tree ch) (match_position t') (match_length t') /\
    longest (text_buf t) r (in_tree ch) (match_length t').
Proof.
  intros Hi Hr Hnew. destruct (zget_lt_is_Some (text_buf t) r) as [c Hc];
    [rewrite (ti_text t ch Hi); unfold F; lia|].
  pose proof (insert_byte t ch Hi r c Hc) as Hb.
  pose proof (blank_inv t ch Hi r c Hr Hc Hnew (match_position t) 0) as Hi1.
  set (t1 := Lzss (text_buf t) (upd r NIL (lson t)) (upd r NIL (rson t)) (dad t) (match_position t) 0) in *.
  assert (zget (rson t1) r = Some NIL /\ zget (lson t1) r = Some NIL) as [Hr1 Hl1].
  { unfold t1; simpl. rewrite !zget_upd by (rewrite ?(ti_rson t ch Hi), ?(ti_lson t ch Hi); lia).
    by rewrite !decide_True by done. }
  destruct (ti_chain t1 ch Hi1 c Hb) as (q & Hs & Hq).
  destruct (insert_loop_spec t1 r c (fun x => x ∈ ch c) (ti_bytes _ _ Hi1) (ti_text _ _ Hi1) (ti_dad _ _ Hi1)
    (ti_rson _ _ Hi1) Hr Hc (fun x Hx => ti_node t1 ch Hi1 c x Hb Hx) (ch c) (N + 1 + c) q 1
    (match_position t) 0 (Z.to_nat (N + 1)) ) as (mp & ml & Hm & _ & Hl & Hres); try done.
  { pose proof (chain_length (ch c)). assert (length (ch c) <= Z.to_nat N)%nat; [|unfold N in *; lia].
    apply chain_length; [by apply (ti_nodup t1 ch)|]. intros x Hx. by apply (ti_node t1 ch Hi1 c). }
  { by left. }
  assert (matches (text_buf t) r (in_tree ch) mp ml) as Hm'.
  { destruct Hm as [->|(Hin & ? & ?)]; [by left|right]. split; [by exists c|done]. }
  assert (longest (text_buf t) r (in_tree ch) ml) as Hl'.
  { intros x l (d & Hd & Hx) Hl0 Heq. destruct (decide (l = 0)) as [->|Hne]; [by destruct (matches_range _ _ _ _ _ Hm)|].
    destruct (ti_node t ch Hi d x Hd Hx) as [_ Hg]. pose proof (Heq 0 ltac:(lia)) as H0.
    rewrite !Z.add_0_r, Hc, Hg in H0. simplify_eq. by apply (Hl x). }
  eassert (InsertNode t r = _) as HI.
  { unfold InsertNode. rewrite Hc. step. rewrite put_lson_ok by (rewrite (ti_lson t ch Hi); lia). step.
    rewrite put_rson_ok by (simpl; rewrite (ti_rson t ch Hi); lia). step. reflexivity. }
  change (set_match _ 0 _) with (set_match (match_position t) 0 t1) in HI.
  destruct Hres as [Hres|(Hmp & -> & Hres)]; rewrite Hres in HI; cbn [mbind option_bind] in HI.
  - eexists _, _. split; [exact HI|]. split; [by apply (append_inv t1 ch Hi1 r c)|]. split_and!; try done.
    intros y (d & Hd & Hy). case_decide as E; [|left; by exists d]. subst d.
    apply elem_of_app in Hy as [Hy|Hy]; [left; by exists c|right; by apply list_elem_of_singleton].
  - apply list_elem_of_split in Hmp as (pre & post & Hch).
    destruct (chain_split t1 ch c pre mp post Hi1 Hb Hch) as (m & q' & H1 & H2 & H3 & H4 & H5 & H6 & H7 & H8 & H9 & H10).
    pose proof (replace_code t1 ch Hi1 r c Hr Hc Hnew Hr1 Hl1 pre post mp Hch m q' H1 H5 H6 H10 H7 mp F H2 H3 H4) as Hrc.
    eexists _, _. split; [rewrite HI; exact Hrc|].
    split; [by apply (replace_inv t1 ch Hi1 r c Hr Hc Hnew Hr1 Hl1 pre post mp Hch m q')|]. split_and!; try done.
    intros y (d & Hd & Hy). case_decide as E; [|left; by exists d]. subst d.
    apply elem_of_app in Hy as [Hy|Hy]; [|apply elem_of_cons in Hy as [->|Hy]; [by right|]];
      left; exists c; rewrite Hch; (split; [done|]); apply elem_of_app; [by left|right].
    by apply elem_of_cons; right.
Qed.
