(* ===== verification/LzssText.v ===== *)
(** The text side of the LZSS coder: the ring buffer as a window on one long text,
    the code units as tokens, and the invariant every step of [Encode] keeps. *)

From S2P Require Import Prelude Lzss LzssTree.

(** ** The window *)

(** Positions of the text are absolute; the buffer holds position [v] at [v mod N],
    and, past the first lap, the first [F - 1] cells again after the end. *)
Definition holds (V tb : list Z) (top : Z) : Prop :=
  (forall v, 0 <= v -> top - N <= v < top -> zget tb (v mod N) = zget V v) /\
  (forall v, N <= v -> top - N <= v < top -> v mod N < F - 1 -> zget tb (N + v mod N) = zget V v).

(** Reading up to [F] characters from a node, without wrapping. *)
Lemma holds_at V tb top x k :
  holds V tb top -> 0 <= x -> 0 <= k < F -> top - N <= x + k < top ->
  zget tb (x mod N + k) = zget V (x + k).
Proof.
  intros [H1 H2] Hx Hk Ht. pose proof (Z.mod_pos_bound x N ltac:(unfold N; lia)) as Hm.
  assert (N <= x + k \/ x mod N + k < N) as Hc.
  { unfold N in *. Z.div_mod_to_equations. lia. }
  destruct (decide (x mod N + k < N)) as [Hlt|Hge].
  - rewrite <- H1 by lia. f_equal. unfold N in *. Z.div_mod_to_equations. lia.
  - assert (x mod N + k = N + (x + k) mod N) as E.
    { unfold N, F in *. Z.div_mod_to_equations. lia. }
    rewrite E. apply H2; try lia.
Qed.

(** Reading one more character. *)
Lemma holds_write V tb top c :
  holds V tb top -> zlen tb = N + F - 1 -> N <= top -> zget V top = Some c ->
  let tb1 := upd (top mod N) c tb in
  holds V (if top mod N <? F - 1 then upd (top mod N + N) c tb1 else tb1) (top + 1).
Proof.
  intros [H1 H2] Hl Ht Hc tb1. pose proof (Z.mod_pos_bound top N ltac:(unfold N; lia)) as Hm.
  assert (forall v, top + 1 - N <= v < top -> v mod N <> top mod N) as Hne.
  { intros v Hv. unfold N in *. Z.div_mod_to_equations. lia. }
  assert (forall v, top + 1 - N <= v < top + 1 -> v = top \/ top + 1 - N <= v < top) as Hv by lia.
  unfold tb1. split.
  - intros v Hv0 [->|Hvr]%Hv.
    + destruct (_ <? _) eqn:E; rewrite zget_upd by (rewrite ?length_upd; unfold F in *; lia);
        [rewrite decide_False by (unfold N in *; lia); rewrite zget_upd by (unfold F in *; lia)|];
        by rewrite decide_True.
    + pose proof (Z.mod_pos_bound v N ltac:(unfold N; lia)). pose proof (Hne v Hvr).
      destruct (_ <? _) eqn:E; rewrite zget_upd by (rewrite ?length_upd; unfold F in *; lia);
        [rewrite decide_False by (unfold N in *; lia); rewrite zget_upd by (unfold F in *; lia)|];
        rewrite decide_False by lia; apply H1; lia.
  - intros v Hv0 [->|Hvr]%Hv Hs.
    + rewrite (proj2 (Z.ltb_lt _ _)) by done. rewrite zget_upd by (rewrite ?length_upd; unfold F in *; lia).
      by rewrite decide_True by lia.
    + pose proof (Z.mod_pos_bound v N ltac:(unfold N; lia)). pose proof (Hne v Hvr).
      destruct (_ <? _) eqn:E; rewrite zget_upd by (rewrite ?length_upd; unfold F in *; lia);
        [rewrite decide_False by (unfold N in *; lia); rewrite zget_upd by (unfold F in *; lia)|];
        rewrite decide_False by lia; apply H2; lia.
Qed.

(** ** Tokens *)

Inductive token := Lit (c : Z) | Ref (mp ml : Z).

Definition tok_len (k : token) : Z := match k with Lit _ => 1 | Ref _ ml => ml end.

(** A token is right at position [cr] of the text: the character there, or a string
    that starts in the window and agrees with the text there. *)
Definition tok_ok (V : list Z) (cr : Z) (k : token) : Prop :=
  match k with
  | Lit c => zget V cr = Some c
  | Ref mp ml =>
      THRESHOLD < ml <= F /\ cr + ml <= zlen V /\
      exists vp, 0 <= vp /\ cr + F - N <= vp < cr /\ mp = vp mod N /\
        forall k, 0 <= k < ml -> zget V (vp + k) = zget V (cr + k)
  end.

Fixpoint toks_ok (V : list Z) (cr : Z) (ks : list token) : Prop :=
  match ks with
  | [] => True
  | k :: ks => tok_ok V cr k /\ toks_ok V (cr + tok_len k) ks
  end.

Fixpoint toks_len (ks : list token) : Z :=
  match ks with [] => 0 | k :: ks => tok_len k + toks_len ks end.

Lemma toks_ok_app V cr ks ks' :
  toks_ok V cr (ks ++ ks') <-> toks_ok V cr ks /\ toks_ok V (cr + toks_len ks) ks'.
Proof.
  revert cr. induction ks as [|k ks IH]; intros cr; simpl; [by rewrite Z.add_0_r; naive_solver|].
  rewrite IH, Z.add_assoc. naive_solver.
Qed.

Lemma toks_len_app ks ks' : toks_len (ks ++ ks') = toks_len ks + toks_len ks'.
Proof. induction ks as [|k ks IH]; simpl; lia. Qed.

(** The bytes of a token, and of a group of up to eight after its flag byte. *)
Definition tok_bytes (k : token) : list Z :=
  match k with
  | Lit c => [c]
  | Ref mp ml => [u8 mp; u8 (Z.lor (Z.land (Z.shiftr mp 4) 0xf0) (ml - (THRESHOLD + 1)))]
  end.

Definition is_lit (k : token) : bool := match k with Lit _ => true | Ref _ _ => false end.

Fixpoint flags (g : list token) : Z :=
  match g with [] => 0 | k :: g => Z.b2z (is_lit k) + 2 * flags g end.

Definition units (g : list token) : list Z := concat (tok_bytes <$> g).
Definition group_bytes (g : list token) : list Z := flags g :: units g.

Lemma flags_range g : 0 <= flags g < 2 ^ zlen g.
Proof.
  induction g as [|k g IH]; [done|]. cbn [flags length]. rewrite Nat2Z.inj_succ, Z.pow_succ_r by lia.
  destruct (is_lit k); simpl Z.b2z; lia.
Qed.

Lemma flags_snoc g k : flags (g ++ [k]) = flags g + Z.b2z (is_lit k) * 2 ^ zlen g.
Proof.
  induction g as [|k' g IH]; cbn [flags length app].
  - change (2 ^ Z.of_nat 0) with 1. lia.
  - rewrite IH, Nat2Z.inj_succ, Z.pow_succ_r by lia. lia.
Qed.

Lemma flags_lor g : Z.lor (flags g) (2 ^ zlen g) = flags g + 2 ^ zlen g.
Proof.
  pose proof (flags_range g) as Hf. rewrite <- (Z.mul_1_l (2 ^ zlen g)) at 1.
  rewrite <- Z.shiftl_mul_pow2, Z.lor_comm, lor_shiftl_add by lia. lia.
Qed.

Lemma units_snoc g k : units (g ++ [k]) = units g ++ tok_bytes k.
Proof. unfold units. rewrite fmap_app, concat_app. simpl. by rewrite app_nil_r. Qed.

Lemma units_length g : zlen g <= zlen (units g) <= 2 * zlen g.
Proof.
  induction g as [|k g IH]; [done|]. unfold units in *. cbn [fmap list_fmap concat]. rewrite length_app.
  destruct k; simpl; lia.
Qed.

(** ** The tree as a set of text positions *)

Definition nodes_in (ch : Z -> list Z) (lo hi : Z) : Prop :=
  forall x, in_tree ch x -> exists vx, 0 <= vx /\ lo <= vx <= hi /\ x = vx mod N.

(** The match [InsertNode] reports for position [cr], read on the text. *)
Definition found (V : list Z) (cr len mp ml : Z) : Prop :=
  ml = 0 \/
  0 < ml <= F /\ exists vp, 0 <= vp /\ cr + F - N <= vp < cr /\ mp = vp mod N /\
    forall k, 0 <= k < ml -> k < len -> zget V (vp + k) = zget V (cr + k).

Lemma found_range V cr len mp ml : found V cr len mp ml -> 0 <= ml <= F.
Proof. intros [->|[? _]]; unfold F in *; lia. Qed.

Lemma remove_node t ch cr :
  tree_inv t ch -> N - F <= cr -> nodes_in ch (cr + F - N) cr ->
  exists t' ch', DeleteNode t ((cr + F) mod N) = Some t' /\ tree_inv t' ch' /\
    text_buf t' = text_buf t /\ nodes_in ch' (cr + 1 + F - N) cr /\ ~ in_tree ch' ((cr + F) mod N).
Proof.
  intros Hi Hcr Hn. destruct (DeleteNode_spec t ch ((cr + F) mod N) Hi)
    as (t' & ch' & HD & Hi' & Ht & _ & _ & Hin); [apply Z.mod_pos_bound; unfold N; lia|].
  exists t', ch'. split_and!; try done; [|by intros [_ ?]%Hin].
  intros x [Hx Hne]%Hin. destruct (Hn x Hx) as (vx & H0 & Hr & ->). exists vx. split_and!; try done; try lia.
  destruct (decide (vx = cr + F - N)) as [->|]; [|lia]. exfalso. apply Hne.
  unfold N in *. Z.div_mod_to_equations. lia.
Qed.

Lemma register_node V t ch cr len :
  tree_inv t ch -> N - F <= cr -> 0 < len <= F -> holds V (text_buf t) (cr + len) ->
  nodes_in ch (cr + F - N) (cr - 1) ->
  exists t' ch', InsertNode t (cr mod N) = Some t' /\ tree_inv t' ch' /\ text_buf t' = text_buf t /\
    nodes_in ch' (cr + F - N) cr /\ found V cr len (match_position t') (match_length t').
Proof.
  intros Hi Hcr Hlen Hh Hn. destruct (InsertNode_spec t ch (cr mod N) Hi) as (t' & ch' & HI & Hi' & Ht & Hin & Hm & _).
  - apply Z.mod_pos_bound; unfold N; lia.
  - intros (vx & H0 & Hr & E)%Hn. unfold N, F in *. Z.div_mod_to_equations. lia.
  - exists t', ch'. split_and!; try done.
    + intros x [Hx| ->]%Hin; [destruct (Hn x Hx) as (vx & ? & ? & ->); exists vx|exists cr];
        unfold N, F in *; split_and!; try done; lia.
    + destruct Hm as [->|(Hx & Hml & Hk)]; [by left|right]. split; [done|].
      destruct (Hn _ Hx) as (vp & H0 & Hr & E). exists vp. split_and!; try done; try lia.
      intros k Hkm Hkl. specialize (Hk k Hkm). rewrite E in Hk.
      rewrite (holds_at V _ (cr + len) vp k) in Hk by (unfold N, F in *; done || lia).
      rewrite (holds_at V _ (cr + len) cr k) in Hk by (unfold N, F in *; done || lia). done.
Qed.

(** ** The encoder invariant *)

(** [cr] is the text position of [r]; [fresh] says that the reported match is the one
    of [cr], which does not hold between the output of a unit and the next insertion. *)
Record enc_inv (V : list Z) (inLen : Z) (fresh : Prop) (e : encoder) (cr : Z) (ch : Z -> list Z) : Prop := {
  ei_tree : tree_inv (e_tree e) ch;
  ei_r : e_r e = cr mod N;
  ei_s : e_s e = (cr + F) mod N;
  ei_cr : N - F <= cr;
  ei_top : cr + e_len e = N - F + e_pos e;
  ei_len : 0 <= e_len e <= F;
  ei_pos : e_pos e <= inLen;
  ei_full : e_len e = F \/ e_pos e = inLen;
  ei_text : holds V (text_buf (e_tree e)) (cr + e_len e);
  ei_nodes : nodes_in ch (cr + F - N) cr;
  ei_match : fresh -> 0 < e_len e -> found V cr (e_len e) (match_position (e_tree e)) (match_length (e_tree e))
}.

Lemma enc_inv_weaken V inLen (fresh fresh' : Prop) e cr ch :
  (fresh' -> fresh) -> enc_inv V inLen fresh e cr ch -> enc_inv V inLen fresh' e cr ch.
Proof. intros Hf []. split; auto. Qed.

(** The parts of the state the window loops leave alone. *)
Definition same_code (e e' : encoder) : Prop :=
  e_code e' = e_code e /\ e_ptr e' = e_ptr e /\ e_mask e' = e_mask e /\ e_out e' = e_out e.

Definition text_of (ucInput : list Z) : list Z := replicate (Z.to_nat (N - F)) 32 ++ ucInput.

Lemma text_of_input ucInput i : 0 <= i -> zget (text_of ucInput) (N - F + i) = zget ucInput i.
Proof.
  intros Hi. unfold text_of. rewrite zget_app_r; rewrite length_replicate; [|unfold N, F; lia].
  f_equal. unfold N, F. lia.
Qed.

Lemma text_of_length ucInput : zlen (text_of ucInput) = N - F + zlen ucInput.
Proof. unfold text_of. rewrite length_app, length_replicate. unfold N, F. lia. Qed.

Lemma advance_mod x : advance (x mod N) = (x + 1) mod N.
Proof.
  unfold advance. change (N - 1) with (Z.ones 12). rewrite Z.land_ones by lia.
  change (2 ^ 12) with N. unfold N. Z.div_mod_to_equations. lia.
Qed.

Lemma tree_inv_set_text t ch s c tb :
  tree_inv t ch -> ~ in_tree ch s -> 0 <= s < N -> is_byte c ->
  zlen tb = N + F - 1 -> Forall is_byte tb ->
  (forall x, 0 <= x < N -> x <> s -> zget tb x = zget (text_buf t) x) ->
  tree_inv (set_text tb t) ch.
Proof.
  intros Hi Hs Hsr Hc Hl Hb Hsame. split; try done; try apply Hi.
  - intros d Hd. apply (chain_other t (set_text tb t) ch); done.
  - intros d x Hd Hx. destruct (ti_node t ch Hi d x Hd Hx) as [Hxr Hg]. split; [done|].
    simpl. rewrite Hsame; [done|done|]. intros ->. apply Hs. by exists d.
Qed.

Lemma Forall_upd (P : Z -> Prop) i x l : Forall P l -> P x -> Forall P (upd i x l).
Proof. intros Hl Hx. by apply Forall_insert. Qed.

Section window.
Context (ucInput : list Z) (Hbytes : Forall is_byte ucInput).
Notation V := (text_of ucInput).
Notation inLen := (zlen ucInput).

(** One more byte read into the window. *)
Lemma read_step_spec fresh e cr ch :
  enc_inv V inLen fresh e cr ch -> e_pos e < inLen ->
  exists e' ch', read_step ucInput e = Some e' /\ enc_inv V inLen True e' (cr + 1) ch' /\
    e_len e' = e_len e /\ e_pos e' = e_pos e + 1 /\ same_code e e'.
Proof.
  intros [Ht Er Es Hcr Htop Hlen Hpos Hfull Htext Hnodes _] Hlt.
  assert (e_len e = F) as HF by lia. rewrite HF in Htext, Htop.
  assert (0 <= e_pos e) as Hp0 by lia.
  destruct (zget_lt_is_Some ucInput (e_pos e)) as [c Hc]; [lia|].
  assert (is_byte c) as Hcb by (by eapply zget_Forall).
  destruct (remove_node _ ch cr Ht Hcr Hnodes) as (t1 & ch1 & HD & Hi1 & Ht1 & Hn1 & Hs1).
  pose proof (Z.mod_pos_bound (cr + F) N ltac:(unfold N; lia)) as Hsr.
  pose proof (ti_text t1 ch1 Hi1) as Hl1. pose proof (ti_bytes t1 ch1 Hi1) as Hb1.
  set (s := (cr + F) mod N) in *.
  set (tb := if s <? F - 1 then upd (s + N) c (upd s c (text_buf t1)) else upd s c (text_buf t1)).
  assert (tree_inv (set_text tb t1) ch1) as Hi2.
  { apply (tree_inv_set_text t1 ch1 s c); try done; unfold tb.
    - destruct (s <? F - 1); by rewrite !length_upd.
    - destruct (s <? F - 1); by repeat apply Forall_upd.
    - intros x Hx Hne. destruct (s <? F - 1) eqn:E;
        rewrite !zget_upd by (rewrite ?length_upd; unfold F in *; lia); rewrite !decide_False by lia; done. }
  assert (holds V tb (cr + 1 + F)) as Hh.
  { replace (cr + 1 + F) with (cr + F + 1) by lia. apply holds_write; try done; [by rewrite Ht1|unfold N, F in *; lia|].
    rewrite Htop. by rewrite text_of_input. }
  destruct (register_node V (set_text tb t1) ch1 (cr + 1) F) as (t2 & ch2 & HI & Hi3 & Ht2 & Hn2 & Hf2);
    try done; try (unfold F in *; lia).
  { replace (cr + 1 - 1) with cr by lia. done. }
  eexists _, ch2. split.
  { unfold read_step. rewrite Hc. cbn [mbind option_bind]. rewrite Es, HD. cbn [mbind option_bind].
    rewrite zset_upd by (unfold F in *; lia). cbn [mbind option_bind].
    assert ((if s <? F - 1 then zset (upd s c (text_buf t1)) (s + N) c else Some (upd s c (text_buf t1)))
      = Some tb) as ->.
    { unfold tb. destruct (s <? F - 1) eqn:E; [|done]. rewrite zset_upd; [done|]. rewrite length_upd. lia. }
    cbn [mbind option_bind]. rewrite Er, advance_mod, HI. reflexivity. }
  split; [|by split_and!]. split; simpl; try done; try lia.
  - unfold s. rewrite advance_mod. f_equal. lia.
  - rewrite HF, Ht2. simpl. done.
  - by rewrite HF.
Qed.

(** One position past the end of the input. *)
Lemma tail_step_spec fresh e cr ch :
  enc_inv V inLen fresh e cr ch -> e_pos e = inLen -> 0 < e_len e ->
  exists e' ch', tail_step e = Some e' /\ enc_inv V inLen True e' (cr + 1) ch' /\
    e_len e' = e_len e - 1 /\ e_pos e' = e_pos e /\ same_code e e'.
Proof.
  intros [Ht Er Es Hcr Htop Hlen Hpos Hfull Htext Hnodes _] Hend H0.
  destruct (remove_node _ ch cr Ht Hcr Hnodes) as (t1 & ch1 & HD & Hi1 & Ht1 & Hn1 & Hs1).
  assert (exists t2 ch2, (if negb (e_len e - 1 =? 0) then InsertNode t1 ((cr + 1) mod N) else Some t1) = Some t2
    /\ tree_inv t2 ch2 /\ text_buf t2 = text_buf t1 /\ nodes_in ch2 (cr + 1 + F - N) (cr + 1) /\
    (0 < e_len e - 1 -> found V (cr + 1) (e_len e - 1) (match_position t2) (match_length t2)))
    as (t2 & ch2 & HI & Hi2 & Ht2 & Hn2 & Hf2).
  { destruct (Z.eqb_spec (e_len e - 1) 0) as [E|E]; simpl.
    - exists t1, ch1. split_and!; try done; [|lia]. intros x Hx. destruct (Hn1 x Hx) as (vx & ? & ? & ->).
      exists vx. split_and!; try done; lia.
    - destruct (register_node V t1 ch1 (cr + 1) (e_len e - 1)) as (t2 & ch2 & ? & ? & ? & ? & ?);
        try done; try lia.
      + rewrite Ht1. by replace (cr + 1 + (e_len e - 1)) with (cr + e_len e) by lia.
      + by replace (cr + 1 - 1) with cr by lia.
      + exists t2, ch2. by split_and!. }
  eexists _, ch2. split.
  { unfold tail_step. rewrite Es, HD. cbn [mbind option_bind]. rewrite Er, advance_mod, HI. reflexivity. }
  split; [|by split_and!]. split; simpl; try done; try lia.
  - rewrite advance_mod. f_equal. lia.
  - rewrite Ht2, Ht1. by replace (cr + 1 + (e_len e - 1)) with (cr + e_len e) by lia.
Qed.

Lemma read_loop_spec n : forall fresh e cr ch,
  enc_inv V inLen fresh e cr ch -> Z.of_nat n <= e_len e ->
  exists e' rest ch', read_loop ucInput inLen n e = Some (e', rest) /\ (rest <= n)%nat /\
    enc_inv V inLen (fresh \/ (rest < n)%nat) e' (cr + Z.of_nat (n - rest)) ch' /\ Z.of_nat rest <= e_len e' /\
    (rest = O \/ e_pos e' = inLen) /\ same_code e e'.
Proof.
  induction n as [|n IH]; intros fresh e cr ch Hi Hn.
  { exists e, O, ch. split_and!; try done; [|by left]. rewrite Z.add_0_r. apply (enc_inv_weaken _ _ fresh); [|done].
    by intros [?|?%Nat.nlt_0_r]. }
  cbn [read_loop]. destruct (Z.ltb_spec (e_pos e) inLen) as [Hlt|Hge].
  - destruct (read_step_spec fresh e cr ch Hi Hlt) as (e1 & ch1 & -> & Hi1 & Hl1 & _ & Hs1).
    cbn [mbind option_bind]. destruct (IH True e1 (cr + 1) ch1 Hi1) as (e2 & rest & ch2 & -> & Hr & Hi2 & Hl2 & Hor & Hs2);
      [lia|]. exists e2, rest, ch2. split_and!; try done; [lia| |].
    + replace (cr + Z.of_nat (S n - rest)) with (cr + 1 + Z.of_nat (n - rest)) by lia.
      eapply enc_inv_weaken; [|exact Hi2]. by left.
    + unfold same_code in *. destruct Hs1 as (? & ? & ? & ?), Hs2 as (? & ? & ? & ?). split_and!; congruence.
  - exists e, (S n), ch. split_and!; try done; [|right; pose proof (ei_pos _ _ _ _ _ _ Hi); lia].
    rewrite Nat.sub_diag, Z.add_0_r. apply (enc_inv_weaken _ _ fresh); [|done]. intros [?|?]; [done|lia].
Qed.

Lemma tail_loop_spec n : forall fresh e cr ch,
  enc_inv V inLen fresh e cr ch -> Z.of_nat n <= e_len e -> n = O \/ e_pos e = inLen ->
  exists e' ch', tail_loop n e = Some e' /\ enc_inv V inLen (fresh \/ (0 < n)%nat) e' (cr + Z.of_nat n) ch' /\ same_code e e'.
Proof.
  induction n as [|n IH]; intros fresh e cr ch Hi Hn Hor.
  { exists e, ch. split_and!; try done. rewrite Z.add_0_r. apply (enc_inv_weaken _ _ fresh); [|done].
    by intros [?|?%Nat.nlt_0_r]. }
  destruct Hor as [?|Hend]; [done|]. cbn [tail_loop].
  destruct (tail_step_spec fresh e cr ch Hi Hend) as (e1 & ch1 & -> & Hi1 & Hl1 & Hp1 & Hs1); [lia|].
  cbn [mbind option_bind]. destruct (IH True e1 (cr + 1) ch1 Hi1) as (e2 & ch2 & -> & Hi2 & Hs2); [lia|right; lia|].
  exists e2, ch2. split_and!; try done.
  + replace (cr + Z.of_nat (S n)) with (cr + 1 + Z.of_nat n) by lia.
    eapply enc_inv_weaken; [|exact Hi2]. by left.
  + unfold same_code in *. destruct Hs1 as (? & ? & ? & ?), Hs2 as (? & ? & ? & ?). split_and!; congruence.
Qed.
End window.
