(* ===== verification/LzssCode.v ===== *)
(** The output side of [Encode]: code units collected in groups of eight, and the
    main loop as a producer of correct tokens. *)

From S2P Require Import Prelude Lzss LzssTree LzssText.

(** ** The code buffer *)

(** [groups] have been written out, [g] is still in [code_buf]. *)
Record code_inv (e : encoder) (groups : list (list token)) (g : list token) : Prop := {
  ci_length : length (e_code e) = 17%nat;
  ci_code : exists rest, e_code e = group_bytes g ++ rest;
  ci_ptr : e_ptr e = zlen (group_bytes g);
  ci_mask : e_mask e = 2 ^ zlen g;
  ci_small : zlen g < 8;
  ci_full : Forall (fun h : list token => length h = 8%nat) groups;
  ci_out : e_out e = concat (group_bytes <$> groups)
}.

Lemma code_inv_same e e' groups g : same_code e e' -> code_inv e groups g -> code_inv e' groups g.
Proof.
  intros (E1 & E2 & E3 & E4) []. split; rewrite ?E1, ?E2, ?E3, ?E4; done.
Qed.

Lemma group_bytes_length g : zlen (group_bytes g) = 1 + zlen (units g).
Proof. unfold group_bytes. cbn [length]. lia. Qed.

(** Appending a unit to the buffer. *)
Lemma put_lit e groups g c :
  code_inv e groups g ->
  exists code rest,
    (c0 ← zget (e_code e) 0; code ← zset (e_code e) 0 (Z.lor c0 (e_mask e)); zset code (e_ptr e) c) = Some code /\
    code = group_bytes (g ++ [Lit c]) ++ rest /\ length code = 17%nat /\
    e_ptr e + 1 = zlen (group_bytes (g ++ [Lit c])).
Proof.
  intros [Hl [rest Hc] Hp Hm Hs _ _]. rewrite Hc in Hl. pose proof (units_length g) as Hu.
  rewrite Hc, Hp, Hm. 
  unfold group_bytes in Hl. simpl in Hl. rewrite length_app in Hl.
  destruct rest as [|x rest]; [simpl in Hl; lia|].
  exists (group_bytes (g ++ [Lit c]) ++ rest), rest.
  split_and!; [|done| |].
  - change (group_bytes g ++ x :: rest) with (flags g :: units g ++ x :: rest).
    change (zget (flags g :: units g ++ x :: rest) 0) with (Some (flags g)). cbn [mbind option_bind].
    rewrite zset_Some by (simpl; lia). cbn [mbind option_bind]. cbn [Z.to_nat insert list_insert].
    rewrite group_bytes_length, zset_Some by (simpl; rewrite length_app; simpl; lia).
    f_equal. replace (Z.to_nat (1 + zlen (units g))) with (S (length (units g))) by lia.
    change (<[Z.to_nat 0 := ?y]> (?z :: ?l)) with (y :: l).
    change (<[S ?n := ?y]> (?z :: ?l)) with (z :: <[n := y]> l).
    rewrite insert_app_r_alt, Nat.sub_diag by lia. cbn [insert list_insert].
    unfold group_bytes. rewrite flags_snoc, units_snoc, flags_lor. simpl Z.b2z. rewrite Z.mul_1_l.
    simpl. by rewrite <- app_assoc.
  - unfold group_bytes. rewrite units_snoc. simpl. rewrite !length_app. simpl. simpl in Hl. lia.
  - rewrite !group_bytes_length, units_snoc, length_app. simpl. lia.
Qed.

Lemma put_ref e groups g mp ml :
  code_inv e groups g ->
  exists code rest,
    (code ← zset (e_code e) (e_ptr e) (u8 mp);
     zset code (e_ptr e + 1) (u8 (Z.lor (Z.land (Z.shiftr mp 4) 0xf0) (ml - (THRESHOLD + 1))))) = Some code /\
    code = group_bytes (g ++ [Ref mp ml]) ++ rest /\ length code = 17%nat /\
    e_ptr e + 2 = zlen (group_bytes (g ++ [Ref mp ml])).
Proof.
  intros [Hl [rest Hc] Hp Hm Hs _ _]. rewrite Hc in Hl. pose proof (units_length g) as Hu.
  rewrite Hc, Hp. assert (zlen (group_bytes g) = 1 + zlen (units g)) as Hg by apply group_bytes_length.
  rewrite length_app in Hl. destruct rest as [|x [|y rest]]; [simpl in Hl; lia..|].
  set (b2 := u8 (Z.lor _ _)).
  exists (group_bytes (g ++ [Ref mp ml]) ++ rest), rest. split_and!; [|done| |].
  - rewrite zset_Some by (rewrite length_app; simpl; lia). cbn [mbind option_bind].
    rewrite zset_Some by (rewrite length_insert, length_app; simpl; lia). f_equal.
    rewrite Nat2Z.id. rewrite insert_app_r_alt, Nat.sub_diag by lia. cbn [insert list_insert].
    replace (Z.to_nat (zlen (group_bytes g) + 1)) with (length (group_bytes g) + 1)%nat by lia.
    rewrite insert_app_r. cbn [insert list_insert].
    unfold group_bytes. rewrite flags_snoc, units_snoc. simpl Z.b2z. rewrite Z.mul_0_l, Z.add_0_r.
    simpl. by rewrite <- app_assoc.
  - unfold group_bytes. rewrite units_snoc. simpl. rewrite !length_app. simpl. simpl in Hl. lia.
  - rewrite !group_bytes_length, units_snoc, length_app. simpl. lia.
Qed.

(** Shifting the mask, and writing the buffer out when it is full. *)
Lemma mask_shift (g : list token) k : zlen g < 8 ->
  u8 (Z.shiftl (2 ^ zlen g) 1) = if decide (zlen g = 7) then 0 else 2 ^ zlen (g ++ [k]).
Proof.
  intros Hg. rewrite length_app. simpl. replace (Z.of_nat (length g + 1)) with (zlen g + 1) by lia.
  rewrite Z.shiftl_mul_pow2, Z.pow_add_r by lia. unfold u8.
  assert (zlen g ∈ seqZ 0 8) as Hin by (apply elem_of_seqZ; lia). revert Hin.
  generalize (zlen g). intros n Hin. revert n Hin. apply Forall_forall. vm_compute. by repeat constructor.
Qed.

Lemma flush_spec e groups g k code rest ptr :
  code_inv e groups g -> code = group_bytes (g ++ [k]) ++ rest -> length code = 17%nat ->
  ptr = zlen (group_bytes (g ++ [k])) ->
  forall t, exists e' groups' g',
    (let mask := u8 (Z.shiftl (e_mask e) 1) in
     if mask =? 0 then
       unit ← zslice code 0 ptr;
       code ← zset code 0 0;
       Some (Encoder t (e_len e) (e_r e) (e_s e) (e_pos e) code 1 1 (e_out e ++ unit))
     else
       Some (Encoder t (e_len e) (e_r e) (e_s e) (e_pos e) code ptr mask (e_out e))) = Some e' /\
    code_inv e' groups' g' /\ concat groups' ++ g' = concat groups ++ g ++ [k] /\
    e_tree e' = t /\ e_len e' = e_len e /\ e_r e' = e_r e /\ e_s e' = e_s e /\ e_pos e' = e_pos e.
Proof.
  intros [_ _ _ Hm Hs Hfull Hout] Hc Hl Hp t. cbv zeta. rewrite Hm, (mask_shift g k Hs).
  case_decide as Hg.
  - rewrite Z.eqb_refl. eexists _, (groups ++ [g ++ [k]]), []. split_and!.
    + rewrite Hc, Hp. pose proof (zslice_app [] (group_bytes (g ++ [k])) rest) as Hsl. cbn [app] in Hsl.
      change (zlen []) with 0 in Hsl. rewrite Hsl. cbn [mbind option_bind].
      rewrite zset_Some by (rewrite length_app, Nat2Z.inj_add, group_bytes_length; lia). reflexivity.
    + split; simpl; try done.
      * rewrite Hc in Hl. by rewrite <- Hl.
      * eexists. reflexivity.
      * apply Forall_app. split; [done|]. constructor; [|done]. rewrite length_app. simpl. lia.
      * rewrite fmap_app, concat_app, Hout. simpl. by rewrite app_nil_r.
    + rewrite concat_app. simpl. by rewrite !app_nil_r.
    + done. + done. + done. + done. + done.
  - rewrite (proj2 (Z.eqb_neq _ 0)) by (pose proof (Z.pow_pos_nonneg 2 (zlen (g ++ [k]))); lia).
    eexists _, groups, (g ++ [k]). split_and!; try done. split; simpl; try done.
    + by exists rest.
    + rewrite length_app. simpl. lia.
Qed.

(** One code unit: a token that is right at the current position. *)
Lemma emit_spec ucInput e cr ch groups g :
  enc_inv (text_of ucInput) (zlen ucInput) True e cr ch -> 0 < e_len e -> code_inv e groups g ->
  exists e' k groups' g', emit e = Some e' /\ tok_ok (text_of ucInput) cr k /\
    match_length (e_tree e') = tok_len k /\ 0 < tok_len k <= e_len e /\
    code_inv e' groups' g' /\ concat groups' ++ g' = concat groups ++ g ++ [k] /\
    enc_inv (text_of ucInput) (zlen ucInput) False e' cr ch /\ e_len e' = e_len e.
Proof.
  intros [Ht Er Es Hcr Htop Hlen Hpos Hfull Htext Hnodes Hm] H0 Hci. specialize (Hm I H0).
  pose proof (found_range _ _ _ _ _ Hm) as Hmr. set (t := e_tree e) in *.
  set (ml := if e_len e <? match_length t then e_len e else match_length t).
  assert (exists k code rest ptr,
    (if ml <=? THRESHOLD then
         c0 ← zget (e_code e) 0;
         code ← zset (e_code e) 0 (Z.lor c0 (e_mask e));
         c ← zget (text_buf t) (e_r e);
         code ← zset code (e_ptr e) c;
         Some (1, code, e_ptr e + 1)
       else
         code ← zset (e_code e) (e_ptr e) (u8 (match_position t));
         code ← zset code (e_ptr e + 1)
                  (u8 (Z.lor (Z.land (Z.shiftr (match_position t) 4) 0xf0) (ml - (THRESHOLD + 1))));
         Some (ml, code, e_ptr e + 2)) = Some (tok_len k, code, ptr) /\
    code = group_bytes (g ++ [k]) ++ rest /\ length code = 17%nat /\ ptr = zlen (group_bytes (g ++ [k])) /\
    tok_ok (text_of ucInput) cr k /\ 0 < tok_len k <= e_len e)
    as (k & code & rest & ptr & Hput & Hcode & Hl & Hptr & Hk & Hkl).
  { destruct (Z.leb_spec ml THRESHOLD) as [Hle|Hgt].
    - assert (is_Some (zget (text_of ucInput) cr)) as [c Hc].
      { apply zget_lt_is_Some. rewrite text_of_length. unfold N, F in *. lia. }
      destruct (put_lit e groups g c Hci) as (code & rest & Hput & Hcode & Hl & Hptr).
      exists (Lit c), code, rest, (e_ptr e + 1). split_and!; try done; cbn [tok_ok tok_len]; try lia.
      rewrite Er. replace (cr mod N) with (cr mod N + 0) by lia.
      rewrite (holds_at (text_of ucInput) _ (cr + e_len e) cr 0) by (unfold N, F in *; done || lia).
      rewrite Z.add_0_r, Hc. destruct (zget (e_code e) 0) as [c0|]; [|done].
      simpl in Hput |- *. destruct (zset (e_code e) 0 _) as [code1|]; [|done]. simpl in Hput |- *.
      by rewrite Hput.
    - destruct (put_ref e groups g (match_position t) ml Hci) as (code & rest & Hput & Hcode & Hl & Hptr).
      exists (Ref (match_position t) ml), code, rest, (e_ptr e + 2).
      assert (ml <= e_len e /\ ml <= match_length t) as [Hml1 Hml2]
        by (unfold ml; destruct (Z.ltb_spec (e_len e) (match_length t)); lia).
      split_and!; try done; cbn [tok_ok tok_len]; try (unfold THRESHOLD in *; lia).
      + destruct (zset (e_code e) _ _) as [code1|]; [|done]. simpl in Hput |- *. by rewrite Hput.
      + split; [lia|]. split; [rewrite text_of_length; lia|].
        destruct Hm as [E|(_ & vp & Hv1 & Hv2 & Hv3 & Hv4)]; [unfold THRESHOLD in *; lia|].
        exists vp. split_and!; try done; try lia. intros j Hj. apply Hv4; lia. }
  destruct (flush_spec e groups g k code rest ptr Hci Hcode Hl Hptr (set_match (match_position t) (tok_len k) t))
    as (e' & groups' & g' & He & Hci' & Hcat & E1 & E2 & E3 & E4 & E5).
  exists e', k, groups', g'. split.
  { unfold emit. fold t. fold ml. rewrite Hput. cbn [mbind option_bind]. exact He. }
  split_and!; try done; try lia; [by rewrite E1|].
  split; rewrite ?E1, ?E2, ?E3, ?E4, ?E5; try done; try lia; by apply tree_inv_match.
Qed.

(** ** The main loop *)

Section encode.
Context (ucInput : list Z) (Hbytes : Forall is_byte ucInput).
Notation V := (text_of ucInput).
Notation inLen := (zlen ucInput).

(** Every round consumes at least one character, and the loop ends at the end of
    the text. *)
Lemma encode_loop_spec fuel : forall e cr ch groups g,
  enc_inv V inLen True e cr ch -> 0 < e_len e -> code_inv e groups g ->
  zlen V - cr <= Z.of_nat fuel ->
  exists e' groups' g' ks, encode_loop ucInput inLen fuel e = Some e' /\
    toks_ok V cr ks /\ cr + toks_len ks = zlen V /\ code_inv e' groups' g' /\
    concat groups' ++ g' = concat groups ++ g ++ ks.
Proof.
  induction fuel as [|fuel IH]; intros e cr ch groups g Hi H0 Hci Hf.
  { destruct Hi as [_ _ _ Hcr Htop _ Hpos _ _ _ _]. rewrite text_of_length in Hf. lia. }
  cbn [encode_loop].
  destruct (emit_spec ucInput e cr ch groups g Hi H0 Hci)
    as (e1 & k & groups1 & g1 & -> & Hk & Hml & Hkl & Hci1 & Hcat1 & Hi1 & Hl1). cbn [mbind option_bind].
  destruct (read_loop_spec ucInput Hbytes (Z.to_nat (match_length (e_tree e1))) False e1 cr ch Hi1)
    as (e2 & rest & ch2 & -> & Hr & Hi2 & Hl2 & Hor & Hs2); [lia|]. cbn [mbind option_bind].
  destruct (tail_loop_spec ucInput rest _ e2 _ ch2 Hi2 Hl2 Hor) as (e3 & ch3 & -> & Hi3 & Hs3).
  cbn [mbind option_bind].
  replace (cr + Z.of_nat (Z.to_nat (match_length (e_tree e1)) - rest) + Z.of_nat rest)
    with (cr + tok_len k) in Hi3 by lia.
  apply (enc_inv_weaken _ _ _ True) in Hi3; [|intros _; destruct (decide (0 < rest)%nat); [by right|left; right; lia]].
  pose proof (code_inv_same _ _ _ _ Hs3 (code_inv_same _ _ _ _ Hs2 Hci1)) as Hci3.
  destruct (Z.ltb_spec 0 (e_len e3)) as [Hgo|Hstop].
  - destruct (IH e3 (cr + tok_len k) ch3 groups1 g1 Hi3 Hgo Hci3)
      as (e' & groups' & g' & ks & -> & Hks & Hend & Hci' & Hcat); [lia|].
    exists e', groups', g', (k :: ks). split_and!; try done; [cbn [toks_len]; lia|].
    rewrite Hcat, app_assoc, Hcat1, <- !app_assoc. done.
  - exists e3, groups1, g1, [k]. split_and!; try done.
    destruct Hi3 as [_ _ _ Hcr Htop Hlen Hpos Hfull _ _ _]. cbn [toks_len]. rewrite text_of_length.
    unfold F in *. lia.
Qed.

(** The first [F] bytes go behind the blanks. *)
Lemma read_first_spec n : forall tb r len pos,
  zlen tb = N + F - 1 -> Forall is_byte tb -> 0 <= r -> 0 <= len -> 0 <= pos <= inLen ->
  r + len + Z.of_nat n <= zlen tb ->
  let m := Z.min (Z.of_nat n) (inLen - pos) in
  exists tb', read_first ucInput inLen n tb r len pos = Some (tb', len + m, pos + m) /\
    zlen tb' = N + F - 1 /\ Forall is_byte tb' /\
    forall i, zget tb' i =
      if decide (r + len <= i < r + len + m) then zget ucInput (pos + (i - (r + len))) else zget tb i.
Proof.
  induction n as [|n IH]; intros tb r len pos Hl Hb Hr Hlen Hpos Hfit m; cbn [read_first].
  { exists tb. replace m with 0 by lia. rewrite !Z.add_0_r. split_and!; try done.
    intros i. by rewrite decide_False by lia. }
  destruct (Z.ltb_spec pos inLen) as [Hlt|Hge].
  2:{ exists tb. replace m with 0 by lia. rewrite !Z.add_0_r. split_and!; try done.
    intros i. by rewrite decide_False by lia. }
  destruct (zget_lt_is_Some ucInput pos) as [c Hc]; [lia|]. rewrite Hc. cbn [mbind option_bind].
  rewrite zset_upd by lia. cbn [mbind option_bind].
  destruct (IH (upd (r + len) c tb) r (len + 1) (pos + 1)) as (tb' & -> & Hl' & Hb' & Hg);
    rewrite ?length_upd; try done; try lia.
  { apply Forall_upd; [done|]. exact (zget_Forall is_byte _ _ _ Hbytes Hc). }
  assert (m = 1 + Z.min (Z.of_nat n) (inLen - (pos + 1))) as Em by lia.
  exists tb'. split_and!; try done; [by rewrite Em, !Z.add_assoc|].
  intros i. rewrite Hg, zget_upd by lia. repeat case_decide; try (exfalso; unfold m in *; lia); try done.
  - f_equal. lia.
  - rewrite <- Hc. f_equal. lia.
Qed.

(** The [F] strings of blanks before the text. *)
Lemma insert_first_spec n : forall t ch r i,
  tree_inv t ch -> 1 <= i -> i + Z.of_nat n <= r + 1 -> r <= N ->
  (forall y, in_tree ch y -> r - i < y < r) ->
  exists t' ch', insert_first n t r i = Some t' /\ tree_inv t' ch' /\ text_buf t' = text_buf t /\
    forall y, in_tree ch' y -> r - (i + Z.of_nat n) < y < r.
Proof.
  induction n as [|n IH]; intros t ch r i Hi H1 Hr HN Hin; cbn [insert_first].
  { exists t, ch. split_and!; try done. intros y Hy%Hin. lia. }
  destruct (InsertNode_spec t ch (r - i) Hi) as (t1 & ch1 & -> & Hi1 & Ht1 & Hin1 & _);
    [lia|by intros ?%Hin; lia|]. cbn [mbind option_bind].
  destruct (IH t1 ch1 r (i + 1) Hi1) as (t2 & ch2 & -> & Hi2 & Ht2 & Hin2); try lia.
  { intros y [Hy%Hin|Hy]%Hin1; lia. }
  exists t2, ch2. split_and!; try done; [congruence|]. intros y Hy%Hin2. lia.
Qed.

Lemma InitTree_spec tb ls rs da mp ml :
  zlen ls = N + 1 -> zlen rs = N + 257 -> zlen da = N + 1 ->
  exists rs' da', InitTree (Lzss tb ls rs da mp ml) = Some (Lzss tb ls rs' da' mp ml) /\
    forall tb', zlen tb' = N + F - 1 -> Forall is_byte tb' ->
      tree_inv (Lzss tb' ls rs' da' mp ml) (fun _ => []).
Proof.
  intros Ll Lr Ld. unfold InitTree. cbn [text_buf lson rson dad match_position match_length].
  destruct (zfill_spec rs (N + 1) NIL 256) as (rs' & -> & Lr' & Hr); [unfold N in *; lia..|].
  destruct (zfill_spec da 0 NIL N) as (da' & -> & Ld' & Hd); [unfold N in *; lia..|].
  cbn [mbind option_bind]. exists rs', da'. split; [done|]. intros tb' Hl Hb.
  split; simpl; try done; try lia.
  - intros c Hc. unfold is_byte in Hc. exists (N + 1 + c). split; [done|]. rewrite Hr.
    by rewrite decide_True by lia.
  - intros c x _ []%elem_of_nil.
  - intros c _. constructor.
  - intros x Hx _. rewrite Hd. by rewrite decide_True by lia.
Qed.
End encode.

(** The output format: full groups, then what is left. *)
Definition serialize (groups : list (list token)) (g : list token) : list Z :=
  concat (group_bytes <$> groups) ++ match g with [] => [] | _ => group_bytes g end.

Lemma code_inv_start t len r s pos :
  code_inv (Encoder t len r s pos (replicate 17 0) 1 1 []) [] [].
Proof. split; try done. by exists (replicate 16 0). Qed.

(** The last, partial buffer. *)
Lemma encode_flush e groups g :
  code_inv e groups g ->
  (if 1 <? e_ptr e then
     unit ← zslice (e_code e) 0 (e_ptr e);
     Some (e_out e ++ unit)
   else Some (e_out e)) = Some (serialize groups g).
Proof.
  intros [_ [rest Hc] Hp _ _ _ Ho]. rewrite Hp, Ho, Hc. unfold serialize. pose proof (units_length g) as Hu.
  destruct g as [|k g].
  - change (1 <? zlen (group_bytes [])) with false. by rewrite app_nil_r.
  - rewrite (proj2 (Z.ltb_lt 1 _)) by (rewrite group_bytes_length; cbn [length] in Hu; lia).
    pose proof (zslice_app [] (group_bytes (k :: g)) rest) as Hsl. cbn [app] in Hsl.
    change (zlen []) with 0 in Hsl. by rewrite Hsl.
Qed.

(** Blanks, then the first bytes of the input. *)
Lemma holds_start ucInput tb tb1 len :
  0 < len <= F -> (forall i, 0 <= i < N - F -> zget tb i = Some 32) ->
  (forall i, zget tb1 i =
     if decide (N - F <= i < N - F + len) then zget ucInput (i - (N - F)) else zget tb i) ->
  holds (text_of ucInput) tb1 (N - F + len).
Proof.
  intros Hlen Hg Hg1. split; [|intros v Hv Hr; unfold N, F in *; lia]. intros v Hv Hr.
  rewrite Z.mod_small by (unfold N, F in *; lia). rewrite Hg1. case_decide as Hd.
  - rewrite <- text_of_input by lia. f_equal. lia.
  - rewrite Hg by lia. unfold text_of. rewrite zget_app_l by (rewrite length_replicate; lia).
    rewrite <- (Z2Nat.id v), zget_nat by lia. symmetry. apply lookup_replicate_2. lia.
Qed.

(** [Encode] succeeds on every input, and what it writes is a correct parse of the
    whole text. *)
Lemma Encode_tokens ucInput :
  Forall is_byte ucInput ->
  exists groups g, Encode ucInput (zlen ucInput) true = Some (serialize groups g) /\
    Forall (fun h : list token => length h = 8%nat) groups /\ zlen g < 8 /\
    toks_ok (text_of ucInput) (N - F) (concat groups ++ g) /\ toks_len (concat groups ++ g) = zlen ucInput.
Proof.
  intros Hb. unfold Encode. simpl negb. cbn match.
  destruct (InitTree_spec (replicate (Z.to_nat (N + F - 1)) 0) (replicate (Z.to_nat (N + 1)) 0)
    (replicate (Z.to_nat (N + 257)) 0) (replicate (Z.to_nat (N + 1)) 0) 0 0)
    as (rs & da & -> & Hinit); [by rewrite length_replicate..|]. cbn [mbind option_bind text_buf].
  destruct (zfill_spec (replicate (Z.to_nat (N + F - 1)) 0) 0 32 (N - F)) as (tb & Htb & Hl & Hg);
    [unfold N, F; lia..|rewrite length_replicate; unfold N, F; lia|].
  rewrite length_replicate in Hl. rewrite Htb. cbn [mbind option_bind].
  assert (Forall is_byte tb) as Hbt.
  { apply Forall_lookup. intros i x Hx. rewrite <- zget_nat, Hg in Hx. case_decide; [simplify_eq; unfold is_byte; lia|].
    apply zget_Forall with (P := is_byte) in Hx; [done|]. apply Forall_replicate. unfold is_byte; lia. }
  destruct (read_first_spec ucInput Hb (Z.to_nat F) tb (N - F) 0 0) as (tb1 & Hrf & Hl1 & Hb1 & Hg1);
    try done; try (rewrite ?Hl; unfold N, F; lia).
  rewrite Hrf. cbn [mbind option_bind]. rewrite !Z.add_0_l, Z.sub_0_r, Z2Nat.id in * by (unfold F; lia).
  set (len := Z.min F (zlen ucInput)) in *.
  destruct (Z.eqb_spec len 0) as [E0|E0].
  { exists [], []. split_and!; try done. simpl. unfold len, F in E0. lia. }
  assert (0 < len <= F /\ len <= zlen ucInput /\ (len = F \/ len = zlen ucInput)) as (Hlen & Hlen1 & Hlen2)
    by (unfold len, F in *; lia).
  destruct (insert_first_spec (Z.to_nat F) _ _ (N - F) 1 (Hinit tb1 Hl1 Hb1))
    as (t1 & ch1 & Hif & Hi1 & Ht1 & Hn1); try (unfold N, F; lia).
  { intros y (c & _ & []%elem_of_nil). }
  change (set_text tb1 _) with (Lzss tb1 (replicate (Z.to_nat (N + 1)) 0) rs da 0 0).
  rewrite Hif. cbn [mbind option_bind]. cbn [text_buf] in Ht1.
  assert (holds (text_of ucInput) tb1 (N - F + len)) as Hh.
  { apply (holds_start ucInput tb); [done|intros i Hi; by rewrite Hg, decide_True|].
    intros i. rewrite Hg1, !Z.add_0_r, Z.add_0_l. done. }
  destruct (register_node (text_of ucInput) t1 ch1 (N - F) len Hi1) as (t2 & ch2 & HI & Hi2 & Ht2 & Hn2 & Hf2);
    try (unfold len, F in *; lia); [by rewrite Ht1| |].
  { intros y Hy%Hn1. exists y. rewrite Z.mod_small by (unfold N, F in *; lia). unfold N, F in *. lia. }
  rewrite Z.mod_small in HI by (unfold N, F; lia). rewrite HI. cbn [mbind option_bind].
  destruct (encode_loop_spec ucInput Hb (Z.to_nat (zlen ucInput))
    (Encoder t2 len (N - F) 0 len (replicate 17 0) 1 1 []) (N - F) ch2 [] [])
    as (e & groups & g & ks & -> & Hks & Hend & Hci & Hcat).
  - split; simpl; try done; try lia; try (rewrite Ht2, Ht1; done).
  - simpl. lia.
  - apply code_inv_start.
  - rewrite text_of_length. lia.
  - cbn [mbind option_bind]. exists groups, g. rewrite (encode_flush e groups g Hci).
    cbn [concat app] in Hcat. rewrite Hcat. rewrite text_of_length in Hend.
    split_and!; try done; try apply Hci. lia.
Qed.
