(* ===== verification/LzssSpec.v ===== *)
(** [Decode] undoes [Encode]: the decoder replays the tokens of the encoder. *)

From S2P Require Import Prelude Lzss LzssTree LzssText LzssCode.

(** ** One unit *)

(** A bounded statement checked value by value. *)
Lemma bounded_check (P : Z -> bool) (n : Z) :
  forallb P (seqZ 0 n) = true -> forall x, 0 <= x < n -> P x = true.
Proof. intros H x Hx. eapply forallb_forall in H; [exact H|]. by apply list_elem_of_In, elem_of_seqZ. Qed.

Lemma high_nibble x : 0 <= x < 256 -> Z.land x 0xf0 = 16 * (x / 16).
Proof.
  intros Hx. apply Z.eqb_eq. revert x Hx. by apply (bounded_check (fun x => Z.land x 0xf0 =? 16 * (x / 16))).
Qed.

Lemma low_nibble x : Z.land x 0x0f = x mod 16.
Proof. change 0x0f with (Z.ones 4). by apply Z.land_ones. Qed.

(** The two bytes of a position-length pair give the pair back. *)
Lemma ref_bytes mp ml : 0 <= mp < N -> THRESHOLD < ml <= F ->
  let i := u8 mp in
  let j := u8 (Z.lor (Z.land (Z.shiftr mp 4) 0xf0) (ml - (THRESHOLD + 1))) in
  Z.lor i (Z.shiftl (Z.land j 0xf0) 4) = mp /\ Z.land j 0x0f + THRESHOLD + 1 = ml.
Proof.
  intros Hmp Hml i j. unfold N, F, THRESHOLD in *. simpl Z.add in *.
  assert (j = 16 * (mp / 256) + (ml - 3)) as Hj.
  { unfold j. rewrite Z.shiftr_div_pow2, high_nibble by (Z.div_mod_to_equations; lia). change (2 ^ 4) with 16.
    rewrite Z.div_div by lia. replace (16 * (mp / (16 * 16))) with (Z.shiftl (mp / 256) 4)
      by (rewrite Z.shiftl_mul_pow2 by lia; change (16 * 16) with 256; lia).
    rewrite lor_shiftl_add by lia. unfold u8. rewrite Z.mod_small; Z.div_mod_to_equations; lia. }
  rewrite Hj, high_nibble, low_nibble by (Z.div_mod_to_equations; lia). split.
  - rewrite Z.shiftl_mul_pow2 by lia. unfold i, u8.
    replace (16 * ((16 * (mp / 256) + (ml - 3)) / 16) * 2 ^ 4) with (Z.shiftl (mp / 256) 8)
      by (rewrite Z.shiftl_mul_pow2 by lia; Z.div_mod_to_equations; lia).
    rewrite Z.lor_comm, lor_shiftl_add; Z.div_mod_to_equations; lia.
  - Z.div_mod_to_equations. lia.
Qed.

(** Flag words: [m] flags are left, below eight marker bits. *)
Lemma flag_shift k g m : 1 <= m -> Z.shiftr (flags (k :: g) + 2 ^ m * 255) 1 = flags g + 2 ^ (m - 1) * 255.
Proof.
  intros Hm. rewrite Z.shiftr_div_pow2 by lia. cbn [flags]. change (2 ^ 1) with 2.
  replace (2 ^ m) with (2 * 2 ^ (m - 1)) by (rewrite <- Z.pow_succ_r by lia; f_equal; lia).
  destruct (is_lit k); simpl Z.b2z; Z.div_mod_to_equations; lia.
Qed.

Lemma flag_odd k g m : 1 <= m -> negb (Z.land (flags (k :: g) + 2 ^ m * 255) 1 =? 0) = is_lit k.
Proof.
  intros Hm. change 1 with (Z.ones 1) at 1. rewrite Z.land_ones by lia. cbn [flags]. change (2 ^ 1) with 2.
  replace (2 ^ m) with (2 * 2 ^ (m - 1)) by (rewrite <- Z.pow_succ_r by lia; f_equal; lia).
  destruct (is_lit k); simpl Z.b2z; [rewrite (proj2 (Z.eqb_neq _ 0)); [done|]|rewrite (proj2 (Z.eqb_eq _ 0)); [done|]];
    Z.div_mod_to_equations; lia.
Qed.

Lemma flag_marker f m : 0 <= f < 2 ^ m -> 1 <= m <= 8 -> (Z.land (f + 2 ^ m * 255) 256 =? 0) = false.
Proof.
  intros Hf Hm. apply Z.eqb_neq. intros E.
  assert (Z.testbit (f + 2 ^ m * 255) 8 = true) as Hb.
  { rewrite Z.testbit_true by lia. change (2 ^ 8) with 256.
    assert (m ∈ [1; 2; 3; 4; 5; 6; 7; 8]) as Hin by (rewrite !elem_of_cons; lia).
    repeat (apply elem_of_cons in Hin as [->|Hin]; [cbn in Hf |- *; Z.div_mod_to_equations; lia|]). by apply elem_of_nil in Hin. }
  assert (Z.testbit (Z.land (f + 2 ^ m * 255) 256) 8 = false) as H0 by (rewrite E; done).
  rewrite Z.land_spec, Hb in H0. done.
Qed.

(** ** The decoder against the text *)

Lemma zget_drop {A} (l : list A) p i : 0 <= p -> 0 <= i -> zget (drop (Z.to_nat p) l) i = zget l (p + i).
Proof.
  intros Hp Hi. unfold zget. rewrite !(proj2 (Z.leb_le 0 _)) by lia. rewrite lookup_drop. f_equal. lia.
Qed.

(** The decoder has rebuilt the text up to [cr]. *)
Record dec_inv (ucInput : list Z) (d : decoder) (cr : Z) : Prop := {
  di_length : zlen (d_text d) = N + F - 1;
  di_cr : N - F <= cr <= zlen (text_of ucInput);
  di_r : d_r d = cr mod N;
  di_text : forall v, 0 <= v -> cr - N <= v < cr ->
    exists c, zget (d_text d) (v mod N) = Some (Some c) /\ zget (text_of ucInput) v = Some c;
  di_out : d_out d = take (Z.to_nat (cr - (N - F))) ucInput
}.

Lemma put_char_spec ucInput d cr c :
  dec_inv ucInput d cr -> zget (text_of ucInput) cr = Some c ->
  exists d', put_char d c = Some d' /\ dec_inv ucInput d' (cr + 1) /\
    d_flags d' = d_flags d /\ d_pos d' = d_pos d.
Proof.
  intros [Hl Hcr Hr Ht Ho] Hc. pose proof (Z.mod_pos_bound cr N ltac:(unfold N; lia)) as Hm.
  pose proof (zget_Some_lt _ _ _ Hc) as Hlt. unfold put_char. rewrite Hr.
  rewrite zset_Some by (rewrite Hl; unfold F; lia). cbn [mbind option_bind]. eexists. split; [done|].
  assert (0 <= cr mod N < zlen (d_text d)) as Hin by (rewrite Hl; unfold F; lia).
  split; [|done]. split; simpl d_text; simpl d_r; simpl d_out; try (rewrite ?length_insert; lia).
  - apply advance_mod.
  - intros v Hv Hvr. destruct (decide (v = cr)) as [->|Hne].
    + exists c. split; [|done]. eapply zget_zset_eq. by apply zset_Some.
    + destruct (Ht v Hv) as (c' & Hg & Hg'); [lia|]. exists c'. split; [|done]. rewrite <- Hg.
      eapply zget_zset_ne; [by apply zset_Some|]. unfold N in *. Z.div_mod_to_equations. lia.
  - rewrite Ho. replace (Z.to_nat (cr + 1 - (N - F))) with (S (Z.to_nat (cr - (N - F)))) by lia.
    symmetry. apply take_S_r. rewrite <- zget_nat, <- text_of_input by lia. rewrite <- Hc. f_equal. lia.
Qed.

Lemma copy_loop_spec ucInput vp cr n : forall d k,
  dec_inv ucInput d (cr + k) -> 0 <= vp -> 0 <= k -> cr + F - N <= vp < cr ->
  (forall j, 0 <= j < k + Z.of_nat n -> zget (text_of ucInput) (vp + j) = zget (text_of ucInput) (cr + j)) ->
  exists d', copy_loop n d (vp mod N) k = Some d' /\ dec_inv ucInput d' (cr + k + Z.of_nat n) /\
    d_flags d' = d_flags d /\ d_pos d' = d_pos d.
Proof.
  induction n as [|n IH]; intros d k Hd Hv Hk Hr Heq; cbn [copy_loop].
  { exists d. rewrite Z.add_0_r. by split_and!. }
  destruct (di_text _ _ _ Hd (vp + k)) as (c & Hg & Hgc); [lia|unfold F in *; lia|].
  replace (Z.land (vp mod N + k) (N - 1)) with ((vp + k) mod N).
  2:{ change (N - 1) with (Z.ones 12). rewrite Z.land_ones by lia. change (2 ^ 12) with N.
      unfold N. Z.div_mod_to_equations. lia. }
  rewrite Hg. cbn [mbind option_bind]. rewrite Heq in Hgc by lia.
  destruct (put_char_spec ucInput d (cr + k) c Hd Hgc) as (d1 & -> & Hd1 & Hf1 & Hp1). cbn [mbind option_bind].
  destruct (IH d1 (k + 1)) as (d2 & -> & Hd2 & Hf2 & Hp2); try done; try lia.
  { by rewrite Z.add_assoc. } { intros j Hj. apply Heq. lia. }
  exists d2. split_and!; try done; try congruence.
  replace (cr + k + Z.of_nat (S n)) with (cr + (k + 1) + Z.of_nat n) by lia. done.
Qed.

Lemma dec_inv_at ucInput d cr f p : dec_inv ucInput d cr -> dec_inv ucInput (at_input d f p) cr.
Proof. by intros []. Qed.

Section decode.
Context (ucInput I : list Z) (inLen : Z).
Notation V := (text_of ucInput).

(** The loop body once the flags are there. *)
Definition decode_unit (fuel : nat) (d : decoder) : option decoder :=
  if negb (Z.land (d_flags d) 1 =? 0) then
    c ← zget I (d_pos d);
    if inLen <? d_pos d + 1 then Some d
    else
      d ← put_char (at_input d (d_flags d) (d_pos d + 1)) c;
      decode_loop I inLen fuel d
  else
    i ← zget I (d_pos d);
    if inLen <? d_pos d + 1 then Some d
    else
      j ← zget I (d_pos d + 1);
      if inLen <? d_pos d + 2 then Some d
      else
        let i := Z.lor i (Z.shiftl (Z.land j 0xf0) 4) in
        let j := Z.land j 0x0f + THRESHOLD in
        d ← copy_loop (Z.to_nat (j + 1)) (at_input d (d_flags d) (d_pos d + 2)) i 0;
        decode_loop I inLen fuel d.

Lemma decode_load fuel d c :
  Z.land (Z.shiftr (d_flags d) 1) 256 = 0 -> zget I (d_pos d) = Some c -> d_pos d < inLen ->
  decode_loop I inLen (S fuel) d = decode_unit fuel (at_input d (Z.lor c 0xff00) (d_pos d + 1)).
Proof.
  intros Hf Hc Hp. cbn [decode_loop]. rewrite Hf, Hc. cbn [Z.eqb mbind option_bind].
  by rewrite (proj2 (Z.ltb_ge inLen _)) by lia.
Qed.

Lemma decode_more fuel d :
  (Z.land (Z.shiftr (d_flags d) 1) 256 =? 0) = false ->
  decode_loop I inLen (S fuel) d = decode_unit fuel (at_input d (Z.shiftr (d_flags d) 1) (d_pos d)).
Proof. intros Hf. cbn [decode_loop]. by rewrite Hf. Qed.

(** Decoding the unit of a correct token. *)
Lemma decode_token fuel d cr k g m post :
  dec_inv ucInput d cr -> tok_ok V cr k -> 1 <= m -> 0 <= d_pos d ->
  d_flags d = flags (k :: g) + 2 ^ m * 255 ->
  drop (Z.to_nat (d_pos d)) I = tok_bytes k ++ post -> d_pos d + zlen (tok_bytes k) <= inLen ->
  exists d', decode_unit fuel d = decode_loop I inLen fuel d' /\ dec_inv ucInput d' (cr + tok_len k) /\
    d_flags d' = d_flags d /\ d_pos d' = d_pos d + zlen (tok_bytes k).
Proof.
  intros Hd Hk Hm Hp Hf HI Hfit. unfold decode_unit. rewrite Hf, (flag_odd k g m Hm), <- Hf.
  assert (forall i, 0 <= i -> zget I (d_pos d + i) = zget (tok_bytes k ++ post) i) as Hget
    by (intros i Hi; rewrite <- HI; symmetry; by apply zget_drop).
  pose proof (Hget 0 ltac:(lia)) as H0. rewrite Z.add_0_r in H0.
  destruct k as [c|mp ml]; cbn [is_lit tok_bytes tok_len length] in *.
  - rewrite H0. change (zget ([c] ++ post) 0) with (Some c). cbn [mbind option_bind].
    rewrite (proj2 (Z.ltb_ge inLen _)) by lia.
    destruct (put_char_spec ucInput (at_input d (d_flags d) (d_pos d + 1)) cr c) as (d1 & -> & Hd1 & Hf1 & Hp1);
      [by apply dec_inv_at|done|]. exists d1. by split_and!.
  - destruct Hk as (Hml & _ & vp & Hv0 & Hvr & -> & Heq). rewrite H0. cbn [app].
    change (zget (?a :: _) 0) with (Some a). cbn [mbind option_bind].
    rewrite (proj2 (Z.ltb_ge inLen _)) by lia. rewrite Hget by lia. cbn [app].
    change (zget (_ :: ?b :: _) 1) with (Some b). cbn [mbind option_bind].
    rewrite (proj2 (Z.ltb_ge inLen _)) by lia.
    destruct (ref_bytes (vp mod N) ml) as [E1 E2]; [apply Z.mod_pos_bound; unfold N; lia|done|].
    rewrite E1, E2.
    destruct (copy_loop_spec ucInput vp cr (Z.to_nat ml) (at_input d (d_flags d) (d_pos d + 2)) 0)
      as (d1 & -> & Hd1 & Hf1 & Hp1); try done; try lia.
    + rewrite Z.add_0_r. by apply dec_inv_at.
    + intros j Hj. apply Heq. lia.
    + exists d1. split_and!; try done. replace (cr + ml) with (cr + 0 + Z.of_nat (Z.to_nat ml)); [done|].
      unfold THRESHOLD in *. lia.
Qed.

(** What the input still holds. *)
Definition reading (d : decoder) (bs post : list Z) : Prop :=
  0 <= d_pos d /\ drop (Z.to_nat (d_pos d)) I = bs ++ post /\ d_pos d + zlen bs <= inLen.

Lemma reading_next d d' bs bs' post :
  reading d (bs ++ bs') post -> d_pos d' = d_pos d + zlen bs -> reading d' bs' post.
Proof.
  intros (Hp & HI & Hfit) E. rewrite length_app in Hfit. split; [lia|]. split; [|lia].
  rewrite E, Z2Nat.inj_add, Nat2Z.id, <- drop_drop, HI, <- app_assoc, drop_app_length by lia. done.
Qed.

(** The rest of a group, [m] flags being left. *)
Lemma decode_rest rest : forall d cr m post fuel,
  dec_inv ucInput d cr -> toks_ok V cr rest -> zlen rest <= m <= 8 ->
  Z.shiftr (d_flags d) 1 = flags rest + 2 ^ m * 255 -> reading d (units rest) post ->
  exists d', decode_loop I inLen (length rest + fuel) d = decode_loop I inLen fuel d' /\
    dec_inv ucInput d' (cr + toks_len rest) /\
    Z.shiftr (d_flags d') 1 = 2 ^ (m - zlen rest) * 255 /\ d_pos d' = d_pos d + zlen (units rest).
Proof.
  induction rest as [|k rest IH]; intros d cr m post fuel Hd Hk Hm Hf Hr.
  { exists d. split_and!; try done; cbn [toks_len]; [by rewrite Z.add_0_r| |cbn; lia].
    rewrite Hf. cbn [flags length]. by rewrite Z.sub_0_r. }
  destruct Hk as [Hk Hks]. cbn [length Nat.add]. pose proof (flags_range (k :: rest)) as Hfr.
  rewrite decode_more.
  2:{ rewrite Hf. apply flag_marker; [|cbn [length] in Hm; lia]. split; [lia|].
      eapply Z.lt_le_trans; [apply Hfr|]. apply Z.pow_le_mono_r; lia. }
  change (units (k :: rest)) with (tok_bytes k ++ units rest) in Hr.
  pose proof Hr as (Hp & HI & Hfit). rewrite <- app_assoc in HI. rewrite length_app in Hfit.
  destruct (decode_token (length rest + fuel) (at_input d (Z.shiftr (d_flags d) 1) (d_pos d)) cr k rest m
    (units rest ++ post)) as (d1 & -> & Hd1 & Hf1 & Hp1); try done; try (cbn [length] in Hm; lia);
    [by apply dec_inv_at|simpl; lia|]. simpl in Hf1, Hp1.
  destruct (IH d1 (cr + tok_len k) (m - 1) post fuel Hd1 Hks) as (d2 & -> & Hd2 & Hf2 & Hr2).
  { cbn [length] in Hm. lia. }
  { rewrite Hf1, Hf. apply flag_shift. cbn [length] in Hm. lia. }
  { by eapply reading_next. }
  exists d2. split_and!; try done; [cbn [toks_len]; by rewrite Z.add_assoc| |].
  - rewrite Hf2. do 2 f_equal. cbn [length]. lia.
  - rewrite Hr2, Hp1. change (units (k :: rest)) with (tok_bytes k ++ units rest). rewrite length_app. lia.
Qed.

Lemma flag_load g : zlen g <= 8 -> Z.lor (flags g) 0xff00 = flags g + 2 ^ 8 * 255.
Proof.
  intros Hg. pose proof (flags_range g) as Hf.
  assert (2 ^ zlen g <= 2 ^ 8) by (apply Z.pow_le_mono_r; lia).
  change 0xff00 with (Z.shiftl 255 8). rewrite Z.lor_comm, lor_shiftl_add by lia. lia.
Qed.

(** A whole group, from its flag byte. *)
Lemma decode_group k g d cr post fuel :
  dec_inv ucInput d cr -> toks_ok V cr (k :: g) -> zlen (k :: g) <= 8 ->
  Z.land (Z.shiftr (d_flags d) 1) 256 = 0 -> reading d (group_bytes (k :: g)) post ->
  exists d', decode_loop I inLen (length (k :: g) + fuel) d = decode_loop I inLen fuel d' /\
    dec_inv ucInput d' (cr + toks_len (k :: g)) /\
    Z.shiftr (d_flags d') 1 = 2 ^ (8 - zlen (k :: g)) * 255 /\ d_pos d' = d_pos d + zlen (group_bytes (k :: g)).
Proof.
  intros Hd [Hk Hks] Hg Hf Hr.
  change (group_bytes (k :: g)) with ([flags (k :: g)] ++ tok_bytes k ++ units g) in Hr.
  pose proof Hr as (Hp & HI & Hfit). rewrite !length_app in Hfit. cbn [length] in Hfit, Hg.
  cbn [length Nat.add]. rewrite (decode_load _ d (flags (k :: g))); [|done| |lia].
  2:{ rewrite <- (Z.add_0_r (d_pos d)), <- zget_drop, HI by lia. done. }
  set (d0 := at_input d _ _). assert (reading d0 (tok_bytes k ++ units g) post) as Hr0
    by (by eapply reading_next).
  pose proof Hr0 as (Hp0 & HI0 & Hfit0). rewrite <- app_assoc in HI0. rewrite length_app in Hfit0.
  destruct (decode_token (length g + fuel) d0 cr k g 8 (units g ++ post)) as (d1 & -> & Hd1 & Hf1 & Hp1);
    try done; try lia; [by apply dec_inv_at|unfold d0; cbn [at_input d_flags]; apply flag_load; cbn [length]; lia|].
  destruct (decode_rest g d1 (cr + tok_len k) 7 post fuel Hd1 Hks) as (d2 & -> & Hd2 & Hf2 & Hr2).
  { lia. }
  { rewrite Hf1. unfold d0. cbn [at_input d_flags]. rewrite flag_load by (cbn [length]; lia). by apply (flag_shift k g 8). }
  { by eapply reading_next. }
  exists d2. split_and!; try done; [cbn [toks_len]; by rewrite Z.add_assoc| |].
  - rewrite Hf2. do 2 f_equal. cbn [length]. lia.
  - rewrite Hr2, Hp1. change (group_bytes (k :: g)) with ([flags (k :: g)] ++ tok_bytes k ++ units g).
    rewrite !length_app. unfold d0. simpl. lia.
Qed.

Lemma decode_groups groups : forall d cr post fuel,
  dec_inv ucInput d cr -> toks_ok V cr (concat groups) ->
  Forall (fun h : list token => length h = 8%nat) groups ->
  Z.land (Z.shiftr (d_flags d) 1) 256 = 0 -> reading d (concat (group_bytes <$> groups)) post ->
  exists d', decode_loop I inLen (length (concat groups) + fuel) d = decode_loop I inLen fuel d' /\
    dec_inv ucInput d' (cr + toks_len (concat groups)) /\
    Z.land (Z.shiftr (d_flags d') 1) 256 = 0 /\ d_pos d' = d_pos d + zlen (concat (group_bytes <$> groups)).
Proof.
  induction groups as [|h groups IH]; intros d cr post fuel Hd Hks Hall Hf Hr.
  { exists d. split_and!; try done; [cbn [concat toks_len]; by rewrite Z.add_0_r|cbn; lia]. }
  apply Forall_cons in Hall as [Hh Hall]. cbn [concat] in Hks |- *.
  apply toks_ok_app in Hks as [Hk Hks]. destruct h as [|k g]; [done|].
  cbn [fmap list_fmap concat] in Hr. pose proof Hr as (Hp & HI & Hfit).
  rewrite length_app, <- Nat.add_assoc.
  destruct (decode_group k g d cr (concat (group_bytes <$> groups) ++ post) (length (concat groups) + fuel) Hd Hk)
    as (d1 & -> & Hd1 & Hf1 & Hr1); try done; [by rewrite Hh| |].
  { split_and!; [done|by rewrite HI, <- app_assoc|rewrite length_app in Hfit; lia]. }
  destruct (IH d1 (cr + toks_len (k :: g)) post fuel Hd1 Hks Hall) as (d2 & -> & Hd2 & Hf2 & Hr2).
  { rewrite Hf1, Hh. done. }
  { by eapply reading_next. }
  exists d2. split_and!; try done; [by rewrite toks_len_app, Z.add_assoc|].
  rewrite Hr2, Hr1. cbn [fmap list_fmap concat]. rewrite length_app. lia.
Qed.

(** At the end of the input the loop fetches one byte more and stops. *)
Lemma decode_end fuel d :
  d_pos d = inLen ->
  Z.land (Z.shiftr (d_flags d) 1) 256 = 0 \/
    (exists m, 1 <= m <= 8 /\ Z.shiftr (d_flags d) 1 = 2 ^ m * 255) ->
  exists d', d_out d' = d_out d /\ decode_loop I inLen (S fuel) d = (c ← zget I inLen; Some d').
Proof.
  intros Hp Hf. destruct Hf as [Hf|(m & Hm & Hf)].
  - exists d. split; [done|]. cbn [decode_loop]. rewrite Hf, Hp. cbn [Z.eqb].
    destruct (zget I inLen); [|done]. cbn [mbind option_bind]. by rewrite (proj2 (Z.ltb_lt inLen _)) by lia.
  - exists (at_input d (Z.shiftr (d_flags d) 1) (d_pos d)). split; [done|].
    rewrite decode_more by (rewrite Hf; apply (flag_marker 0 m); [split; [done|apply Z.pow_pos_nonneg; lia]|lia]).
    unfold decode_unit. cbn [at_input d_flags d_pos]. rewrite Hf, Hp.
    assert (negb (Z.land (2 ^ m * 255) 1 =? 0) = false) as ->.
    { pose proof (flag_odd (Ref 0 0) [] m) as Ho. cbn [flags is_lit Z.b2z] in Ho.
      rewrite Z.mul_0_r, !Z.add_0_l in Ho. apply Ho. lia. }
    destruct (zget I inLen); [|done]. cbn [mbind option_bind]. by rewrite (proj2 (Z.ltb_lt inLen _)) by lia.
Qed.
End decode.

(** ** The whole stream *)

Lemma group_count groups : zlen (concat groups) <= zlen (concat (group_bytes <$> groups)).
Proof.
  induction groups as [|h groups IH]; [done|]. cbn [fmap list_fmap concat]. rewrite !length_app.
  pose proof (units_length h). pose proof (group_bytes_length h). lia.
Qed.

Lemma serialize_count groups g : zlen (concat groups ++ g) <= zlen (serialize groups g).
Proof.
  unfold serialize. rewrite !length_app. pose proof (group_count groups).
  destruct g as [|k g]; [cbn [length]; lia|].
  pose proof (units_length (k :: g)). pose proof (group_bytes_length (k :: g)). lia.
Qed.

Lemma dec_inv_start ucInput tb :
  length tb = Z.to_nat (N + F - 1) ->
  (forall i, zget tb i = if decide (0 <= i < 0 + (N - F)) then Some (Some 32)
     else zget (replicate (Z.to_nat (N + F - 1)) None) i) ->
  dec_inv ucInput (Decoder tb (N - F) 0 0 []) (N - F).
Proof.
  intros Hl Hgt. split; [simpl d_text; by rewrite Hl|rewrite text_of_length; lia|by rewrite Z.mod_small| |by rewrite Z.sub_diag].
  intros v Hv Hvr. exists 32. simpl d_text. rewrite Z.mod_small by (unfold N, F in *; lia).
  rewrite Hgt, decide_True by lia. split; [done|]. unfold text_of.
  rewrite zget_app_l by (rewrite length_replicate; lia).
  rewrite <- (Z2Nat.id v), zget_nat by lia. apply lookup_replicate_2. lia.
Qed.

Lemma Decode_serialize ucInput groups g extra :
  Forall (fun h : list token => length h = 8%nat) groups -> zlen g < 8 ->
  toks_ok (text_of ucInput) (N - F) (concat groups ++ g) -> toks_len (concat groups ++ g) = zlen ucInput ->
  Decode (serialize groups g ++ extra) (zlen (serialize groups g)) true = (c ← zget extra 0; Some ucInput).
Proof.
  intros Hall Hg Hok Hlen. set (enc := serialize groups g). unfold Decode. simpl negb. cbn match.
  destruct (zfill_spec (replicate (Z.to_nat (N + F - 1)) (None : option Z)) 0 (Some 32) (N - F)) as (tb & -> & Hl & Hgt);
    [unfold N, F; lia..|rewrite length_replicate; unfold N, F; lia|]. cbn [mbind option_bind].
  rewrite length_replicate in Hl. set (d0 := Decoder tb (N - F) 0 0 []).
  assert (dec_inv ucInput d0 (N - F)) as Hd0 by (by apply dec_inv_start).
  apply toks_ok_app in Hok as [Hok1 Hok2]. pose proof (serialize_count groups g) as Hcnt. fold enc in Hcnt.
  assert (reading (enc ++ extra) (zlen enc) d0 enc extra) as Hr by (split_and!; simpl; [lia|done|lia]).
  unfold enc at 3, serialize in Hr.
  set (fuel := (Z.to_nat (zlen enc) - length (concat groups ++ g))%nat).
  replace (S (Z.to_nat (zlen enc))) with (length (concat groups) + (length g + S fuel))%nat
    by (unfold fuel; rewrite length_app in *; lia).
  assert (zget (enc ++ extra) (zlen enc) = zget extra 0) as Hend by (rewrite zget_app_r by lia; f_equal; lia).
  pose proof Hr as (_ & HI & Hfit). rewrite length_app in Hfit. rewrite <- app_assoc in HI.
  destruct (decode_groups ucInput (enc ++ extra) (zlen enc) groups d0 (N - F)
    (match g with [] => [] | _ => group_bytes g end ++ extra) (length g + S fuel) Hd0 Hok1 Hall)
    as (d1 & -> & Hd1 & Hf1 & Hp1); [done|split_and!; [done|done|lia]|].
  assert (reading (enc ++ extra) (zlen enc) d1 (match g with [] => [] | _ => group_bytes g end) extra) as Hr1
    by (eapply reading_next; [exact Hr|exact Hp1]).
  assert (forall d, dec_inv ucInput d (N - F + toks_len (concat groups ++ g)) -> d_out d = ucInput) as Hout.
  { intros d [_ _ _ _ ->]. rewrite Hlen. apply take_ge. lia. }
  rewrite toks_len_app, Z.add_assoc in Hout.
  assert (zlen enc = zlen (concat (group_bytes <$> groups)) + zlen (match g with [] => [] | _ => group_bytes g end)) as Hle
    by (unfold enc, serialize; rewrite length_app; lia).
  destruct g as [|k g].
  - change (length [] + S fuel)%nat with (S fuel).
    destruct (decode_end (enc ++ extra) (zlen enc) fuel d1) as (d2 & Ho & ->).
    { rewrite Hp1, Hle. cbn. lia. } { by left. }
    rewrite Hend. destruct (zget extra 0); [|done]. cbn [mbind option_bind]. rewrite Ho. f_equal. apply Hout.
    cbn [toks_len]. by rewrite Z.add_0_r.
  - destruct (decode_group ucInput (enc ++ extra) (zlen enc) k g d1 _ extra (S fuel) Hd1 Hok2)
      as (d2 & -> & Hd2 & Hf2 & Hp2); [lia|done|done|].
    destruct (decode_end (enc ++ extra) (zlen enc) fuel d2) as (d3 & Ho & ->).
    { rewrite Hp2, Hp1, Hle. unfold d0. simpl d_pos. lia. }
    { right. exists (8 - zlen (k :: g)). split; [cbn [length] in *; lia|done]. }
    rewrite Hend. destruct (zget extra 0); [|done]. cbn [mbind option_bind]. rewrite Ho. f_equal. by apply Hout.
Qed.

(** ** Size of the output *)

Lemma units_size V cr ks : toks_ok V cr ks -> zlen (units ks) <= toks_len ks /\ zlen ks <= toks_len ks.
Proof.
  revert cr. induction ks as [|k ks IH]; intros cr; [done|]. intros [Hk Hks].
  change (units (k :: ks)) with (tok_bytes k ++ units ks). rewrite length_app. cbn [toks_len length].
  destruct (IH _ Hks) as [H1 H2]. destruct k as [c|mp ml]; cbn [tok_bytes tok_len length] in *; [lia|].
  destruct Hk as [Hml _]. unfold THRESHOLD in Hml. lia.
Qed.

Lemma units_app g h : units (g ++ h) = units g ++ units h.
Proof. unfold units. by rewrite fmap_app, concat_app. Qed.

Lemma serialize_length groups g :
  zlen (serialize groups g) =
    zlen (units (concat groups ++ g)) + zlen groups + (match g with [] => 0 | _ => 1 end).
Proof.
  unfold serialize. rewrite length_app, units_app, length_app.
  assert (zlen (concat (group_bytes <$> groups)) = zlen (units (concat groups)) + zlen groups) as E.
  { induction groups as [|h groups IH]; [done|]. cbn [fmap list_fmap concat]. rewrite units_app, !length_app.
    pose proof (group_bytes_length h). cbn [length]. lia. }
  destruct g as [|k g]; [cbn [length units fmap list_fmap concat]; lia|].
  pose proof (group_bytes_length (k :: g)). lia.
Qed.

Lemma concat_full groups : Forall (fun h : list token => length h = 8%nat) groups ->
  zlen (concat groups) = 8 * zlen groups.
Proof. induction 1 as [|h groups Hh _ IH]; [done|]. cbn [concat]. rewrite length_app. cbn [length]. lia. Qed.

(** * Theorems *)

(** C4: Compression round trip: for every byte string, [Encode] succeeds, and [Decode] run
    on its output (followed in memory by anything at all, at least one byte) returns
    exactly the original string. *)
Theorem lzss_roundtrip (ucInput extra : list Z) :
  Forall is_byte ucInput -> extra <> [] ->
  exists enc, Encode ucInput (zlen ucInput) true = Some enc /\
    Decode (enc ++ extra) (zlen enc) true = Some ucInput.
Proof.
  intros Hb Hex. destruct (Encode_tokens ucInput Hb) as (groups & g & -> & Hall & Hg & Hok & Hlen).
  eexists. split; [done|]. rewrite (Decode_serialize ucInput) by done. by destruct extra.
Qed.

Lemma lzss_roundtrip_witness :
  Forall is_byte [97; 98; 97; 98; 97; 98; 97] /\
  exists enc, Encode [97; 98; 97; 98; 97; 98; 97] 7 true = Some enc /\
    Decode (enc ++ [0]) (zlen enc) true = Some [97; 98; 97; 98; 97; 98; 97].
Proof.
  assert (Forall is_byte [97; 98; 97; 98; 97; 98; 97]) as H by (repeat constructor; unfold is_byte; lia).
  split; [exact H|]. apply (lzss_roundtrip _ [0] H). discriminate.
Defined.

(** The decoder reads one byte past its input: on exactly the bytes [Encode] wrote,
    with nothing after them, [Decode] accesses [ucInput[inLen]]. *)
Theorem Decode_overreads (ucInput : list Z) :
  Forall is_byte ucInput ->
  exists enc, Encode ucInput (zlen ucInput) true = Some enc /\ Decode enc (zlen enc) true = None.
Proof.
  intros Hb. destruct (Encode_tokens ucInput Hb) as (groups & g & -> & Hall & Hg & Hok & Hlen).
  eexists. split; [done|]. rewrite <- (app_nil_r (serialize groups g)) at 1. by rewrite (Decode_serialize ucInput) by done.
Qed.

Lemma Decode_overreads_witness :
  Forall is_byte [1; 2; 3] /\ exists enc, Encode [1; 2; 3] 3 true = Some enc /\ Decode enc (zlen enc) true = None.
Proof.
  assert (Forall is_byte [1; 2; 3]) as H by (repeat constructor; unfold is_byte; lia).
  split; [exact H|]. exact (Decode_overreads _ H).
Defined.

(** Output bound: [Encode] never writes more than one byte per input byte plus one flag
    byte per eight, so a buffer of [inLen + (inLen + 7) / 8] bytes is always enough. *)
Theorem Encode_size (ucInput : list Z) :
  Forall is_byte ucInput ->
  exists enc, Encode ucInput (zlen ucInput) true = Some enc /\
    zlen enc <= zlen ucInput + (zlen ucInput + 7) / 8.
Proof.
  intros Hb. destruct (Encode_tokens ucInput Hb) as (groups & g & -> & Hall & Hg & Hok & Hlen).
  eexists. split; [done|]. destruct (units_size _ _ _ Hok) as [Hu Hk]. rewrite serialize_length.
  rewrite length_app in Hk. pose proof (concat_full groups Hall).
  destruct g; cbn [length] in *; Z.div_mod_to_equations; lia.
Qed.

Lemma Encode_size_witness :
  Forall is_byte [7; 7; 7; 7] /\
  exists enc, Encode [7; 7; 7; 7] 4 true = Some enc /\ zlen enc <= 4 + (4 + 7) / 8.
Proof.
  assert (Forall is_byte [7; 7; 7; 7]) as H by (repeat constructor; unfold is_byte; lia).
  split; [exact H|]. exact (Encode_size _ H).
Defined.

(** C34: [InsertNode] on a well-formed tree: no access is out of bounds, the tree stays
    well-formed with at most the new node added, and [match_position]/[match_length]
    report a longest match: the string at [match_position] agrees with the new one on
    [match_length] characters and no string of the tree agrees on more (up to [F]). *)
Theorem InsertNode_longest_match (t : lzss) (ch : Z -> list Z) (r : Z) :
  tree_inv t ch -> 0 <= r < N -> ~ in_tree ch r ->
  exists t' ch', InsertNode t r = Some t' /\ tree_inv t' ch' /\ text_buf t' = text_buf t /\
    (forall y, in_tree ch' y -> in_tree ch y \/ y = r) /\
    matches (text_buf t) r (in_tree ch) (match_position t') (match_length t') /\
    longest (text_buf t) r (in_tree ch) (match_length t').
Proof. apply InsertNode_spec. Qed.

Lemma InsertNode_longest_match_witness :
  exists t ch, tree_inv t ch /\ exists t' ch', InsertNode t 5 = Some t' /\ tree_inv t' ch' /\
    text_buf t' = text_buf t /\ (forall y, in_tree ch' y -> in_tree ch y \/ y = 5) /\
    matches (text_buf t) 5 (in_tree ch) (match_position t') (match_length t') /\
    longest (text_buf t) 5 (in_tree ch) (match_length t').
Proof.
  destruct (InitTree_spec [] (replicate (Z.to_nat (N + 1)) 0)
    (replicate (Z.to_nat (N + 257)) 0) (replicate (Z.to_nat (N + 1)) 0) 0 0)
    as (rs & da & _ & Hinit); [by rewrite length_replicate..|].
  assert (tree_inv (Lzss (replicate (Z.to_nat (N + F - 1)) 32) (replicate (Z.to_nat (N + 1)) 0) rs da 0 0)
    (fun _ => [])) as Hi.
  { apply Hinit; [by rewrite length_replicate|]. apply Forall_replicate. unfold is_byte. lia. }
  eexists _, _. split; [exact Hi|]. apply (InsertNode_longest_match _ _ 5 Hi).
  - unfold N. lia.
  - intros (c & _ & []%elem_of_nil).
Defined.
