(* ===== verification/Otrx.v ===== *)
(** The TRX firmware container tool (package/utils/otrx/src/otrx.c): [otrx check],
    [otrx create] and [otrx extract] as functions on a file system. *)

From stdpp Require Import gmap.
From S2P Require Import Prelude Libc Crc.

(** ** Data *)

Definition TRX_MAGIC : Z := 0x30524448.
Definition TRX_FLAGS_OFFSET : Z := 12.
Definition TRX_MAX_PARTS : Z := 3.

Definition EIO : Z := 5.
Definition ENOMEM : Z := 12.
Definition EACCES : Z := 13.
Definition EINVAL : Z := 22.
Definition ENOSPC : Z := 28.

Record trx_header := TrxHeader {
  th_magic : Z; th_length : Z; th_crc32 : Z; th_flags : Z; th_version : Z; th_offset : list Z
}.

Definition trx_header_size : Z := 28.

(** The structure in memory (little endian, no padding) and back. *)
Definition trx_header_bytes (h : trx_header) : list Z :=
  le_bytes 4 (th_magic h) ++ le_bytes 4 (th_length h) ++ le_bytes 4 (th_crc32 h) ++
  le_bytes 2 (th_flags h) ++ le_bytes 2 (th_version h) ++ concat (le_bytes 4 <$> th_offset h).

Definition trx_header_of (b : list Z) : trx_header :=
  let at_ (off n : nat) := le_val (take n (drop off b)) in
  (TrxHeader (at_ 0 4) (at_ 4 4) (at_ 8 4) (at_ 12 2) (at_ 14 2) [at_ 16 4; at_ 20 4; at_ 24 4])%nat.

Definition otrx_min (x y : Z) : Z := if x <? y then x else y.

(** ** Environment *)

Section otrx.
(** Which allocations succeed, which paths can be written, how large a file gets. *)
Context (malloc_ok : Z -> bool) (can_create : path -> bool) (file_max : Z).

(** ** Check *)

Definition otrx_check_parse_options (args : list path) : Z :=
  fold_left (fun trx_offset o => if o.1 =? 111 then u32 (atoi o.2) else trx_offset)
    (getopt (fun c => if c =? 111 then WithArg else Unknown) args) 0.

(** The read loop over [buf[1024]]; every round but the last consumes a byte of the
    file, whose size bounds the rounds. *)
Fixpoint check_loop (fuel : nat) (fs : filesys) (f : file) (length crc32 : Z) : option (Z * Z) :=
  match fuel with
  | O => None
  | S fuel =>
      let '(buf, f) := fread fs f (otrx_min 1024 length) in
      if 0 <? zlen buf then
        check_loop fuel fs f (length - zlen buf) (fold_left otrx_crc32_update buf crc32)
      else Some (length, crc32)
  end.

(** [otrx_check]; [argv] without the program name and the command. *)
Definition otrx_check (fs : filesys) (argv : list path) : option Z :=
  match argv with
  | [] => Some (- EINVAL)
  | trx_path :: args =>
      let trx_offset := otrx_check_parse_options args in
      match fopen_r fs trx_path with
      | None => Some (- EACCES)
      | Some trx =>
          let trx := fseek trx trx_offset in
          let '(bytes, trx) := fread fs trx trx_header_size in
          if negb (zlen bytes =? trx_header_size) then Some (- EIO)
          else
            let hdr := trx_header_of bytes in
            if negb (th_magic hdr =? TRX_MAGIC) then Some (- EINVAL)
            else
              let length := th_length hdr in
              if length <? trx_header_size then Some (- EINVAL)
              else
                let trx := fseek trx (u32 (trx_offset + TRX_FLAGS_OFFSET)) in
                '(length, crc32) ← check_loop (S (List.length (contents fs trx_path))) fs trx
                                     (length - TRX_FLAGS_OFFSET) 0xffffffff;
                if negb (length =? 0) then Some (- EIO)
                else if negb (crc32 =? th_crc32 hdr) then Some (- EINVAL)
                else Some 0
      end
  end.

(** ** Create *)

(** The copy loop over [buf[128]]; [None] when the fuel runs out, which needs an
    input that grows while it is read. *)
Fixpoint append_loop (fuel : nat) (fs : filesys) (trx inp : file) (length : Z) : option (filesys * file * Z) :=
  match fuel with
  | O => None
  | S fuel =>
      let '(buf, inp) := fread fs inp 128 in
      if 0 <? zlen buf then
        let '(fs, trx, n) := fwrite file_max fs trx buf in
        if negb (n =? zlen buf) then Some (fs, trx, - EIO)
        else append_loop fuel fs trx inp (length + zlen buf)
      else Some (fs, trx, length)
  end.

Definition otrx_create_append_file (fs : filesys) (trx : file) (in_path : path)
  : option (filesys * file * Z) :=
  match fopen_r fs in_path with
  | None => Some (fs, trx, - EACCES)
  | Some inp => append_loop (S (length (contents fs in_path))) fs trx inp 0
  end.

Definition otrx_create_append_zeros (fs : filesys) (trx : file) (length : Z) : filesys * file * Z :=
  if negb (malloc_ok length) then (fs, trx, - ENOMEM)
  else
    let '(fs, trx, n) := fwrite file_max fs trx (replicate (Z.to_nat length) 0) in
    if negb (n =? length) then (fs, trx, - EIO) else (fs, trx, length).

Definition otrx_create_align (fs : filesys) (trx : file) (curr_offset alignment : Z) : filesys * file * Z :=
  if negb (Z.land curr_offset (alignment - 1) =? 0) then
    otrx_create_append_zeros fs trx (alignment - curr_offset mod alignment)
  else (fs, trx, 0).

Definition otrx_create_write_hdr (fs : filesys) (trx : file) (hdr : trx_header) : filesys * Z :=
  let hdr := TrxHeader TRX_MAGIC (th_length hdr) (th_crc32 hdr) (th_flags hdr) 1 (th_offset hdr) in
  let trx := fseek trx 0 in
  let '(fs, trx, bytes) := fwrite file_max fs trx (trx_header_bytes hdr) in
  if negb (bytes =? trx_header_size) then (fs, - EIO)
  else
    let length := th_length hdr in
    if negb (malloc_ok length) then (fs, - ENOMEM)
    else
      let trx := fseek trx 0 in
      let '(buf, trx) := fread fs trx length in
      if negb (zlen buf =? length) then (fs, - ENOMEM)
      else
        let crc32 := otrx_crc32 (drop (Z.to_nat TRX_FLAGS_OFFSET) buf) in
        let hdr := TrxHeader (th_magic hdr) (th_length hdr) crc32 (th_flags hdr) (th_version hdr) (th_offset hdr) in
        let trx := fseek trx 0 in
        let '(fs, trx, bytes) := fwrite file_max fs trx (trx_header_bytes hdr) in
        if negb (bytes =? trx_header_size) then (fs, - EIO) else (fs, 0).

(** The variables of [otrx_create] that the option loop changes. *)
Record creating := Creating {
  c_fs : filesys; c_trx : file; c_idx : Z; c_offset : Z; c_hdr_offset : list Z
}.

(** One option: [inr] is the [goto err_close]. *)
Definition create_option (st : creating) (o : Z * path) : option (creating + filesys * Z) :=
  let '(c, optarg) := o in
  if c =? 102 then
    if TRX_MAX_PARTS <=? c_idx st then Some (inr (c_fs st, - ENOSPC))
    else
      '(fs, trx, sbytes) ← otrx_create_append_file (c_fs st) (c_trx st) optarg;
      let st :=
        if sbytes <? 0 then Creating fs trx (c_idx st) (c_offset st) (c_hdr_offset st)
        else Creating fs trx (c_idx st + 1) (u32 (c_offset st + sbytes))
               (<[Z.to_nat (c_idx st) := c_offset st]> (c_hdr_offset st)) in
      let '(fs, trx, sbytes) := otrx_create_align (c_fs st) (c_trx st) (c_offset st) 4 in
      Some (inl (Creating fs trx (c_idx st)
                   (if sbytes <? 0 then c_offset st else u32 (c_offset st + sbytes)) (c_hdr_offset st)))
  else if c =? 98 then
    let sbytes := s32 (strtol0 optarg - c_offset st) in
    if sbytes <? 0 then Some (inl st)
    else
      let '(fs, trx, sbytes) := otrx_create_append_zeros (c_fs st) (c_trx st) sbytes in
      Some (inl (Creating fs trx (c_idx st)
                   (if sbytes <? 0 then c_offset st else u32 (c_offset st + sbytes)) (c_hdr_offset st)))
  else Some (inl st).

Fixpoint create_options (st : creating) (os : list (Z * path)) : option (creating + filesys * Z) :=
  match os with
  | [] => Some (inl st)
  | o :: os =>
      r ← create_option st o;
      match r with
      | inl st => create_options st os
      | inr e => Some (inr e)
      end
  end.

Definition create_getopt : list path -> list (Z * path) :=
  getopt (fun c => if (c =? 102) || (c =? 98) then WithArg else Unknown).

(** [otrx_create]: the new file system and the exit status. *)
Definition otrx_create (fs : filesys) (argv : list path) : option (filesys * Z) :=
  match argv with
  | [] => Some (fs, - EINVAL)
  | trx_path :: args =>
      match fopen_w can_create fs trx_path with
      | None => Some (fs, - EACCES)
      | Some (fs, trx) =>
          let curr_offset := trx_header_size in
          let trx := fseek trx curr_offset in
          r ← create_options (Creating fs trx 0 curr_offset [0; 0; 0]) (create_getopt args);
          match r with
          | inr e => Some e
          | inl st =>
              let hdr := TrxHeader 0 (c_offset st) 0 0 0 (c_hdr_offset st) in
              Some ((otrx_create_write_hdr (c_fs st) (c_trx st) hdr).1, 0)
          end
      end
  end.

(** ** Extract *)

(** [trx_offset] and the three output paths. *)
Definition otrx_extract_parse_options (args : list path) : Z * list (option path) :=
  fold_left (fun '(trx_offset, partition) '(c, optarg) =>
               if c =? 111 then (u32 (atoi optarg), partition)
               else if c =? 49 then (trx_offset, <[0%nat := Some optarg]> partition)
               else if c =? 50 then (trx_offset, <[1%nat := Some optarg]> partition)
               else if c =? 51 then (trx_offset, <[2%nat := Some optarg]> partition)
               else (trx_offset, partition))
    (getopt (fun c => if bool_decide (c ∈ [99; 101; 111; 49; 50; 51]) then WithArg else Unknown) args)
    (0, [None; None; None]).

Definition otrx_extract_copy (fs : filesys) (trx : file) (offset length : Z) (out_path : path)
  : filesys * file * Z :=
  match fopen_w can_create fs out_path with
  | None => (fs, trx, - EACCES)
  | Some (fs, out) =>
      if negb (malloc_ok length) then (fs, trx, - ENOMEM)
      else
        let trx := fseek trx offset in
        let '(buf, trx) := fread fs trx length in
        if negb (zlen buf =? length) then (fs, trx, - ENOMEM)
        else
          let '(fs, out, bytes) := fwrite file_max fs out buf in
          if negb (bytes =? length) then (fs, trx, - ENOMEM) else (fs, trx, 0)
  end.

(** The loop over [partition], from index [i]. *)
Fixpoint extract_loop (partition : list (option path)) (i : nat) (fs : filesys) (trx : file)
    (trx_offset : Z) (hdr : trx_header) : filesys * file :=
  match partition with
  | [] => (fs, trx)
  | None :: rest => extract_loop rest (S i) fs trx trx_offset hdr
  | Some out :: rest =>
      let off := th_offset hdr !!! i in
      if off =? 0 then extract_loop rest (S i) fs trx trx_offset hdr
      else
        let length :=
          if (TRX_MAX_PARTS <=? Z.of_nat i + 1) || (th_offset hdr !!! S i =? 0)
          then u32 (th_length hdr - off)
          else u32 (th_offset hdr !!! S i - off) in
        let '(fs, trx, _) := otrx_extract_copy fs trx (u32 (trx_offset + off)) length out in
        extract_loop rest (S i) fs trx trx_offset hdr
  end.

Definition otrx_extract (fs : filesys) (argv : list path) : filesys * Z :=
  match argv with
  | [] => (fs, - EINVAL)
  | trx_path :: args =>
      let '(trx_offset, partition) := otrx_extract_parse_options args in
      match fopen_r fs trx_path with
      | None => (fs, - EACCES)
      | Some trx =>
          let trx := fseek trx trx_offset in
          let '(bytes, trx) := fread fs trx trx_header_size in
          if negb (zlen bytes =? trx_header_size) then (fs, - EIO)
          else
            let hdr := trx_header_of bytes in
            if negb (th_magic hdr =? TRX_MAGIC) then (fs, - EINVAL)
            else ((extract_loop partition 0 fs trx trx_offset hdr).1, 0)
      end
  end.

(** ** Start *)

(** [main]; [argv] without the program name. *)
Definition otrx_main (fs : filesys) (argv : list path) : option (filesys * Z) :=
  match argv with
  | cmd :: argv =>
      if bool_decide (cmd = bs "check") then r ← otrx_check fs argv; Some (fs, r)
      else if bool_decide (cmd = bs "create") then otrx_create fs argv
      else if bool_decide (cmd = bs "extract") then Some (otrx_extract fs argv)
      else Some (fs, 0)
  | [] => Some (fs, 0)
  end.
End otrx.
