(* ===== verification/OtrxSpec.v ===== *)
(** What [otrx] produces and accepts. *)

From stdpp Require Import gmap.
From S2P Require Import Prelude Libc Crc Otrx.

(** ** Specification: valid files and the layout of a new one *)

Definition trx_header_wf (h : trx_header) : Prop :=
  is_u32 (th_magic h) /\ is_u32 (th_length h) /\ is_u32 (th_crc32 h) /\
  is_u16 (th_flags h) /\ is_u16 (th_version h) /\ Forall is_u32 (th_offset h) /\ length (th_offset h) = 3%nat.

(** A file [otrx check] must accept: the magic, a length inside the file, and the CRC of
    everything from the flags on. *)
Definition valid_trx (c : list Z) : Prop :=
  let h := trx_header_of c in
  trx_header_size <= zlen c /\ th_magic h = TRX_MAGIC /\
  trx_header_size <= th_length h <= zlen c /\
  otrx_crc32 (take (Z.to_nat (th_length h - TRX_FLAGS_OFFSET)) (drop 12 c)) = th_crc32 h.

Inductive op := AddFile (c : list Z) | PadTo (n : Z).

(** The image under construction (with a blank header) and the partition offsets. *)
Definition align4 (n : Z) : Z := (- n) mod 4.

Definition layout_op (st : list Z * list Z) (o : op) : list Z * list Z :=
  let '(img, offs) := st in
  match o with
  | AddFile c => (img ++ c ++ replicate (Z.to_nat (align4 (zlen img + zlen c))) 0, offs ++ [zlen img])
  | PadTo n => (img ++ replicate (Z.to_nat (n - zlen img)) 0, offs)
  end.

Definition layout (ops : list op) : list Z * list Z :=
  fold_left layout_op ops (replicate 28 0, []).

(** What the options of [otrx create p] ask for: files that exist and are not the
    output itself, and non-negative padding. *)
Definition op_of (fs : filesys) (p : path) (o : Z * path) : option (list op) :=
  if o.1 =? 102 then (if bool_decide (o.2 = p) then None else c ← fs !! o.2; Some [AddFile c])
  else if o.1 =? 98 then (if strtol0 o.2 <? 0 then None else Some [PadTo (strtol0 o.2)])
  else Some [].

Fixpoint ops_of (fs : filesys) (p : path) (os : list (Z * path)) : option (list op) :=
  match os with
  | [] => Some []
  | o :: os => a ← op_of fs p o; b ← ops_of fs p os; Some (a ++ b)
  end.

(** The finished file. *)
Definition trx_file (img offs : list Z) : list Z :=
  let offset := offs ++ replicate (3 - length offs) 0 in
  let crc := otrx_crc32 (le_bytes 2 0 ++ le_bytes 2 1 ++ concat (le_bytes 4 <$> offset) ++ drop 28 img) in
  trx_header_bytes (TrxHeader TRX_MAGIC (zlen img) crc 0 1 offset) ++ drop 28 img.

(** ** The header in memory *)

Lemma trx_header_bytes_length h : length (th_offset h) = 3%nat -> length (trx_header_bytes h) = 28%nat.
Proof.
  intros Hl. unfold trx_header_bytes. destruct (th_offset h) as [|a [|b [|c [|]]]]; try done.
Qed.

(** Fields as explicit bytes. *)
Lemma le4_cells z : is_u32 z -> exists a b c d, le_bytes 4 z = [a; b; c; d] /\ le_val [a; b; c; d] = z.
Proof.
  intros Hz. pose proof (le_val_bytes32 z Hz) as Hv. pose proof (length_le_bytes 4 z) as Hl.
  destruct (le_bytes 4 z) as [|a [|b [|c [|d [|]]]]]; try done. by exists a, b, c, d.
Qed.

Lemma le2_cells z : is_u16 z -> exists a b, le_bytes 2 z = [a; b] /\ le_val [a; b] = z.
Proof.
  intros Hz. pose proof (le_val_bytes 2 z Hz) as Hv. pose proof (length_le_bytes 2 z) as Hl.
  destruct (le_bytes 2 z) as [|a [|b [|]]]; try done. by exists a, b.
Qed.

Lemma trx_header_roundtrip h rest : trx_header_wf h -> trx_header_of (trx_header_bytes h ++ rest) = h.
Proof.
  intros (H1 & H2 & H3 & H4 & H5 & H6 & H7). destruct h as [mg ln cr fl ve off].
  cbn [th_magic th_length th_crc32 th_flags th_version th_offset] in *.
  destruct off as [|x [|y [|z [|]]]]; try done. rewrite !Forall_cons in H6. destruct H6 as (Hx & Hy & Hz & _).
  destruct (le4_cells _ H1) as (? & ? & ? & ? & E1 & V1), (le4_cells _ H2) as (? & ? & ? & ? & E2 & V2),
    (le4_cells _ H3) as (? & ? & ? & ? & E3 & V3), (le2_cells _ H4) as (? & ? & E4 & V4),
    (le2_cells _ H5) as (? & ? & E5 & V5), (le4_cells _ Hx) as (? & ? & ? & ? & E6 & V6),
    (le4_cells _ Hy) as (? & ? & ? & ? & E7 & V7), (le4_cells _ Hz) as (? & ? & ? & ? & E8 & V8).
  unfold trx_header_of, trx_header_bytes. cbn [th_magic th_length th_crc32 th_flags th_version th_offset].
  cbn [fmap list_fmap concat]. rewrite E1, E2, E3, E4, E5, E6, E7, E8. cbn [app take drop].
  by rewrite take_0, V1, V2, V3, V4, V5, V6, V7, V8.
Qed.

(** ** Check *)

Lemma take_prefix_length {A} (n : nat) (l : list A) : take (length (take n l)) l = take n l.
Proof. rewrite length_take. destruct (decide (n <= length l)%nat); [by rewrite Nat.min_l|]. rewrite Nat.min_r by lia.
  by rewrite !take_ge by lia. Qed.

Lemma check_loop_spec fs p fuel : forall k n crc,
  0 <= k -> 0 <= n -> Z.min n (zlen (contents fs p) - k) < Z.of_nat fuel -> 0 < Z.of_nat fuel ->
  let d := take (Z.to_nat n) (drop (Z.to_nat k) (contents fs p)) in
  check_loop fuel fs (File p k) n crc = Some (n - zlen d, fold_left otrx_crc32_update d crc).
Proof.
  induction fuel as [|fuel IH]; intros k n crc Hk Hn Hf H0; [lia|]. cbn [check_loop]. unfold fread.
  cbn [f_path f_pos]. set (c := contents fs p) in *.
  set (b := take (Z.to_nat (otrx_min 1024 n)) (drop (Z.to_nat k) c)).
  assert (zlen b = Z.max 0 (Z.min (Z.min 1024 n) (zlen c - k))) as Hb.
  { unfold b. rewrite length_take, length_drop. unfold otrx_min. destruct (Z.ltb_spec 1024 n); lia. }
  destruct (Z.ltb_spec 0 (zlen b)) as [Hpos|Hz].
  - rewrite IH by lia. fold c.
    assert (take (Z.to_nat n) (drop (Z.to_nat k) c) =
      b ++ take (Z.to_nat (n - zlen b)) (drop (Z.to_nat (k + zlen b)) c)) as Hd.
    { replace (Z.to_nat (k + zlen b)) with (Z.to_nat k + length b)%nat by lia. rewrite <- drop_drop.
      replace (Z.to_nat n) with (length b + Z.to_nat (n - zlen b))%nat at 1 by lia.
      assert (drop (Z.to_nat k) c = b ++ drop (length b) (drop (Z.to_nat k) c)) as E.
      { rewrite <- (take_drop (length b) (drop (Z.to_nat k) c)) at 1. f_equal. by apply take_prefix_length. }
      rewrite E at 1. by rewrite take_app_add. }
    rewrite Hd, length_app, fold_left_app. do 2 f_equal. lia.
  - assert (take (Z.to_nat n) (drop (Z.to_nat k) c) = []) as ->; [|do 2 f_equal; simpl; lia].
    apply length_zero_iff_nil. rewrite length_take, length_drop. lia.
Qed.

(** The header only depends on its own bytes. *)
Lemma trx_header_of_take c : trx_header_of (take 28 c) = trx_header_of c.
Proof.
  assert (forall off n, (off + n <= 28)%nat -> take n (drop off (take 28 c)) = take n (drop off c)) as H.
  { intros off n Hn. rewrite skipn_firstn_comm, take_take. f_equal. lia. }
  unfold trx_header_of. by rewrite !H by lia.
Qed.

(** The verdict as a function of the contents. *)
Definition check_result (c : list Z) : Z :=
  let h := trx_header_of c in
  if zlen c <? trx_header_size then - EIO
  else if negb (th_magic h =? TRX_MAGIC) then - EINVAL
  else if th_length h <? trx_header_size then - EINVAL
  else if zlen c <? th_length h then - EIO
  else if negb (otrx_crc32 (take (Z.to_nat (th_length h - TRX_FLAGS_OFFSET)) (drop 12 c)) =? th_crc32 h)
  then - EINVAL
  else 0.

Lemma otrx_check_eval fs p c : fs !! p = Some c -> otrx_check fs [p] = Some (check_result c).
Proof.
  intros Hp. unfold otrx_check, check_result. change (otrx_check_parse_options []) with 0.
  unfold fopen_r. rewrite Hp. cbn [mbind option_bind]. change (fseek (File p 0) 0) with (File p 0).
  unfold fread. cbn [f_path f_pos]. change (Z.to_nat 0) with 0%nat. rewrite drop_0.
  assert (contents fs p = c) as Hc by (unfold contents; by rewrite Hp). rewrite Hc.
  change (Z.to_nat trx_header_size) with 28%nat. rewrite length_take, trx_header_of_take.
  generalize (trx_header_of c). intros h.
  unfold trx_header_size. destruct (Z.ltb_spec (zlen c) 28) as [Hs|Hs].
  { rewrite (proj2 (Z.eqb_neq _ 28)) by lia. done. }
  rewrite (proj2 (Z.eqb_eq _ 28)) by lia. simpl negb. cbn match.
  destruct (th_magic h =? TRX_MAGIC); [|done]. simpl negb. cbn match.
  destruct (Z.ltb_spec (th_length h) 28) as [Hl|Hl]; [done|].
  change (fseek _ (u32 (0 + TRX_FLAGS_OFFSET))) with (File p 12).
  unfold TRX_FLAGS_OFFSET. rewrite check_loop_spec by (rewrite ?Hc; lia). rewrite Hc.
  cbn [mbind option_bind]. change (Z.to_nat 12) with 12%nat. rewrite length_take, length_drop.
  destruct (Z.ltb_spec (zlen c) (th_length h)) as [Hb|Hb].
  - rewrite (proj2 (Z.eqb_neq _ 0)) by lia. done.
  - rewrite (proj2 (Z.eqb_eq _ 0)) by lia. simpl negb. cbn match. fold otrx_crc32.
    change (fold_left otrx_crc32_update ?d 4294967295) with (otrx_crc32 d). by destruct (_ =? _).
Qed.

Lemma check_result_valid c : check_result c = 0 <-> valid_trx c.
Proof.
  unfold check_result, valid_trx, trx_header_size, EIO, EINVAL. generalize (trx_header_of c). intros h.
  destruct (Z.ltb_spec (zlen c) 28); [split; intros; lia|].
  destruct (Z.eqb_spec (th_magic h) TRX_MAGIC); simpl negb; cbn match; [|split; intros; lia].
  destruct (Z.ltb_spec (th_length h) 28); [split; intros; lia|].
  destruct (Z.ltb_spec (zlen c) (th_length h)); [split; intros; lia|].
  destruct (Z.eqb_spec (otrx_crc32 (take (Z.to_nat (th_length h - TRX_FLAGS_OFFSET)) (drop 12 c)))
    (th_crc32 h)); simpl negb; cbn match; split; intros; lia.
Qed.

(** ** Create *)

(** A file that was extended past its end only gets its zeros with the next byte. *)
Definition on_disk (c img : list Z) : Prop := c = img \/ c = [] /\ img = replicate 28 0.

Lemma on_disk_splice c img d : on_disk c img -> on_disk (splice c (zlen img) d) (img ++ d).
Proof.
  intros [->|[-> ->]].
  - left. apply splice_end.
  - destruct d as [|x d]; [right; by rewrite app_nil_r|left].
    by rewrite (splice_gap [] 28).
Qed.

Definition same_but (p : path) (fs fs' : filesys) : Prop := forall q, q <> p -> fs' !! q = fs !! q.

Section create.
Context (malloc_ok : Z -> bool) (can_create : path -> bool) (file_max : Z) (p : path).
Context (Hmalloc : forall n, malloc_ok n = true).

Lemma fwrite_append fs img d :
  on_disk (contents fs p) img -> zlen img + zlen d <= file_max ->
  exists fs', fwrite file_max fs (File p (zlen img)) d = (fs', File p (zlen (img ++ d)), zlen d) /\
    on_disk (contents fs' p) (img ++ d) /\ same_but p fs fs'.
Proof.
  intros Hd Hm. unfold fwrite. cbn [f_path f_pos]. rewrite take_ge by lia. eexists. split.
  { rewrite length_app. do 2 f_equal. f_equal. lia. }
  split; [rewrite contents_insert; by apply on_disk_splice|]. intros q Hq. by apply lookup_insert_ne.
Qed.

Lemma same_but_trans fs1 fs2 fs3 : same_but p fs1 fs2 -> same_but p fs2 fs3 -> same_but p fs1 fs3.
Proof. intros H1 H2 q Hq. by rewrite H2, H1. Qed.

Lemma append_loop_spec q c fuel : forall fs img k len,
  q <> p -> fs !! q = Some c -> on_disk (contents fs p) img -> 0 <= k <= zlen c ->
  zlen c - k < Z.of_nat fuel -> zlen img + (zlen c - k) <= file_max ->
  let d := drop (Z.to_nat k) c in
  exists fs', append_loop file_max fuel fs (File p (zlen img)) (File q k) len =
      Some (fs', File p (zlen (img ++ d)), len + zlen d) /\
    on_disk (contents fs' p) (img ++ d) /\ same_but p fs fs'.
Proof.
  induction fuel as [|fuel IH]; intros fs img k len Hq Hc Hd Hk Hf Hm d; [lia|].
  cbn [append_loop]. unfold fread. cbn [f_path f_pos].
  assert (contents fs q = c) as -> by (unfold contents; by rewrite Hc).
  set (b := take (Z.to_nat 128) (drop (Z.to_nat k) c)).
  assert (zlen b = Z.min 128 (zlen c - k)) as Hb by (unfold b; rewrite length_take, length_drop; lia).
  destruct (Z.ltb_spec 0 (zlen b)) as [Hpos|Hz].
  - destruct (fwrite_append fs img b) as (fs1 & -> & Hd1 & Hs1); [done|lia|].
    rewrite Z.eqb_refl. simpl negb. cbn match.
    destruct (IH fs1 (img ++ b) (k + zlen b) (len + zlen b)) as (fs2 & HI & Hd2 & Hs2);
      try done; try lia; [by rewrite Hs1|rewrite length_app; lia|].
    assert (d = b ++ drop (Z.to_nat (k + zlen b)) c) as Ed.
    { unfold d. replace (Z.to_nat (k + zlen b)) with (Z.to_nat k + length b)%nat by lia.
      rewrite <- drop_drop, <- (take_drop (length b) (drop (Z.to_nat k) c)) at 1. f_equal. apply take_prefix_length. }
    exists fs2. rewrite Ed, app_assoc. split_and!; [|done|by eapply same_but_trans].
    rewrite HI. f_equal. f_equal. rewrite !length_app. lia.
  - assert (d = []) as -> by (apply length_zero_iff_nil; unfold d; rewrite length_drop; lia).
    exists fs. rewrite app_nil_r, Z.add_0_r. by split_and!.
Qed.

Lemma append_zeros_spec fs img n :
  on_disk (contents fs p) img -> 0 <= n -> zlen img + n <= file_max ->
  exists fs', otrx_create_append_zeros malloc_ok file_max fs (File p (zlen img)) n =
      (fs', File p (zlen (img ++ replicate (Z.to_nat n) 0)), n) /\
    on_disk (contents fs' p) (img ++ replicate (Z.to_nat n) 0) /\ same_but p fs fs'.
Proof.
  intros Hd Hn Hm. unfold otrx_create_append_zeros. rewrite Hmalloc. simpl negb. cbn match.
  destruct (fwrite_append fs img (replicate (Z.to_nat n) 0)) as (fs1 & -> & Hd1 & Hs1);
    [done|rewrite length_replicate; lia|].
  rewrite length_replicate, (proj2 (Z.eqb_eq _ n)) by lia. simpl negb. cbn match. by exists fs1.
Qed.

Lemma align_spec fs img :
  on_disk (contents fs p) img -> zlen img + align4 (zlen img) <= file_max ->
  exists fs', otrx_create_align malloc_ok file_max fs (File p (zlen img)) (zlen img) 4 =
      (fs', File p (zlen (img ++ replicate (Z.to_nat (align4 (zlen img))) 0)), align4 (zlen img)) /\
    on_disk (contents fs' p) (img ++ replicate (Z.to_nat (align4 (zlen img))) 0) /\ same_but p fs fs'.
Proof.
  intros Hd Hm. unfold otrx_create_align. change (4 - 1) with (Z.ones 2). rewrite Z.land_ones by lia.
  change (2 ^ 2) with 4. unfold align4 in *. destruct (Z.eqb_spec (zlen img mod 4) 0) as [E|E]; simpl negb; cbn match.
  - rewrite Z.mod_opp_l_z by (done || lia). rewrite app_nil_r. by exists fs.
  - rewrite Z.mod_opp_l_nz in * by (done || lia). apply append_zeros_spec; [done| |done].
    Z.div_mod_to_equations. lia.
Qed.

Record create_inv (st : creating) (img offs : list Z) : Prop := {
  cr_trx : c_trx st = File p (zlen img);
  cr_offset : c_offset st = zlen img;
  cr_idx : c_idx st = zlen offs;
  cr_hdr : c_hdr_offset st = offs ++ replicate (3 - length offs) 0;
  cr_disk : on_disk (contents (c_fs st) p) img
}.

Lemma insert_offset (offs : list Z) x : (length offs < 3)%nat ->
  <[length offs := x]> (offs ++ replicate (3 - length offs) 0) =
  (offs ++ [x]) ++ replicate (3 - length (offs ++ [x])) 0.
Proof.
  intros Hl. rewrite insert_app_r_alt, Nat.sub_diag by lia. rewrite length_app, <- app_assoc. simpl.
  replace (3 - length offs)%nat with (S (3 - (length offs + 1)))%nat by lia. done.
Qed.

(** The [-f] option. *)
Lemma create_file_spec st img offs q c img' offs' :
  create_inv st img offs -> q <> p -> c_fs st !! q = Some c -> (length offs < 3)%nat ->
  layout_op (img, offs) (AddFile c) = (img', offs') -> zlen img' <= file_max -> zlen img' < 2 ^ 31 ->
  exists st', create_option malloc_ok file_max st (102, q) = Some (inl st') /\
    create_inv st' img' offs' /\ same_but p (c_fs st) (c_fs st').
Proof.
  intros [Ht Ho Hi Hh Hd] Hq Hc Hl [= <- <-] Hm H31. unfold create_option. cbn [Z.eqb].
  rewrite app_assoc, !length_app, length_replicate in Hm, H31.
  rewrite (proj2 (Z.leb_gt TRX_MAX_PARTS _)) by (rewrite Hi; unfold TRX_MAX_PARTS; lia).
  unfold otrx_create_append_file, fopen_r. rewrite Hc. cbn [mbind option_bind]. rewrite Ht.
  assert (contents (c_fs st) q = c) as -> by (unfold contents; by rewrite Hc).
  destruct (append_loop_spec q c (S (length c)) (c_fs st) img 0 0) as (fs1 & -> & Hd1 & Hs1); try done; try lia.
  cbn [mbind option_bind]. change (drop (Z.to_nat 0) c) with c in *. rewrite Z.add_0_l.
  rewrite (proj2 (Z.ltb_ge (zlen c) 0)) by lia. cbn [c_fs c_trx c_idx c_offset c_hdr_offset].
  rewrite Ho. rewrite (u32_id (zlen img + zlen c)) by (width || lia).
  assert (zlen (img ++ c) = zlen img + zlen c) as El by (rewrite length_app; lia). rewrite <- El.
  assert (0 <= align4 (zlen (img ++ c))) as Ha by (unfold align4; apply Z.mod_pos_bound; lia).
  rewrite <- El in Hm, H31.
  destruct (align_spec fs1 (img ++ c)) as (fs2 & -> & Hd2 & Hs2); [done|lia|].
  rewrite (proj2 (Z.ltb_ge _ 0)) by done. eexists. split; [done|].
  split; [|eapply same_but_trans; eauto].
  split; cbn [c_fs c_trx c_idx c_offset c_hdr_offset]; rewrite ?app_assoc; try done.
  - rewrite u32_id by width. rewrite (length_app (img ++ c)), length_replicate. lia.
  - rewrite Hi, length_app. simpl. lia.
  - rewrite Hi, Hh, Nat2Z.id. by apply insert_offset.
Qed.

(** The [-b] option. *)
Lemma create_pad_spec st img offs s :
  create_inv st img offs -> zlen img < 2 ^ 31 -> 0 <= strtol0 s < 2 ^ 31 ->
  zlen (layout_op (img, offs) (PadTo (strtol0 s))).1 <= file_max ->
  exists st', create_option malloc_ok file_max st (98, s) = Some (inl st') /\
    create_inv st' (layout_op (img, offs) (PadTo (strtol0 s))).1 offs /\ same_but p (c_fs st) (c_fs st').
Proof.
  intros [Ht Ho Hi Hh Hd] H31 Hn Hm. unfold create_option. cbn [Z.eqb layout_op fst] in *.
  rewrite Ho, s32_id by lia. rewrite length_app, length_replicate in Hm.
  destruct (Z.ltb_spec (strtol0 s - zlen img) 0) as [Hneg|Hpos].
  - exists st. replace (Z.to_nat (strtol0 s - zlen img)) with 0%nat by lia.
    rewrite app_nil_r. by split_and!.
  - rewrite Ht. destruct (append_zeros_spec (c_fs st) img (strtol0 s - zlen img)) as (fs1 & -> & Hd1 & Hs1);
      [done|lia|lia|]. rewrite (proj2 (Z.ltb_ge _ 0)) by lia. eexists. split; [done|]. split; [|done].
    split; cbn [c_fs c_trx c_idx c_offset c_hdr_offset]; try done.
    rewrite length_app, length_replicate, u32_id by width. lia.
Qed.

Lemma layout_grows ops : forall img offs,
  zlen img <= zlen (fold_left layout_op ops (img, offs)).1 /\
  (length offs <= length (fold_left layout_op ops (img, offs)).2)%nat.
Proof.
  induction ops as [|o ops IH]; intros img offs; [simpl; lia|]. cbn [fold_left].
  destruct o as [c|n]; cbn [layout_op].
  - specialize (IH (img ++ c ++ replicate (Z.to_nat (align4 (zlen img + zlen c))) 0) (offs ++ [zlen img])).
    rewrite (length_app img), (length_app offs) in IH. simpl length in IH. lia.
  - specialize (IH (img ++ replicate (Z.to_nat (n - zlen img)) 0) offs). rewrite (length_app img) in IH. lia.
Qed.

Lemma ops_of_same fs fs' os : same_but p fs fs' -> ops_of fs' p os = ops_of fs p os.
Proof.
  intros Hs. induction os as [|o os IH]; [done|]. cbn [ops_of]. rewrite IH.
  assert (op_of fs' p o = op_of fs p o) as ->; [|done]. unfold op_of.
  destruct (o.1 =? 102); [|done]. case_bool_decide; [done|]. by rewrite Hs.
Qed.

Lemma create_options_spec os : forall st img offs ops,
  create_inv st img offs -> ops_of (c_fs st) p os = Some ops ->
  let final := fold_left layout_op ops (img, offs) in
  zlen final.1 <= file_max -> zlen final.1 < 2 ^ 31 -> (length final.2 <= 3)%nat ->
  exists st', create_options malloc_ok file_max st os = Some (inl st') /\
    create_inv st' final.1 final.2 /\ same_but p (c_fs st) (c_fs st').
Proof.
  induction os as [|[c s] os IH]; intros st img offs ops Hst Hops.
  { simpl in Hops. simplify_eq. intros. by exists st. }
  cbn [ops_of] in Hops. destruct (op_of (c_fs st) p (c, s)) as [a|] eqn:Ha; [|done].
  cbn [mbind option_bind] in Hops. destruct (ops_of (c_fs st) p os) as [b|] eqn:Hb; [|done].
  cbn [mbind option_bind] in Hops. injection Hops as <-. rewrite fold_left_app. intros final Hm H31 H3.
  assert (exists st1, create_option malloc_ok file_max st (c, s) = Some (inl st1) /\
    create_inv st1 (fold_left layout_op a (img, offs)).1 (fold_left layout_op a (img, offs)).2 /\
    same_but p (c_fs st) (c_fs st1)) as (st1 & Hc & Hst1 & Hs1).
  { unfold final in *. destruct (fold_left layout_op a (img, offs)) as [img1 offs1] eqn:E1.
    destruct (layout_grows b img1 offs1) as [G1 G2]. cbn [fst snd]. unfold op_of in Ha. cbn [fst snd] in Ha.
    destruct (Z.eqb_spec c 102) as [->|N1].
    - case_bool_decide as Hq; [done|]. destruct (c_fs st !! s) as [d|] eqn:Hd; [|done]. injection Ha as <-.
      apply (create_file_spec st img offs s d); try done; try lia.
      cbn [fold_left layout_op] in E1. injection E1 as _ E2.
      assert (length offs1 = length offs + 1)%nat by (rewrite <- E2, length_app; done). lia.
    - destruct (Z.eqb_spec c 98) as [->|N2].
      + destruct (Z.ltb_spec (strtol0 s) 0) as [?|Hn]; [done|]. injection Ha as <-.
        cbn [fold_left layout_op] in E1. injection E1 as E1 E2. rewrite <- E2 in *. rewrite <- E1 in *.
        rewrite length_app in G1. apply create_pad_spec; [done|lia| |cbn [layout_op fst]; rewrite length_app; lia].
        pose proof (strtol0_range s). lia.
      + injection Ha as <-. cbn [fold_left] in E1. injection E1 as <- <-. exists st. split_and!; try done.
        unfold create_option. by rewrite (proj2 (Z.eqb_neq c 102)), (proj2 (Z.eqb_neq c 98)) by done. }
  cbn [create_options]. rewrite Hc. cbn [mbind option_bind].
  destruct (fold_left layout_op a (img, offs)) as [img1 offs1] eqn:E1. cbn [fst snd] in Hst1.
  destruct (IH st1 img1 offs1 b Hst1) as (st2 & -> & Hst2 & Hs2); try done; [by rewrite (ops_of_same (c_fs st))|].
  exists st2. split_and!; try done. by eapply same_but_trans.
Qed.

(** Overwriting the first 28 bytes. *)
Lemma fwrite_header fs k h c :
  length h = 28%nat -> 28 <= file_max -> contents fs p = c ->
  exists fs', fwrite file_max fs (fseek (File p k) 0) h = (fs', File p 28, 28) /\
    fs' !! p = Some (h ++ drop 28 c) /\ same_but p fs fs'.
Proof.
  intros Hl Hm Hc. change (fseek (File p k) 0) with (File p 0). unfold fwrite. cbn [f_path f_pos].
  rewrite take_ge by lia. eexists. split; [by rewrite Hl|]. split.
  - rewrite lookup_insert_eq, splice_start, Hl, Hc. done.
  - intros q Hq. by apply lookup_insert_ne.
Qed.

Lemma write_hdr_spec fs k img offs :
  on_disk (contents fs p) img -> 28 <= zlen img <= file_max -> (length offs <= 3)%nat ->
  exists fs', otrx_create_write_hdr malloc_ok file_max fs (File p k)
      (TrxHeader 0 (zlen img) 0 0 0 (offs ++ replicate (3 - length offs) 0)) = (fs', 0) /\
    fs' !! p = Some (trx_file img offs) /\ same_but p fs fs'.
Proof.
  intros Hd Hl H3. unfold otrx_create_write_hdr. cbn [th_magic th_length th_crc32 th_flags th_version th_offset].
  set (offset := offs ++ replicate (3 - length offs) 0).
  assert (length offset = 3%nat) as Ho by (unfold offset; rewrite length_app, length_replicate; lia).
  set (h0 := TrxHeader TRX_MAGIC (zlen img) 0 0 1 offset).
  assert (drop 28 (contents fs p) = drop 28 img) as Hdrop by (destruct Hd as [->|[-> ->]]; done).
  destruct (fwrite_header fs k (trx_header_bytes h0) (contents fs p)) as (fs1 & -> & Hc1 & Hs1);
    [by apply trx_header_bytes_length|lia|done|]. rewrite Hdrop in Hc1.
  change (28 =? trx_header_size) with true. simpl negb. cbn match. rewrite Hmalloc. simpl negb. cbn match.
  change (fseek (File p 28) 0) with (File p 0). unfold fread at 1. cbn [f_path f_pos].
  change (Z.to_nat 0) with 0%nat. rewrite drop_0.
  assert (contents fs1 p = trx_header_bytes h0 ++ drop 28 img) as Hc1' by (unfold contents; by rewrite Hc1).
  rewrite Hc1'. rewrite take_ge by (rewrite length_app, length_drop, trx_header_bytes_length by done; lia).
  rewrite length_app, length_drop, trx_header_bytes_length by done.
  rewrite (proj2 (Z.eqb_eq _ (zlen img))) by lia. simpl negb. cbn match.
  set (crc := otrx_crc32 _).
  destruct (fwrite_header fs1 (0 + Z.of_nat (28 + (length img - 28)))
    (trx_header_bytes (TrxHeader TRX_MAGIC (zlen img) crc 0 1 offset)) (contents fs1 p)) as (fs2 & -> & Hc2 & Hs2);
    [by apply trx_header_bytes_length|lia|done|].
  exists fs2. split; [done|]. split; [|by eapply same_but_trans]. rewrite Hc2, Hc1'. f_equal.
  unfold trx_file. fold offset. f_equal.
  rewrite <- (trx_header_bytes_length h0 Ho). apply drop_app_length.
Qed.

Lemma create_spec fs args ops :
  can_create p = true -> ops_of fs p (create_getopt args) = Some ops ->
  let '(img, offs) := layout ops in
  zlen img <= file_max -> zlen img < 2 ^ 31 -> (length offs <= 3)%nat ->
  exists fs', otrx_create malloc_ok can_create file_max fs (p :: args) = Some (fs', 0) /\
    fs' !! p = Some (trx_file img offs) /\ same_but p fs fs'.
Proof.
  intros Hcan Hops. destruct (layout ops) as [img offs] eqn:El. intros Hm H31 H3.
  unfold otrx_create, fopen_w. rewrite Hcan.
  change (fseek (File p 0) trx_header_size) with (File p (zlen (replicate 28 0))).
  assert (same_but p fs (<[p := []]> fs)) as Hs0 by (intros q Hq; by apply lookup_insert_ne).
  destruct (create_options_spec (create_getopt args) (Creating (<[p := []]> fs) (File p (zlen (replicate 28 0))) 0
    trx_header_size [0; 0; 0]) (replicate 28 0) [] ops) as (st & -> & [Ht Ho Hi Hh Hd] & Hs);
    try (fold (layout ops); rewrite El; done).
  - split; try done. cbn [c_fs]. rewrite contents_insert. by right.
  - cbn [c_fs]. by rewrite (ops_of_same fs).
  - fold (layout ops) in *. rewrite El in *. cbn [fst snd] in *. cbn [mbind option_bind c_fs] in *.
    rewrite Ht, Ho, Hh.
    assert (28 <= zlen img) as H28.
    { pose proof (layout_grows ops (replicate 28 0) []) as [G _]. fold (layout ops) in G. rewrite El in G.
      rewrite length_replicate in G. cbn [fst] in G. lia. }
    destruct (write_hdr_spec (c_fs st) (zlen img) img offs) as (fs' & -> & Hc & Hs'); [done|lia|done|].
    exists fs'. split_and!; try done. eapply same_but_trans; [|done]. by eapply same_but_trans.
Qed.
End create.

(** ** Segments of a layout *)

Fixpoint offsets (b : Z) (segs : list (list Z)) : list Z :=
  match segs with [] => [] | s :: segs => b :: offsets (b + zlen s) segs end.

Definition files (ops : list op) : list (list Z) := omap (fun o => match o with AddFile c => Some c | _ => None end) ops.

(** Every file starts a segment and is followed by zeros up to the next one. *)
Definition padded (c s : list Z) : Prop := exists k, s = c ++ replicate k 0.

Definition segmented (img offs : list Z) (cs : list (list Z)) : Prop :=
  exists base segs, 28 <= zlen base /\ img = base ++ concat segs /\ offs = offsets (zlen base) segs /\
    Forall2 padded cs segs.

Lemma offsets_app b s1 s2 : offsets b (s1 ++ s2) = offsets b s1 ++ offsets (b + zlen (concat s1)) s2.
Proof.
  revert b. induction s1 as [|s s1 IH]; intros b; cbn [offsets concat app].
  - by rewrite Z.add_0_r.
  - rewrite IH, length_app. do 3 f_equal. lia.
Qed.

Lemma segmented_op img offs cs o :
  segmented img offs cs ->
  segmented (layout_op (img, offs) o).1 (layout_op (img, offs) o).2 (cs ++ files [o]).
Proof.
  intros (base & segs & Hb & -> & -> & Hall). destruct o as [c|n]; cbn [layout_op fst snd].
  - set (z := replicate _ 0). exists base, (segs ++ [c ++ z]). split_and!; [done| | |].
    + rewrite concat_app. simpl. by rewrite app_nil_r, <- !app_assoc.
    + rewrite offsets_app. cbn [offsets]. rewrite length_app. do 3 f_equal. lia.
    + apply Forall2_app; [done|]. constructor; [by eexists|done].
  - set (z := replicate _ 0). change (files [PadTo n]) with (@nil (list Z)). rewrite app_nil_r.
    destruct segs as [|s segs] using rev_ind.
    + exists (base ++ z), []. apply Forall2_nil_inv_r in Hall as ->. split_and!; [rewrite length_app; lia| |done|done].
      simpl. by rewrite !app_nil_r.
    + clear IHsegs. apply Forall2_app_inv_r in Hall as (cs1 & cs2 & Hall & (c & s' & [k Hk] & Hnil)%Forall2_cons_inv_r & ->).
      destruct Hnil as [Hnil ->]. apply Forall2_nil_inv_r in Hnil as ->.
      exists base, (segs ++ [s ++ z]). split_and!; [done| | |].
      * rewrite !concat_app. simpl. by rewrite !app_nil_r, <- !app_assoc.
      * rewrite !offsets_app. done.
      * apply Forall2_app; [done|]. constructor; [|done]. rewrite Hk. unfold z.
        eexists. by rewrite <- app_assoc, <- replicate_add.
Qed.

Lemma segmented_ops ops : forall img offs cs,
  segmented img offs cs ->
  segmented (fold_left layout_op ops (img, offs)).1 (fold_left layout_op ops (img, offs)).2 (cs ++ files ops).
Proof.
  induction ops as [|o ops IH]; intros img offs cs Hs; [by rewrite app_nil_r|]. cbn [fold_left].
  pose proof (segmented_op img offs cs o Hs) as Hs1. destruct (layout_op (img, offs) o) as [img1 offs1].
  specialize (IH img1 offs1 _ Hs1). rewrite <- app_assoc in IH.
  assert (files [o] ++ files ops = files (o :: ops)) as <-; [|done]. by destruct o.
Qed.

Lemma layout_segmented ops : segmented (layout ops).1 (layout ops).2 (files ops).
Proof. apply (segmented_ops ops _ _ []). exists (replicate 28 0), []. by split_and!. Qed.

Lemma layout_bytes ops : Forall (Forall is_byte) (files ops) -> Forall is_byte (layout ops).1.
Proof.
  intros Hf. unfold layout. assert (Forall is_byte (replicate 28 0)) as Hz by (apply Forall_replicate; unfold is_byte; lia).
  revert Hz. generalize (replicate 28 0), (@nil Z). induction ops as [|o ops IH]; intros img offs Hz; [done|].
  cbn [fold_left]. destruct o as [c|n]; cbn [layout_op].
  - change (files (AddFile c :: ops)) with (c :: files ops) in Hf. apply Forall_cons in Hf as [Hc Hf].
    apply IH; [done|]. rewrite !Forall_app. split_and!; try done. apply Forall_replicate. unfold is_byte; lia.
  - apply IH; [done|]. rewrite Forall_app. split; [done|]. apply Forall_replicate. unfold is_byte; lia.
Qed.

Lemma offsets_lookup segs : forall b i s,
  segs !! i = Some s ->
  exists pre post, concat segs = pre ++ s ++ post /\ offsets b segs !! i = Some (b + zlen pre) /\
    offsets b segs !! S i = (match segs !! S i with Some _ => Some (b + zlen pre + zlen s) | None => None end) /\
    (segs !! S i = None -> post = []).
Proof.
  induction segs as [|s0 segs IH]; intros b i s Hi; [done|]. destruct i as [|i]; cbn [lookup list_lookup] in Hi.
  - injection Hi as ->. exists [], (concat segs). rewrite Z.add_0_r. split_and!; try done.
    + destruct segs; done.
    + intros Hn. by destruct segs.
  - destruct (IH (b + zlen s0) i s Hi) as (pre & post & Hc & Ho & Hn & Hp).
    exists (s0 ++ pre), post. split_and!.
    + cbn [concat]. by rewrite Hc, <- app_assoc.
    + cbn [offsets]. change ((b :: ?l) !! S i) with (l !! i). rewrite Ho, length_app. f_equal. lia.
    + cbn [offsets]. change ((b :: ?l) !! S (S i)) with (l !! S i). rewrite Hn.
      change ((s0 :: segs) !! S (S i)) with (segs !! S i). destruct (segs !! S i); [|done].
      rewrite length_app. f_equal. lia.
    + done.
Qed.

Lemma offsets_range segs : forall b, Forall (fun o => b <= o <= b + zlen (concat segs)) (offsets b segs).
Proof.
  induction segs as [|s segs IH]; intros b; [done|]. cbn [offsets concat]. rewrite length_app.
  constructor; [lia|]. eapply Forall_impl; [apply IH|]. simpl. lia.
Qed.

(** ** The finished file *)

Section finished.
Context (img offs : list Z) (cs : list (list Z)) (Hseg : segmented img offs cs).
Context (Hbytes : Forall is_byte img) (H31 : zlen img < 2 ^ 31) (H3 : (length offs <= 3)%nat).

Definition final_offset : list Z := offs ++ replicate (3 - length offs) 0.
Definition final_tail : list Z :=
  le_bytes 2 0 ++ le_bytes 2 1 ++ concat (le_bytes 4 <$> final_offset) ++ drop 28 img.
Definition final_header : trx_header := TrxHeader TRX_MAGIC (zlen img) (otrx_crc32 final_tail) 0 1 final_offset.

Lemma final_file : trx_file img offs = trx_header_bytes final_header ++ drop 28 img.
Proof. done. Qed.

Lemma final_length : 28 <= zlen img /\ length final_offset = 3%nat /\ length (trx_file img offs) = length img.
Proof.
  assert (28 <= zlen img) as H28.
  { destruct Hseg as (base & segs & Hb & E & _). rewrite E, length_app. lia. }
  assert (length final_offset = 3%nat) as Ho by (unfold final_offset; rewrite length_app, length_replicate; lia).
  split_and!; [done|done|]. rewrite final_file, length_app, length_drop, trx_header_bytes_length by done. lia.
Qed.

Lemma final_offsets : Forall (fun o => 28 <= o < 2 ^ 31) offs.
Proof.
  destruct Hseg as (base & segs & Hb & E & E2 & _). rewrite E2. rewrite E, length_app in H31.
  eapply Forall_impl; [apply offsets_range|]. simpl. lia.
Qed.

Lemma final_wf : trx_header_wf final_header.
Proof.
  destruct final_length as (H28 & Ho & _). unfold trx_header_wf, final_header.
  cbn [th_magic th_length th_crc32 th_flags th_version th_offset].
  split_and!; try done; try (unfold TRX_MAGIC; width); try (unfold is_u16; lia).
  - apply otrx_crc32_range. unfold final_tail. rewrite !Forall_app. split_and!; try apply le_bytes_ok.
    + apply Forall_concat, Forall_fmap, Forall_true. intros x. apply le_bytes_ok.
    + by apply Forall_drop.
  - unfold final_offset. apply Forall_app. split; [|apply Forall_replicate; width].
    eapply Forall_impl; [apply final_offsets|]. simpl. width.
Qed.

Lemma final_header_of : trx_header_of (trx_file img offs) = final_header.
Proof. rewrite final_file. apply trx_header_roundtrip, final_wf. Qed.

Lemma final_valid : valid_trx (trx_file img offs).
Proof.
  destruct final_length as (H28 & Ho & Hl). unfold valid_trx. rewrite final_header_of, Hl.
  cbn [th_magic th_length th_crc32 final_header]. unfold trx_header_size, TRX_FLAGS_OFFSET. split_and!; try done; try lia.
  assert (drop 12 (trx_file img offs) = final_tail) as Hd.
  { rewrite final_file. unfold trx_header_bytes, final_tail. rewrite <- !app_assoc. done. }
  rewrite Hd, take_ge; [done|]. rewrite <- Hd, length_drop, Hl. lia.
Qed.

(** The bytes of a segment sit where the header says. *)
Lemma final_segment i c :
  cs !! i = Some c ->
  exists s off len, padded c s /\ final_offset !! i = Some off /\ 28 <= off /\
    len = (if (TRX_MAX_PARTS <=? Z.of_nat i + 1) || (final_offset !!! S i =? 0)
           then zlen img - off else final_offset !!! S i - off) /\
    len = zlen s /\ off + len <= zlen img /\
    take (Z.to_nat len) (drop (Z.to_nat off) (trx_file img offs)) = s.
Proof.
  intros Hc. pose proof final_offsets as Hofs. destruct final_length as (H28 & Ho & Hl).
  destruct Hseg as (base & segs & Hb & Ei & Eo & Hall).
  destruct (Forall2_lookup_l _ _ _ _ _ Hall Hc) as (s & Hs & Hp).
  destruct (offsets_lookup segs (zlen base) i s Hs) as (pre & post & Hcat & Hoi & Hon & Hpost).
  rewrite <- Eo in Hoi, Hon. set (off := zlen base + zlen pre) in *.
  assert (img = (base ++ pre) ++ s ++ post) as Eimg by (rewrite Ei, Hcat, <- app_assoc; done).
  assert (zlen img = off + zlen s + zlen post) as El by (rewrite Eimg, !length_app; unfold off; lia).
  assert (i < 3)%nat as Hi by (apply lookup_lt_Some in Hoi; lia).
  exists s, off, (zlen s). split_and!; try done.
  - unfold final_offset. by apply lookup_app_l_Some.
  - unfold off. lia.
  - unfold TRX_MAX_PARTS. destruct (segs !! S i) as [s'|] eqn:Hn.
    + rewrite (list_lookup_total_correct _ _ (off + zlen s))
        by (unfold final_offset; by apply lookup_app_l_Some).
      rewrite (proj2 (Z.leb_gt 3 _)) by (apply lookup_lt_Some in Hon; lia).
      rewrite (proj2 (Z.eqb_neq _ 0)); [simpl; lia|]. eapply Forall_lookup_1 in Hofs; [|exact Hon]. simpl in Hofs. lia.
    + rewrite (Hpost eq_refl) in El. cbn [length] in El. destruct (Z.leb_spec 3 (Z.of_nat i + 1)) as [|H4]; [simpl; lia|].
      rewrite (list_lookup_total_correct _ _ 0); [simpl; lia|]. unfold final_offset.
      apply lookup_ge_None in Hon. rewrite lookup_app_r by done. apply lookup_replicate_2. lia.
  - lia.
  - rewrite final_file. rewrite drop_app_ge by (rewrite trx_header_bytes_length by done; unfold off; lia).
    rewrite trx_header_bytes_length, drop_drop by done.
    replace (28 + (Z.to_nat off - 28))%nat with (length (base ++ pre)) by (rewrite length_app; unfold off; lia).
    rewrite Eimg at 1. rewrite drop_app_length, Nat2Z.id. apply take_app_length.
Qed.
End finished.

(** ** Corruption *)

Lemma le_val_inj a b : Forall is_byte a -> Forall is_byte b -> length a = length b -> le_val a = le_val b -> a = b.
Proof. intros Ha Hb Hl Hv. rewrite <- (le_bytes_val a Ha), <- (le_bytes_val b Hb). by rewrite Hl, Hv. Qed.

Lemma field_same (c : list Z) i y off n : (i < off \/ off + n <= i)%nat ->
  take n (drop off (<[i := y]> c)) = take n (drop off c).
Proof.
  intros [Hi|Hi].
  - by rewrite drop_insert_lt by done.
  - rewrite drop_insert_ge by lia. by rewrite take_insert_ge by lia.
Qed.

Lemma field_changed (c : list Z) i x y off n :
  Forall is_byte c -> is_byte y -> c !! i = Some x -> x <> y -> (off <= i < off + n)%nat -> (off + n <= length c)%nat ->
  le_val (take n (drop off (<[i := y]> c))) <> le_val (take n (drop off c)).
Proof.
  intros Hc Hy Hx Hne Hi Hl Hv. apply le_val_inj in Hv.
  - apply Hne. assert (Some x = Some y) as E; [|congruence]. rewrite <- Hx.
    transitivity (take n (drop off c) !! (i - off)%nat).
    + rewrite lookup_take_lt, lookup_drop by lia. f_equal. lia.
    + rewrite <- Hv, lookup_take_lt, lookup_drop by lia. replace (off + (i - off))%nat with i by lia.
      apply list_lookup_insert_eq. by eapply lookup_lt_Some.
  - by apply Forall_take, Forall_drop, Forall_insert.
  - by apply Forall_take, Forall_drop.
  - by rewrite !length_take, !length_drop, length_insert.
Qed.

Lemma otrx_crc32_detects_byte (d : list Z) i x y :
  Forall is_byte d -> is_byte y -> d !! i = Some x -> x <> y -> otrx_crc32 (<[i := y]> d) <> otrx_crc32 d.
Proof.
  intros Hd Hy Hx Hne E. assert (i < length d)%nat as Hi by (by eapply lookup_lt_Some).
  rewrite insert_take_drop in E by done. rewrite <- (take_drop_middle d i x Hx) in E at 3.
  assert (Forall is_byte (take i d) /\ is_byte x /\ Forall is_byte (drop (S i) d)) as (Hp & Hxb & Hq).
  { split_and!; [by apply Forall_take|by eapply Forall_lookup_1|by apply Forall_drop]. }
  unfold otrx_crc32 in E. rewrite !otrx_crc32_run in E by (apply Forall_app; split; [done|by constructor]).
  apply crc_run_detects_byte with (W := 32) in E; try done; try apply crc32_poly_width; congruence || lia.
Qed.

(** Changing one byte outside the length field of a valid file. *)
Lemma check_result_corrupt c i x y :
  valid_trx c -> Forall is_byte c -> is_byte y -> c !! i = Some x -> x <> y ->
  Z.of_nat i < 4 \/ 8 <= Z.of_nat i < th_length (trx_header_of c) ->
  check_result (<[i := y]> c) = - EINVAL.
Proof.
  intros (H28 & Hm & Hl & Hcrc) Hb Hy Hx Hne Hi. unfold trx_header_size in *.
  assert (th_length (trx_header_of (<[i := y]> c)) = th_length (trx_header_of c)) as El
    by (cbn [trx_header_of th_length]; by rewrite field_same by lia).
  unfold check_result. rewrite length_insert, El. unfold trx_header_size.
  rewrite (proj2 (Z.ltb_ge _ 28)) by lia.
  destruct (decide (i < 4)%nat) as [Hi4|Hi4].
  { rewrite (proj2 (Z.eqb_neq (th_magic _) _)); [done|]. rewrite <- Hm. cbn [trx_header_of th_magic].
    apply (field_changed c i x); try done; lia. }
  assert (th_magic (trx_header_of (<[i := y]> c)) = TRX_MAGIC) as ->
    by (rewrite <- Hm; cbn [trx_header_of th_magic]; by rewrite field_same by lia).
  rewrite Z.eqb_refl. cbn [negb]. rewrite (proj2 (Z.ltb_ge (th_length _) 28)) by lia.
  rewrite (proj2 (Z.ltb_ge (zlen c) _)) by lia. rewrite (proj2 (Z.eqb_neq _ _)); [done|].
  unfold TRX_FLAGS_OFFSET in *. set (L := th_length (trx_header_of c)) in *.
  destruct (decide (i < 12)%nat) as [Hi12|Hi12].
  - rewrite drop_insert_lt by lia. rewrite Hcrc. cbn [trx_header_of th_crc32]. apply not_eq_sym.
    apply (field_changed c i x); try done; lia.
  - assert (th_crc32 (trx_header_of (<[i := y]> c)) = th_crc32 (trx_header_of c)) as ->
      by (cbn [trx_header_of th_crc32]; by rewrite field_same by lia).
    rewrite <- Hcrc, drop_insert_ge, take_insert_lt by lia.
    apply otrx_crc32_detects_byte with (x := x); try done; [by apply Forall_take, Forall_drop|].
    rewrite lookup_take_lt, lookup_drop by lia. rewrite <- Hx. f_equal. lia.
Qed.

(** ** Extract *)

Definition part_option (i : nat) : path := [45; 49 + Z.of_nat i].

Lemma extract_options i out : (i < 3)%nat ->
  otrx_extract_parse_options [part_option i; out] = (0, <[i := Some out]> [None; None; None]).
Proof. intros Hi. destruct i as [|[|[|]]]; try lia; reflexivity. Qed.

Section extract.
Context (malloc_ok : Z -> bool) (can_create : path -> bool) (file_max : Z).
Context (Hmalloc : forall n, malloc_ok n = true).

Lemma extract_loop_skip n i fs trx off hdr :
  extract_loop malloc_ok can_create file_max (replicate n None) i fs trx off hdr = (fs, trx).
Proof. revert i. induction n as [|n IH]; intros i; [done|]. apply IH. Qed.

(** One requested partition. *)
Lemma extract_loop_one (i : nat) fs trx hdr out : (i < 3)%nat ->
  extract_loop malloc_ok can_create file_max (<[i := Some out]> [None; None; None]) 0 fs trx 0 hdr =
  extract_loop malloc_ok can_create file_max [Some out] i fs trx 0 hdr.
Proof.
  intros Hi. destruct i as [|[|[|]]]; try lia; cbn [insert list_insert extract_loop].
  - destruct (_ =? 0); [done|]. by destruct (otrx_extract_copy _ _ _ _ _ _ _ _) as [[? ?] ?].
  - destruct (_ =? 0); [done|]. by destruct (otrx_extract_copy _ _ _ _ _ _ _ _) as [[? ?] ?].
  - done.
Qed.

Lemma extract_copy_spec fs p k off len out c :
  can_create out = true -> out <> p -> fs !! p = Some c -> 0 <= off < 2 ^ 31 -> 0 <= len ->
  off + len <= zlen c -> len <= file_max ->
  exists fs' trx', otrx_extract_copy malloc_ok can_create file_max fs (File p k) off len out = (fs', trx', 0) /\
    fs' !! out = Some (take (Z.to_nat len) (drop (Z.to_nat off) c)).
Proof.
  intros Hcan Hne Hc Ho Hl Hfit Hm. unfold otrx_extract_copy, fopen_w. rewrite Hcan, Hmalloc. cbn [negb].
  unfold fseek. rewrite s32_id by lia. rewrite (proj2 (Z.ltb_ge off 0)) by lia.
  unfold fread. cbn [f_path f_pos]. rewrite contents_insert_ne by done.
  assert (contents fs p = c) as -> by (unfold contents; by rewrite Hc).
  set (d := take (Z.to_nat len) (drop (Z.to_nat off) c)).
  assert (zlen d = len) as Hd by (unfold d; rewrite length_take, length_drop; lia).
  rewrite Hd, Z.eqb_refl. cbn [negb]. unfold fwrite. cbn [f_path f_pos]. rewrite take_ge by lia.
  rewrite Hd, Z.eqb_refl. cbn [negb]. eexists _, _. split; [done|].
  rewrite lookup_insert_eq, contents_insert. f_equal. by rewrite (splice_end []).
Qed.
End extract.

(** * Theorems *)

(** C25: [otrx check] decides validity: it terminates on every file system with exit status 0
    exactly when the file is there and is a valid TRX (magic, length inside the file and
    CRC-32 of everything from the flags on), and with a negative status otherwise. *)
Theorem otrx_check_decides (fs : filesys) (p : path) :
  exists r, otrx_check fs [p] = Some r /\ r <= 0 /\
    (r = 0 <-> exists c, fs !! p = Some c /\ valid_trx c).
Proof.
  destruct (fs !! p) as [c|] eqn:Hp.
  - exists (check_result c). rewrite (otrx_check_eval fs p c Hp), check_result_valid. split_and!; [done| |].
    + unfold check_result, EIO, EINVAL. repeat case_match; lia.
    + split; [by exists c|]. intros (c' & Hc' & Hv). congruence.
  - exists (- EACCES). unfold otrx_check, fopen_r. rewrite Hp. split_and!; [done|unfold EACCES; lia|].
    split; [unfold EACCES; lia|]. by intros (c' & ? & _).
Qed.

(** C26: A single corrupted byte is always noticed: if any one byte of a valid TRX outside its
    length field changes, [otrx check] fails with [-EINVAL]. *)
Theorem otrx_check_detects_corruption (fs : filesys) (p : path) (c : list Z) (i : nat) (x y : Z) :
  valid_trx c -> Forall is_byte c -> is_byte y -> c !! i = Some x -> x <> y ->
  Z.of_nat i < 4 \/ 8 <= Z.of_nat i < th_length (trx_header_of c) ->
  otrx_check (<[p := <[i := y]> c]> fs) [p] = Some (- EINVAL).
Proof.
  intros Hv Hb Hy Hx Hne Hi. rewrite (otrx_check_eval _ p (<[i := y]> c)) by apply lookup_insert_eq.
  f_equal. by apply (check_result_corrupt c i x y).
Qed.

(** C24: What [otrx create] writes is what [otrx check] accepts: with every option resolved
    (inputs exist, padding offsets are not negative), at most three partitions and room
    for the result, [create] succeeds, leaves every other file alone, writes the image the
    layout specification describes, and [check] then returns 0. *)
Theorem otrx_create_then_check (malloc_ok : Z -> bool) (can_create : path -> bool) (file_max : Z)
    (fs : filesys) (p : path) (args : list path) (ops : list op) :
  (forall n, malloc_ok n = true) -> can_create p = true ->
  ops_of fs p (create_getopt args) = Some ops -> Forall (Forall is_byte) (files ops) ->
  zlen (layout ops).1 <= file_max -> zlen (layout ops).1 < 2 ^ 31 -> (length (layout ops).2 <= 3)%nat ->
  exists fs', otrx_create malloc_ok can_create file_max fs (p :: args) = Some (fs', 0) /\
    fs' !! p = Some (trx_file (layout ops).1 (layout ops).2) /\ same_but p fs fs' /\
    otrx_check fs' [p] = Some 0.
Proof.
  intros Hmal Hcan Hops Hb Hm H31 H3. pose proof (create_spec malloc_ok can_create file_max p Hmal fs args ops Hcan Hops) as Hcr.
  pose proof (layout_segmented ops) as Hseg. pose proof (layout_bytes ops Hb) as Hbytes.
  destruct (layout ops) as [img offs]. cbn [fst snd] in *.
  destruct (Hcr Hm H31 H3) as (fs' & Hc & Hp & Hs). exists fs'. split_and!; try done.
  rewrite (otrx_check_eval fs' p _ Hp). f_equal. apply check_result_valid. by eapply final_valid.
Qed.

(** C15: Every partition comes back: after a successful [create], [otrx extract] with option
    [-1], [-2] or [-3] writes the corresponding input file, followed only by the zeros
    that pad it, to the requested path. *)
Theorem otrx_create_then_extract (malloc_ok : Z -> bool) (can_create : path -> bool) (file_max : Z)
    (fs : filesys) (p out : path) (args : list path) (ops : list op) (i : nat) (c : list Z) :
  (forall n, malloc_ok n = true) -> can_create p = true -> can_create out = true -> out <> p ->
  ops_of fs p (create_getopt args) = Some ops -> Forall (Forall is_byte) (files ops) ->
  zlen (layout ops).1 <= file_max -> zlen (layout ops).1 < 2 ^ 31 -> (length (layout ops).2 <= 3)%nat ->
  files ops !! i = Some c ->
  exists fs1 fs2 k, otrx_create malloc_ok can_create file_max fs (p :: args) = Some (fs1, 0) /\
    otrx_extract malloc_ok can_create file_max fs1 [p; part_option i; out] = (fs2, 0) /\
    fs2 !! out = Some (c ++ replicate k 0).
Proof.
  intros Hmal Hcan Hcano Hne Hops Hb Hm H31 H3 Hi.
  pose proof (create_spec malloc_ok can_create file_max p Hmal fs args ops Hcan Hops) as Hcr.
  pose proof (layout_segmented ops) as Hseg. pose proof (layout_bytes ops Hb) as Hbytes.
  destruct (layout ops) as [img offs]. cbn [fst snd] in *.
  destruct (Hcr Hm H31 H3) as (fs1 & Hc1 & Hp1 & _). exists fs1.
  destruct (final_segment img offs (files ops) Hseg H31 H3 i c Hi)
    as (s & off & len & [k Hk] & Hoff & H28 & Hlen & Hls & Hfit & Hdata).
  destruct (final_length img offs _ Hseg H3) as (H28' & Ho3 & Hlf).
  assert (i < 3)%nat as Hi3 by (apply lookup_lt_Some in Hoff; lia).
  destruct (extract_copy_spec malloc_ok can_create file_max Hmal fs1 p 28 off len out (trx_file img offs))
    as (fs2 & trx2 & Hcopy & Hout); try done; try lia.
  exists fs2, k. split_and!; [done| |by rewrite Hout, Hdata, Hk].
  unfold otrx_extract. rewrite extract_options by done. unfold fopen_r. rewrite Hp1. cbn [mbind option_bind].
  change (fseek (File p 0) 0) with (File p 0). unfold fread. cbn [f_path f_pos]. change (Z.to_nat 0) with 0%nat.
  assert (contents fs1 p = trx_file img offs) as -> by (unfold contents; by rewrite Hp1).
  rewrite drop_0. change (Z.to_nat trx_header_size) with 28%nat. rewrite length_take, Hlf, trx_header_of_take.
  rewrite (final_header_of img offs _ Hseg Hbytes H31 H3).
  replace (Z.of_nat (28 `min` length img)) with 28 by lia. change (28 =? trx_header_size) with true. cbn [negb].
  change (th_magic (final_header img offs) =? TRX_MAGIC) with true. cbn [negb]. change (0 + 28) with 28.
  rewrite extract_loop_one by done. cbn [extract_loop].
  change (th_offset (final_header img offs)) with (final_offset offs).
  rewrite (list_lookup_total_correct _ _ _ Hoff). rewrite (proj2 (Z.eqb_neq off 0)) by lia.
  change (th_length (final_header img offs)) with (zlen img).
  assert ((if (TRX_MAX_PARTS <=? Z.of_nat i + 1) || (final_offset offs !!! S i =? 0)
    then u32 (zlen img - off) else u32 (final_offset offs !!! S i - off)) = len) as ->.
  { rewrite Hlen. destruct (_ || _); rewrite u32_id; try done; unfold is_u32; lia. }
  rewrite Z.add_0_l, u32_id by (unfold is_u32; lia). by rewrite Hcopy.
Qed.

(** An input that cannot be opened does not make [otrx create] fail: the partition is
    left out, the exit status is 0 and the result is a valid TRX without partitions. *)
Theorem otrx_create_missing_input (malloc_ok : Z -> bool) (can_create : path -> bool) (file_max : Z)
    (fs : filesys) (p q : path) :
  (forall n, malloc_ok n = true) -> can_create p = true -> 28 <= file_max -> q <> p -> fs !! q = None ->
  exists fs', otrx_create malloc_ok can_create file_max fs [p; bs "-f"; q] = Some (fs', 0) /\
    fs' !! p = Some (trx_file (replicate 28 0) []) /\ otrx_check fs' [p] = Some 0.
Proof.
  intros Hmal Hcan Hm Hne Hq. unfold otrx_create, fopen_w. rewrite Hcan.
  change (create_getopt [bs "-f"; q]) with [(102, q)]. cbn [create_options create_option Z.eqb Pos.eqb].
  change (TRX_MAX_PARTS <=? c_idx _) with false. cbn [c_fs c_trx c_idx c_offset c_hdr_offset].
  unfold otrx_create_append_file, fopen_r. rewrite lookup_insert_ne, Hq by done. cbn [mbind option_bind].
  change (- EACCES <? 0) with true. cbn [c_fs c_trx c_idx c_offset c_hdr_offset].
  change (otrx_create_align malloc_ok file_max ?f ?t trx_header_size 4) with (f, t, 0).
  change (0 <? 0) with false. cbn [mbind option_bind c_fs c_trx c_idx c_offset c_hdr_offset].
  destruct (write_hdr_spec malloc_ok file_max p Hmal (<[p := []]> fs) 28 (replicate 28 0) []) as (fs' & Hw & Hc & _).
  - rewrite contents_insert. by right.
  - rewrite length_replicate. lia.
  - simpl. lia.
  - exists fs'. split; [|split; [done|]].
    + exact (f_equal (fun r => Some (r.1, 0)) Hw).
    + rewrite (otrx_check_eval fs' p _ Hc). f_equal.
Qed.

(** ** The theorems at work *)

Definition demo_fs : filesys := {[ bs "kernel" := [1; 2; 3; 4; 5]; bs "rootfs" := [9; 8; 7] ]}.
Definition demo_args : list path := [bs "-f"; bs "kernel"; bs "-b"; bs "0x40"; bs "-f"; bs "rootfs"].
Definition demo_ops : list op := [AddFile [1; 2; 3; 4; 5]; PadTo 64; AddFile [9; 8; 7]].

Lemma otrx_check_detects_corruption_witness :
  valid_trx (trx_file (layout demo_ops).1 (layout demo_ops).2) /\
  otrx_check (<[bs "fw.trx" := <[30%nat := 77]> (trx_file (layout demo_ops).1 (layout demo_ops).2)]> ∅) [bs "fw.trx"]
    = Some (- EINVAL).
Proof.
  assert (valid_trx (trx_file (layout demo_ops).1 (layout demo_ops).2)) as Hv
    by (apply check_result_valid; vm_compute; reflexivity).
  split; [exact Hv|].
  apply (otrx_check_detects_corruption ∅ (bs "fw.trx") _ 30 3 77 Hv);
    [eval_decide|unfold is_byte; lia|vm_compute; reflexivity|lia|right; vm_compute; split; discriminate || reflexivity].
Defined.

Lemma otrx_create_then_check_witness :
  exists fs', otrx_create (fun _ => true) (fun _ => true) 1000000 demo_fs (bs "fw.trx" :: demo_args) = Some (fs', 0) /\
    fs' !! bs "fw.trx" = Some (trx_file (layout demo_ops).1 (layout demo_ops).2) /\
    same_but (bs "fw.trx") demo_fs fs' /\ otrx_check fs' [bs "fw.trx"] = Some 0.
Proof.
  apply (otrx_create_then_check _ _ _ _ _ _ demo_ops);
    [reflexivity|reflexivity|vm_compute; reflexivity|eval_decide|vm_compute; discriminate|vm_compute; reflexivity
    |vm_compute; lia].
Defined.

Lemma otrx_create_then_extract_witness :
  exists fs1 fs2 k, otrx_create (fun _ => true) (fun _ => true) 1000000 demo_fs (bs "fw.trx" :: demo_args) = Some (fs1, 0) /\
    otrx_extract (fun _ => true) (fun _ => true) 1000000 fs1 [bs "fw.trx"; part_option 1; bs "out"] = (fs2, 0) /\
    fs2 !! bs "out" = Some ([9; 8; 7] ++ replicate k 0).
Proof.
  apply (otrx_create_then_extract _ _ _ _ _ _ _ demo_ops);
    [reflexivity|reflexivity|reflexivity|vm_compute; discriminate|vm_compute; reflexivity|eval_decide|vm_compute; discriminate
    |vm_compute; reflexivity|vm_compute; lia|reflexivity].
Defined.

Lemma otrx_create_missing_input_witness :
  exists fs', otrx_create (fun _ => true) (fun _ => true) 1000000 demo_fs [bs "fw.trx"; bs "-f"; bs "nofile"] = Some (fs', 0) /\
    fs' !! bs "fw.trx" = Some (trx_file (replicate 28 0) []) /\ otrx_check fs' [bs "fw.trx"] = Some 0.
Proof.
  apply otrx_create_missing_input; [reflexivity|reflexivity|lia|vm_compute; discriminate|vm_compute; reflexivity].
Defined.
