(* ===== verification/Md5.v ===== *)
(** The MD5 of mtd (package/system/mtd/src/md5.c, md5.h), used to seal SEAMA images. *)

From S2P Require Import Prelude.

(** ** Data *)

(** [MD5_CTX] without the copy of the digest: [i] is the pair [i0], [i1]. *)
Record MD5_CTX := Md5Ctx {
  md_i0 : Z; md_i1 : Z;
  md_buf : Z * Z * Z * Z;
  md_in : list Z
}.

Definition PADDING : list Z := 0x80 :: replicate 63 0.

(** ** Basic functions, on [UINT4] *)

Definition F (x y z : Z) : Z := Z.lor (Z.land x y) (Z.land (Z.lnot x) z).
Definition G (x y z : Z) : Z := Z.lor (Z.land x z) (Z.land y (Z.lnot z)).
Definition H (x y z : Z) : Z := Z.lxor (Z.lxor x y) z.
Definition I (x y z : Z) : Z := u32 (Z.lxor y (Z.lor x (Z.lnot z))).

Definition ROTATE_LEFT (x n : Z) : Z := Z.lor (u32 (Z.shiftl x n)) (Z.shiftr x (32 - n)).

(** The macros FF, GG, HH and II: the new value of their first argument. *)
Definition FF (a b c d x s ac : Z) : Z := u32 (ROTATE_LEFT (u32 (a + (F b c d + x + ac))) s + b).
Definition GG (a b c d x s ac : Z) : Z := u32 (ROTATE_LEFT (u32 (a + (G b c d + x + ac))) s + b).
Definition HH (a b c d x s ac : Z) : Z := u32 (ROTATE_LEFT (u32 (a + (H b c d + x + ac))) s + b).
Definition II (a b c d x s ac : Z) : Z := u32 (ROTATE_LEFT (u32 (a + (I b c d + x + ac))) s + b).

Definition S11 : Z := 7.
Definition S12 : Z := 12.
Definition S13 : Z := 17.
Definition S14 : Z := 22.
Definition S21 : Z := 5.
Definition S22 : Z := 9.
Definition S23 : Z := 14.
Definition S24 : Z := 20.
Definition S31 : Z := 4.
Definition S32 : Z := 11.
Definition S33 : Z := 16.
Definition S34 : Z := 23.
Definition S41 : Z := 6.
Definition S42 : Z := 10.
Definition S43 : Z := 15.
Definition S44 : Z := 21.

(** ** The block transformation *)

(** The four working registers; a step assigns the first one it names. *)
Inductive reg := Ra | Rb | Rc | Rd.
Abbreviation regs := (Z * Z * Z * Z)%type.

Definition rget (st : regs) (r : reg) : Z :=
  let '(a, b, c, d) := st in match r with Ra => a | Rb => b | Rc => c | Rd => d end.
Definition rset (st : regs) (r : reg) (v : Z) : regs :=
  let '(a, b, c, d) := st in
  match r with Ra => (v, b, c, d) | Rb => (a, v, c, d) | Rc => (a, b, v, d) | Rd => (a, b, c, v) end.

Definition md_macro (f : Z -> Z -> Z -> Z -> Z -> Z -> Z -> Z) (r1 r2 r3 r4 : reg) (x s ac : Z) (st : regs) : regs :=
  rset st r1 (f (rget st r1) (rget st r2) (rget st r3) (rget st r4) x s ac).
Definition FFs := md_macro FF.
Definition GGs := md_macro GG.
Definition HHs := md_macro HH.
Definition IIs := md_macro II.

Definition transform_steps (in_ : list Z) : list (regs -> regs) :=
    [
     (* Round 1 *)
     FFs Ra Rb Rc Rd (in_ !!! 0%nat) S11 3614090360;
     FFs Rd Ra Rb Rc (in_ !!! 1%nat) S12 3905402710;
     FFs Rc Rd Ra Rb (in_ !!! 2%nat) S13 606105819;
     FFs Rb Rc Rd Ra (in_ !!! 3%nat) S14 3250441966;
     FFs Ra Rb Rc Rd (in_ !!! 4%nat) S11 4118548399;
     FFs Rd Ra Rb Rc (in_ !!! 5%nat) S12 1200080426;
     FFs Rc Rd Ra Rb (in_ !!! 6%nat) S13 2821735955;
     FFs Rb Rc Rd Ra (in_ !!! 7%nat) S14 4249261313;
     FFs Ra Rb Rc Rd (in_ !!! 8%nat) S11 1770035416;
     FFs Rd Ra Rb Rc (in_ !!! 9%nat) S12 2336552879;
     FFs Rc Rd Ra Rb (in_ !!! 10%nat) S13 4294925233;
     FFs Rb Rc Rd Ra (in_ !!! 11%nat) S14 2304563134;
     FFs Ra Rb Rc Rd (in_ !!! 12%nat) S11 1804603682;
     FFs Rd Ra Rb Rc (in_ !!! 13%nat) S12 4254626195;
     FFs Rc Rd Ra Rb (in_ !!! 14%nat) S13 2792965006;
     FFs Rb Rc Rd Ra (in_ !!! 15%nat) S14 1236535329;
     (* Round 2 *)
     GGs Ra Rb Rc Rd (in_ !!! 1%nat) S21 4129170786;
     GGs Rd Ra Rb Rc (in_ !!! 6%nat) S22 3225465664;
     GGs Rc Rd Ra Rb (in_ !!! 11%nat) S23 643717713;
     GGs Rb Rc Rd Ra (in_ !!! 0%nat) S24 3921069994;
     GGs Ra Rb Rc Rd (in_ !!! 5%nat) S21 3593408605;
     GGs Rd Ra Rb Rc (in_ !!! 10%nat) S22 38016083;
     GGs Rc Rd Ra Rb (in_ !!! 15%nat) S23 3634488961;
     GGs Rb Rc Rd Ra (in_ !!! 4%nat) S24 3889429448;
     GGs Ra Rb Rc Rd (in_ !!! 9%nat) S21 568446438;
     GGs Rd Ra Rb Rc (in_ !!! 14%nat) S22 3275163606;
     GGs Rc Rd Ra Rb (in_ !!! 3%nat) S23 4107603335;
     GGs Rb Rc Rd Ra (in_ !!! 8%nat) S24 1163531501;
     GGs Ra Rb Rc Rd (in_ !!! 13%nat) S21 2850285829;
     GGs Rd Ra Rb Rc (in_ !!! 2%nat) S22 4243563512;
     GGs Rc Rd Ra Rb (in_ !!! 7%nat) S23 1735328473;
     GGs Rb Rc Rd Ra (in_ !!! 12%nat) S24 2368359562;
     (* Round 3 *)
     HHs Ra Rb Rc Rd (in_ !!! 5%nat) S31 4294588738;
     HHs Rd Ra Rb Rc (in_ !!! 8%nat) S32 2272392833;
     HHs Rc Rd Ra Rb (in_ !!! 11%nat) S33 1839030562;
     HHs Rb Rc Rd Ra (in_ !!! 14%nat) S34 4259657740;
     HHs Ra Rb Rc Rd (in_ !!! 1%nat) S31 2763975236;
     HHs Rd Ra Rb Rc (in_ !!! 4%nat) S32 1272893353;
     HHs Rc Rd Ra Rb (in_ !!! 7%nat) S33 4139469664;
     HHs Rb Rc Rd Ra (in_ !!! 10%nat) S34 3200236656;
     HHs Ra Rb Rc Rd (in_ !!! 13%nat) S31 681279174;
     HHs Rd Ra Rb Rc (in_ !!! 0%nat) S32 3936430074;
     HHs Rc Rd Ra Rb (in_ !!! 3%nat) S33 3572445317;
     HHs Rb Rc Rd Ra (in_ !!! 6%nat) S34 76029189;
     HHs Ra Rb Rc Rd (in_ !!! 9%nat) S31 3654602809;
     HHs Rd Ra Rb Rc (in_ !!! 12%nat) S32 3873151461;
     HHs Rc Rd Ra Rb (in_ !!! 15%nat) S33 530742520;
     HHs Rb Rc Rd Ra (in_ !!! 2%nat) S34 3299628645;
     (* Round 4 *)
     IIs Ra Rb Rc Rd (in_ !!! 0%nat) S41 4096336452;
     IIs Rd Ra Rb Rc (in_ !!! 7%nat) S42 1126891415;
     IIs Rc Rd Ra Rb (in_ !!! 14%nat) S43 2878612391;
     IIs Rb Rc Rd Ra (in_ !!! 5%nat) S44 4237533241;
     IIs Ra Rb Rc Rd (in_ !!! 12%nat) S41 1700485571;
     IIs Rd Ra Rb Rc (in_ !!! 3%nat) S42 2399980690;
     IIs Rc Rd Ra Rb (in_ !!! 10%nat) S43 4293915773;
     IIs Rb Rc Rd Ra (in_ !!! 1%nat) S44 2240044497;
     IIs Ra Rb Rc Rd (in_ !!! 8%nat) S41 1873313359;
     IIs Rd Ra Rb Rc (in_ !!! 15%nat) S42 4264355552;
     IIs Rc Rd Ra Rb (in_ !!! 6%nat) S43 2734768916;
     IIs Rb Rc Rd Ra (in_ !!! 13%nat) S44 1309151649;
     IIs Ra Rb Rc Rd (in_ !!! 4%nat) S41 4149444226;
     IIs Rd Ra Rb Rc (in_ !!! 11%nat) S42 3174756917;
     IIs Rc Rd Ra Rb (in_ !!! 2%nat) S43 718787259;
     IIs Rb Rc Rd Ra (in_ !!! 9%nat) S44 3951481745].

Definition Transform (buf : regs) (in_ : list Z) : regs :=
  let '(a, b, c, d) := fold_left (fun st op => op st) (transform_steps in_) buf in
  let '(a0, b0, c0, d0) := buf in
  (u32 (a0 + a), u32 (b0 + b), u32 (c0 + c), u32 (d0 + d)).

(** ** The three entry points *)

(** [MD5_Init] leaves the input buffer as it finds it. *)
Definition MD5_Init (garbage : list Z) : MD5_CTX :=
  Md5Ctx 0 0 (0x67452301, 0xefcdab89, 0x98badcfe, 0x10325476) garbage.

(** [in[i] = ((UINT4)in[ii+3] << 24) | ... | (UINT4)in[ii]] for the first [n] words. *)
Definition load_word (inb : list Z) (i : nat) : Z :=
  let b k := inb !!! (4 * i + k)%nat in
  Z.lor (Z.lor (Z.lor (Z.shiftl (b 3%nat) 24) (Z.shiftl (b 2%nat) 16)) (Z.shiftl (b 1%nat) 8)) (b 0%nat).
Definition load_words (n : nat) (inb : list Z) : list Z := load_word inb <$> seq 0 n.

(** One round of the [while (inLen--)] loop, on [buf], [in] and [mdi]. *)
Definition update_byte (st : regs * list Z * nat) (c : Z) : regs * list Z * nat :=
  let '(buf, inb, mdi) := st in
  let inb := <[mdi := c]> inb in
  if (S mdi =? 64)%nat then (Transform buf (load_words 16 inb), inb, 0%nat) else (buf, inb, S mdi).

Definition MD5_Update (ctx : MD5_CTX) (inBuf : list Z) : MD5_CTX :=
  let inLen := zlen inBuf in
  let mdi := Z.land (Z.shiftr (md_i0 ctx) 3) 0x3F in
  let bits := u32 (Z.shiftl inLen 3) in
  let i1 := if u32 (md_i0 ctx + bits) <? md_i0 ctx then u32 (md_i1 ctx + 1) else md_i1 ctx in
  let i0 := u32 (md_i0 ctx + bits) in
  let i1 := u32 (i1 + Z.shiftr inLen 29) in
  let '(buf, inb, _) := fold_left update_byte inBuf (md_buf ctx, md_in ctx, Z.to_nat mdi) in
  Md5Ctx i0 i1 buf inb.

Definition store_word (x : Z) : list Z :=
  [Z.land x 0xFF; Z.land (Z.shiftr x 8) 0xFF; Z.land (Z.shiftr x 16) 0xFF; Z.land (Z.shiftr x 24) 0xFF].

(** [MD5_Final]: the sixteen bytes of the digest. *)
Definition MD5_Final (ctx : MD5_CTX) : list Z :=
  let in14 := md_i0 ctx in
  let in15 := md_i1 ctx in
  let mdi := Z.land (Z.shiftr (md_i0 ctx) 3) 0x3F in
  let padLen := if mdi <? 56 then 56 - mdi else 120 - mdi in
  let ctx := MD5_Update ctx (take (Z.to_nat padLen) PADDING) in
  let '(a, b, c, d) := Transform (md_buf ctx) (load_words 14 (md_in ctx) ++ [in14; in15]) in
  store_word a ++ store_word b ++ store_word c ++ store_word d.

(** ** Reference (RFC 1321)

    Sixty-four operations on the registers in rotation, driven by the tables of the
    standard; the message is padded and cut into blocks first. *)

Definition md5_T : list Z :=
  [3614090360; 3905402710; 606105819; 3250441966; 4118548399; 1200080426;
   2821735955; 4249261313; 1770035416; 2336552879; 4294925233; 2304563134;
   1804603682; 4254626195; 2792965006; 1236535329; 4129170786; 3225465664;
   643717713; 3921069994; 3593408605; 38016083; 3634488961; 3889429448;
   568446438; 3275163606; 4107603335; 1163531501; 2850285829; 4243563512;
   1735328473; 2368359562; 4294588738; 2272392833; 1839030562; 4259657740;
   2763975236; 1272893353; 4139469664; 3200236656; 681279174; 3936430074;
   3572445317; 76029189; 3654602809; 3873151461; 530742520; 3299628645;
   4096336452; 1126891415; 2878612391; 4237533241; 1700485571; 2399980690;
   4293915773; 2240044497; 1873313359; 4264355552; 2734768916; 1309151649;
   4149444226; 3174756917; 718787259; 3951481745].
Definition md5_k : list nat :=
  [0; 1; 2; 3; 4; 5; 6; 7; 8; 9; 10; 11; 12; 13; 14; 15;
   1; 6; 11; 0; 5; 10; 15; 4; 9; 14; 3; 8; 13; 2; 7; 12;
   5; 8; 11; 14; 1; 4; 7; 10; 13; 0; 3; 6; 9; 12; 15; 2;
   0; 7; 14; 5; 12; 3; 10; 1; 8; 15; 6; 13; 4; 11; 2; 9]%nat.
Definition md5_s : list Z :=
  [7; 12; 17; 22; 7; 12; 17; 22; 7; 12; 17; 22; 7; 12; 17; 22;
   5; 9; 14; 20; 5; 9; 14; 20; 5; 9; 14; 20; 5; 9; 14; 20;
   4; 11; 16; 23; 4; 11; 16; 23; 4; 11; 16; 23; 4; 11; 16; 23;
   6; 10; 15; 21; 6; 10; 15; 21; 6; 10; 15; 21; 6; 10; 15; 21].

Definition md5_fun (i : nat) : Z -> Z -> Z -> Z :=
  if (i <? 16)%nat then F else if (i <? 32)%nat then G else if (i <? 48)%nat then H else I.

Definition md5_step (x : list Z) (r : regs) (i : nat) : regs :=
  let '(a, b, c, d) := r in
  (d, u32 (ROTATE_LEFT (u32 (a + (md5_fun i b c d + x !!! (md5_k !!! i) + md5_T !!! i))) (md5_s !!! i) + b), b, c).

Definition md5_block (buf : regs) (x : list Z) : regs :=
  let '(a0, b0, c0, d0) := buf in
  let '(a, b, c, d) := fold_left (md5_step x) (seq 0 64) buf in
  (u32 (a0 + a), u32 (b0 + b), u32 (c0 + c), u32 (d0 + d)).

Definition md5_init : regs := (0x67452301, 0xefcdab89, 0x98badcfe, 0x10325476).

(** The [n] first blocks of a message, and the state after all its full blocks. *)
Definition blocks (n : nat) (m : list Z) : list (list Z) := (fun i => take 64 (drop (64 * i) m)) <$> seq 0 n.
Definition md5_fold (m : list Z) : regs :=
  fold_left (fun buf blk => md5_block buf (load_words 16 blk)) (blocks (length m / 64) m) md5_init.

(** Padding: a one bit, zeros up to 56 modulo 64, the length in bits, low word first. *)
Definition md5_pad (m : list Z) : list Z :=
  let bits := 8 * zlen m in
  m ++ 0x80 :: replicate (Z.to_nat ((55 - zlen m) mod 64)) 0 ++
  le_bytes 4 (u32 bits) ++ le_bytes 4 (u32 (bits / 2 ^ 32)).

Definition md5_digest (m : list Z) : list Z :=
  let '(a, b, c, d) := md5_fold (md5_pad m) in
  le_bytes 4 a ++ le_bytes 4 b ++ le_bytes 4 c ++ le_bytes 4 d.
