(* ===== verification/Md5Spec.v ===== *)
(** The MD5 of mtd computes MD5: the straight-line [Transform] is the table-driven round
    function of RFC 1321, and feeding a message in pieces gives the digest of the whole. *)

From S2P Require Import Prelude Md5.

(** ** The block transformation *)

Lemma fold_cons {A B} (f : A -> B -> A) x l a : fold_left f (x :: l) a = fold_left f l (f a x).
Proof. done. Qed.

(** One step on both sides, then the assigned register becomes a fresh variable. *)
Ltac md5_pair f g mac :=
  lazymatch goal with
  | |- fold_left _ (f ?r1 ?r2 ?r3 ?r4 ?v ?s ?t :: ?l) (?a, ?b, ?c, ?d) = fold_left (md5_step ?x) (?i :: ?l') ?r =>
      rewrite (fold_cons _ (f r1 r2 r3 r4 v s t) l), (fold_cons (md5_step x) i l');
      let st := eval cbv [f md_macro rget rset] in (f r1 r2 r3 r4 v s t (a, b, c, d)) in
      change (f r1 r2 r3 r4 v s t (a, b, c, d)) with st;
      lazymatch r with
      | (?a', ?b', ?c', ?d') =>
          change (md5_step x (a', b', c', d') i) with (d', mac a' b' c' d' v s t, b', c');
          generalize (mac a' b' c' d' v s t); intros ?
      end
  end.

Ltac md5_one := first
  [ md5_pair FFs F FF | md5_pair GGs G GG | md5_pair HHs H HH | md5_pair IIs I II ].

Lemma transform_steps_ref x r : fold_left (fun st op => op st) (transform_steps x) r = fold_left (md5_step x) (seq 0 64) r.
Proof.
  destruct r as [[[a b] c] d]. unfold transform_steps. cbn [seq].
  do 64 md5_one. reflexivity.
Qed.

Lemma Transform_ref buf x : Transform buf x = md5_block buf x.
Proof.
  unfold Transform, md5_block. rewrite transform_steps_ref.
  destruct buf as [[[a0 b0] c0] d0]. by destruct (fold_left _ _ _) as [[[a b] c] d].
Qed.

(** ** Words and bytes *)

Lemma store_word_le x : store_word x = le_bytes 4 x.
Proof.
  unfold store_word. change (le_bytes 4 x) with [u8 x; u8 (x / 256); u8 (x / 256 / 256); u8 (x / 256 / 256 / 256)].
  rewrite !(land_ones_u8), !Z.shiftr_div_pow2 by lia. rewrite !Z.div_div by lia. done.
Qed.

(** A word only reads its own four bytes. *)
Lemma load_word_ext l l' i :
  (forall k, (k < 4)%nat -> l !!! (4 * i + k)%nat = l' !!! (4 * i + k)%nat) -> load_word l i = load_word l' i.
Proof. intros Hk. unfold load_word. by rewrite !Hk by lia. Qed.

Lemma load_word_le4 l l' x i :
  is_u32 x -> length l = (4 * i)%nat -> load_word (l ++ le_bytes 4 x ++ l') i = x.
Proof.
  intros Hx Hl. unfold load_word.
  assert (forall k l2, (l ++ l2) !!! (4 * i + k)%nat = l2 !!! k) as E.
  { intros k l2. rewrite lookup_total_app_r by lia. f_equal. lia. }
  rewrite !E.
  change (le_bytes 4 x) with [u8 x; u8 (x / 256); u8 (x / 256 / 256); u8 (x / 256 / 256 / 256)].
  cbn [app lookup_total list_lookup_total]. unfold u8, is_u32 in *. change (2 ^ 8) with 256.
  rewrite <- !Z.lor_assoc. pose proof (Z.mod_pos_bound x 256 ltac:(lia)).
  pose proof (Z.mod_pos_bound (x / 256) 256 ltac:(lia)). pose proof (Z.mod_pos_bound (x / 256 / 256) 256 ltac:(lia)).
  rewrite (lor_shiftl_add 8), (lor_shiftl_add 16), (lor_shiftl_add 24) by lia.
  Z.div_mod_to_equations. lia.
Qed.

Lemma load_words_app n k l : load_words (n + k) l = load_words n l ++ (load_word l <$> seq n k).
Proof. unfold load_words. by rewrite seq_app, fmap_app. Qed.

Lemma load_words_ext n l l' :
  (forall k, (k < 4 * n)%nat -> l !!! k = l' !!! k) -> load_words n l = load_words n l'.
Proof.
  intros Hk. unfold load_words. apply list_fmap_ext. intros j i [-> Hi]%lookup_seq. apply load_word_ext.
  intros k Hk4. apply Hk. lia.
Qed.

(** ** The state after a message *)

Lemma blocks_S n m : blocks (S n) m = blocks n m ++ [take 64 (drop (64 * n) m)].
Proof. unfold blocks. by rewrite seq_S, fmap_app. Qed.

Lemma blocks_prefix n m m' : (64 * n <= length m)%nat -> blocks n (m ++ m') = blocks n m.
Proof.
  intros Hn. unfold blocks. apply list_fmap_ext. intros j i [-> Hi]%lookup_seq.
  rewrite drop_app_le by lia. rewrite take_app_le; [done|]. rewrite length_drop. lia.
Qed.

Record md5_inv (m : list Z) (st : regs * list Z * nat) : Prop := {
  mi_mdi : st.2 = (length m mod 64)%nat;
  mi_length : length st.1.2 = 64%nat;
  mi_tail : take st.2 st.1.2 = drop (64 * (length m / 64)) m;
  mi_buf : st.1.1 = md5_fold m
}.

Lemma update_byte_inv m st c : md5_inv m st -> md5_inv (m ++ [c]) (update_byte st c).
Proof.
  destruct st as [[buf inb] mdi]. intros [Hm Hl Ht Hb]. cbn [fst snd] in *. unfold update_byte.
  set (n := (length m / 64)%nat) in *. assert (length m = 64 * n + mdi)%nat as Elen.
  { rewrite Hm. apply Nat.div_mod. lia. }
  assert (mdi < 64)%nat as Hlt by (rewrite Hm; apply Nat.mod_upper_bound; lia).
  assert (take (S mdi) (<[mdi := c]> inb) = drop (64 * n) (m ++ [c])) as Ht'.
  { rewrite (take_S_r _ _ c) by (apply list_lookup_insert_eq; lia). rewrite take_insert_ge, Ht by lia.
    by rewrite drop_app_le by lia. }
  assert (length (m ++ [c]) = 64 * n + S mdi)%nat as Elen' by (rewrite length_app; simpl; lia).
  destruct (Nat.eqb_spec (S mdi) 64) as [E|E].
  - assert (length (m ++ [c]) = (S n) * 64)%nat as Em by lia.
    split; cbn [fst snd]; rewrite ?Em.
    + by rewrite Nat.Div0.mod_mul.
    + by rewrite length_insert.
    + rewrite Nat.div_mul by lia. symmetry. apply drop_ge. lia.
    + unfold md5_fold. rewrite Em, Nat.div_mul by lia. rewrite blocks_S, fold_left_app.
      rewrite blocks_prefix by lia. cbn [fold_left]. rewrite Transform_ref, Hb. unfold md5_fold. fold n. f_equal.
      rewrite <- Ht', E, (take_ge (<[mdi := c]> inb)) by (rewrite length_insert; lia).
      by rewrite take_ge by (rewrite length_insert; lia).
  - assert (length (m ++ [c]) / 64 = n)%nat as En by (rewrite Elen', Nat.mul_comm, Nat.div_add_l, (Nat.div_small (S mdi)); lia).
    split; cbn [fst snd].
    + rewrite Elen', (Nat.add_comm (64 * n)), Nat.mul_comm, Nat.Div0.mod_add, Nat.mod_small; lia.
    + by rewrite length_insert.
    + by rewrite En.
    + unfold md5_fold. rewrite En, blocks_prefix by lia. done.
Qed.

Lemma update_bytes_inv bs : forall m st, md5_inv m st -> md5_inv (m ++ bs) (fold_left update_byte bs st).
Proof.
  induction bs as [|c bs IH]; intros m st Hi; [by rewrite app_nil_r|]. cbn [fold_left].
  rewrite (cons_middle c m bs), app_assoc. apply IH. by apply update_byte_inv.
Qed.

(** ** Contexts *)

(** The context after message [m]. *)
Record ctx_inv (m : list Z) (ctx : MD5_CTX) : Prop := {
  cx_i0 : md_i0 ctx = u32 (8 * zlen m);
  cx_i1 : md_i1 ctx = u32 (8 * zlen m / 2 ^ 32);
  cx_state : md5_inv m (md_buf ctx, md_in ctx, (length m mod 64)%nat)
}.

Lemma MD5_Init_inv garbage : length garbage = 64%nat -> ctx_inv [] (MD5_Init garbage).
Proof. intros Hg. split; [done|done|]. by split. Qed.

(** [mdi] from the bit counter. *)
Lemma mdi_length (m : list Z) : Z.to_nat (Z.land (Z.shiftr (u32 (8 * zlen m)) 3) 0x3F) = (length m mod 64)%nat.
Proof.
  change 0x3F with (Z.ones 6). rewrite Z.land_ones, Z.shiftr_div_pow2 by lia. unfold u32.
  change (2 ^ 3) with 8. change (2 ^ 6) with 64.
  assert ((8 * zlen m) mod 2 ^ 32 / 8 mod 64 = zlen m mod 64) as -> by (Z.div_mod_to_equations; lia).
  rewrite <- (Nat2Z.id (length m mod 64)), Nat2Z.inj_mod. done.
Qed.

(** The 64-bit counter kept in two words. *)
Lemma counter_add L n :
  0 <= L -> 0 <= n < 2 ^ 32 ->
  let i0 := u32 (8 * L) in let i1 := u32 (8 * L / 2 ^ 32) in let bits := u32 (Z.shiftl n 3) in
  u32 (i0 + bits) = u32 (8 * (L + n)) /\
  u32 ((if u32 (i0 + bits) <? i0 then u32 (i1 + 1) else i1) + Z.shiftr n 29) = u32 (8 * (L + n) / 2 ^ 32).
Proof.
  intros HL Hn i0 i1 bits. rewrite Z.shiftr_div_pow2 by lia.
  assert (bits = 8 * n - 2 ^ 32 * (n / 2 ^ 29) /\ 0 <= bits < 2 ^ 32) as [Hb Hbr].
  { unfold bits, u32. rewrite Z.shiftl_mul_pow2 by lia. change (2 ^ 3) with 8. Z.div_mod_to_equations. lia. }
  assert (8 * L = 2 ^ 32 * (8 * L / 2 ^ 32) + i0 /\ 0 <= i0 < 2 ^ 32) as [H0 H0r].
  { unfold i0, u32. Z.div_mod_to_equations. lia. }
  set (q := 8 * L / 2 ^ 32) in *. set (h := n / 2 ^ 29) in *.
  assert (8 * (L + n) = 2 ^ 32 * (q + h) + (i0 + bits)) as E by lia.
  assert (u32 (i0 + bits) = u32 (8 * (L + n))) as E0.
  { unfold u32. by rewrite E, (Z.add_comm (2 ^ 32 * _)), (Z.mul_comm (2 ^ 32)), Z.mod_add by lia. }
  split; [exact E0|]. destruct (Z.ltb_spec (u32 (i0 + bits)) i0) as [Hc|Hc].
  - assert (2 ^ 32 <= i0 + bits) as Hov by (unfold u32 in Hc; Z.div_mod_to_equations; lia).
    assert (8 * (L + n) / 2 ^ 32 = q + h + 1) as Eq by (Z.div_mod_to_equations; lia).
    rewrite Eq. unfold i1, u32.
    rewrite Z.add_mod_idemp_l by lia. rewrite <- Z.add_assoc, Z.add_mod_idemp_l by lia. f_equal. lia.
  - assert (i0 + bits < 2 ^ 32) as Hov by (unfold u32 in Hc; Z.div_mod_to_equations; lia).
    assert (8 * (L + n) / 2 ^ 32 = q + h) as Eq by (Z.div_mod_to_equations; lia).
    rewrite Eq. unfold i1, u32. by rewrite !Z.add_mod_idemp_l by lia.
Qed.

Lemma MD5_Update_inv m ctx bs : ctx_inv m ctx -> zlen bs < 2 ^ 32 -> ctx_inv (m ++ bs) (MD5_Update ctx bs).
Proof.
  intros [H0 H1 Hs] Hl. unfold MD5_Update. rewrite H0, H1, mdi_length.
  pose proof (update_bytes_inv bs m _ Hs) as Hu.
  destruct (fold_left update_byte bs (md_buf ctx, md_in ctx, (length m mod 64)%nat)) as [[buf inb] mdi] eqn:E.
  destruct (counter_add (zlen m) (zlen bs)) as [C0 C1]; [lia|lia|].
  split; cbn [md_i0 md_i1 md_buf md_in].
  - rewrite C0, length_app. f_equal. lia.
  - rewrite C1, length_app. do 2 f_equal. lia.
  - destruct Hu as [U1 U2 U3 U4]. cbn [fst snd] in *. subst mdi. by split.
Qed.

(** ** The end of a message *)

Lemma padding_bytes (m : list Z) :
  let mdi := zlen m mod 64 in
  take (Z.to_nat (if mdi <? 56 then 56 - mdi else 120 - mdi)) PADDING =
  0x80 :: replicate (Z.to_nat ((55 - zlen m) mod 64)) 0.
Proof.
  intros mdi. set (k := (55 - zlen m) mod 64). pose proof (Z.mod_pos_bound (zlen m) 64 ltac:(lia)).
  assert ((if mdi <? 56 then 56 - mdi else 120 - mdi) = k + 1 /\ 0 <= k < 64) as [-> Hk].
  { unfold mdi, k. destruct (Z.ltb_spec (zlen m mod 64) 56); Z.div_mod_to_equations; lia. }
  replace (Z.to_nat (k + 1)) with (S (Z.to_nat k)) by lia. unfold PADDING. cbn [take]. f_equal.
  rewrite take_replicate. f_equal. lia.
Qed.

Lemma padded_length (m : list Z) :
  (length (m ++ 0x80%Z :: replicate (Z.to_nat ((55 - zlen m) mod 64)) 0%Z) mod 64 = 56)%nat.
Proof.
  rewrite length_app. cbn [length]. rewrite length_replicate.
  apply Nat2Z.inj. rewrite Nat2Z.inj_mod. Z.div_mod_to_equations. lia.
Qed.

(** The last block: the 56 bytes left over and the length. *)
Lemma last_block (m : list Z) inb x y :
  is_u32 x -> is_u32 y -> (length m mod 64 = 56)%nat -> take 56 inb = drop (64 * (length m / 64)) m -> length inb = 64%nat ->
  md5_fold (m ++ le_bytes 4 x ++ le_bytes 4 y) = md5_block (md5_fold m) (load_words 14 inb ++ [x; y]).
Proof.
  intros Hx Hy Hm Ht Hl. set (n := (length m / 64)%nat) in *. set (p := m ++ _ ++ _).
  assert (length m = 64 * n + 56)%nat as Em by (rewrite (Nat.div_mod (length m) 64) at 1 by lia; unfold n; lia).
  assert (length p = S n * 64)%nat as Ep by (unfold p; rewrite !length_app, !length_le_bytes; lia).
  unfold md5_fold at 1. rewrite Ep, Nat.div_mul, blocks_S, fold_left_app by lia. cbn [fold_left].
  unfold p at 1. rewrite blocks_prefix by lia. fold n. unfold md5_fold. fold n. f_equal.
  assert (take 64 (drop (64 * n) p) = take 56 inb ++ le_bytes 4 x ++ le_bytes 4 y) as Eb.
  { unfold p. rewrite drop_app_le by lia. rewrite <- Ht. apply take_ge. rewrite !length_app, length_take, !length_le_bytes. lia. }
  rewrite Eb. assert (length (take 56 inb) = 56%nat) as L56 by (rewrite length_take; lia).
  rewrite (load_words_app 14 2). f_equal.
  - apply load_words_ext. intros k Hk. rewrite lookup_total_app_l by lia.
    rewrite !list_lookup_total_alt, lookup_take_lt by lia. done.
  - cbn [seq fmap list_fmap]. f_equal; [|f_equal].
    + apply load_word_le4; [done|lia].
    + rewrite app_assoc, <- (app_nil_r (le_bytes 4 y)). apply load_word_le4; [done|].
      rewrite length_app, length_le_bytes. lia.
Qed.

Lemma MD5_Final_spec m ctx : ctx_inv m ctx -> MD5_Final ctx = md5_digest m.
Proof.
  intros Hi. pose proof Hi as [H0 H1 _]. unfold MD5_Final.
  assert (Z.land (Z.shiftr (md_i0 ctx) 3) 0x3F = zlen m mod 64) as ->.
  { rewrite <- (Z2Nat.id (Z.land _ _)).
    - rewrite H0, mdi_length. by rewrite Nat2Z.inj_mod.
    - rewrite H0. apply Z.land_nonneg. right. lia. }
  rewrite padding_bytes. set (pad := 0x80 :: _).
  assert (ctx_inv (m ++ pad) (MD5_Update ctx pad)) as [_ _ [_ P2 P3 P4]].
  { apply MD5_Update_inv; [done|]. unfold pad. cbn [length]. rewrite length_replicate.
    pose proof (Z.mod_pos_bound (55 - zlen m) 64 ltac:(lia)). lia. }
  pose proof (padded_length m) as H56. fold pad in H56. cbn [fst snd] in *. rewrite H56 in P3.
  rewrite Transform_ref, P4, H0, H1.
  rewrite <- (last_block (m ++ pad) (md_in (MD5_Update ctx pad)) (u32 (8 * zlen m)) (u32 (8 * zlen m / 2 ^ 32)));
    [|apply u32_range|apply u32_range|done|done|done].
  unfold md5_digest, md5_pad. fold pad. rewrite <- app_assoc. cbn [app].
  change (0x80 :: ?l ++ ?r) with ((0x80 :: l) ++ r). fold pad.
  destruct (md5_fold (m ++ pad ++ _)) as [[[a b] c] d]. by rewrite !store_word_le.
Qed.

(** * Theorems *)

(** C22: MD5: for every way of cutting a message into pieces (each shorter than 4 GiB, as
    [inLen] is an [unsigned int]) and whatever the uninitialised input buffer held,
    [MD5_Init], [MD5_Update] on the pieces in order and [MD5_Final] give the RFC 1321
    digest of the whole message. *)
Theorem MD5_streaming (garbage : list Z) (chunks : list (list Z)) :
  length garbage = 64%nat -> Forall (fun c : list Z => zlen c < 2 ^ 32) chunks ->
  MD5_Final (fold_left MD5_Update chunks (MD5_Init garbage)) = md5_digest (concat chunks).
Proof.
  intros Hg Hc. apply MD5_Final_spec. change (concat chunks) with ([] ++ concat chunks).
  assert (ctx_inv [] (MD5_Init garbage)) as Hi by (by apply MD5_Init_inv). revert Hi.
  generalize (@nil Z), (MD5_Init garbage). induction Hc as [|c chunks Hc _ IH]; intros m ctx Hi.
  - by rewrite app_nil_r.
  - cbn [fold_left concat]. rewrite app_assoc. apply IH. by apply MD5_Update_inv.
Qed.

Lemma MD5_streaming_witness :
  Forall (fun c : list Z => zlen c < 2 ^ 32) [[97]; []; [98; 99]] /\
  MD5_Final (fold_left MD5_Update [[97]; []; [98; 99]] (MD5_Init (replicate 64 0))) = md5_digest [97; 98; 99].
Proof.
  assert (Forall (fun c : list Z => zlen c < 2 ^ 32) [[97]; []; [98; 99]]) as H
    by (repeat constructor; simpl; lia).
  split; [exact H|]. exact (MD5_streaming (replicate 64 0) _ eq_refl H).
Defined.

(** The test vector of RFC 1321 for the message abc. *)
Example md5_abc :
  md5_digest (bs "abc") = [0x90; 0x01; 0x50; 0x98; 0x3c; 0xd2; 0x4f; 0xb0; 0xd6; 0x96; 0x3f; 0x7d; 0x28; 0xe1; 0x7f; 0x72].
Proof. vm_compute. reflexivity. Qed.
