(* ===== verification/Mtd.v ===== *)
(** The flash tool (package/system/mtd/src/mtd.c): devices, erasing, writing an image
    and dumping it back, with bad blocks skipped on NAND. *)

From stdpp Require Import gmap.
From S2P Require Import Prelude.

(** ** Devices *)

(** What [MEMGETINFO], [MEMGETBADBLOCK] and the hardware say about a device, and its
    contents.  [erase_ok] fails for blocks that cannot be erased. *)
Record device := Device {
  d_erasesize : Z;
  d_nand : bool;
  d_bad : Z -> bool;
  d_erase_ok : Z -> bool;
  d_flash : list Z
}.

Definition with_flash (d : device) (f : list Z) : device :=
  Device (d_erasesize d) (d_nand d) (d_bad d) (d_erase_ok d) f.

Definition d_size (d : device) : Z := zlen (d_flash d).

(** [write] on the character device at [pos]: programming only clears bits, and a write
    that reaches the end is short. *)
Definition dev_write (d : device) (pos : Z) (data : list Z) : device * Z :=
  let n := Z.max 0 (Z.min (zlen data) (d_size d - pos)) in
  let data := take (Z.to_nat n) data in
  (with_flash d (take (Z.to_nat pos) (d_flash d) ++
                 zip_with Z.land (take (Z.to_nat n) (drop (Z.to_nat pos) (d_flash d))) data ++
                 drop (Z.to_nat (pos + n)) (d_flash d)), n).

Definition dev_read (d : device) (pos n : Z) : list Z :=
  take (Z.to_nat n) (drop (Z.to_nat pos) (d_flash d)).

(** How a command ends: it returns, or the process exits with status 1. *)
Inductive outcome (A : Type) := Returns (a : A) | Exits (a : A).
Arguments Returns {A} a.
Arguments Exits {A} a.

(** [mtd_block_is_bad]; [None] is the [exit(1)] when the ioctl fails, which it does
    outside the device. *)
Definition mtd_block_is_bad (d : device) (offset : Z) : option bool :=
  if d_nand d then (if (0 <=? offset) && (offset <? d_size d) then Some (d_bad d offset) else None)
  else Some false.

(** [mtd_erase_block]; [None] is the result -1. *)
Definition mtd_erase_block (d : device) (offset : Z) : option device :=
  if (0 <=? offset) && (offset + d_erasesize d <=? d_size d) && d_erase_ok d offset then
    Some (with_flash d (take (Z.to_nat offset) (d_flash d) ++
                        replicate (Z.to_nat (d_erasesize d)) 0xff ++
                        drop (Z.to_nat (offset + d_erasesize d)) (d_flash d)))
  else None.

(** ** Erase *)

(** The loop of [mtd_erase]: a block that cannot be erased is reported and passed over. *)
Fixpoint erase_loop (fuel : nat) (d : device) (start : Z) : outcome device :=
  match fuel with
  | O => Returns d
  | S fuel =>
      if start <? d_size d then
        match mtd_block_is_bad d start with
        | None => Exits d
        | Some true => erase_loop fuel d (start + d_erasesize d)
        | Some false => erase_loop fuel (default d (mtd_erase_block d start)) (start + d_erasesize d)
        end
      else Returns d
  end.

Definition mtd_erase (d : device) : outcome device :=
  erase_loop (S (Z.to_nat (d_size d))) d 0.

(** ** Dump *)

(** The [do] loop of [mtd_dump]: what goes to standard output. *)
Fixpoint dump_loop (fuel : nat) (d : device) (pos offset size : Z) (out : list Z) : option (outcome (list Z)) :=
  match fuel with
  | O => None
  | S fuel =>
      let len := if d_erasesize d <? size then d_erasesize d else size in
      let data := dev_read d pos len in
      if (zlen data =? 0) || negb (zlen data =? len) then Some (Returns out)
      else
        match mtd_block_is_bad d offset with
        | None => Some (Exits out)
        | Some bad =>
            let size := if bad then size else size - zlen data in
            let out := if bad then out else out ++ data in
            if 0 <? size then dump_loop fuel d (pos + zlen data) (offset + zlen data) size out
            else Some (Returns out)
        end
  end.

Definition mtd_dump (d : device) (part_offset size : Z) : option (outcome (list Z)) :=
  let size := if size =? 0 then d_size d else size in
  dump_loop (S (Z.to_nat (d_size d))) d (if part_offset =? 0 then 0 else part_offset) 0 size [].

(** ** Write

    [mtd_write] without a jffs2 file to append ([jffs2file] is [NULL], so [skip] stays
    0) and without FIS. *)

Section write.
Context (no_erase : bool).

(** The variables of the block loop: the device and its file position, what is left of
    the image, [buf] and [buflen], [w], [e], [skip_bad_blocks] and [offset]. *)
Record writing := Writing {
  w_dev : device; w_pos : Z; w_image : list Z;
  w_buf : list Z; w_buflen : Z;
  w_w : Z; w_e : Z; w_skip_bad : Z; w_offset : Z
}.

Definition with_erase (s : writing) (d : device) (pos e skip_bad : Z) : writing :=
  Writing d pos (w_image s) (w_buf s) (w_buflen s) (w_w s) e skip_bad (w_offset s).

(** Fill [buf] up to an erase block and pad the last one with 0xff; reading the image does not fail, and [None] is the end
    of the image. *)
Definition fill (s : writing) : option writing :=
  let es := d_erasesize (w_dev s) in
  let n := Z.to_nat (es - w_buflen s) in
  let data := take n (w_image s) in
  let buf := take (Z.to_nat (w_buflen s)) (w_buf s) ++ data in
  let buflen := w_buflen s + zlen data in
  if buflen =? 0 then None
  else Some (Writing (w_dev s) (w_pos s) (drop n (w_image s))
               (buf ++ replicate (Z.to_nat (es - buflen)) 0xff) es
               (w_w s) (w_e s) (w_skip_bad s) (w_offset s)).

Inductive erased := Erased (s : writing) | EraseFailed (s : writing) | EraseExits (s : writing).

(** [while (w + buflen > e - skip_bad_blocks)] *)
Fixpoint erase_ahead (fuel : nat) (s : writing) : option erased :=
  match fuel with
  | O => None
  | S fuel =>
      let es := d_erasesize (w_dev s) in
      if w_e s - w_skip_bad s <? w_w s + w_buflen s then
        match mtd_block_is_bad (w_dev s) (w_e s) with
        | None => Some (EraseExits s)
        | Some true => erase_ahead fuel (with_erase s (w_dev s) (w_pos s + es) (w_e s + es) (w_skip_bad s + es))
        | Some false =>
            match mtd_erase_block (w_dev s) (w_e s) with
            | None => Some (EraseFailed s)
            | Some d => erase_ahead fuel (with_erase s d (w_pos s) (w_e s + es) (w_skip_bad s))
            end
        end
      else Some (Erased s)
  end.

(** More rounds than a device has erase blocks. *)
Definition block_fuel (d : device) : nat := S (S (Z.to_nat (d_size d))).

(** The position [lseek] leaves a freshly opened device at. *)
Definition start_pos (part_offset : Z) : Z := if 0 <? part_offset then part_offset else 0.

(** The [for (;;)] on the open device [w_dev]; [rest] are the devices after it, of the
    same erase size ([buf] has one erase block of the first), all of which open.  A failed
    erase resumes on the next one.  The result is the devices in the order they were
    written. *)
Fixpoint write_loop (part_offset : Z) (fuel : nat) (rest : list device) (s : writing) : option (outcome (list device)) :=
  match fuel with
  | O => None
  | S fuel =>
      match fill s with
      | None => Some (Returns (w_dev s :: rest))
      | Some s =>
          r ← (if no_erase then Some (Erased s) else erase_ahead (block_fuel (w_dev s)) s);
          match r with
          | EraseExits s => Some (Exits (w_dev s :: rest))
          | EraseFailed s =>
              match rest with
              | [] => Some (Exits [w_dev s])
              | next :: rest =>
                  '(d, offset) ←
                    (if w_w s <? w_e s then
                       data ← zslice (w_buf s) (w_offset s) (w_e s - w_w s);
                       Some ((dev_write (w_dev s) (w_pos s) data).1, w_e s - w_w s)
                     else Some (w_dev s, w_offset s));
                  r ← write_loop part_offset fuel rest
                        (Writing next (start_pos part_offset) (w_image s) (w_buf s) (w_buflen s) 0 0 (w_skip_bad s) offset);
                  Some (match r with Returns ds => Returns (d :: ds) | Exits ds => Exits (d :: ds) end)
              end
          | Erased s =>
              data ← zslice (w_buf s) (w_offset s) (w_buflen s);
              let '(d, result) := dev_write (w_dev s) (w_pos s) data in
              if result <? w_buflen s then Some (Exits (d :: rest))
              else
                write_loop part_offset fuel rest
                  (Writing d (w_pos s + result) (w_image s) (w_buf s) 0
                     (w_w s + w_buflen s) (w_e s) (w_skip_bad s) 0)
          end
      end
  end.

(** [mtd_write (imagefd, "dev:rest...", NULL, part_offset)] with [buflen] bytes already
    in [buf] from the image check. *)
Definition mtd_write (dev : device) (rest : list device) (buf : list Z) (image : list Z) (part_offset : Z)
  : option (outcome (list device)) :=
  write_loop part_offset (S (length rest + length buf + length image)) rest
    (Writing dev (start_pos part_offset) image buf (zlen buf) 0 0 0 0).
End write.
