(* ===== verification/MtdSpec.v ===== *)
(** Writing an image to flash and reading it back. *)

From stdpp Require Import gmap.
From S2P Require Import Prelude Mtd.

(** ** Blocks *)

(** A device as a list of erase blocks with their bad block flags. *)
Record blocked (d : device) (fl : list bool) (blks : list (list Z)) (start : Z) (done : list Z) : Prop := {
  bl_flash : d_flash d = done ++ concat blks;
  bl_start : zlen done = start;
  bl_blocks : Forall (fun b => zlen b = d_erasesize d) blks;
  bl_flags : length fl = length blks;
  bl_bad : forall i f, fl !! i = Some f ->
    mtd_block_is_bad d (start + Z.of_nat i * d_erasesize d) = Some f /\
    (f = false -> d_erase_ok d (start + Z.of_nat i * d_erasesize d) = true)
}.

(** The good blocks in order: what [mtd dump] prints. *)
Fixpoint good_of (fl : list bool) (blks : list (list Z)) : list (list Z) :=
  match fl, blks with
  | true :: fl, _ :: blks => good_of fl blks
  | false :: fl, b :: blks => b :: good_of fl blks
  | _, _ => []
  end.

(** The blocks of a device, bad ones too, that hold its first [n] good ones. *)
Fixpoint spans (fl : list bool) (n : nat) : nat :=
  match fl, n with
  | bad :: fl, S n' => S (spans fl (if bad then n else n'))
  | _, _ => O
  end.

(** Putting blocks of data into the good blocks. *)
Fixpoint place (fl : list bool) (old data : list (list Z)) : list (list Z) :=
  match data with
  | [] => old
  | x :: data' =>
      match fl, old with
      | true :: fl, b :: old => b :: place fl old data
      | false :: fl, _ :: old => x :: place fl old data'
      | _, _ => old
      end
  end.

(** The image cut into erase blocks, the last one padded with 0xff. *)
Fixpoint chunks (fuel : nat) (es : Z) (img : list Z) : list (list Z) :=
  match fuel, img with
  | S fuel, _ :: _ =>
      (take (Z.to_nat es) img ++ replicate (Z.to_nat (es - zlen (take (Z.to_nat es) img))) 0xff)
        :: chunks fuel es (drop (Z.to_nat es) img)
  | _, _ => []
  end.

Lemma good_of_place fl : forall old data,
  length fl = length old -> (length data <= length (good_of fl old))%nat ->
  good_of fl (place fl old data) = data ++ drop (length data) (good_of fl old).
Proof.
  induction fl as [|f fl IH]; intros [|b old] [|x data] Hl Hn; try done; try (simpl in *; lia).
  destruct f; cbn [place good_of length app drop] in *.
  - rewrite IH by (simpl; lia). done.
  - f_equal. apply IH; lia.
Qed.

Lemma place_blocks (P : list Z -> Prop) fl : forall old data,
  Forall P old -> Forall P data -> Forall P (place fl old data).
Proof.
  induction fl as [|f fl IH]; intros [|b old] [|x data] Ho Hd; try done; try (by destruct f).
  apply Forall_cons in Ho as [Hb Ho]. apply Forall_cons in Hd as [Hx Hd].
  destruct f; cbn [place]; constructor; auto.
Qed.

Lemma length_place fl : forall old data, length (place fl old data) = length old.
Proof.
  induction fl as [|f fl IH]; intros [|b old] [|x data]; try done; destruct f; try done; cbn [place length]; by rewrite IH.
Qed.

Lemma chunk_length es img : 0 < es ->
  zlen (take (Z.to_nat es) img ++ replicate (Z.to_nat (es - zlen (take (Z.to_nat es) img))) 0xff) = es.
Proof. intros He. rewrite length_app, length_replicate, length_take. lia. Qed.

Lemma chunks_length es fuel img : 0 < es -> Forall (fun b => zlen b = es) (chunks fuel es img).
Proof.
  intros He. revert img. induction fuel as [|fuel IH]; intros [|x img]; try done. cbn [chunks].
  constructor; [by apply chunk_length|apply IH].
Qed.

(** The blocks start with the image, and only padding follows. *)
Lemma chunks_concat es fuel : 0 < es -> forall img, (length img <= fuel)%nat ->
  exists k, concat (chunks fuel es img) = img ++ replicate k 0xff.
Proof.
  intros He. induction fuel as [|fuel IH]; intros [|x img] Hf; try (simpl in Hf; lia); try by exists 0%nat.
  cbn [chunks concat]. destruct (IH (drop (Z.to_nat es) (x :: img))) as [k Hk].
  { rewrite length_drop. simpl in *. lia. }
  rewrite Hk. destruct (decide (zlen (x :: img) <= es)) as [Hle|Hgt].
  - rewrite take_ge, (drop_ge (x :: img)) by lia. eexists. by rewrite app_nil_l, <- app_assoc, <- replicate_add.
  - exists k. rewrite (length_take_le (x :: img)) by lia. rewrite Z2Nat.id, Z.sub_diag by lia. cbn [Z.to_nat replicate].
    by rewrite app_nil_r, app_assoc, take_drop.
Qed.

Lemma chunks_count es fuel : 0 < es -> forall img n,
  zlen img <= n * es -> zlen (chunks fuel es img) <= Z.max 0 n.
Proof.
  intros He. induction fuel as [|fuel IH]; intros [|x img] n Hn; try (simpl; lia). cbn [chunks length].
  specialize (IH (drop (Z.to_nat es) (x :: img)) (n - 1)). rewrite length_drop in IH. cbn [length] in Hn.
  assert (1 <= n) by nia. rewrite Nat2Z.inj_succ. assert (zlen (chunks fuel es (drop (Z.to_nat es) (x :: img))) <= Z.max 0 (n - 1)); [|lia].
  apply IH. cbn [length]. nia.
Qed.

(** ** Moving through the blocks *)

Lemma blocked_head d f fl b blks start done_ :
  blocked d (f :: fl) (b :: blks) start done_ ->
  mtd_block_is_bad d start = Some f /\ (f = false -> d_erase_ok d start = true) /\ zlen b = d_erasesize d /\
  d_size d = start + d_erasesize d + zlen (concat blks) /\ 0 <= start.
Proof.
  intros [Hf Hs Hb Hl Hbad]. destruct (Hbad 0%nat f eq_refl) as [H1 H2]. rewrite Z.mul_0_l, Z.add_0_r in *.
  apply Forall_cons in Hb as [Hb _]. unfold d_size. rewrite Hf. cbn [concat]. rewrite !length_app. split_and!; try done; lia.
Qed.

(** Replacing the block at [start] and moving behind it. *)
Lemma blocked_replace d f fl b b' blks start done_ :
  blocked d (f :: fl) (b :: blks) start done_ -> zlen b' = d_erasesize d ->
  blocked (with_flash d (done_ ++ b' ++ concat blks)) fl blks (start + d_erasesize d) (done_ ++ b').
Proof.
  intros [Hf Hs Hb Hl Hbad] Hb'. apply Forall_cons in Hb as [Hb Hbs].
  split; cbn [with_flash d_flash d_erasesize d_erase_ok]; try done.
  - by rewrite app_assoc.
  - rewrite length_app. lia.
  - simpl in Hl. lia.
  - intros i g Hi. destruct (Hbad (S i) g Hi) as [H1 H2].
    replace (start + Z.of_nat (S i) * d_erasesize d) with (start + d_erasesize d + Z.of_nat i * d_erasesize d) in H1, H2 by lia.
    split; [|done]. unfold mtd_block_is_bad, d_size in *. cbn [with_flash d_nand d_bad d_flash].
    assert (zlen (done_ ++ b' ++ concat blks) = zlen (d_flash d)) as ->; [|done].
    rewrite Hf. cbn [concat]. rewrite !length_app. lia.
Qed.

Lemma with_flash_same d f : d_flash d = f -> with_flash d f = d.
Proof. intros <-. by destruct d. Qed.

Lemma blocked_skip d f fl b blks start done_ :
  blocked d (f :: fl) (b :: blks) start done_ -> blocked d fl blks (start + d_erasesize d) (done_ ++ b).
Proof.
  intros Hb. pose proof (blocked_head _ _ _ _ _ _ _ Hb) as (_ & _ & Hl & _).
  pose proof (blocked_replace d f fl b b blks start done_ Hb Hl) as Hr.
  rewrite with_flash_same in Hr; [done|]. rewrite (bl_flash _ _ _ _ _ Hb). done.
Qed.

Lemma erase_block_at d f fl b blks start done_ :
  0 < d_erasesize d -> blocked d (f :: fl) (b :: blks) start done_ -> f = false ->
  mtd_erase_block d start = Some (with_flash d (done_ ++ replicate (Z.to_nat (d_erasesize d)) 0xff ++ concat blks)).
Proof.
  intros He Hb ->. pose proof (blocked_head _ _ _ _ _ _ _ Hb) as (_ & Hok & Hl & Hsz & H0).
  unfold mtd_erase_block. rewrite Hok, (proj2 (Z.leb_le 0 start)), (proj2 (Z.leb_le _ (d_size d))) by (done || lia).
  cbn [andb]. do 2 f_equal. destruct Hb as [Hf Hs _ _ _]. rewrite Hf. cbn [concat]. f_equal; [|f_equal].
  - replace (Z.to_nat start) with (length done_) by lia. apply take_app_length.
  - replace (Z.to_nat (start + d_erasesize d)) with (length (done_ ++ b)) by (rewrite length_app; lia).
    rewrite app_assoc. apply drop_app_length.
Qed.

(** Programming an erased block. *)
Lemma land_ff data : Forall is_byte data -> zip_with Z.land (replicate (length data) 0xff) data = data.
Proof.
  induction 1 as [|x data Hx Hd IH]; [done|]. cbn [length replicate zip_with]. rewrite IH. f_equal.
  rewrite Z.land_comm, land_ones_u8. by apply u8_id.
Qed.

Lemma dev_write_at d pre old post data :
  d_flash d = pre ++ old ++ post -> length old = length data ->
  dev_write d (zlen pre) data = (with_flash d (pre ++ zip_with Z.land old data ++ post), zlen data).
Proof.
  intros Hf Hl. unfold dev_write, d_size. rewrite Hf, !length_app.
  replace (Z.max 0 (Z.min (zlen data) (Z.of_nat (length pre + (length old + length post)) - zlen pre)))
    with (zlen data) by lia.
  rewrite !Nat2Z.id, take_app_length, drop_app_length. rewrite <- Hl, take_app_length.
  replace (Z.to_nat (zlen pre + zlen old)) with (length (pre ++ old)) by (rewrite length_app; lia).
  rewrite (app_assoc pre old post), drop_app_length, (take_ge data) by lia. done.
Qed.

(** ** Write *)

(** Bad blocks are stepped over, then one block is erased. *)
Lemma erase_ahead_spec fl : forall blks d start done_ fuel s,
  0 < d_erasesize d -> blocked d fl blks start done_ -> good_of fl blks <> [] ->
  w_dev s = d -> w_pos s = start -> w_e s = start -> w_buflen s = d_erasesize d -> w_e s - w_skip_bad s = w_w s ->
  (length fl + 1 < fuel)%nat ->
  exists bads b rest flr s', blks = bads ++ b :: rest /\ fl = replicate (length bads) true ++ false :: flr /\
    erase_ahead fuel s = Some (Erased s') /\
    let start' := start + zlen (concat bads) in
    w_dev s' = with_flash d (done_ ++ concat bads ++ replicate (Z.to_nat (d_erasesize d)) 0xff ++ concat rest) /\
    w_pos s' = start' /\ w_e s' = start' + d_erasesize d /\ w_e s' - w_skip_bad s' = w_w s + d_erasesize d /\
    w_image s' = w_image s /\ w_buf s' = w_buf s /\ w_buflen s' = w_buflen s /\ w_w s' = w_w s /\ w_offset s' = w_offset s /\
    blocked d flr rest (start' + d_erasesize d) (done_ ++ concat bads ++ b).
Proof.
  induction fl as [|f fl IH]; intros [|b blks] d start done_ fuel s He Hb Hg Hd Hp Hee Hbl Hw Hf; try done;
    try (by destruct Hb; simpl in *; lia).
  pose proof (blocked_head _ _ _ _ _ _ _ Hb) as (Hbad & Hok & Hl & Hsz & H0).
  destruct fuel as [|fuel]; [simpl in Hf; lia|]. cbn [erase_ahead]. rewrite Hd, Hee, Hbad.
  rewrite (proj2 (Z.ltb_lt _ _)) by lia. destruct f.
  - pose proof (blocked_skip _ _ _ _ _ _ _ Hb) as Hb'.
    destruct (IH blks d (start + d_erasesize d) (done_ ++ b) fuel
      (with_erase s d (w_pos s + d_erasesize d) (start + d_erasesize d) (w_skip_bad s + d_erasesize d)))
      as (bads & b' & rest & flr & s' & -> & -> & HE & R); try done; cbn [with_erase w_dev w_pos w_e w_buflen w_skip_bad w_w];
      try lia; try done; [simpl in Hf; lia|].
    exists (b :: bads), b', rest, flr, s'. do 2 (split; [done|]). split; [exact HE|]. cbn zeta in *.
    cbn [concat]. rewrite length_app. cbn [with_erase w_w w_image w_buf w_buflen w_offset] in R.
    replace (start + Z.of_nat (length b + length (concat bads))) with (start + d_erasesize d + zlen (concat bads)) by lia.
    by rewrite <- !app_assoc in R |- *.
  - rewrite (erase_block_at d false fl b blks start done_ He Hb eq_refl).
    destruct fuel as [|fuel]; [simpl in Hf; lia|]. cbn [erase_ahead with_erase w_dev w_e w_skip_bad w_w w_buflen].
    rewrite (proj2 (Z.ltb_ge _ _)) by lia.
    eexists [], b, blks, fl, _. split_and!; try done;
      cbn [with_erase w_dev w_pos w_e w_skip_bad concat length Z.of_nat app]; rewrite ?Z.add_0_r; try lia.
    by apply (blocked_skip d false fl b) in Hb.
Qed.

Lemma place_skip bads b rest flr x data :
  place (replicate (length bads) true ++ false :: flr) (bads ++ b :: rest) (x :: data) = bads ++ x :: place flr rest data.
Proof. induction bads as [|c bads IH]; [done|]. cbn [length replicate app place]. by rewrite IH. Qed.

Lemma good_of_skip bads b rest flr :
  good_of (replicate (length bads) true ++ false :: flr) (bads ++ b :: rest) = b :: good_of flr rest.
Proof. induction bads as [|c bads IH]; [done|]. cbn [length replicate app good_of]. by rewrite IH. Qed.

Lemma spans_0 fl : spans fl 0 = O.
Proof. by destruct fl. Qed.

Lemma spans_add fl : forall a b, spans fl (a + b) = (spans fl a + spans (drop (spans fl a) fl) b)%nat.
Proof.
  induction fl as [|bad fl IH]; intros a b; [by destruct (a + b)%nat, a, b|]. destruct a as [|a]; [done|].
  cbn [spans Nat.add drop]. destruct bad; f_equal; [apply (IH (S a))|apply IH].
Qed.

(** Bad blocks and a good one. *)
Lemma spans_skip k flr n : spans (replicate k true ++ false :: flr) (S n) = (k + 1 + spans flr n)%nat.
Proof. induction k as [|k IH]; [done|]. cbn [replicate app spans]. rewrite IH. lia. Qed.

Lemma drop_skip k (flr : list bool) n : drop (k + 1 + n) (replicate k true ++ false :: flr) = drop n flr.
Proof. induction k as [|k IH]; [done|]. cbn [replicate app Nat.add drop]. exact IH. Qed.

Lemma concat_blocks es (blks : list (list Z)) : Forall (fun b : list Z => zlen b = es) blks -> zlen (concat blks) = zlen blks * es.
Proof. induction 1 as [|b blks Hb _ IH]; [done|]. cbn [concat]. rewrite length_app. cbn [length]. lia. Qed.

Lemma blocked_count d fl blks start done_ : 0 < d_erasesize d -> blocked d fl blks start done_ -> zlen fl <= d_size d.
Proof.
  intros He [Hf Hs Hb Hl _]. unfold d_size. rewrite Hf, length_app, Nat2Z.inj_add, (concat_blocks _ _ Hb), Hl. nia.
Qed.

Lemma blocked_prefix d fl blks start done_ done' :
  blocked d fl blks start done_ -> zlen done' = start -> blocked (with_flash d (done' ++ concat blks)) fl blks start done'.
Proof.
  intros [Hf Hs Hb Hl Hbad] Hd. split; try done. intros i f Hi. destruct (Hbad i f Hi) as [H1 H2]. split; [|done].
  unfold mtd_block_is_bad, d_size in *. cbn [with_flash d_nand d_bad d_flash d_erasesize].
  assert (zlen (done' ++ concat blks) = zlen (d_flash d)) as ->; [|done]. rewrite Hf, !length_app. lia.
Qed.

Lemma chunks_fuel es : 0 < es -> forall fuel img, (length img <= fuel)%nat -> chunks fuel es img = chunks (length img) es img.
Proof.
  intros He. induction fuel as [fuel IH] using lt_wf_ind. intros [|x img] Hf; [by destruct fuel|].
  destruct fuel as [|fuel]; [simpl in Hf; lia|]. cbn [chunks length]. f_equal.
  set (l := drop (Z.to_nat es) (x :: img)). assert (length l <= length img)%nat as Hl
    by (unfold l; rewrite length_drop; cbn [length]; lia).
  cbn [length] in Hf. rewrite (IH fuel) by lia. symmetry. apply IH; lia.
Qed.

(** What the loop still has to write. *)
Definition stream (s : writing) : list Z := take (Z.to_nat (w_buflen s)) (w_buf s) ++ w_image s.

Lemma fill_spec s es : d_erasesize (w_dev s) = es -> 0 < es -> w_buflen s = zlen (take (Z.to_nat (w_buflen s)) (w_buf s)) -> w_buflen s <= es ->
  fill s = match stream s with
    | [] => None
    | _ => Some (Writing (w_dev s) (w_pos s) (drop (Z.to_nat es) (stream s))
             (take (Z.to_nat es) (stream s) ++ replicate (Z.to_nat (es - zlen (take (Z.to_nat es) (stream s)))) 0xff) es
             (w_w s) (w_e s) (w_skip_bad s) (w_offset s))
    end.
Proof.
  intros He H0 Hb Hle. unfold fill. rewrite He. set (bf := take (Z.to_nat (w_buflen s)) (w_buf s)) in *.
  assert (stream s = bf ++ w_image s) as Es by done. set (n := Z.to_nat (es - w_buflen s)).
  assert (Z.to_nat es = length bf + n)%nat as En by lia.
  assert (bf ++ take n (w_image s) = take (Z.to_nat es) (stream s)) as Et by (rewrite Es, En; by rewrite take_app_add).
  assert (w_buflen s + zlen (take n (w_image s)) = zlen (take (Z.to_nat es) (stream s))) as El
    by (rewrite <- Et, length_app; lia).
  rewrite El, Et. rewrite length_take. destruct (stream s) as [|x st] eqn:E.
  - by rewrite Nat.min_0_r.
  - rewrite (proj2 (Z.eqb_neq _ 0)) by (cbn [length]; lia). do 2 f_equal. rewrite Es, En. by rewrite drop_app_add'.
Qed.

Lemma write_loop_spec part_offset fuel : forall fl blks d start done_ s,
  0 < d_erasesize d -> blocked d fl blks start done_ -> Forall is_byte (stream s) ->
  w_dev s = d -> w_pos s = start -> w_e s = start -> w_e s - w_skip_bad s = w_w s -> w_offset s = 0 ->
  w_buflen s = zlen (take (Z.to_nat (w_buflen s)) (w_buf s)) -> w_buflen s <= d_erasesize d ->
  zlen (stream s) <= zlen (good_of fl blks) * d_erasesize d -> (length (stream s) < fuel)%nat ->
  write_loop false part_offset fuel [] s =
    Some (Returns [with_flash d (done_ ++ concat (place fl blks (chunks (length (stream s)) (d_erasesize d) (stream s))))]).
Proof.
  induction fuel as [|fuel IH]; intros fl blks d start done_ s He Hb Hby Hd Hp Hee Hw Ho Hbl Hble Hfit Hf; [lia|].
  cbn [write_loop]. rewrite (fill_spec s (d_erasesize d)) by (done || by rewrite Hd).
  remember (stream s) as str eqn:Estr. clear Estr. destruct (decide (str = [])) as [->|Hne].
  { cbn [length chunks]. rewrite with_flash_same; [by rewrite Hd|]. rewrite (bl_flash _ _ _ _ _ Hb). by destruct fl. }
  assert (exists x st, str = x :: st) as (x & st & Es) by (destruct str; [done|eauto]).
  replace (match str with [] => None | _ => _ end) with
    (Some (Writing (w_dev s) (w_pos s) (drop (Z.to_nat (d_erasesize d)) str)
             (take (Z.to_nat (d_erasesize d)) str ++ replicate (Z.to_nat (d_erasesize d - zlen (take (Z.to_nat (d_erasesize d)) str))) 0xff)
             (d_erasesize d) (w_w s) (w_e s) (w_skip_bad s) (w_offset s))) by (by rewrite Es).
  set (data := take _ _ ++ replicate _ _). set (s1 := Writing _ _ _ data _ _ _ _ _).
  assert (zlen data = d_erasesize d) as Hdl by (by apply chunk_length).
  destruct (erase_ahead_spec fl blks d start done_ (block_fuel d) s1)
    as (bads & b & rest & flr & s2 & -> & -> & HE & Hd2 & Hp2 & He2 & Hw2 & Hi2 & Hbuf2 & Hbl2 & Hww2 & Hof2 & Hb2); try done.
  { intros E. rewrite E, Es in Hfit. cbn [length] in Hfit. lia. }
  { unfold block_fuel. pose proof (blocked_count _ _ _ _ _ He Hb). lia. }
  change (w_dev s1) with (w_dev s). rewrite Hd, HE. cbn [mbind option_bind].
  unfold s1 in Hbuf2, Hbl2, Hof2, Hi2. cbn [w_buf w_buflen w_offset w_image] in Hbuf2, Hbl2, Hof2, Hi2.
  rewrite Hbuf2, Hof2, Ho, Hbl2. rewrite zslice_Some by lia. cbn [mbind option_bind].
  change (drop (Z.to_nat 0) data) with data. rewrite take_ge by lia.
  assert (Forall is_byte data) as Hdb.
  { unfold data. apply Forall_app. split; [by apply Forall_take|apply Forall_replicate; unfold is_byte; lia]. }
  set (ff := replicate (Z.to_nat (d_erasesize d)) 0xff) in *.
  assert (w_pos s2 = zlen (done_ ++ concat bads)) as Hp2' by (rewrite Hp2, length_app, <- (bl_start _ _ _ _ _ Hb); lia).
  rewrite Hp2'. rewrite (dev_write_at (w_dev s2) (done_ ++ concat bads) ff (concat rest) data);
    [|rewrite Hd2; cbn [with_flash d_flash]; by rewrite <- app_assoc|unfold ff; rewrite length_replicate; lia].
  rewrite (proj2 (Z.ltb_ge _ _)) by lia.
  replace ff with (replicate (length data) 0xff) by (unfold ff; f_equal; lia). rewrite land_ff by done.
  assert (forall f g, with_flash (with_flash d f) g = with_flash d g) as Hww by done. rewrite Hd2, Hww.
  assert (blocked (with_flash d (((done_ ++ concat bads) ++ data) ++ concat rest)) flr rest
    (start + zlen (concat bads) + d_erasesize d) ((done_ ++ concat bads) ++ data)) as Hb3.
  { eapply blocked_prefix; [exact Hb2|]. rewrite !length_app, <- (bl_start _ _ _ _ _ Hb). lia. }
  rewrite (good_of_skip bads b rest flr) in Hfit. cbn [length] in Hfit.
  rewrite (IH flr rest (with_flash d (((done_ ++ concat bads) ++ data) ++ concat rest))
    (start + zlen (concat bads) + d_erasesize d) ((done_ ++ concat bads) ++ data));
    cbn [w_dev w_pos w_e w_skip_bad w_w w_offset w_buflen w_buf w_image stream with_flash d_erasesize]; try done; try lia.
  - unfold stream. cbn [w_buflen w_buf w_image]. rewrite take_0. cbn [app]. rewrite Hi2, Hww. do 4 f_equal.
    rewrite <- !app_assoc. f_equal.
    assert (chunks (length str) (d_erasesize d) str = data :: chunks (length st) (d_erasesize d) (drop (Z.to_nat (d_erasesize d)) str)) as ->
      by (unfold data; by rewrite Es).
    rewrite place_skip, concat_app. cbn [concat].
    rewrite (chunks_fuel (d_erasesize d) He (length st)); [done|]. rewrite Es, length_drop. cbn [length]. lia.
  - unfold stream. cbn [w_buflen w_buf w_image]. rewrite take_0, Hi2. by apply Forall_drop.
  - by rewrite (app_assoc (done_ ++ concat bads)).
  - unfold stream. cbn [w_buflen w_buf w_image]. rewrite take_0, Hi2, length_app, length_drop. cbn [length]. nia.
  - unfold stream. cbn [w_buflen w_buf w_image]. rewrite take_0, Hi2, length_app, length_drop. rewrite Es in *. cbn [length] in *. lia.
Qed.

(** ** Dump *)

Lemma dump_loop_spec fl : forall blks d start done_ fuel n out,
  0 < d_erasesize d -> blocked d fl blks start done_ -> zlen blks <= n -> (length blks < fuel)%nat ->
  dump_loop fuel d start start (n * d_erasesize d) out = Some (Returns (out ++ concat (good_of fl blks))).
Proof.
  induction fl as [|f fl IH]; intros [|b blks] d start done_ fuel n out He Hb Hn Hf;
    try (by destruct Hb; simpl in *; lia); (destruct fuel as [|fuel]; [simpl in Hf; lia|]); cbn [dump_loop].
  - assert (dev_read d start (if d_erasesize d <? n * d_erasesize d then d_erasesize d else n * d_erasesize d) = []) as ->.
    { unfold dev_read. rewrite (drop_ge (d_flash d)); [by rewrite take_nil|].
      destruct Hb as [Hfl Hs _ _ _]. rewrite Hfl, app_nil_r. lia. }
    cbn [length Z.of_nat Z.eqb orb good_of concat]. by rewrite app_nil_r.
  - pose proof (blocked_head _ _ _ _ _ _ _ Hb) as (Hbad & _ & Hl & Hsz & H0). cbn [length] in Hn, Hf.
    assert ((if d_erasesize d <? n * d_erasesize d then d_erasesize d else n * d_erasesize d) = d_erasesize d) as ->
      by (destruct (Z.ltb_spec (d_erasesize d) (n * d_erasesize d)); nia).
    assert (dev_read d start (d_erasesize d) = b) as ->.
    { unfold dev_read. destruct Hb as [Hfl Hs _ _ _]. rewrite Hfl. cbn [concat].
      replace (Z.to_nat start) with (length done_) by lia. rewrite drop_app_length.
      replace (Z.to_nat (d_erasesize d)) with (length b) by lia. apply take_app_length. }
    rewrite Hl, Z.eqb_refl, (proj2 (Z.eqb_neq _ 0)) by lia. cbn [negb orb]. rewrite Hbad.
    pose proof (blocked_skip _ _ _ _ _ _ _ Hb) as Hb'.
    destruct f; cbn [good_of concat].
    + rewrite (proj2 (Z.ltb_lt 0 _)) by nia. apply (IH blks d _ (done_ ++ b)); try done; lia.
    + destruct (Z.ltb_spec 0 (n * d_erasesize d - d_erasesize d)) as [Hgo|Hstop].
      * replace (n * d_erasesize d - d_erasesize d) with ((n - 1) * d_erasesize d) by lia.
        rewrite (IH blks d _ (done_ ++ b)) by (done || lia). by rewrite app_assoc.
      * assert (n = 1) as -> by nia. destruct blks; [|cbn [length] in Hn; lia].
        assert (good_of fl [] = []) as -> by (by destruct fl as [|[] ?]). cbn [concat]. by rewrite app_nil_r.
Qed.

(** ** Erase *)

Definition blank (es : Z) (f : bool) (b : list Z) : list Z := if f then b else replicate (Z.to_nat es) 0xff.

Lemma erase_loop_spec fl : forall blks d start done_ fuel,
  0 < d_erasesize d -> blocked d fl blks start done_ -> (length blks < fuel)%nat ->
  erase_loop fuel d start = Returns (with_flash d (done_ ++ concat (zip_with (blank (d_erasesize d)) fl blks))).
Proof.
  induction fl as [|f fl IH]; intros [|b blks] d start done_ fuel He Hb Hf;
    try (by destruct Hb; simpl in *; lia); (destruct fuel as [|fuel]; [simpl in Hf; lia|]); cbn [erase_loop].
  - rewrite (proj2 (Z.ltb_ge _ _)); destruct Hb as [Hfl Hs _ _ _].
    + by rewrite with_flash_same.
    + unfold d_size. rewrite Hfl, app_nil_r. lia.
  - pose proof (blocked_head _ _ _ _ _ _ _ Hb) as (Hbad & _ & Hl & Hsz & H0). cbn [length] in Hf.
    rewrite (proj2 (Z.ltb_lt _ _)) by lia. rewrite Hbad. cbn [zip_with concat]. destruct f; cbn [blank].
    + rewrite (IH blks d _ (done_ ++ b)); [by rewrite <- app_assoc|done|by eapply blocked_skip|lia].
    + rewrite (erase_block_at d false fl b blks start done_ He Hb eq_refl). cbn [default].
      set (ff := replicate _ _). assert (zlen ff = d_erasesize d) as Hff by (unfold ff; rewrite length_replicate; lia).
      rewrite (IH blks (with_flash d (done_ ++ ff ++ concat blks)) _ (done_ ++ ff)); cbn [with_flash d_erasesize]; try done; [|by eapply blocked_replace|lia].
      by rewrite <- app_assoc.
Qed.

(** ** Devices from their geometry *)

(** A device whose size is a whole number of erase blocks and whose good blocks can be
    erased. *)
Definition sound (d : device) : Prop :=
  0 < d_erasesize d /\ (exists n, 0 <= n /\ d_size d = n * d_erasesize d) /\
  forall i, 0 <= i < d_size d -> mtd_block_is_bad d i = Some false -> d_erase_ok d i = true.

Definition flags_of (d : device) : list bool :=
  (fun i => default false (mtd_block_is_bad d (Z.of_nat i * d_erasesize d))) <$> seq 0 (Z.to_nat (d_size d / d_erasesize d)).
Definition blocks_of (d : device) : list (list Z) :=
  (fun i => take (Z.to_nat (d_erasesize d)) (drop (i * Z.to_nat (d_erasesize d)) (d_flash d)))
    <$> seq 0 (Z.to_nat (d_size d / d_erasesize d)).

(** What the device holds for a reader that skips bad blocks, and how much that is. *)
Definition readable (d : device) : list Z := concat (good_of (flags_of d) (blocks_of d)).

Lemma concat_slices (l : list Z) m n : (length l = n * m)%nat ->
  concat ((fun i => take m (drop (i * m) l)) <$> seq 0 n) = l.
Proof.
  revert l. induction n as [|n IH]; intros l Hl; [by destruct l|]. cbn [seq fmap list_fmap concat].
  rewrite <- fmap_S_seq, <- list_fmap_compose. change (0 * m)%nat with 0%nat. rewrite drop_0.
  transitivity (take m l ++ drop m l); [f_equal|apply take_drop].
  rewrite <- (IH (drop m l)) by (rewrite length_drop; lia). f_equal. apply list_fmap_ext. intros _ i _. cbn. by rewrite drop_drop.
Qed.

Lemma sound_blocked d : sound d -> blocked d (flags_of d) (blocks_of d) 0 [].
Proof.
  intros (He & (n & Hn & Hs) & Hok). assert (d_size d / d_erasesize d = n) as Eq by (rewrite Hs; apply Z.div_mul; lia).
  assert (length (d_flash d) = Z.to_nat n * Z.to_nat (d_erasesize d))%nat as El by (unfold d_size in Hs; nia).
  split; unfold blocks_of, flags_of; rewrite ?Eq.
  - symmetry. apply concat_slices. done.
  - done.
  - apply Forall_forall. intros b (i & -> & [_ Hi]%elem_of_seq)%list_elem_of_fmap.
    rewrite length_take, length_drop. nia.
  - by rewrite !length_fmap.
  - intros i f Hi. rewrite Z.add_0_l. apply list_lookup_fmap_Some in Hi as (j & -> & [-> Hj]%lookup_seq). cbn [Nat.add].
    assert (0 <= Z.of_nat i * d_erasesize d < d_size d) as Hr by (rewrite Hs; nia).
    assert (is_Some (mtd_block_is_bad d (Z.of_nat i * d_erasesize d))) as [g Hg].
    { unfold mtd_block_is_bad. rewrite (proj2 (Z.leb_le 0 _)), (proj2 (Z.ltb_lt _ _)) by lia. destruct (d_nand d); eauto. }
    rewrite Hg. simpl. split; [done|]. intros E. apply Hok; [done|]. by rewrite Hg, E.
Qed.

Lemma good_length fl blks es : Forall (fun b : list Z => zlen b = es) blks -> length fl = length blks ->
  zlen (concat (good_of fl blks)) = zlen (good_of fl blks) * es /\ (length (good_of fl blks) <= length blks)%nat.
Proof.
  revert fl. induction blks as [|b blks IH]; intros [|f fl] Hb Hl; try done. apply Forall_cons in Hb as [Hb Hbs].
  destruct (IH fl Hbs) as [H1 H2]; [simpl in Hl; lia|]. destruct f; cbn [good_of concat length].
  - split; [done|lia].
  - rewrite length_app. split; lia.
Qed.

(** ** Write, then dump *)

Lemma mtd_write_then_dump_run (d : device) (buf image : list Z) :
  sound d -> Forall is_byte (buf ++ image) -> zlen buf <= d_erasesize d ->
  zlen (buf ++ image) <= zlen (readable d) ->
  exists d' pad old, mtd_write false d [] buf image 0 = Some (Returns [d']) /\
    mtd_dump d' 0 0 = Some (Returns ((buf ++ image) ++ replicate pad 0xff ++ old)) /\
    old `suffix_of` readable d /\ d_size d' = d_size d.
Proof.
  intros Hs Hb Hbuf Hfit. pose proof (sound_blocked d Hs) as Hbl. destruct Hs as (He & (n & Hn & Hsz) & _).
  set (fl := flags_of d) in *. set (blks := blocks_of d) in *. set (es := d_erasesize d) in *.
  pose proof (good_length fl blks es (bl_blocks _ _ _ _ _ Hbl) (bl_flags _ _ _ _ _ Hbl)) as [Hgl Hgc].
  unfold readable in Hfit. fold fl blks in Hfit. rewrite Hgl in Hfit.
  set (data := chunks (length (buf ++ image)) es (buf ++ image)).
  set (d' := with_flash d (concat (place fl blks data))).
  assert (Forall (fun b : list Z => zlen b = es) (place fl blks data)) as Hpl
    by (apply place_blocks; [apply Hbl|by apply chunks_length]).
  assert (blocked d' fl (place fl blks data) 0 []) as Hbl'.
  { destruct Hbl as [Hf _ Hbs Hlen Hbad]. split; try done; [by rewrite length_place|].
    intros i f Hi. destruct (Hbad i f Hi) as [H1 H2]. split; [|done]. unfold mtd_block_is_bad, d_size in *. cbn [d' with_flash d_nand d_bad d_flash].
    assert (zlen (concat (place fl blks data)) = zlen (d_flash d)) as ->; [|done].
    rewrite Hf. cbn [app]. rewrite (concat_blocks es _ Hpl), (concat_blocks es _ Hbs), length_place. done. }
  assert (d_size d' = d_size d) as Hsize.
  { unfold d_size. rewrite (bl_flash _ _ _ _ _ Hbl), (bl_flash _ _ _ _ _ Hbl'). cbn [app].
    rewrite (concat_blocks es _ Hpl), (concat_blocks es _ (bl_blocks _ _ _ _ _ Hbl)), length_place. done. }
  assert (zlen blks = n) as Hbn.
  { pose proof (concat_blocks es blks (bl_blocks _ _ _ _ _ Hbl)) as E. unfold d_size in Hsz.
    rewrite (bl_flash _ _ _ _ _ Hbl) in Hsz. cbn [app] in Hsz. nia. }
  destruct (chunks_concat es (length (buf ++ image)) He (buf ++ image)) as [pad Hpad]; [done|].
  exists d', pad, (concat (drop (length data) (good_of fl blks))). split_and!; [| | |done].
  - unfold mtd_write. change (if 0 <? 0 then 0 else 0) with 0.
    rewrite (write_loop_spec _ _ fl blks d 0 []); try done; unfold stream; cbn [w_buflen w_buf w_image w_e w_skip_bad w_w];
      rewrite ?Nat2Z.id, ?(take_ge buf) by lia; try done; try lia. rewrite length_app. simpl. lia.
  - unfold mtd_dump. change (0 =? 0) with true. cbn match. rewrite Hsize, Hsz.
    change (d_erasesize d) with (d_erasesize d').
    rewrite (dump_loop_spec fl (place fl blks data) d' 0 []); try done; [| |rewrite length_place; nia].
    + rewrite good_of_place; [|by apply Hbl|].
      * rewrite concat_app. fold es. unfold data at 1. rewrite Hpad. cbn [app]. by rewrite <- app_assoc.
      * pose proof (chunks_count es (length (buf ++ image)) He (buf ++ image) (zlen (good_of fl blks))) as Hc. fold data in Hc. lia.
    + rewrite length_place. lia.
  - exists (concat (take (length data) (good_of fl blks))). unfold readable. fold fl blks. by rewrite <- concat_app, take_drop.
Qed.

(** * Theorems *)

(** Writing and reading back: on a device with any pattern of bad blocks, if the image
    (what the image check already buffered, then the rest) fits into its good blocks,
    [mtd write] returns, keeps the geometry, and [mtd dump] afterwards prints the image,
    0xff up to the end of its last erase block, and then the old contents of the good
    blocks that were not needed. *)
Theorem mtd_write_then_dump (d : device) (buf image : list Z) :
  sound d -> Forall is_byte (buf ++ image) -> zlen buf <= d_erasesize d ->
  zlen (buf ++ image) <= zlen (readable d) ->
  exists d' pad old, mtd_write false d [] buf image 0 = Some (Returns [d']) /\
    mtd_dump d' 0 0 = Some (Returns ((buf ++ image) ++ replicate pad 0xff ++ old)) /\
    old `suffix_of` readable d /\ d_size d' = d_size d.
Proof. apply mtd_write_then_dump_run. Qed.

(** [mtd erase] returns and leaves every good block all ones and every bad block as it
    was, for any pattern of bad blocks. *)
Theorem mtd_erase_blanks (d : device) :
  sound d ->
  mtd_erase d = Returns (with_flash d (concat (zip_with (blank (d_erasesize d)) (flags_of d) (blocks_of d)))).
Proof.
  intros Hs. pose proof (sound_blocked d Hs) as Hb. destruct Hs as (He & (n & Hn & Hsz) & _).
  unfold mtd_erase. apply (erase_loop_spec _ _ d 0 []); [done|done|].
  pose proof (blocked_count _ _ _ _ _ He Hb) as Hc. rewrite <- (bl_flags _ _ _ _ _ Hb). lia.
Qed.

(** With [-p] the erase position still counts from the start of the device: writing one
    erase block at [part_offset = erasesize] of a two-block NOR device erases block 0 and
    programs block 1 without erasing it, leaving the AND of old and new bytes. *)
Theorem mtd_write_part_offset_erases_start (es : Z) (b0 b1 image : list Z) (bad : Z -> bool) :
  0 < es -> zlen b0 = es -> zlen b1 = es -> zlen image = es ->
  exists d', mtd_write false (Device es false bad (fun _ => true) (b0 ++ b1)) [] [] image es = Some (Returns [d']) /\
    d_flash d' = replicate (Z.to_nat es) 0xff ++ zip_with Z.land b1 image.
Proof.
  intros He H0 H1 Hi. set (d := Device es false bad (fun _ => true) (b0 ++ b1)).
  unfold mtd_write. unfold start_pos. rewrite (proj2 (Z.ltb_lt 0 es)) by done. change (zlen []) with 0.
  set (n := (length (@nil device) + length (@nil Z) + length image)%nat).
  assert (exists k, n = S k) as [k ->] by (exists (n - 1)%nat; unfold n; simpl; lia).
  cbn [write_loop].
  assert (fill (Writing d es image [] 0 0 0 0 0) = Some (Writing d es [] image es 0 0 0 0)) as ->.
  { rewrite (fill_spec _ es) by (done || cbn [w_buflen]; lia). unfold stream. cbn [w_buflen w_buf w_image w_dev w_pos w_w w_e w_skip_bad w_offset].
    change (take (Z.to_nat 0) [] ++ image) with image. rewrite (take_ge image), (drop_ge image), Hi, Z.sub_diag by lia.
    change (replicate (Z.to_nat 0) 255) with (@nil Z). rewrite app_nil_r. destruct image; [simpl in Hi; lia|done]. }
  unfold block_fuel. cbn [erase_ahead w_dev w_e w_skip_bad w_w w_buflen d_erasesize d].
  rewrite (proj2 (Z.ltb_lt _ _)) by lia. change (mtd_block_is_bad d 0) with (Some false).
  assert (mtd_erase_block d 0 = Some (with_flash d (replicate (Z.to_nat es) 0xff ++ b1))) as ->.
  { unfold mtd_erase_block, d_size. cbn [d d_erasesize d_flash d_erase_ok]. rewrite length_app.
    rewrite (proj2 (Z.leb_le _ (Z.of_nat _))) by lia. cbn [andb]. change (0 <=? 0) with true. cbn [andb]. do 2 f_equal.
    rewrite Z.add_0_l, take_0, drop_app_length' by lia. done. }
  cbn [with_erase w_dev w_e w_skip_bad w_w w_buflen w_image w_buf w_offset w_pos].
  rewrite (proj2 (Z.ltb_ge _ _)) by lia. cbn [mbind option_bind w_buf w_offset w_buflen with_erase w_dev w_pos w_image w_w w_e w_skip_bad].
  rewrite zslice_Some by lia. cbn [mbind option_bind]. change (drop (Z.to_nat 0) image) with image. rewrite take_ge by lia.
  pose proof (dev_write_at (with_flash d (replicate (Z.to_nat es) 255 ++ b1)) (replicate (Z.to_nat es) 255) b1 [] image) as Hw.
  rewrite length_replicate, Z2Nat.id, !app_nil_r in Hw by lia. rewrite Hw; [|done|lia].
  rewrite Hi, (proj2 (Z.ltb_ge _ _)) by lia. cbn [write_loop].
  rewrite (fill_spec _ es); [|done|done|done|cbn [w_buflen]; lia]. unfold stream. cbn [w_buflen w_buf w_image].
  change (take (Z.to_nat 0) image) with (@nil Z). cbn [app]. by eexists.
Qed.

(** ** The theorems at work *)

(** Five blocks of four bytes, the second one bad. *)
Definition demo_nand : device := Device 4 true (fun o => o =? 4) (fun _ => true) (replicate 20 7).

Lemma demo_nand_sound : sound demo_nand.
Proof.
  split; [done|]. split; [exists 5; by split|]. intros i Hi Hb. reflexivity.
Qed.

Lemma mtd_write_then_dump_witness :
  sound demo_nand /\
  exists d' pad old, mtd_write false demo_nand [] [1; 2] [3; 4; 5] 0 = Some (Returns [d']) /\
    mtd_dump d' 0 0 = Some (Returns (([1; 2] ++ [3; 4; 5]) ++ replicate pad 0xff ++ old)) /\
    old `suffix_of` readable demo_nand /\ d_size d' = d_size demo_nand.
Proof.
  split; [exact demo_nand_sound|]. apply (mtd_write_then_dump demo_nand [1; 2] [3; 4; 5] demo_nand_sound);
    [eval_decide|vm_compute; discriminate|vm_compute; discriminate].
Defined.

Lemma mtd_erase_blanks_witness :
  sound demo_nand /\
  mtd_erase demo_nand = Returns (with_flash demo_nand (concat (zip_with (blank 4) (flags_of demo_nand) (blocks_of demo_nand)))).
Proof. split; [exact demo_nand_sound|]. exact (mtd_erase_blanks demo_nand demo_nand_sound). Defined.

Lemma mtd_write_part_offset_erases_start_witness :
  exists d', mtd_write false (Device 2 false (fun _ => false) (fun _ => true) ([1; 2] ++ [3; 4])) [] [] [5; 6] 2 = Some (Returns [d']) /\
    d_flash d' = replicate (Z.to_nat 2) 0xff ++ zip_with Z.land [3; 4] [5; 6].
Proof. apply mtd_write_part_offset_erases_start; [lia|reflexivity|reflexivity|reflexivity]. Defined.
