(* ===== verification/MtdTrx.v ===== *)
(** TRX headers on flash (package/system/mtd/src/trx.c): checking an image before it is
    written, repairing the header of the first erase block, and recomputing the checksum
    after the image was extended. *)

From stdpp Require Import gmap.
From S2P Require Import Prelude Libc Crc Otrx OtrxSpec Mtd MtdSpec.

(** ** Definitions *)

(** [offsetof(struct trx_header, flag_version)] *)
Definition trx_flag_version : Z := 12.

(** [trx_check]: the result, what is left of the image and what was read into [buf].
    [dev] is the device [mtd_check_open] finds. *)
Definition trx_check (mtd : path) (image : list Z) (dev : option device) : option (outcome (Z * list Z * list Z)) :=
  if negb (bool_decide (mtd = bs "firmware")) then Some (Returns (1, image, []))
  else
    let buf := take 32 image in
    let image := drop 32 image in
    if zlen buf <? 32 then Some (Returns (0, image, buf))
    else
      magic ← get_le32 buf 0;
      len ← get_le32 buf 4;
      if negb (magic =? TRX_MAGIC) || (len <? trx_header_size) then Some (Returns (0, image, buf))
      else
        match dev with
        | None => Some (Exits (0, image, buf))
        | Some d => if d_size d <? len then Some (Returns (0, image, buf)) else Some (Returns (1, image, buf))
        end.

(** [mtd_fixtrx] on the opened device; [malloc_ok] is whether [malloc(erasesize)] succeeds. *)
Definition mtd_fixtrx (malloc_ok : bool) (dev : option device) (offset : Z) : option (outcome (option device)) :=
  match dev with
  | None => Some (Exits None)
  | Some d =>
      let erasesize := d_erasesize d in
      let block_offset := Z.land offset (u32 (Z.lnot (erasesize - 1))) in
      let offset := offset - block_offset in
      if d_size d <? block_offset + erasesize then Some (Exits dev)
      else if negb malloc_ok then Some (Exits dev)
      else
        let buf := dev_read d block_offset erasesize in
        if negb (zlen buf =? erasesize) then Some (Exits dev)
        else
          magic ← get_le32 buf offset;
          if negb (magic =? TRX_MAGIC) then Some (Exits dev)
          else
            len ← get_le32 buf (offset + 4);
            if len =? erasesize - offset then Some (Returns dev)
            else
              buf ← put_le32 buf (offset + 4) (erasesize - offset);
              data ← zslice buf (offset + trx_flag_version) (erasesize - offset - 3 * 4);
              buf ← put_le32 buf (offset + 8) (crc32buf data);
              match mtd_erase_block d block_offset with
              | None => Some (Exits dev)
              | Some d =>
                  let '(d, n) := dev_write d block_offset buf in
                  if negb (n =? erasesize) then Some (Exits (Some d)) else Some (Returns (Some d))
              end
  end.

(** [trx_fixup] on the mapped device: the new device and the result. *)
Definition trx_fixup (mmap_ok : bool) (d : device) : option (device * Z) :=
  if d_size d <=? 0 then Some (d, -1)
  else if negb mmap_ok then Some (d, -1)
  else
    magic ← get_le32 (d_flash d) 0;
    if negb (magic =? TRX_MAGIC) then Some (d, -1)
    else
      len ← get_le32 (d_flash d) 4;
      let n := s32 (len - trx_flag_version) in
      data ← (if n <=? 0 then Some [] else zslice (d_flash d) trx_flag_version n);
      m ← put_le32 (d_flash d) 8 (crc32buf data);
      Some (with_flash d m, 0).

(** ** Lemmas *)

(** A repaired header: everything but the length and the checksum is kept. *)
Definition fixed (c : list Z) : list Z :=
  take 4 c ++ le_bytes 4 (zlen c) ++ le_bytes 4 (crc32buf (drop 12 c)) ++ drop 12 c.

Lemma crc32buf_range bs : Forall is_byte bs -> is_u32 (crc32buf bs).
Proof.
  intros Hb. unfold crc32buf. rewrite crc32_run by done. apply crc_run_range; [apply crc32_poly_width..| |done]. lia.
Qed.

(** The two implementations of CRC-32 agree. *)
Lemma crc32buf_otrx bs : Forall is_byte bs -> crc32buf bs = otrx_crc32 bs.
Proof. intros Hb. unfold crc32buf, otrx_crc32. by rewrite crc32_run, otrx_crc32_run. Qed.

Lemma get_le32_take c off : 0 <= off -> off + 4 <= zlen c ->
  get_le32 c off = Some (le_val (take 4 (drop (Z.to_nat off) c))).
Proof. intros H0 Hl. unfold get_le32. by rewrite zslice_Some by lia. Qed.

Lemma fixed_length c : 12 <= zlen c -> length (fixed c) = length c.
Proof. intros Hl. unfold fixed. rewrite !length_app, !length_le_bytes, length_take, length_drop. lia. Qed.

Lemma fixed_bytes c : Forall is_byte c -> Forall is_byte (fixed c).
Proof.
  intros Hb. unfold fixed. rewrite !Forall_app. split_and!; try apply le_bytes_ok; [by apply Forall_take|by apply Forall_drop].
Qed.

(** Storing the two fields one after the other. *)
Lemma put_fields c : 12 <= zlen c ->
  (buf ← put_le32 c 4 (zlen c);
   data ← zslice buf 12 (zlen c - 12);
   put_le32 buf 8 (crc32buf data)) = Some (fixed c).
Proof.
  intros Hl. unfold put_le32. rewrite zwrite_Some by (rewrite ?length_le_bytes; lia). cbn [mbind option_bind].
  rewrite length_le_bytes. change (Z.to_nat 4) with 4%nat. change (4 + 4)%nat with 8%nat.
  set (buf := take 4 c ++ le_bytes 4 (zlen c) ++ drop 8 c).
  assert (length buf = length c) as Hb by (unfold buf; rewrite !length_app, length_le_bytes, length_take, length_drop; lia).
  assert (drop 12 buf = drop 12 c) as Hd.
  { unfold buf. rewrite app_assoc, drop_app_ge by (rewrite length_app, length_le_bytes, length_take; lia).
    rewrite length_app, length_le_bytes, length_take, drop_drop. f_equal. lia. }
  rewrite zslice_Some by lia. cbn [mbind option_bind]. change (Z.to_nat 12) with 12%nat.
  rewrite Hd, take_ge by (rewrite length_drop; lia).
  rewrite zwrite_Some by (rewrite ?length_le_bytes; lia). f_equal. rewrite length_le_bytes.
  change (Z.to_nat 8) with 8%nat. change (8 + 4)%nat with 12%nat. rewrite Hd. unfold fixed.
  assert (take 8 buf = take 4 c ++ le_bytes 4 (zlen c)) as ->; [|by rewrite <- app_assoc].
  unfold buf. rewrite app_assoc, take_app_le by (rewrite length_app, length_le_bytes, length_take; lia).
  apply take_ge. rewrite length_app, length_le_bytes, length_take. lia.
Qed.

(** A repaired block is a valid TRX. *)
Lemma fixed_valid c :
  Forall is_byte c -> 28 <= zlen c < 2 ^ 32 -> get_le32 c 0 = Some TRX_MAGIC -> valid_trx (fixed c).
Proof.
  intros Hb Hl Hm. unfold valid_trx. rewrite (fixed_length c) by lia.
  assert (drop 12 (fixed c) = drop 12 c) as Hd.
  { unfold fixed. rewrite !app_assoc, drop_app_ge by (rewrite !length_app, !length_le_bytes, length_take; lia).
    rewrite !length_app, !length_le_bytes, length_take, drop_drop. f_equal. lia. }
  assert (length (take 4 c) = 4%nat) as L4 by (rewrite length_take; lia).
  assert (th_magic (trx_header_of (fixed c)) = TRX_MAGIC /\ th_length (trx_header_of (fixed c)) = zlen c /\
    th_crc32 (trx_header_of (fixed c)) = crc32buf (drop 12 c)) as (E1 & E2 & E3).
  { unfold fixed. cbn [trx_header_of th_magic th_length th_crc32]. rewrite get_le32_take in Hm by lia.
    change (drop (Z.to_nat 0) c) with c in Hm. injection Hm as Hm. split_and!.
    - rewrite drop_0, take_app_le, take_ge by lia. done.
    - rewrite drop_app_length' by lia. rewrite take_app_length' by (by rewrite length_le_bytes). apply le_val_bytes32. width.
    - rewrite app_assoc, drop_app_length' by (rewrite length_app, length_le_bytes; lia).
      rewrite take_app_length' by (by rewrite length_le_bytes). apply le_val_bytes32, crc32buf_range. by apply Forall_drop. }
  rewrite E1, E2, E3, Hd. unfold trx_header_size, TRX_FLAGS_OFFSET. split_and!; try done; try lia.
  rewrite take_ge by (rewrite length_drop; lia). symmetry. apply crc32buf_otrx. by apply Forall_drop.
Qed.

Lemma block_start offset k : 0 <= k -> is_u32 offset ->
  Z.land offset (u32 (Z.lnot (2 ^ k - 1))) = offset - offset mod 2 ^ k.
Proof.
  intros Hk Ho. unfold u32. rewrite <- Z.land_ones by lia.
  rewrite (Z.land_comm (Z.lnot _)), Z.land_assoc, Z.land_ones, (Z.mod_small offset) by (width || lia).
  rewrite <- Z.ldiff_land, Z.sub_1_r, <- Z.ones_equiv, Z.ldiff_ones_r by lia.
  rewrite Z.shiftl_mul_pow2, Z.shiftr_div_pow2 by lia.
  pose proof (Z.div_mod offset (2 ^ k) ltac:(pose proof (Z.pow_pos_nonneg 2 k); lia)). lia.
Qed.

Lemma zslice_shift {A} (pre c : list A) k n : 0 <= k -> zslice (pre ++ c) (zlen pre + k) n = zslice c k n.
Proof.
  intros Hk. unfold zslice. rewrite length_app. destruct (Z.leb_spec 0 n) as [Hn|Hn]; [|by rewrite !andb_false_r].
  rewrite !(proj2 (Z.leb_le 0 _)) by lia. cbn [andb].
  replace (zlen pre + k + n <=? Z.of_nat (length pre + length c)) with (k + n <=? zlen c)
    by (destruct (Z.leb_spec (k + n) (zlen c)), (Z.leb_spec (zlen pre + k + n) (Z.of_nat (length pre + length c))); lia).
  replace (Z.to_nat (zlen pre + k)) with (length pre + Z.to_nat k)%nat by lia. by rewrite drop_app_add.
Qed.

Lemma zwrite_shift {A} (pre c d : list A) k : 0 <= k ->
  zwrite (pre ++ c) (zlen pre + k) d = (fun x => pre ++ x) <$> zwrite c k d.
Proof.
  intros Hk. unfold zwrite. rewrite length_app, !(proj2 (Z.leb_le 0 _)) by lia. cbn [andb].
  replace (zlen pre + k + zlen d <=? Z.of_nat (length pre + length c)) with (k + zlen d <=? zlen c)
    by (destruct (Z.leb_spec (k + zlen d) (zlen c)), (Z.leb_spec (zlen pre + k + zlen d) (Z.of_nat (length pre + length c))); lia).
  destruct (_ <=? _); [|done]. cbn [fmap option_fmap option_map]. f_equal.
  replace (Z.to_nat (zlen pre + k)) with (length pre + Z.to_nat k)%nat by lia.
  rewrite <- Nat.add_assoc, drop_app_add, take_app_add, <- app_assoc. done.
Qed.

(** The same stores behind a prefix. *)
Lemma put_fields_at pre c : 12 <= zlen c ->
  (buf ← put_le32 (pre ++ c) (zlen pre + 4) (zlen c);
   data ← zslice buf (zlen pre + 12) (zlen c - 12);
   put_le32 buf (zlen pre + 8) (crc32buf data)) = Some (pre ++ fixed c).
Proof.
  intros Hl. pose proof (put_fields c Hl) as Hp. unfold put_le32 in *. rewrite zwrite_shift by lia.
  destruct (zwrite c 4 (le_bytes 4 (zlen c))) as [buf|]; [|done]. cbn [fmap option_fmap option_map mbind option_bind] in *.
  rewrite zslice_shift by lia. destruct (zslice buf 12 (zlen c - 12)) as [data|]; [|done].
  cbn [mbind option_bind] in *. rewrite zwrite_shift by lia. by rewrite Hp.
Qed.

Section fix_block.
(** The device cut around the header: what precedes the block, the block up to the
    header, the rest of the block, and what follows. *)
Context (d : device) (k offset : Z) (p0 pre c post : list Z).
Context (Hflash : d_flash d = p0 ++ (pre ++ c) ++ post) (Hes : d_erasesize d = 2 ^ k) (Hk : 0 <= k).
Context (Hblock : zlen (pre ++ c) = 2 ^ k) (Hp0 : zlen p0 = offset - offset mod 2 ^ k) (Hpre : zlen pre = offset mod 2 ^ k).
Context (Hoff : is_u32 offset) (Hc : 28 <= zlen c < 2 ^ 32) (Hbytes : Forall is_byte (d_flash d)).
Context (Hmagic : get_le32 c 0 = Some TRX_MAGIC) (Hok : d_erase_ok d (offset - offset mod 2 ^ k) = true).

Lemma fix_read : dev_read d (zlen p0) (2 ^ k) = pre ++ c.
Proof.
  unfold dev_read. rewrite Hflash, Nat2Z.id, drop_app_length. rewrite <- Hblock, Nat2Z.id. apply take_app_length.
Qed.

Lemma fix_size : d_size d = zlen p0 + 2 ^ k + zlen post.
Proof. unfold d_size. rewrite Hflash, !length_app in *. lia. Qed.

Lemma fix_get i : 0 <= i -> get_le32 (pre ++ c) (zlen pre + i) = get_le32 c i.
Proof. intros Hi. unfold get_le32. by rewrite zslice_shift. Qed.

(** The run of [mtd_fixtrx]. *)
Lemma fixtrx_run :
  mtd_fixtrx true (Some d) offset =
    Some (Returns (Some (if bool_decide (get_le32 c 4 = Some (zlen c)) then d
                         else with_flash d (p0 ++ (pre ++ fixed c) ++ post)))).
Proof.
  pose proof fix_size as Hsz. assert (zlen pre + zlen c = 2 ^ k) as Hpc by (rewrite <- Hblock, length_app; lia).
  unfold mtd_fixtrx. rewrite Hes, block_start by done. rewrite <- Hp0.
  rewrite (proj2 (Z.ltb_ge _ _)) by lia. cbn [negb]. rewrite fix_read, Hblock, Z.eqb_refl. cbn [negb].
  replace (offset - zlen p0) with (zlen pre) by lia. pose proof (fix_get 0 ltac:(lia)) as H0. rewrite Z.add_0_r, Hmagic in H0. rewrite H0.
  cbn [mbind option_bind]. rewrite Z.eqb_refl. cbn [negb]. rewrite fix_get by lia.
  assert (is_Some (get_le32 c 4)) as [len Hlen] by (rewrite get_le32_take by lia; eauto). rewrite Hlen. cbn [mbind option_bind].
  replace (2 ^ k - zlen pre) with (zlen c) by lia. destruct (Z.eqb_spec len (zlen c)) as [->|Hne].
  { by rewrite bool_decide_true. }
  rewrite bool_decide_false by congruence. pose proof (put_fields_at pre c ltac:(lia)) as Hp.
  unfold trx_flag_version. change (3 * 4) with 12.
  destruct (put_le32 (pre ++ c) (zlen pre + 4) (zlen c)) as [b1|]; [|done]. cbn [mbind option_bind] in *.
  destruct (zslice b1 (zlen pre + 12) (zlen c - 12)) as [data|]; [|done]. cbn [mbind option_bind] in *. rewrite Hp.
  cbn [mbind option_bind]. unfold mtd_erase_block. rewrite Hes, Hp0, Hok, <- Hp0.
  rewrite (proj2 (Z.leb_le 0 _)), (proj2 (Z.leb_le _ (d_size d))) by lia. cbn [andb].
  set (ff := replicate (Z.to_nat (2 ^ k)) 0xff).
  assert (take (Z.to_nat (zlen p0)) (d_flash d) = p0) as -> by (rewrite Hflash, Nat2Z.id; apply take_app_length).
  assert (drop (Z.to_nat (zlen p0 + 2 ^ k)) (d_flash d) = post) as ->.
  { rewrite Hflash, (app_assoc p0). apply drop_app_length'. rewrite length_app. lia. }
  assert (length (pre ++ fixed c) = Z.to_nat (2 ^ k)) as Hlf by (rewrite length_app, fixed_length by lia; lia).
  rewrite (dev_write_at (with_flash d (p0 ++ ff ++ post)) p0 ff post (pre ++ fixed c));
    [|done|unfold ff; by rewrite length_replicate].
  rewrite (proj2 (Z.eqb_eq _ _)) by lia. cbn [negb]. do 3 f_equal.
  unfold ff. rewrite <- Hlf, land_ff; [done|]. rewrite Hflash, !Forall_app in Hbytes.
  apply Forall_app. split; [tauto|apply fixed_bytes; tauto].
Qed.
End fix_block.

Lemma fixed_head c : 12 <= zlen c -> is_u32 (zlen c) ->
  get_le32 (fixed c) 0 = get_le32 c 0 /\ get_le32 (fixed c) 4 = Some (zlen (fixed c)).
Proof.
  intros Hl Hu. rewrite !get_le32_take by (rewrite ?fixed_length; lia). rewrite fixed_length by lia. unfold fixed.
  assert (length (take 4 c) = 4%nat) as L4 by (rewrite length_take; lia). split.
  - change (Z.to_nat 0) with 0%nat. rewrite !drop_0, take_app_le, take_take by lia. done.
  - change (Z.to_nat 4) with 4%nat. rewrite drop_app_length' by lia. rewrite take_app_length' by (by rewrite length_le_bytes).
    by rewrite le_val_bytes32.
Qed.

(** * Theorems *)

(** C32: [mtd fixtrx] repairs the TRX header of an erase block: on a device whose block holds a
    header (magic present, length not yet the rest of the block) at [offset], it returns,
    changes nothing but the length and checksum fields, what starts at [offset] becomes a
    TRX that [otrx check] accepts, and running it again changes nothing. *)
Theorem mtd_fixtrx_repairs (d : device) (k offset : Z) (p0 pre c post : list Z) :
  d_flash d = p0 ++ (pre ++ c) ++ post -> d_erasesize d = 2 ^ k -> 0 <= k -> zlen (pre ++ c) = 2 ^ k ->
  zlen p0 = offset - offset mod 2 ^ k -> zlen pre = offset mod 2 ^ k -> is_u32 offset -> 28 <= zlen c < 2 ^ 32 ->
  Forall is_byte (d_flash d) -> get_le32 c 0 = Some TRX_MAGIC -> d_erase_ok d (offset - offset mod 2 ^ k) = true ->
  get_le32 c 4 <> Some (zlen c) ->
  exists d', mtd_fixtrx true (Some d) offset = Some (Returns (Some d')) /\
    d_flash d' = p0 ++ (pre ++ fixed c) ++ post /\ valid_trx (fixed c) /\
    mtd_fixtrx true (Some d') offset = Some (Returns (Some d')).
Proof.
  intros Hf Hes Hk Hbl Hp0 Hpre Hoff Hc Hb Hm Hok Hne.
  rewrite (fixtrx_run d k offset p0 pre c post) by done. rewrite bool_decide_false by done.
  destruct (fixed_head c) as [F0 F4]; [lia|width|]. eexists. split_and!; [done|done| |].
  - apply fixed_valid; [|done|done]. rewrite Hf, !Forall_app in Hb. tauto.
  - rewrite (fixtrx_run (with_flash d (p0 ++ (pre ++ fixed c) ++ post)) k offset p0 pre (fixed c) post);
      rewrite ?(fixed_length c) by lia; try done.
    + by rewrite bool_decide_true by (by rewrite F4, fixed_length by lia).
    + rewrite <- Hbl, !length_app, fixed_length by lia. done.
    + cbn [with_flash d_flash]. rewrite Hf, !Forall_app in Hb. rewrite !Forall_app.
      split_and!; try tauto. apply fixed_bytes. tauto.
    + by rewrite F0.
Qed.

(** The flashing pipeline: a valid TRX that fits passes [trx_check] for the firmware
    partition with its first 32 bytes kept in the buffer, and writing buffer and rest to a
    device (with any bad blocks) makes [mtd dump] print the image back. *)
Theorem flash_valid_image (d : device) (c : list Z) :
  valid_trx c -> Forall is_byte c -> 32 <= zlen c -> sound d -> 32 <= d_erasesize d ->
  th_length (trx_header_of c) <= d_size d -> zlen c <= zlen (readable d) ->
  exists buf rest d' pad old,
    trx_check (bs "firmware") c (Some d) = Some (Returns (1, rest, buf)) /\
    mtd_write false d [] buf rest 0 = Some (Returns [d']) /\
    mtd_dump d' 0 0 = Some (Returns (c ++ replicate pad 0xff ++ old)).
Proof.
  intros (H28 & Hm & Hl & _) Hb H32 Hs Hes Hfit Hread. exists (take 32 c), (drop 32 c).
  assert (take 32 c ++ drop 32 c = c) as Ec by apply take_drop.
  destruct (mtd_write_then_dump_run d (take 32 c) (drop 32 c)) as (d' & pad & old & Hw & Hd & _ & _);
    rewrite ?Ec; try done; [rewrite length_take; lia|].
  exists d', pad, old. split_and!; [|done|by rewrite Ec in Hd].
  unfold trx_check. rewrite bool_decide_true by done. cbn [negb].
  rewrite length_take, (proj2 (Z.ltb_ge _ 32)) by lia.
  rewrite !get_le32_take by (rewrite ?length_take; lia). cbn [mbind option_bind].
  change (Z.to_nat 0) with 0%nat. change (Z.to_nat 4) with 4%nat. rewrite drop_0, take_take.
  change (4 `min` 32)%nat with 4%nat. rewrite skipn_firstn_comm, take_take. change (4 `min` (32 - 4))%nat with 4%nat.
  cbn [trx_header_of th_magic th_length] in *. rewrite drop_0 in Hm. rewrite Hm, Z.eqb_refl. cbn [negb orb].
  rewrite (proj2 (Z.ltb_ge _ trx_header_size)), (proj2 (Z.ltb_ge (d_size d) _)) by lia. done.
Qed.

(** After jffs2 data has been appended, [trx_fixup] makes the checksum match again: with
    the magic in place and a sensible length, the device contents become a valid TRX and
    only the checksum field changes. *)
Theorem trx_fixup_restores (d : device) :
  Forall is_byte (d_flash d) -> get_le32 (d_flash d) 0 = Some TRX_MAGIC ->
  28 <= th_length (trx_header_of (d_flash d)) <= d_size d -> d_size d < 2 ^ 31 ->
  exists d', trx_fixup true d = Some (d', 0) /\ valid_trx (d_flash d') /\
    take 8 (d_flash d') = take 8 (d_flash d) /\ drop 12 (d_flash d') = drop 12 (d_flash d).
Proof.
  intros Hb Hm Hl H31. set (m := d_flash d) in *. set (L := th_length (trx_header_of m)) in *. unfold d_size in *. fold m in Hl, H31.
  unfold trx_fixup, d_size. fold m. rewrite (proj2 (Z.leb_gt _ 0)) by lia. cbn [negb]. rewrite Hm. cbn [mbind option_bind].
  rewrite Z.eqb_refl. cbn [negb]. rewrite get_le32_take by lia. cbn [mbind option_bind].
  change (le_val (take 4 (drop (Z.to_nat 4) m))) with L. unfold trx_flag_version. rewrite s32_id by lia.
  rewrite (proj2 (Z.leb_gt _ 0)) by lia. rewrite zslice_Some by lia. cbn [mbind option_bind].
  set (data := take _ _). unfold put_le32. rewrite zwrite_Some by (rewrite ?length_le_bytes; lia). cbn [mbind option_bind].
  rewrite length_le_bytes. change (Z.to_nat 8) with 8%nat. change (8 + 4)%nat with 12%nat.
  set (m' := take 8 m ++ le_bytes 4 (crc32buf data) ++ drop 12 m). eexists. split; [done|]. cbn [with_flash d_flash].
  assert (length (take 8 m) = 8%nat) as L8 by (rewrite length_take; lia).
  assert (drop 12 m' = drop 12 m) as Hd.
  { unfold m'. rewrite app_assoc. apply drop_app_length'. rewrite length_app, length_le_bytes. lia. }
  assert (take 8 m' = take 8 m) as Ht by (unfold m'; by apply take_app_length').
  assert (length m' = length m) as Hlen by (unfold m'; rewrite !length_app, length_le_bytes, length_drop; lia).
  split_and!; [|done|done].
  assert (Forall is_byte data) as Hdb by (unfold data; by apply Forall_take, Forall_drop).
  assert (forall off, (off + 4 <= 8)%nat -> take 4 (drop off m') = take 4 (drop off m)) as Hfield.
  { intros off Ho. transitivity (take 4 (drop off (take 8 m'))); [|rewrite Ht]; by rewrite skipn_firstn_comm, take_take, Nat.min_l by lia. }
  unfold valid_trx, trx_header_size. rewrite Hlen.
  assert (th_length (trx_header_of m') = L) as EL by (cbn [trx_header_of th_length]; by rewrite Hfield by lia).
  rewrite EL. split_and!; try lia.
  - cbn [trx_header_of th_magic]. rewrite Hfield by lia. rewrite get_le32_take in Hm by lia. by injection Hm.
  - change (drop 12 m') with (drop 12 m') in Hd. rewrite Hd. cbn [trx_header_of th_crc32]. unfold m'.
    rewrite drop_app_length' by lia. rewrite take_app_length' by (by rewrite length_le_bytes).
    rewrite le_val_bytes32 by (by apply crc32buf_range). symmetry. by apply crc32buf_otrx.
Qed.

(** * Concrete instances *)

(** A 64-byte erase block after one of ones; its header starts at offset 80, 16 bytes in. *)
Definition demo_block : list Z := le_bytes 4 TRX_MAGIC ++ replicate 44 5.

Definition demo_flash : device :=
  Device 64 false (fun _ => false) (fun _ => true) (replicate 64 1 ++ (replicate 16 2 ++ demo_block) ++ [3; 4]).

Lemma mtd_fixtrx_repairs_witness :
  exists d', mtd_fixtrx true (Some demo_flash) 80 = Some (Returns (Some d')) /\
    d_flash d' = replicate 64 1 ++ (replicate 16 2 ++ fixed demo_block) ++ [3; 4] /\ valid_trx (fixed demo_block) /\
    mtd_fixtrx true (Some d') 80 = Some (Returns (Some d')).
Proof.
  apply (mtd_fixtrx_repairs demo_flash 6 80); try reflexivity; try (vm_compute; (discriminate || (split; discriminate))).
  - vm_compute. split; [discriminate|reflexivity].
  - vm_compute. split; [discriminate|reflexivity].
  - eval_decide.
Defined.

Definition demo_image : list Z := trx_file (layout demo_ops).1 (layout demo_ops).2.

(** Eight blocks of 32 bytes, the second one bad. *)
Definition demo_big_nand : device := Device 32 true (fun o => o =? 32) (fun _ => true) (replicate 256 7).

Lemma flash_valid_image_witness :
  valid_trx demo_image /\
  exists buf rest d' pad old,
    trx_check (bs "firmware") demo_image (Some demo_big_nand) = Some (Returns (1, rest, buf)) /\
    mtd_write false demo_big_nand [] buf rest 0 = Some (Returns [d']) /\
    mtd_dump d' 0 0 = Some (Returns (demo_image ++ replicate pad 0xff ++ old)).
Proof.
  assert (valid_trx demo_image) as Hv by (apply check_result_valid; vm_compute; reflexivity).
  split; [exact Hv|]. apply (flash_valid_image demo_big_nand demo_image Hv).
  - eval_decide.
  - vm_compute; discriminate.
  - split; [done|]. split; [exists 8; by split|]. intros i Hi Hb. reflexivity.
  - vm_compute; discriminate.
  - vm_compute; discriminate.
  - vm_compute; discriminate.
Defined.

(** A header announcing 32 bytes over a body that was changed after the checksum. *)
Definition demo_stale : device :=
  Device 64 false (fun _ => false) (fun _ => true)
    (le_bytes 4 TRX_MAGIC ++ le_bytes 4 32 ++ le_bytes 4 0 ++ replicate 52 6).

Lemma trx_fixup_restores_witness :
  exists d', trx_fixup true demo_stale = Some (d', 0) /\ valid_trx (d_flash d') /\
    take 8 (d_flash d') = take 8 (d_flash demo_stale) /\ drop 12 (d_flash d') = drop 12 (d_flash demo_stale).
Proof.
  apply trx_fixup_restores; [eval_decide|reflexivity|split; vm_compute; discriminate|reflexivity].
Defined.
