(* ===== verification/MtdVerify.v ===== *)
(** Comparing a device with an image file ([mtd_verify] of package/system/mtd/src/mtd.c) by
    their MD5 digests. *)

From stdpp Require Import gmap.
From S2P Require Import Prelude Md5 Mtd MtdSpec.

(** ** The MD5 functions of libubox *)

Class md5lib := {
  md5_ctx : Type;
  md5_begin : md5_ctx;
  md5_hash : list Z -> md5_ctx -> md5_ctx;
  md5_end : md5_ctx -> list Z;
  (** the digest of a file's contents *)
  md5sum : list Z -> list Z
}.

(** Hashing works piece by piece, and [md5sum] hashes the whole file. *)
Class md5lib_ok (L : md5lib) : Prop := {
  md5_hash_nil c : md5_hash [] c = c;
  md5_hash_app a b c : md5_hash (a ++ b) c = md5_hash b (md5_hash a c);
  md5sum_stream f : md5sum f = md5_end (md5_hash f md5_begin)
}.

(** ** Verifying *)

(** How a [read] of the device goes. *)
Inductive read_result := ReadOk | ReadIntr | ReadError.

(** [memcmp]: the difference at the first byte that differs. *)
Fixpoint memcmp (a b : list Z) : Z :=
  match a, b with
  | x :: a, y :: b => if x =? y then memcmp a b else x - y
  | _, _ => 0
  end.

Section verify.
Context `{L : md5lib}.

(** The [do] loop: the digest state at its end, [inl] on the way out with -1; [None] when the
    fuel is used up.  [reads] says how the calls of [read] go, all those behind it succeed. *)
Fixpoint verify_loop (fuel : nat) (d : device) (reads : list read_result) (pos st_size : Z) (ctx : md5_ctx)
  : option (unit + md5_ctx) :=
  match fuel with
  | O => None
  | S fuel =>
      let len := if 256 <? st_size then 256 else st_size in
      match reads with
      | ReadIntr :: reads => if 0 <? st_size then verify_loop fuel d reads pos st_size ctx else Some (inr ctx)
      | ReadError :: _ => Some (inl ())
      | _ =>
          let data := dev_read d pos len in
          if zlen data =? 0 then Some (inr ctx)
          else
            let ctx := md5_hash data ctx in
            let st_size := st_size - zlen data in
            if 0 <? st_size then verify_loop fuel d (tail reads) (pos + zlen data) st_size ctx else Some (inr ctx)
      end
  end.

(** [file] is what [stat] and [md5sum] find, [dev] what [mtd_check_open] opens.  A round
    hashes a byte at least or uses up an interruption. *)
Definition mtd_verify (dev : option device) (file : option (list Z)) (reads : list read_result) : option Z :=
  match file, dev with
  | None, _ => Some (-1)
  | Some _, None => Some (-1)
  | Some f, Some d =>
      r ← verify_loop (S (length f + length reads)) d reads 0 (zlen f) md5_begin;
      Some match r with inl _ => -1 | inr ctx => memcmp (md5sum f) (md5_end ctx) end
  end.
End verify.

(** ** What it compares *)

Section verify_spec.
Context `{L : md5lib} {HL : md5lib_ok L}.

Lemma dev_read_split d pos n k : 0 <= pos -> 0 <= n -> n <= k ->
  dev_read d pos k = dev_read d pos n ++ dev_read d (pos + n) (k - n).
Proof.
  intros Hp Hn Hk. unfold dev_read. rewrite Z2Nat.inj_add, <- drop_drop by lia. set (l := drop (Z.to_nat pos) _).
  replace (Z.to_nat k) with (Z.to_nat n + Z.to_nat (k - n))%nat by lia.
  destruct (decide (Z.to_nat n <= length l)%nat) as [Hl|Hl].
  - rewrite <- (take_drop (Z.to_nat n) l) at 1. by rewrite take_app_add' by (rewrite length_take; lia).
  - rewrite (drop_ge l) by lia. rewrite !take_ge by lia. by rewrite take_nil, app_nil_r.
Qed.

(** Where a read is short, the device ends. *)
Lemma dev_read_short d pos n k : 0 <= pos -> zlen (dev_read d pos n) < n -> dev_read d (pos + zlen (dev_read d pos n)) k = [].
Proof.
  unfold dev_read. intros Hp. rewrite length_take, length_drop. intros Hs. rewrite drop_ge; [apply take_nil|lia].
Qed.

Lemma dev_read_again d pos n : dev_read d pos (zlen (dev_read d pos n)) = dev_read d pos n.
Proof.
  unfold dev_read. set (l := drop _ _). rewrite Nat2Z.id, length_take.
  destruct (decide (Z.to_nat n <= length l)%nat); [f_equal; lia|]. by rewrite !take_ge by lia.
Qed.

(** One read and the rest. *)
Lemma dev_read_step d pos n k : 0 <= pos -> n <= k ->
  let data := dev_read d pos n in dev_read d pos k = data ++ dev_read d (pos + zlen data) (k - zlen data).
Proof.
  intros Hp Hk data. destruct (decide (0 <= n)) as [Hn|Hn].
  - rewrite (dev_read_split d pos (zlen data) k) by (unfold data, dev_read; rewrite ?length_take; lia).
    f_equal. apply dev_read_again.
  - assert (data = []) as -> by (unfold data, dev_read; by replace (Z.to_nat n) with 0%nat by lia).
    cbn [length app]. by rewrite Z.add_0_r, Z.sub_0_r.
Qed.

Lemma verify_loop_spec fuel : forall d reads pos st_size ctx,
  0 <= pos -> 0 <= st_size -> (Z.to_nat st_size + length reads < fuel)%nat -> Forall (fun r => r <> ReadError) reads ->
  verify_loop fuel d reads pos st_size ctx = Some (inr (md5_hash (dev_read d pos st_size) ctx)).
Proof.
  induction fuel as [|fuel IH]; intros d reads pos st_size ctx Hp Hs Hf Hr; [lia|]. cbn [verify_loop].
  set (len := if 256 <? st_size then 256 else st_size).
  assert (0 <= len <= st_size /\ (st_size <> 0 -> len <> 0)) as [Hlen Hlen0] by (unfold len; destruct (Z.ltb_spec 256 st_size); lia).
  pose proof (dev_read_step d pos len st_size Hp ltac:(lia)) as Hsp. cbv zeta in Hsp.
  assert (zlen (dev_read d pos len) <= len) as Hle by (unfold dev_read; rewrite length_take; lia).
  pose proof (dev_read_short d pos len (st_size - zlen (dev_read d pos len)) Hp) as Hshort.
  set (data := dev_read d pos len) in *.
  assert (forall rs, (length rs <= length reads)%nat -> Forall (fun r => r <> ReadError) rs ->
    (if zlen data =? 0 then Some (inr ctx)
     else if 0 <? st_size - zlen data
       then verify_loop fuel d rs (pos + zlen data) (st_size - zlen data) (md5_hash data ctx)
       else Some (inr (md5_hash data ctx))) = Some (inr (md5_hash (dev_read d pos st_size) ctx))) as Hok.
  { intros rs Hrs Hrr. rewrite Hsp. destruct (Z.eqb_spec (zlen data) 0) as [H0|H0].
    - assert (data = []) as Hd by (destruct data; [done|cbn [length] in H0; lia]). rewrite Hd in *. cbn [length app] in *.
      destruct (decide (st_size = 0)) as [->|Hne].
      + by rewrite md5_hash_nil.
      + rewrite Hshort by lia. by rewrite md5_hash_nil.
    - rewrite md5_hash_app. destruct (Z.ltb_spec 0 (st_size - zlen data)) as [Hgo|Hstop].
      + apply IH; [lia|lia|lia|done].
      + assert (st_size - zlen data = 0) as -> by lia. by rewrite md5_hash_nil. }
  destruct reads as [|[| |] reads]; cbn [tail length] in *.
  - by apply Hok.
  - apply Forall_cons in Hr as [_ Hr]. apply Hok; [lia|done].
  - apply Forall_cons in Hr as [_ Hr]. destruct (Z.ltb_spec 0 st_size) as [Hgo|Hstop].
    + apply IH; [lia|lia|lia|done].
    + assert (st_size = 0) as -> by lia. by rewrite md5_hash_nil.
  - by apply Forall_cons in Hr as [? _].
Qed.

Lemma memcmp_zero a b : length a = length b -> memcmp a b = 0 <-> a = b.
Proof.
  revert b. induction a as [|x a IH]; intros [|y b] Hl; try done. cbn [memcmp]. cbn [length] in Hl.
  destruct (Z.eqb_spec x y) as [->|Hne].
  - rewrite IH by lia. split; [by intros ->|by intros [=]].
  - split; [lia|by intros [= ? ?]].
Qed.

(** [mtd_verify] compares the digest of the file with that of as many bytes of the device, from
    its start, whatever bad blocks are there; interrupted reads are repeated. *)
Lemma mtd_verify_digest d f reads : Forall (fun r => r <> ReadError) reads ->
  mtd_verify (Some d) (Some f) reads = Some (memcmp (md5sum f) (md5sum (take (length f) (d_flash d)))).
Proof.
  intros Hr. unfold mtd_verify. rewrite verify_loop_spec by (done || lia). cbn [mbind option_bind].
  rewrite (md5sum_stream (take _ _)). unfold dev_read. by rewrite Nat2Z.id, drop_0.
Qed.
End verify_spec.

(** ** Writing, then verifying *)

(** Without bad blocks the image goes to the start of the device. *)
Definition no_bad (d : device) : Prop := forall i, 0 <= i < d_size d -> mtd_block_is_bad d i = Some false.

Lemma no_bad_flags d : sound d -> no_bad d -> flags_of d = replicate (Z.to_nat (d_size d / d_erasesize d)) false.
Proof.
  intros (He & (n & Hn & Hs) & _) Hb. unfold flags_of. apply list_eq. intros i.
  destruct (decide (i < Z.to_nat (d_size d / d_erasesize d))%nat) as [Hi|Hi].
  - rewrite list_lookup_fmap, lookup_seq_lt, lookup_replicate_2 by done. cbn [fmap option_fmap option_map]. f_equal.
    rewrite Hb; [done|]. rewrite Hs, Z.div_mul in Hi by lia. rewrite Hs. nia.
  - rewrite !lookup_ge_None_2 by (rewrite ?length_fmap, ?length_seq, ?length_replicate; lia). done.
Qed.

Lemma place_good n : forall old data, length old = n -> (length data <= n)%nat ->
  place (replicate n false) old data = data ++ drop (length data) old.
Proof.
  induction n as [|n IH]; intros [|b old] [|x data] Hl Hd; try done; cbn [length] in *; try lia.
  cbn [replicate place drop app]. f_equal. apply IH; lia.
Qed.

Lemma good_of_all n : forall blks, length blks = n -> good_of (replicate n false) blks = blks.
Proof. induction n as [|n IH]; intros [|b blks] Hl; try done. cbn [replicate good_of]. f_equal. apply IH. simpl in Hl. lia. Qed.

Lemma mtd_write_no_bad d buf image :
  sound d -> no_bad d -> Forall is_byte (buf ++ image) -> zlen buf <= d_erasesize d -> zlen (buf ++ image) <= d_size d ->
  exists d' post, mtd_write false d [] buf image 0 = Some (Returns [d']) /\ d_flash d' = (buf ++ image) ++ post.
Proof.
  intros Hs Hnb Hby Hbuf Hfit. pose proof (sound_blocked d Hs) as Hbl. pose proof (no_bad_flags d Hs Hnb) as Hfl.
  destruct Hs as (He & (n & Hn & Hsz) & _). rewrite Hsz, Z.div_mul in Hfl by lia. rewrite Hfl in Hbl.
  set (es := d_erasesize d) in *. set (blks := blocks_of d) in *.
  pose proof (bl_flags _ _ _ _ _ Hbl) as Hlen. rewrite length_replicate in Hlen.
  set (data := chunks (length (buf ++ image)) es (buf ++ image)).
  pose proof (chunks_count es (length (buf ++ image)) He (buf ++ image) n ltac:(lia)) as Hdata. fold data in Hdata.
  destruct (chunks_concat es (length (buf ++ image)) He (buf ++ image)) as [pad Hpad]; [done|].
  exists (with_flash d (concat (place (replicate (Z.to_nat n) false) blks data))), (replicate pad 0xff ++ concat (drop (length data) blks)).
  split.
  - unfold mtd_write. rewrite (write_loop_spec _ _ _ _ d 0 [] _ He Hbl); unfold stream; cbn [w_buflen w_buf w_image w_e w_skip_bad w_w w_dev w_pos w_offset];
      rewrite ?Nat2Z.id, ?(take_ge buf) by lia; try done; try lia; [|rewrite length_app; simpl; lia].
    rewrite good_of_all by done. rewrite <- Hlen. fold es. lia.
  - cbn [with_flash d_flash]. rewrite place_good by lia. rewrite concat_app. fold data in Hpad. by rewrite Hpad, <- app_assoc.
Qed.

(** C33: On a device without bad blocks [mtd verify] of the image accepts what [mtd write] of it
    wrote, however often its reads are interrupted. *)
Theorem mtd_write_then_verify `{L : md5lib} {HL : md5lib_ok L} (d : device) (buf image : list Z) :
  sound d -> no_bad d -> Forall is_byte (buf ++ image) -> zlen buf <= d_erasesize d -> zlen (buf ++ image) <= d_size d ->
  exists d', mtd_write false d [] buf image 0 = Some (Returns [d']) /\
    forall reads, Forall (fun r => r <> ReadError) reads -> mtd_verify (Some d') (Some (buf ++ image)) reads = Some 0.
Proof.
  intros Hs Hnb Hby Hbuf Hfit. destruct (mtd_write_no_bad d buf image Hs Hnb Hby Hbuf Hfit) as (d' & post & Hw & Hf).
  exists d'. split; [exact Hw|]. intros reads Hr. rewrite mtd_verify_digest, Hf, take_app_length by done. f_equal.
  by apply memcmp_zero.
Qed.

(** MD5 as [Md5] defines it. *)
#[export] Instance md5_digest_lib : md5lib := {
  md5_ctx := list Z; md5_begin := []; md5_hash data c := c ++ data; md5_end := md5_digest; md5sum := md5_digest
}.

#[export] Instance md5_digest_ok : md5lib_ok md5_digest_lib.
Proof. split; cbn; intros; [apply app_nil_r|by rewrite app_assoc|done]. Qed.

Definition demo_nor : device := Device 4 false (fun _ => true) (fun _ => true) (replicate 12 7).

Lemma demo_nor_sound : sound demo_nor /\ no_bad demo_nor.
Proof. split; [|by intros i _]. split; [done|]. split; [exists 3; by split|]. intros i Hi Hb. reflexivity. Qed.

Lemma mtd_write_then_verify_witness :
  exists d', mtd_write false demo_nor [] [1; 2] [3; 4; 5] 0 = Some (Returns [d']) /\
    mtd_verify (Some d') (Some [1; 2; 3; 4; 5]) [ReadIntr; ReadOk] = Some 0.
Proof.
  destruct (mtd_write_then_verify demo_nor [1; 2] [3; 4; 5] (proj1 demo_nor_sound) (proj2 demo_nor_sound)) as (d' & Hw & Hv);
    [eval_decide|vm_compute; discriminate|vm_compute; discriminate|].
  exists d'. split; [exact Hw|]. apply (Hv [ReadIntr; ReadOk]). repeat constructor; discriminate.
Defined.

(** With a bad block it compares what a dump would skip: the image is there and dumps, and
    verifying it fails. *)
Example verify_reads_bad_blocks :
  match mtd_write false demo_nand [] [] [1; 2; 3; 4; 5; 6; 7; 8] 0 with
  | Some (Returns [d']) =>
      mtd_dump d' 0 8 = Some (Returns [1; 2; 3; 4; 5; 6; 7; 8]) /\ mtd_verify (Some d') (Some [1; 2; 3; 4; 5; 6; 7; 8]) [] <> Some 0
  | _ => False
  end.
Proof. vm_compute. split; [reflexivity|discriminate]. Qed.
