(* ===== verification/Jffs2.v ===== *)
(** Appending a file to a jffs2 file system on flash (package/system/mtd/src/jffs2.c): nodes
    are built in a buffer of one erase block, which is written out when it is full. *)

From stdpp Require Import gmap.
From S2P Require Import Prelude Crc Mtd MtdTrx.

(** ** The format (jffs2.h, mtd.h) *)

Definition JFFS2_MAGIC_BITMASK : Z := 0x1985.
Definition KSAMTIB_CIGAM_2SFFJ : Z := 0x8519.
Definition JFFS2_NODETYPE_DIRENT : Z := 0xe001.
Definition JFFS2_NODETYPE_INODE : Z := 0xe002.
Definition JFFS2_EOF : list Z := [0xde; 0xad; 0xc0; 0xde].
(** little endian *)
Definition CLEANMARKER : list Z := [0x85; 0x19; 0x03; 0x20; 0x0c; 0; 0; 0; 0xb1; 0xb0; 0x1e; 0xe4].

Definition S_IFDIR : Z := 0x4000.
Definition DT_DIR : Z := 4.
Definition DT_REG : Z := 8.

(** The common start of a node: magic, type, length and the checksum of these. *)
Definition node_header (nodetype totlen : Z) : list Z :=
  let h := le_bytes 2 JFFS2_MAGIC_BITMASK ++ le_bytes 2 nodetype ++ le_bytes 4 totlen in
  h ++ le_bytes 4 (crc32 0 h).

(** [struct jffs2_raw_dirent] as [add_dirent] fills it, the name apart. *)
Definition raw_dirent (pino version ino type : Z) (name : list Z) : list Z :=
  let d := node_header JFFS2_NODETYPE_DIRENT (40 + zlen name) ++
    le_bytes 4 pino ++ le_bytes 4 version ++ le_bytes 4 ino ++ le_bytes 4 0 ++ [u8 (zlen name); type; 0; 0] in
  d ++ le_bytes 4 (crc32 0 d) ++ le_bytes 4 (crc32 0 name).

(** What [stat] says of a file. *)
Record filestat := Stat { st_mode : Z; st_size : Z; st_atime : Z; st_mtime : Z; st_ctime : Z }.

(** [struct jffs2_raw_inode] *)
Definition raw_inode (totlen ino version : Z) (st : filestat) (offset size data_crc : Z) : list Z :=
  let r := node_header JFFS2_NODETYPE_INODE totlen ++
    le_bytes 4 ino ++ le_bytes 4 version ++ le_bytes 4 (st_mode st) ++ le_bytes 2 0 ++ le_bytes 2 0 ++
    le_bytes 4 (st_size st) ++ le_bytes 4 (st_atime st) ++ le_bytes 4 (st_mtime st) ++ le_bytes 4 (st_ctime st) ++
    le_bytes 4 offset ++ le_bytes 4 size ++ le_bytes 4 size ++ [0; 0; 0; 0] in
  r ++ le_bytes 4 data_crc ++ le_bytes 4 (crc32 0 r).

(** ** State *)

(** The static variables of jffs2.c; [outfd] is the device and its file position. *)
Record jffs2 := Jffs2 {
  last_ino : Z; last_version : Z;
  jbuf : list Z; ofs : Z;
  outdev : device; outpos : Z;
  mtdofs : Z; target_ino : Z
}.

(** A call ends, exits the process, leaves its buffers, or uses up its fuel. *)
Inductive res (A : Type) := Ok (a : A) (s : jffs2) | Exit (s : jffs2) | Fault | Spin.
Arguments Ok {A} a s.
Arguments Exit {A} s.
Arguments Fault {A}.
Arguments Spin {A}.

Definition M (A : Type) : Type := jffs2 -> res A.

#[export] Instance M_ret : MRet M := fun A a s => Ok a s.
#[export] Instance M_bind : MBind M := fun A B k m s =>
  match m s with Ok a s => k a s | Exit s => Exit s | Fault => Fault | Spin => Spin end.

Definition get : M jffs2 := fun s => Ok s s.
Definition spin {A} : M A := fun _ => Spin.
(** An access to memory. *)
Definition mem {A} (o : option A) : M A := fun s => match o with Some a => Ok a s | None => Fault end.

Definition set_ofs (o : Z) : M unit := fun s =>
  Ok () (Jffs2 (last_ino s) (last_version s) (jbuf s) o (outdev s) (outpos s) (mtdofs s) (target_ino s)).
Definition set_buf (b : list Z) : M unit := fun s =>
  Ok () (Jffs2 (last_ino s) (last_version s) b (ofs s) (outdev s) (outpos s) (mtdofs s) (target_ino s)).
Definition set_counts (i v : Z) : M unit := fun s =>
  Ok () (Jffs2 i v (jbuf s) (ofs s) (outdev s) (outpos s) (mtdofs s) (target_ino s)).
Definition set_out (d : device) (p m : Z) : M unit := fun s =>
  Ok () (Jffs2 (last_ino s) (last_version s) (jbuf s) (ofs s) d p m (target_ino s)).
Definition set_target (t : Z) : M unit := fun s =>
  Ok () (Jffs2 (last_ino s) (last_version s) (jbuf s) (ofs s) (outdev s) (outpos s) (mtdofs s) t).

Definition erasesize (s : jffs2) : Z := d_erasesize (outdev s).

(** ** The buffer *)

(** [while (mtd_block_is_bad (outfd, mtdofs) && (mtdofs < mtdsize))] *)
Fixpoint skip_bad (fuel : nat) : M unit := fun s =>
  match fuel with
  | O => Spin
  | S fuel =>
      match mtd_block_is_bad (outdev s) (mtdofs s) with
      | None => Exit s
      | Some bad =>
          if bad && (mtdofs s <? d_size (outdev s))
          then (set_out (outdev s) (outpos s + erasesize s) (mtdofs s + erasesize s) ≫= fun _ => skip_bad fuel) s
          else Ok () s
      end
  end.

(** Writing the buffer out; neither the erase nor the write is checked. *)
Definition flush : M unit :=
  s ← get;
  _ ← skip_bad (S (S (Z.to_nat (d_size (outdev s)))));
  s ← get;
  let d := default (outdev s) (mtd_erase_block (outdev s) (mtdofs s)) in
  data ← mem (zslice (jbuf s) 0 (erasesize s));
  let '(d, n) := dev_write d (outpos s) data in
  set_out d (outpos s + n) (mtdofs s + erasesize s).

Definition pad (size : Z) : M unit :=
  s ← get;
  if (ofs s mod size =? 0) && (ofs s <? erasesize s) then mret ()
  else
    _ ← (if ofs s <? erasesize s then
           b ← mem (zfill (jbuf s) (ofs s) 0xff (size - ofs s mod size));
           _ ← set_buf b;
           set_ofs (ofs s + (size - ofs s mod size))
         else mret ());
    s ← get;
    _ ← set_ofs (ofs s mod erasesize s);
    if ofs s mod erasesize s =? 0 then flush else mret ().

Definition rbytes (s : jffs2) : Z := erasesize s - ofs s mod erasesize s.

(** [memcpy (buf + ofs, ptr, len); ofs += len] *)
Definition memcpy_buf (data : list Z) : M unit :=
  s ← get;
  b ← mem (zwrite (jbuf s) (ofs s) data);
  _ ← set_buf b;
  set_ofs (ofs s + zlen data).

(** [add_data] and [prep_eraseblock] call each other; they come to an end unless not even the
    clean marker fits an erase block. *)
Fixpoint add_data_at (depth : nat) (data : list Z) : M unit :=
  s ← get;
  _ ← (if erasesize s <? ofs s + zlen data then
         _ ← pad (erasesize s);
         s ← get;
         if 0 <? ofs s then mret ()
         else match depth with O => spin | S depth => add_data_at depth CLEANMARKER end
       else mret ());
  memcpy_buf data.

Definition add_data : list Z -> M unit := add_data_at 2.

Definition prep_eraseblock : M unit :=
  s ← get;
  if 0 <? ofs s then mret () else add_data CLEANMARKER.

(** ** Nodes *)

(** [ofs - erasesize] is compared as unsigned. *)
Definition add_dirent (name : list Z) (type parent : Z) : M Z :=
  s ← get;
  _ ← (if u32 (ofs s - erasesize s) <? 40 + zlen name then pad (erasesize s) else mret ());
  _ ← prep_eraseblock;
  s ← get;
  let ino := last_ino s + 1 in
  let version := last_version s in
  _ ← set_counts (ino + 1) (version + 1);
  b ← mem (zwrite (jbuf s) (ofs s) (raw_dirent parent version ino type name));
  b ← mem (zwrite b (ofs s + 40) name);
  _ ← set_buf b;
  _ ← set_ofs (ofs s + 40 + u8 (zlen name));
  _ ← pad 4;
  mret ino.

Definition add_dir (name : list Z) (parent : Z) : M Z :=
  inode ← add_dirent name DT_DIR parent;
  s ← get;
  _ ← (if rbytes s <? 68 then pad (erasesize s) else mret ());
  _ ← prep_eraseblock;
  _ ← add_data (raw_inode 68 inode 1 (Stat (Z.lor S_IFDIR 0x1ed) 0 0 0 0) 0 0 0);
  _ ← pad 4;
  mret inode.

(** [strrchr (name, '/')], and what follows it. *)
Fixpoint base_name (name : list Z) : list Z :=
  match name with
  | [] => []
  | c :: rest => if decide (47 ∈ rest) then base_name rest else if c =? 47 then rest else name
  end.

(** The loop that makes room for a node with more than 128 bytes of data: that many. *)
Fixpoint make_room (fuel : nat) : M Z :=
  match fuel with
  | O => spin
  | S fuel =>
      s ← get;
      let len := s32 (rbytes s - 68) in
      if 128 <? len then mret len
      else
        _ ← pad (erasesize s);
        _ ← prep_eraseblock;
        make_room fuel
  end.

(** The loop over the file, of which [rest] is left at [f_offset]. *)
Fixpoint add_chunks (fuel : nat) (inode : Z) (st : filestat) (rest : list Z) (f_offset : Z) : M unit :=
  match fuel with
  | O => spin
  | S fuel =>
      len ← make_room 3;
      let len := if 4096 <? len then 4096 else len in
      let wbuf := take (Z.to_nat len) rest in
      let len := zlen wbuf in
      if len <=? 0 then mret ()
      else
        s ← get;
        let version := last_version s + 1 in
        _ ← set_counts (last_ino s) version;
        _ ← add_data (raw_inode (68 + len) inode version st f_offset len (crc32 0 wbuf));
        _ ← add_data wbuf;
        _ ← pad 4;
        _ ← prep_eraseblock;
        add_chunks fuel inode st (drop (Z.to_nat len) rest) (f_offset + len)
  end.

(** [file] is what [stat] and [open] find under [name]; a read never fails. *)
Definition add_file (file : option (filestat * option (list Z))) (name : list Z) (parent : Z) : M unit :=
  match file with
  | None => mret ()
  | Some (st, contents) =>
      inode ← add_dirent (base_name name) DT_REG parent;
      match contents with
      | None => mret ()
      | Some f => add_chunks (S (length f)) inode st f 0
      end
  end.

(** The end marker in a block of its own. *)
Definition add_eof (erasesize : Z) : M unit :=
  _ ← pad erasesize;
  _ ← add_data JFFS2_EOF;
  pad erasesize.

Definition mtd_replace_jffs2 (malloc : option (list Z)) (dev : device) (pos ofs_ : Z)
  (file : option (filestat * option (list Z))) (filename : list Z) : M Z :=
  _ ← set_out dev pos ofs_;
  b ← mem malloc;
  _ ← set_buf b;
  _ ← set_target 1;
  s ← get;
  _ ← (if last_ino s =? 0 then set_counts 1 (last_version s) else mret ());
  _ ← add_file file filename 1;
  _ ← add_eof (erasesize s);
  s ← get;
  mret (mtdofs s - ofs_).

(** ** Finding the end of a file system *)

Definition PAD (x : Z) : Z := Z.land (u32 (x + 3)) 0xfffffffc.

Definition fld (b : list Z) (off n : Z) : option Z := le_val <$> zslice b off n.

(** [strncmp (name, dir, n) == 0], [name] in a buffer. *)
Fixpoint strncmp_eq (n : nat) (name dir : list Z) : option bool :=
  match n with
  | O => Some true
  | S n =>
      match name with
      | [] => None
      | x :: name =>
          if x =? default 0 (head dir) then if x =? 0 then Some true else strncmp_eq n name (tail dir) else Some false
      end
  end.

(** What a directory entry at [o] says. *)
Definition parse_dirent (b dir : list Z) (o : Z) : M unit :=
  pino ← mem (fld b (o + 12) 4);
  ino ← mem (fld b (o + 20) 4);
  version ← mem (fld b (o + 16) 4);
  nsize ← mem (fld b (o + 28) 1);
  hit ← (if negb (bool_decide (dir = [])) && (pino =? 1)
         then mem (strncmp_eq (Z.to_nat nsize) (drop (Z.to_nat (o + 40)) b) dir) else mret false);
  _ ← (if hit : bool then set_target (s32 ino) else mret ());
  s ← get;
  set_counts (if u32 (last_ino s) <? ino then s32 ino else last_ino s)
    (if u32 (last_version s) <? version then s32 version else last_version s).

Fixpoint parse_loop (fuel : nat) (b dir : list Z) (o : Z) : M unit :=
  match fuel with
  | O => spin
  | S fuel =>
      s ← get;
      if o <? u32 (erasesize s) then
        magic ← mem (fld b o 2);
        if negb (magic =? JFFS2_MAGIC_BITMASK) then mret ()
        else
          totlen ← mem (fld b (o + 4) 4);
          nodetype ← mem (fld b (o + 2) 2);
          _ ← (if nodetype =? JFFS2_NODETYPE_DIRENT then parse_dirent b dir o else mret ());
          parse_loop fuel b dir (u32 (o + PAD totlen))
      else mret ()
  end.

(** A node takes four bytes at least, unless its length is 0. *)
Definition mtd_parse_jffs2data (b dir : list Z) : M unit := parse_loop (S (length b)) b dir 0.

(** The search for the end: what the first blocks are, and whether there was an end at all. *)
Inductive found := FoundEnd | NoRoom | WrongEndian.

Fixpoint find_end (fuel : nat) (dir : list Z) : M found :=
  match fuel with
  | O => spin
  | S fuel =>
      s ← get;
      let b := dev_read (outdev s) (outpos s) (erasesize s) in
      if negb (zlen b =? erasesize s) then mret NoRoom
      else
        _ ← set_buf b;
        _ ← set_out (outdev s) (outpos s + erasesize s) (mtdofs s + erasesize s);
        magic ← mem (fld b 0 2);
        if magic =? KSAMTIB_CIGAM_2SFFJ then mret WrongEndian
        else if negb (magic =? JFFS2_MAGIC_BITMASK) then mret FoundEnd
        else
          _ ← mtd_parse_jffs2data b dir;
          find_end fuel dir
  end.

(** [mtd_write_jffs2] on the opened device, with its result.  [trx] is whether the program has
    [trx_fixup], a weak symbol, and then whether it can map the device. *)
Definition mtd_write_jffs2 (trx : option bool) (malloc : option (list Z)) (dir : list Z)
  (file : option (filestat * option (list Z))) (filename : list Z) : M Z :=
  match malloc with
  | None => mret (-1)
  | Some b =>
      _ ← set_buf b;
      _ ← (if decide (dir = []) then set_target 1 else mret ());
      s ← get;
      r ← find_end (S (S (Z.to_nat (d_size (outdev s))))) dir;
      match r with
      | NoRoom | WrongEndian => mret (-1)
      | FoundEnd =>
          s ← get;
          let m := mtdofs s - erasesize s in
          _ ← set_out (outdev s) m m;
          _ ← set_ofs 0;
          _ ← (if last_ino s =? 0 then set_counts 1 (last_version s) else mret ());
          _ ← (if target_ino s =? 0 then t ← add_dir dir 1; set_target t else mret ());
          s ← get;
          _ ← add_file file filename (target_ino s);
          _ ← add_eof (erasesize s);
          s ← get;
          match trx with
          | None => mret 0
          | Some mmap_ok =>
              '(d, _) ← mem (trx_fixup mmap_ok (outdev s));
              _ ← set_out d (outpos s) (mtdofs s);
              mret 0
          end
      end
  end.
