(* ===== verification/Jffs2Nodes.v ===== *)
(** A reader of jffs2 nodes, as a mount scans an erase block, and that it reads back what
    [add_dirent] and [add_file] encode. *)

From stdpp Require Import gmap.
From S2P Require Import Prelude Crc Mtd Jffs2.

(** ** Nodes *)

Inductive jnode :=
  | NDirent (pino version ino type : Z) (name : list Z)
  | NInode (ino version : Z) (st : filestat) (offset : Z) (data : list Z).

Definition node_bytes (n : jnode) : list Z :=
  match n with
  | NDirent pino version ino type name => raw_dirent pino version ino type name ++ name
  | NInode ino version st offset data =>
      raw_inode (68 + zlen data) ino version st offset (zlen data) (crc32 0 data) ++ data
  end.

(** Nodes whose fields fit. *)
Definition stat_ok (st : filestat) : Prop :=
  is_u32 (st_mode st) /\ is_u32 (st_size st) /\ is_u32 (st_atime st) /\ is_u32 (st_mtime st) /\ is_u32 (st_ctime st).
Definition node_ok (n : jnode) : Prop :=
  match n with
  | NDirent pino version ino type name =>
      is_u32 pino /\ is_u32 version /\ is_u32 ino /\ is_byte type /\ zlen name < 256 /\ Forall is_byte name
  | NInode ino version st offset data =>
      is_u32 ino /\ is_u32 version /\ stat_ok st /\ is_u32 offset /\ zlen data < 2 ^ 31 /\ Forall is_byte data
  end.

(** ** The reader *)

Definition field (b : list Z) (off n : nat) : Z := le_val (take n (drop off b)).

Definition read_dirent (b : list Z) : option jnode :=
  let name := take (Z.to_nat (field b 28 1)) (drop 40 b) in
  if (field b 4 4 =? 40 + zlen name) && (zlen name =? field b 28 1) &&
     (field b 32 4 =? crc32 0 (take 32 b)) && (field b 36 4 =? crc32 0 name)
  then Some (NDirent (field b 12 4) (field b 16 4) (field b 20 4) (field b 29 1) name) else None.

Definition read_inode (b : list Z) : option jnode :=
  let data := take (Z.to_nat (field b 52 4)) (drop 68 b) in
  if (field b 4 4 =? 68 + zlen data) && (zlen data =? field b 52 4) && (field b 48 4 =? field b 52 4) &&
     (field b 60 4 =? crc32 0 data) && (field b 64 4 =? crc32 0 (take 60 b))
  then Some (NInode (field b 12 4) (field b 16 4)
    (Stat (field b 20 4) (field b 28 4) (field b 32 4) (field b 36 4) (field b 40 4)) (field b 44 4) data)
  else None.

Definition read_node (b : list Z) : option jnode :=
  if (field b 0 2 =? JFFS2_MAGIC_BITMASK) && (field b 8 4 =? crc32 0 (take 8 b)) then
    if field b 2 2 =? JFFS2_NODETYPE_DIRENT then read_dirent b
    else if field b 2 2 =? JFFS2_NODETYPE_INODE then read_inode b else None
  else None.

(** A block behind its clean marker: nodes up to the first place without one. *)
Fixpoint read_nodes (fuel : nat) (b : list Z) : option (list jnode) :=
  match fuel with
  | O => None
  | S fuel =>
      if negb (field b 0 2 =? JFFS2_MAGIC_BITMASK) then Some []
      else
        n ← read_node b;
        ns ← read_nodes fuel (drop (Z.to_nat ((field b 4 4 + 3) / 4 * 4)) b);
        Some (n :: ns)
  end.

Definition read_block (b : list Z) : option (list jnode) :=
  if decide (take 12 b = CLEANMARKER) then read_nodes (length b) (drop 12 b) else None.

Definition read_log (blocks : list (list Z)) : option (list jnode) := mjoin <$> mapM read_block blocks.

(** ** Reading what was encoded *)

Lemma le_val2 x : is_u16 x -> le_val [u8 x; u8 (x / 256)] = x.
Proof. intros Hx. by apply (le_val_bytes 2). Qed.

Lemma le_val4 x : is_u32 x -> le_val [u8 x; u8 (x / 256); u8 (x / 256 / 256); u8 (x / 256 / 256 / 256)] = x.
Proof. apply le_val_bytes32. Qed.

Lemma crc32_range c bs : is_u32 c -> Forall is_byte bs -> is_u32 (crc32 c bs).
Proof. intros Hc Hb. rewrite crc32_run by done. by apply crc_run_range; [apply crc32_poly_width..| |]. Qed.

Lemma u8_byte x : is_byte (u8 x).
Proof. apply u8_range. Qed.

Lemma le_bytes_byte n z : Forall is_byte (le_bytes n z).
Proof. apply le_bytes_ok. Qed.

Lemma le_bytes2 z : le_bytes 2 z = [u8 z; u8 (z / 256)].
Proof. reflexivity. Qed.

Lemma le_bytes4 z : le_bytes 4 z = [u8 z; u8 (z / 256); u8 (z / 256 / 256); u8 (z / 256 / 256 / 256)].
Proof. reflexivity. Qed.

Lemma le_val1 x : le_val [x] = x.
Proof. change (x + 256 * 0 = x). lia. Qed.

Ltac bytes := repeat first [apply Forall_app_2|apply le_bytes_byte|apply Forall_cons_2|apply Forall_nil_2|apply u8_range]; try done; try (unfold is_byte; lia).

Lemma read_dirent_bytes pino version ino type name rest : node_ok (NDirent pino version ino type name) ->
  read_node (node_bytes (NDirent pino version ino type name) ++ rest) = Some (NDirent pino version ino type name).
Proof.
  intros (Hp & Hv & Hi & Ht & Hn & Hb). cbn [node_bytes]. unfold raw_dirent, node_header.
  remember (crc32 0 (le_bytes 2 JFFS2_MAGIC_BITMASK ++ _)) as hc eqn:Ehc.
  assert (is_u32 hc) as Hhc by (rewrite Ehc; apply crc32_range; [width|bytes]).
  remember (crc32 0 (((_ ++ _) ++ _) ++ _)) as dc eqn:Edc.
  assert (is_u32 dc) as Hdc by (rewrite Edc; apply crc32_range; [width|bytes]).
  remember (crc32 0 name) as nc eqn:Enc. assert (is_u32 nc) as Hnc by (rewrite Enc; apply crc32_range; [width|done]).
  rewrite !le_bytes2, !le_bytes4 in Ehc. rewrite !le_bytes2, !le_bytes4 in Edc. rewrite !le_bytes2, !le_bytes4. cbn [app] in *. unfold read_node, read_dirent, field. cbn [take drop]. rewrite !take_0, !drop_0.
  rewrite !le_val2, !le_val4, !le_val1, <- Ehc, <- Edc by (done || width). rewrite !u8_id by width. rewrite Nat2Z.id, take_app_length, <- Enc.
  rewrite !Z.eqb_refl. done.
Qed.

Lemma read_inode_bytes ino version st offset data rest : node_ok (NInode ino version st offset data) ->
  read_node (node_bytes (NInode ino version st offset data) ++ rest) = Some (NInode ino version st offset data).
Proof.
  intros (Hi & Hv & (Hm & Hs & Ha & Hmt & Hct) & Ho & Hd & Hb). cbn [node_bytes]. unfold raw_inode, node_header.
  remember (crc32 0 (le_bytes 2 JFFS2_MAGIC_BITMASK ++ _)) as hc eqn:Ehc.
  assert (is_u32 hc) as Hhc by (rewrite Ehc; apply crc32_range; [width|bytes]).
  remember (crc32 0 (((_ ++ _) ++ _) ++ _)) as rc eqn:Erc.
  assert (is_u32 rc) as Hrc by (rewrite Erc; apply crc32_range; [width|bytes]).
  remember (crc32 0 data) as dc eqn:Edc. assert (is_u32 dc) as Hdc by (rewrite Edc; apply crc32_range; [width|done]).
  rewrite !le_bytes2, !le_bytes4 in Ehc. rewrite !le_bytes2, !le_bytes4 in Erc. rewrite !le_bytes2, !le_bytes4.
  cbn [app] in *. unfold read_node, read_inode, field. cbn [take drop]. rewrite !take_0, !drop_0.
  rewrite !le_val2, !le_val4, <- Ehc, <- Erc by (done || width). rewrite Nat2Z.id, take_app_length, <- Edc.
  rewrite !Z.eqb_refl. by destruct st.
Qed.

Lemma read_node_bytes n rest : node_ok n -> read_node (node_bytes n ++ rest) = Some n.
Proof. destruct n; [apply read_dirent_bytes|apply read_inode_bytes]. Qed.

(** ** Blocks *)

Lemma length_node_header t l : length (node_header t l) = 12%nat.
Proof. unfold node_header. by rewrite !length_app, !length_le_bytes. Qed.

Definition node_len (n : jnode) : Z :=
  match n with NDirent _ _ _ _ name => 40 + zlen name | NInode _ _ _ _ data => 68 + zlen data end.

Lemma length_node_bytes n : zlen (node_bytes n) = node_len n.
Proof.
  destruct n as [pino version ino type name|ino version st offset data]; cbn [node_bytes node_len];
    unfold raw_dirent, raw_inode; rewrite !length_app, !length_node_header, !length_le_bytes; cbn [length]; lia.
Qed.

Lemma node_bytes_ok n : node_ok n -> Forall is_byte (node_bytes n).
Proof.
  destruct n as [pino version ino type name|ino version st offset data].
  - intros (_ & _ & _ & Ht & _ & Hb). cbn [node_bytes]. unfold raw_dirent, node_header. bytes.
  - intros (_ & _ & _ & _ & _ & Hb). cbn [node_bytes]. unfold raw_inode, node_header. bytes.
Qed.

Definition ff (n : Z) : list Z := replicate (Z.to_nat n) 0xff.

(** Nodes start at multiples of four. *)
Definition node_padded (n : jnode) : list Z := node_bytes n ++ ff (- node_len n mod 4).
Definition block_bytes (ns : list jnode) : list Z := CLEANMARKER ++ concat (node_padded <$> ns).
Definition full_block (es : Z) (ns : list jnode) : list Z := block_bytes ns ++ ff (es - zlen (block_bytes ns)).

Lemma node_fields n rest : node_ok n ->
  field (node_bytes n ++ rest) 0 2 = JFFS2_MAGIC_BITMASK /\ field (node_bytes n ++ rest) 4 4 = node_len n.
Proof.
  intros Hok. assert (exists t r, node_bytes n = node_header t (node_len n) ++ r) as (t & r & ->).
  { destruct n; cbn [node_bytes node_len]; unfold raw_dirent, raw_inode; eexists _, _; rewrite <- !app_assoc; reflexivity. }
  assert (is_u32 (node_len n)) as Hl by (destruct n; cbn [node_len] in *; unfold node_ok in Hok; width).
  unfold node_header. rewrite !le_bytes2, !le_bytes4. unfold field. cbn [app take drop]. rewrite le_val4 by done.
  split; [by vm_compute|done].
Qed.

Lemma length_node_padded n : zlen (node_padded n) = (node_len n + 3) / 4 * 4.
Proof.
  unfold node_padded, ff. rewrite length_app, length_replicate. pose proof (length_node_bytes n).
  pose proof (Z.mod_pos_bound (- node_len n) 4). Z.div_mod_to_equations. lia.
Qed.

Lemma field_ff k : field (ff k) 0 2 <> JFFS2_MAGIC_BITMASK.
Proof. unfold ff. destruct (Z.to_nat k) as [|[|k']]; unfold field; by vm_compute. Qed.

Lemma read_nodes_padded ns : forall fuel k, Forall node_ok ns -> (length ns < fuel)%nat ->
  read_nodes fuel (concat (node_padded <$> ns) ++ ff k) = Some ns.
Proof.
  induction ns as [|n ns IH]; intros fuel k Hok Hf; (destruct fuel as [|fuel]; [lia|]).
  - cbn [fmap list_fmap concat app read_nodes]. pose proof (field_ff k). by rewrite (proj2 (Z.eqb_neq _ _)).
  - apply Forall_cons in Hok as [Hn Hok]. cbn [fmap list_fmap concat]. cbn [read_nodes].
    pose proof (length_node_padded n) as Hl. rewrite <- app_assoc.
    change (list_fmap _ _ node_padded ns) with (node_padded <$> ns). set (tl := concat (node_padded <$> ns) ++ ff k).
    assert (node_padded n ++ tl = node_bytes n ++ ff (- node_len n mod 4) ++ tl) as E by (unfold node_padded; by rewrite <- app_assoc).
    destruct (node_fields n (ff (- node_len n mod 4) ++ tl) Hn) as [H0 H4]. rewrite <- E in H0, H4. rewrite H0, H4, Z.eqb_refl. cbn [negb].
    rewrite E at 1. rewrite read_node_bytes by done. cbn [mbind option_bind].
    rewrite drop_app_length' by lia. unfold tl. rewrite IH by (done || (cbn [length] in Hf; lia)). done.
Qed.

Lemma length_concat_padded ns : (length ns <= length (concat (node_padded <$> ns)))%nat.
Proof.
  induction ns as [|n ns IH]; [done|]. cbn [fmap list_fmap concat length]. rewrite length_app.
  pose proof (length_node_padded n). assert (1 <= (node_len n + 3) / 4) by (destruct n; cbn [node_len]; Z.div_mod_to_equations; lia).
  change (list_fmap _ _ node_padded ns) with (node_padded <$> ns). lia.
Qed.

(** A block that was written reads back. *)
Lemma read_full_block es ns : Forall node_ok ns -> read_block (full_block es ns) = Some ns.
Proof.
  intros Hok. unfold read_block, full_block, block_bytes. set (k := es - _). rewrite <- app_assoc.
  rewrite take_app_le, take_ge by (cbn; lia). rewrite decide_True by done. rewrite drop_app_length' by done.
  apply read_nodes_padded; [done|]. rewrite !length_app. pose proof (length_concat_padded ns). cbn [CLEANMARKER length]. lia.
Qed.

Lemma read_log_full es nss : Forall (Forall node_ok) nss -> read_log (full_block es <$> nss) = Some (mjoin nss).
Proof.
  intros Hok. unfold read_log. assert (mapM read_block (full_block es <$> nss) = Some nss) as ->; [|done].
  induction Hok as [|ns nss Hn _ IH]; [done|]. cbn [fmap list_fmap mapM]. rewrite read_full_block by done.
  cbn [mbind option_bind]. change (list_fmap _ _ (full_block es) nss) with (full_block es <$> nss). by rewrite IH.
Qed.
