(* ===== verification/Jffs2Write.v ===== *)
(** The block writer of jffs2.c: what the buffer and the device hold, as bytes. *)

From stdpp Require Import gmap.
From S2P Require Import Prelude Crc Mtd MtdSpec Jffs2 Jffs2Nodes.

(** ** Flash behind the start of the appended data *)

Section writer.
(** A device with [done0] in front of the erase blocks to be written. *)
Context (d0 : device) (fl0 : list bool) (blks0 : list (list Z)) (done0 : list Z).
#[local] Abbreviation es := (d_erasesize d0).
Context (Hes : 0 < es).

(** The blocks [out] were written, in order, to the good ones. *)
Definition onflash (s : jffs2) (out : list (list Z)) : Prop :=
  Forall (fun b : list Z => zlen b = es) out /\ outpos s = mtdofs s /\ (exists f, outdev s = with_flash d0 f) /\
  exists fl blks pre, blocked (outdev s) fl blks (mtdofs s) (done0 ++ concat pre) /\
    (forall more, place fl0 blks0 (out ++ more) = pre ++ place fl blks more) /\
    (length (good_of fl blks) + length out = length (good_of fl0 blks0))%nat /\ (length out <= length pre)%nat /\
    length pre = spans fl0 (length out) /\ fl = drop (length pre) fl0.

(** The buffer starts with [c]. *)
Record lay (s : jffs2) (out : list (list Z)) (c : list Z) : Prop := {
  lay_flash : onflash s out;
  lay_buf : zlen (jbuf s) = es;
  lay_bytes : Forall is_byte c;
  lay_pre : take (length c) (jbuf s) = c;
  lay_ofs : ofs s = zlen c;
  lay_room : zlen c <= es
}.

(** The counters a run leaves alone. *)
Definition counts (s : jffs2) : Z * Z * Z := (last_ino s, last_version s, target_ino s).

Lemma lay_es s out c : lay s out c -> erasesize s = es.
Proof. intros [(_ & _ & (f & Hd) & _) _ _ _ _ _]. unfold erasesize. by rewrite Hd. Qed.

Lemma skip_bad_spec bads : forall s b rest flr done_ fuel,
  blocked (outdev s) (replicate (length bads) true ++ false :: flr) (bads ++ b :: rest) (mtdofs s) done_ ->
  (length bads < fuel)%nat -> 0 < erasesize s ->
  skip_bad fuel s = Ok () (Jffs2 (last_ino s) (last_version s) (jbuf s) (ofs s) (outdev s)
    (outpos s + zlen (concat bads)) (mtdofs s + zlen (concat bads)) (target_ino s)) /\
  blocked (outdev s) (false :: flr) (b :: rest) (mtdofs s + zlen (concat bads)) (done_ ++ concat bads).
Proof.
  induction bads as [|x bads IH]; intros s b rest flr done_ fuel Hb Hf He; (destruct fuel as [|fuel]; [lia|]); cbn [skip_bad length replicate app concat] in *.
  - pose proof (blocked_head _ _ _ _ _ _ _ Hb) as (Hbad & _). rewrite Hbad. cbn [andb]. rewrite !Z.add_0_r, app_nil_r.
    split; [by destruct s|done].
  - pose proof (blocked_head _ _ _ _ _ _ _ Hb) as (Hbad & _ & Hl & Hsz & H0). rewrite Hbad, (proj2 (Z.ltb_lt _ _)) by (unfold erasesize in *; lia).
    cbn [andb]. apply blocked_skip in Hb. change (d_erasesize (outdev s)) with (erasesize s) in *.
    destruct (IH (Jffs2 (last_ino s) (last_version s) (jbuf s) (ofs s) (outdev s) (outpos s + erasesize s) (mtdofs s + erasesize s) (target_ino s))
      b rest flr (done_ ++ x) fuel Hb) as [Hrun Hb']; [lia|done|].
    unfold mbind, M_bind, set_out. rewrite Hrun. cbn [last_ino last_version jbuf ofs outdev outpos mtdofs target_ino] in *.
    rewrite length_app, Nat2Z.inj_add, Hl, !Z.add_assoc. rewrite <- app_assoc in Hb'. done.
Qed.

(** Where the next good block is. *)
Lemma good_split fl blks : length fl = length blks -> good_of fl blks <> [] ->
  exists bads b rest flr, blks = bads ++ b :: rest /\ fl = replicate (length bads) true ++ false :: flr.
Proof.
  revert blks. induction fl as [|[] fl IH]; intros [|b blks] Hl Hg; try done; cbn [good_of length] in *.
  - destruct (IH blks) as (bads & c & rest & flr & -> & ->); [lia|done|]. by exists (b :: bads), c, rest, flr.
  - by exists [], b, blks, fl.
Qed.

Lemma jffs2_flush_spec s out : onflash s out -> zlen (jbuf s) = es -> Forall is_byte (jbuf s) ->
  (length out < length (good_of fl0 blks0))%nat ->
  exists s', flush s = Ok () s' /\ onflash s' (out ++ [jbuf s]) /\ counts s' = counts s /\ jbuf s' = jbuf s /\ ofs s' = ofs s.
Proof.
  intros (Hsz & Hpos & (f & Hd) & fl & blks & pre & Hb & Hpl & Hg & Hn & Hsp & Hfl) Hl Hby Hroom.
  destruct (good_split fl blks) as (bads & b & rest & flr & -> & ->); [apply Hb|intros E; rewrite E in Hg; cbn [length] in Hg; lia|].
  assert (d_erasesize (outdev s) = es) as Hes' by (by rewrite Hd).
  destruct (skip_bad_spec bads s b rest flr (done0 ++ concat pre) (S (S (Z.to_nat (d_size (outdev s)))))) as [Hskip Hb'];
    [done| |unfold erasesize; lia|].
  { pose proof (blocked_count _ _ _ _ _ ltac:(by rewrite Hes') Hb) as Hc. rewrite length_app, length_replicate in Hc. lia. }
  pose proof (blocked_head _ _ _ _ _ _ _ Hb') as (_ & _ & Hbl & _).
  set (m := mtdofs s + zlen (concat bads)) in *. set (dn := (done0 ++ concat pre) ++ concat bads) in *.
  pose proof (bl_start _ _ _ _ _ Hb') as Hst.
  exists (Jffs2 (last_ino s) (last_version s) (jbuf s) (ofs s) (with_flash d0 (dn ++ jbuf s ++ concat rest)) (m + es) (m + es) (target_ino s)).
  split; [|split; [|done]].
  - unfold flush, mbind, M_bind, get. cbv beta iota. rewrite Hskip. cbn [outdev mtdofs jbuf outpos erasesize].
    rewrite (erase_block_at _ _ _ _ _ _ _ ltac:(by rewrite Hes') Hb' eq_refl). cbn [default]. unfold mem, erasesize. cbn [outdev]. rewrite Hes'.
    rewrite zslice_Some by lia. change (drop (Z.to_nat 0) (jbuf s)) with (jbuf s). rewrite take_ge by lia.
    rewrite Hpos. fold m. rewrite <- Hst.
    rewrite (dev_write_at _ dn (replicate (Z.to_nat es) 0xff) (concat rest) (jbuf s)) by (done || (rewrite length_replicate; lia)).
    replace (Z.to_nat es) with (length (jbuf s)) by lia. rewrite land_ff by done. rewrite Hl, Hd. unfold set_out.
    cbn [last_ino last_version jbuf ofs target_ino outpos mtdofs]. do 2 f_equal.
  - split; [by apply Forall_app_2; [|constructor]|]. split; [done|]. split; [by eexists|]. exists flr, rest, (pre ++ bads ++ [jbuf s]). split; [|split; [|split; [|split; [|split]]]].
    + apply (blocked_replace _ _ _ _ (jbuf s)) in Hb'; [|by rewrite Hes']. rewrite Hes', Hd in Hb'. cbn [outdev mtdofs].
      rewrite concat_app, concat_app. cbn [concat]. rewrite app_nil_r. unfold dn in *. rewrite <- !app_assoc in *. exact Hb'.
    + intros more. rewrite <- (app_assoc out), Hpl. cbn [app]. rewrite place_skip, <- !app_assoc. done.
    + rewrite good_of_skip in Hg. rewrite length_app. cbn [length] in *. lia.
    + rewrite !length_app. cbn [length]. lia.
    + rewrite !length_app, spans_add, <- Hsp, <- Hfl. cbn [length]. rewrite spans_skip, spans_0. lia.
    + rewrite !length_app, <- drop_drop, <- Hfl. cbn [length]. rewrite <- (Nat.add_0_r (_ + 1)). by rewrite drop_skip.
Qed.

(** ** The buffer *)

Lemma buf_split (b c : list Z) : take (length c) b = c -> b = c ++ drop (length c) b.
Proof. intros Hc. rewrite <- Hc at 1. by rewrite take_drop. Qed.

Lemma fill_lay s out c n b : lay s out c -> 0 <= n -> zlen c + n <= es ->
  zfill (jbuf s) (ofs s) 0xff n = Some b -> zlen b = es /\ take (length (c ++ ff n)) b = c ++ ff n.
Proof.
  intros [_ Hb _ Hp Ho _] Hn Hr. unfold zfill. rewrite (proj2 (Z.leb_le 0 n)), Ho by lia.
  pose proof (buf_split _ _ Hp) as Hs. pose proof Hb as Hb'. rewrite Hs in Hb' |- *. rewrite length_app in Hb'.
  rewrite zwrite_app_r by (rewrite length_replicate; lia). fold (ff n). intros [= <-]. rewrite app_assoc, take_app_length.
  split; [|done]. rewrite !length_app, length_drop. unfold ff. rewrite length_replicate. lia.
Qed.

Lemma fill_some s out c n : lay s out c -> 0 <= n -> zlen c + n <= es -> is_Some (zfill (jbuf s) (ofs s) 0xff n).
Proof.
  intros [_ Hb _ _ Ho _] Hn Hr. unfold zfill. rewrite (proj2 (Z.leb_le 0 n)), Ho by lia.
  rewrite zwrite_Some by (rewrite ?length_replicate; lia). by eexists.
Qed.

Lemma ff_bytes c n : Forall is_byte c -> Forall is_byte (c ++ ff n).
Proof. intros Hc. apply Forall_app. split; [done|]. apply Forall_replicate. unfold is_byte. lia. Qed.

(** [pad] fills up to a multiple of [size] and writes a full buffer out. *)
Lemma pad_spec s out c size : lay s out c -> 0 < size -> es mod size = 0 -> c <> [] ->
  let c' := c ++ ff (- zlen c mod size) in
  (zlen c' = es -> (length out < length (good_of fl0 blks0))%nat) ->
  exists s', pad size s = Ok () s' /\ counts s' = counts s /\
    if zlen c' =? es then lay s' (out ++ [c']) [] else lay s' out c'.
Proof.
  intros Hl Hsz Hdiv Hne c' Hroom. pose proof (lay_es _ _ _ Hl) as He. pose proof Hl as [Hf Hb Hby Hp Ho Hr].
  assert (0 < zlen c) as Hc0 by (destruct c; [done|cbn [length]; lia]).
  set (k := - zlen c mod size) in *. assert (0 <= k < size) as Hk by (apply Z.mod_pos_bound; lia).
  assert (zlen c' = zlen c + k) as Hlc by (unfold c'; rewrite length_app; unfold ff; rewrite length_replicate; lia).
  assert ((zlen c + k) mod size = 0) as Hmul.
  { unfold k. rewrite Z.add_mod_idemp_r by lia. by rewrite Z.add_opp_diag_r. }
  assert (zlen c' <= es) as Hle.
  { rewrite Hlc. apply Z.mod_divide in Hdiv as [q Hq]; [|lia]. apply Z.mod_divide in Hmul as [r Hr']; [|lia].
    assert (r < q + 1) by nia. nia. }
  assert (exists s1, lay s1 out c' /\ counts s1 = counts s /\
    pad size s = if zlen c' =? es then (_ ← set_ofs 0; flush) s1 else Ok () s1) as (s1 & Hl1 & Hc1 & ->).
  { unfold pad, mbind, M_bind, get. cbv beta iota. rewrite He, Ho. destruct (Z.eqb_spec (zlen c mod size) 0) as [Hz|Hz].
    - assert (k = 0) as Hk0 by (unfold k; by rewrite Z.mod_opp_l_z by lia).
      assert (c' = c) as -> by (unfold c'; rewrite Hk0; apply app_nil_r). exists s. split; [done|]. split; [done|].
      destruct (Z.ltb_spec (zlen c) es) as [Hlt|Hge]; cbn [andb].
      + by rewrite (proj2 (Z.eqb_neq _ _)) by lia.
      + rewrite (proj2 (Z.eqb_eq _ _)) by lia. unfold mret, M_ret. cbv beta iota. rewrite He, Ho.
        replace (zlen c) with es by lia. rewrite Z.mod_same by lia. done.
    - assert (size - zlen c mod size = k) as -> by (unfold k; rewrite Z.mod_opp_l_nz by lia; done).
      assert (zlen c < es) as Hlt by (destruct (decide (zlen c = es)) as [E|]; [rewrite E in Hz; done|lia]).
      rewrite (proj2 (Z.ltb_lt _ _)) by done. cbn [andb].
      destruct (fill_some _ _ _ k Hl) as [b Hfill]; [lia|lia|]. destruct (fill_lay _ _ _ k b Hl) as [Hbl Hbp]; [lia|lia|done|].
      rewrite Ho in Hfill. rewrite Hfill. unfold mem, set_buf, set_ofs, mret, M_ret. cbv beta iota.
      cbn [last_ino last_version jbuf ofs outdev outpos mtdofs target_ino erasesize]. unfold erasesize in He |- *. cbn [outdev]. rewrite He.
      set (s1 := Jffs2 (last_ino s) (last_version s) b (zlen c + k) (outdev s) (outpos s) (mtdofs s) (target_ino s)).
      assert (lay s1 out c') as Hl1 by (split; [exact Hf|exact Hbl|by apply ff_bytes|exact Hbp|cbn [s1 ofs]; lia|lia]).
      exists s1. split; [exact Hl1|]. split; [done|]. rewrite Hlc. destruct (Z.eqb_spec (zlen c + k) es) as [Hfull|Hpart].
      + rewrite Hfull, Z.mod_same by lia. done.
      + rewrite Z.mod_small by lia. rewrite (proj2 (Z.eqb_neq (zlen c + k) 0)) by lia. done. }
  destruct (Z.eqb_spec (zlen c') es) as [Hfull|Hpart]; [|by exists s1].
  pose proof Hl1 as [Hf1 Hb1 Hby1 Hp1 Ho1 _]. rewrite take_ge in Hp1 by lia.
  destruct (jffs2_flush_spec (Jffs2 (last_ino s1) (last_version s1) (jbuf s1) 0 (outdev s1) (outpos s1) (mtdofs s1) (target_ino s1)) out)
    as (s2 & Hrun & Hf2 & Hc2 & Hb2 & Ho2); [exact Hf1|exact Hb1|by rewrite <- Hp1 in Hby1|by apply Hroom|].
  exists s2. cbn [jbuf ofs] in *. rewrite Hp1 in Hf2. split; [exact Hrun|]. split; [by rewrite Hc2|].
  split; [exact Hf2|by rewrite Hb2|constructor|done|exact Ho2|cbn [length]; lia].
Qed.

Lemma pad_empty s out size : lay s out [] -> 0 < size -> pad size s = Ok () s.
Proof.
  intros Hl Hsz. pose proof (lay_es _ _ _ Hl) as He. pose proof (lay_ofs _ _ _ Hl) as Ho. unfold pad, mbind, M_bind, get. cbv beta iota.
  rewrite He, Ho. change (zlen []) with 0. rewrite Z.mod_0_l by lia. by rewrite (proj2 (Z.ltb_lt 0 es)).
Qed.

Lemma memcpy_spec s out c data : lay s out c -> Forall is_byte data -> zlen c + zlen data <= es ->
  exists s', memcpy_buf data s = Ok () s' /\ counts s' = counts s /\ lay s' out (c ++ data).
Proof.
  intros [Hf Hb Hby Hp Ho Hr] Hd Hle. pose proof (buf_split _ _ Hp) as Hs.
  assert (zwrite (jbuf s) (ofs s) data = Some ((c ++ data) ++ drop (length data) (drop (length c) (jbuf s)))) as Hw.
  { rewrite Ho. rewrite Hs at 1. rewrite zwrite_app_r by (rewrite length_drop; lia). by rewrite app_assoc. }
  unfold memcpy_buf, mbind, M_bind, get, mem. cbv beta iota. rewrite Hw. unfold set_buf, set_ofs. cbv beta iota.
  eexists. split; [reflexivity|]. split; [done|]. split; cbn [jbuf ofs].
  - exact Hf.
  - rewrite !length_app, !length_drop. lia.
  - by apply Forall_app.
  - apply take_app_length.
  - rewrite Ho, length_app. lia.
  - rewrite length_app. lia.
Qed.

(** Data that fits is copied; a new block starts with the clean marker. *)
Lemma add_data_spec s out c data : lay s out c -> Forall is_byte data -> zlen c + zlen data <= es ->
  exists s', add_data data s = Ok () s' /\ counts s' = counts s /\ lay s' out (c ++ data).
Proof.
  intros Hl Hd Hle. destruct (memcpy_spec s out c data Hl Hd Hle) as (s' & Hrun & Hs').
  exists s'. split; [|done]. unfold add_data. cbn [add_data_at]. unfold mbind at 1 2, M_bind, get. cbv beta iota.
  rewrite (lay_es _ _ _ Hl), (lay_ofs _ _ _ Hl), (proj2 (Z.ltb_ge _ _)) by lia. exact Hrun.
Qed.

Lemma cleanmarker_bytes : Forall is_byte CLEANMARKER.
Proof. unfold is_byte. repeat constructor; lia. Qed.

Lemma prep_empty s out : lay s out [] -> 12 <= es ->
  exists s', prep_eraseblock s = Ok () s' /\ counts s' = counts s /\ lay s' out CLEANMARKER.
Proof.
  intros Hl H12. destruct (add_data_spec s out [] CLEANMARKER Hl cleanmarker_bytes) as (s' & Hrun & Hs'); [cbn; lia|].
  exists s'. split; [|done]. unfold prep_eraseblock, mbind, M_bind, get. cbv beta iota. rewrite (lay_ofs _ _ _ Hl). exact Hrun.
Qed.

Lemma prep_noop s out c : lay s out c -> c <> [] -> prep_eraseblock s = Ok () s.
Proof.
  intros Hl Hne. unfold prep_eraseblock, mbind, M_bind, get. cbv beta iota. rewrite (lay_ofs _ _ _ Hl).
  destruct c; [done|]. by rewrite (proj2 (Z.ltb_lt 0 _)) by (cbn [length]; lia).
Qed.
End writer.
