(* ===== verification/Jffs2Parse.v ===== *)
(** Reading a jffs2 image to find its end, the numbers in use and a directory
    ([mtd_parse_jffs2data] and the first loop of [mtd_write_jffs2]). *)

From stdpp Require Import gmap.
From S2P Require Import Prelude Crc Mtd MtdSpec Jffs2 Jffs2Nodes Jffs2Write.

(** ** What there is to see in a node *)

Definition io (s : jffs2) : list Z * Z * device * Z * Z := (jbuf s, ofs s, outdev s, outpos s, mtdofs s).

(** A directory entry raises the last inode and version; one in the root directory whose name
    is a prefix of [dir] is taken for [dir]. *)
Definition see (dir : list Z) (c : Z * Z * Z) (n : jnode) : Z * Z * Z :=
  match n with
  | NDirent pino version ino _ name =>
      (Z.max c.1.1 ino, Z.max c.1.2 version,
       if negb (bool_decide (dir = [])) && (pino =? 1) && bool_decide (name `prefix_of` dir) then ino else c.2)
  | NInode _ _ _ _ _ => c
  end.

(** Numbers below 2^31 and names without NUL. *)
Definition small (n : jnode) : Prop :=
  match n with
  | NDirent _ version ino _ name => version < 2 ^ 31 /\ ino < 2 ^ 31 /\ Forall (fun c => c <> 0) name
  | NInode _ _ _ _ _ => True
  end.

Definition small_counts (c : Z * Z * Z) : Prop := 0 <= c.1.1 < 2 ^ 31 /\ 0 <= c.1.2 < 2 ^ 31.

Lemma see_small dir c n : node_ok n -> small n -> small_counts c -> small_counts (see dir c n).
Proof.
  destruct n as [pino version ino type name|]; [|done]. intros (_ & Hv & Hi & _) (Hv' & Hi' & _) (H1 & H2).
  unfold small_counts, is_u32 in *. cbn [see fst snd]. lia.
Qed.

Lemma see_all_small dir ns : forall c, Forall node_ok ns -> Forall small ns -> small_counts c -> small_counts (fold_left (see dir) ns c).
Proof.
  induction ns as [|n ns IH]; intros c Hok Hsm Hc; [done|]. apply Forall_cons in Hok as [Hn Hok]. apply Forall_cons in Hsm as [Hs Hsm].
  cbn [fold_left]. apply IH; try done. by apply see_small.
Qed.

(** ** Reading fields *)

Lemma PAD_spec x : 0 <= x < 2 ^ 32 - 3 -> PAD x = (x + 3) / 4 * 4.
Proof.
  intros Hx. unfold PAD. set (y := x + 3). replace (y / 4 * 4) with (Z.shiftl (Z.shiftr y 2) 2)
    by (rewrite Z.shiftl_mul_pow2, Z.shiftr_div_pow2 by lia; done).
  change 0xfffffffc with (Z.shiftl (Z.ones 30) 2). apply Z.bits_inj'. intros n Hn.
  rewrite Z.land_spec, !Z.shiftl_spec by lia. destruct (decide (n < 2)) as [H2|H2].
  { rewrite !(Z.testbit_neg_r _ (n - 2)) by lia. apply andb_false_r. }
  rewrite Z.shiftr_spec, Z.sub_add, Z.testbit_ones_nonneg by lia. unfold u32. destruct (decide (n < 32)) as [H32|H32].
  - rewrite Z.mod_pow2_bits_low, (proj2 (Z.ltb_lt _ _)) by lia. apply andb_true_r.
  - rewrite Z.mod_pow2_bits_high by lia. cbn [andb]. rewrite <- (Z.mod_small y (2 ^ 32)) by lia. by rewrite Z.mod_pow2_bits_high by lia.
Qed.

Lemma fld_at pre b off n : 0 <= off -> 0 <= n -> off + n <= zlen b ->
  fld (pre ++ b) (zlen pre + off) n = Some (field b (Z.to_nat off) (Z.to_nat n)).
Proof.
  intros Ho Hn Hl. unfold fld, field. rewrite zslice_Some by (rewrite ?length_app; lia).
  cbn [fmap option_fmap option_map]. do 2 f_equal. rewrite Z2Nat.inj_add, <- drop_drop, Nat2Z.id, drop_app_length by lia. done.
Qed.

Lemma strncmp_prefix name rest : forall dir, Forall (fun c => c <> 0) name ->
  strncmp_eq (length name) (name ++ rest) dir = Some (bool_decide (name `prefix_of` dir)).
Proof.
  induction name as [|x name IH]; intros dir Hn; cbn [length strncmp_eq app].
  { by rewrite bool_decide_eq_true_2 by apply prefix_nil. }
  apply Forall_cons in Hn as [Hx Hn]. destruct (Z.eqb_spec x (default 0 (head dir))) as [->|Hne].
  - destruct dir as [|y dir]; [done|]. cbn [hd_error default from_option id tail] in *. rewrite (proj2 (Z.eqb_neq y 0)), IH by done.
    f_equal. apply bool_decide_ext. split; [apply prefix_cons|apply prefix_cons_inv_2].
  - rewrite bool_decide_eq_false_2; [done|]. intros Hp. destruct dir as [|y dir]; [by apply prefix_nil_not in Hp|].
    apply prefix_cons_inv_1 in Hp. done.
Qed.

(** ** A block *)

Lemma node_type n rest : node_ok n -> field (node_bytes n ++ rest) 2 2 =
  match n with NDirent _ _ _ _ _ => JFFS2_NODETYPE_DIRENT | _ => JFFS2_NODETYPE_INODE end.
Proof.
  intros Hok. destruct n; cbn [node_bytes]; unfold raw_dirent, raw_inode, node_header; rewrite !le_bytes2, !le_bytes4; cbn [app]; by vm_compute.
Qed.

Lemma dirent_fields pino version ino type name rest : node_ok (NDirent pino version ino type name) ->
  let b := node_bytes (NDirent pino version ino type name) ++ rest in
  field b 12 4 = pino /\ field b 16 4 = version /\ field b 20 4 = ino /\ field b 28 1 = zlen name /\ drop 40 b = name ++ rest.
Proof.
  intros (Hp & Hv & Hi & Ht & Hn & Hb) b. subst b. cbn [node_bytes]. unfold raw_dirent, node_header.
  generalize (crc32 0 (le_bytes 2 JFFS2_MAGIC_BITMASK ++ le_bytes 2 JFFS2_NODETYPE_DIRENT ++ le_bytes 4 (40 + zlen name))). intros hc.
  generalize (crc32 0 name). intros nc. match goal with |- context [le_bytes 4 (crc32 0 ?d)] => generalize (crc32 0 d) end. intros dc.
  rewrite !le_bytes2, !le_bytes4. unfold field. cbn [app take drop]. rewrite !le_val4, le_val1, u8_id, drop_0 by (done || width). done.
Qed.

(** Looking at a directory entry. *)
Lemma parse_dirent_spec b dir pre pino version ino type name rest s :
  let n := NDirent pino version ino type name in
  b = pre ++ node_bytes n ++ rest -> node_ok n -> small n -> small_counts (counts s) ->
  exists s', parse_dirent b dir (zlen pre) s = Ok () s' /\ io s' = io s /\ counts s' = see dir (counts s) n.
Proof.
  intros n -> Hok Hsm [Hc1 Hc2]. destruct (dirent_fields pino version ino type name rest Hok) as (F12 & F16 & F20 & F28 & Hd).
  pose proof (length_node_bytes n) as Hl. cbn [n node_len] in Hl. pose proof Hok as (Hp & Hv & Hi & _). destruct Hsm as (Hv' & Hi' & Hz).
  fold n in F12, F16, F20, F28, Hd. set (x := node_bytes n ++ rest) in *. assert (40 + zlen name <= zlen x) as Hx by (unfold x; rewrite length_app; lia).
  unfold parse_dirent. rewrite !fld_at by lia. change (Z.to_nat 12) with 12%nat. change (Z.to_nat 20) with 20%nat.
  change (Z.to_nat 16) with 16%nat. change (Z.to_nat 28) with 28%nat. change (Z.to_nat 4) with 4%nat. change (Z.to_nat 1) with 1%nat.
  rewrite F12, F16, F20, F28. unfold mbind, M_bind, mem, get. cbv beta iota. rewrite Nat2Z.id. replace (Z.to_nat (zlen pre + 40)) with (length pre + 40)%nat by lia.
  rewrite <- drop_drop, drop_app_length, Hd, strncmp_prefix by done.
  set (a := negb (bool_decide (dir = [])) && (pino =? 1)).
  assert ((if a then fun s => Ok (bool_decide (name `prefix_of` dir)) s else mret false) s = Ok (a && bool_decide (name `prefix_of` dir)) s) as ->
    by (by destruct a).
  set (hit := a && bool_decide (name `prefix_of` dir)).
  assert ((if hit then set_target (s32 ino) else mret ()) s = Ok () (Jffs2 (last_ino s) (last_version s) (jbuf s) (ofs s) (outdev s) (outpos s) (mtdofs s)
    (if hit then ino else target_ino s))) as ->.
  { destruct hit; [|by destruct s]. unfold set_target. by rewrite s32_id by width. }
  cbn [last_ino last_version]. unfold set_counts. cbn [last_ino last_version jbuf ofs outdev outpos mtdofs target_ino].
  cbn [counts fst snd] in Hc1, Hc2. rewrite !u32_id, !s32_id by width.
  eexists. split; [reflexivity|]. split; [done|]. unfold counts. cbn [n see fst snd last_ino last_version target_ino]. fold a hit. f_equal. f_equal.
  - destruct (Z.ltb_spec (last_ino s) ino); lia.
  - destruct (Z.ltb_spec (last_version s) version); lia.
Qed.

Lemma parse_nodes_spec b dir ns : forall fuel pre k s,
  b = pre ++ concat (node_padded <$> ns) ++ ff k -> erasesize s = zlen b -> zlen b < 2 ^ 31 -> 0 <= k -> k mod 4 = 0 ->
  Forall node_ok ns -> Forall small ns -> small_counts (counts s) -> (length ns < fuel)%nat ->
  exists s', parse_loop fuel b dir (zlen pre) s = Ok () s' /\ io s' = io s /\ counts s' = fold_left (see dir) ns (counts s).
Proof.
  induction ns as [|n ns IH]; intros fuel pre k s Hb He H31 Hk Hk4 Hok Hsm Hc Hf; (destruct fuel as [|fuel]; [lia|]);
    cbn [parse_loop fold_left]; unfold mbind at 1, M_bind at 1, get at 1; cbv beta iota; rewrite He, u32_id by width.
  - exists s. split; [|done]. cbn [fmap list_fmap concat app] in Hb. pose proof (f_equal length Hb) as Hl. rewrite length_app in Hl. unfold ff in Hl. rewrite length_replicate in Hl.
    destruct (Z.ltb_spec (zlen pre) (zlen b)) as [Hlt|Hge]; [|done].
    assert (fld b (zlen pre) 2 = Some (field (ff k) 0 2)) as ->.
    { rewrite Hb, <- (Z.add_0_r (zlen pre)). rewrite fld_at; [done|lia|lia|]. unfold ff. rewrite length_replicate. Z.div_mod_to_equations. lia. }
    unfold mbind, M_bind, mem. by rewrite (proj2 (Z.eqb_neq _ _)) by apply field_ff.
  - apply Forall_cons in Hok as [Hn Hok]. apply Forall_cons in Hsm as [Hs Hsm]. cbn [fmap list_fmap concat] in Hb.
    change (list_fmap _ _ node_padded ns) with (node_padded <$> ns) in Hb. rewrite <- app_assoc in Hb. cbn [length] in Hf.
    set (tl := concat (node_padded <$> ns) ++ ff k) in *.
    pose proof (length_node_padded n) as Hpl. pose proof (f_equal length Hb) as Hl. rewrite !length_app in Hl.
    assert (node_padded n ++ tl = node_bytes n ++ ff (- node_len n mod 4) ++ tl) as E by (unfold node_padded; by rewrite <- app_assoc).
    destruct (node_fields n (ff (- node_len n mod 4) ++ tl) Hn) as [F0 F4]. pose proof (node_type n (ff (- node_len n mod 4) ++ tl) Hn) as F2.
    assert (40 <= node_len n <= zlen (node_padded n)) as Hnl by (rewrite Hpl; split; [destruct n; cbn [node_len]; lia|Z.div_mod_to_equations; lia]).
    rewrite (proj2 (Z.ltb_lt _ _)) by lia.
    assert (fld b (zlen pre) 2 = Some JFFS2_MAGIC_BITMASK /\ fld b (zlen pre + 4) 4 = Some (node_len n) /\
      fld b (zlen pre + 2) 2 = Some (match n with NDirent _ _ _ _ _ => JFFS2_NODETYPE_DIRENT | _ => JFFS2_NODETYPE_INODE end)) as (G0 & G4 & G2).
    { rewrite <- E in F0, F2, F4. rewrite Hb. pose proof (fld_at pre (node_padded n ++ tl)) as G. rewrite length_app in G.
      pose proof (G 0 2) as G0. rewrite Z.add_0_r in G0. rewrite G0, !G by lia.
      change (Z.to_nat 0) with 0%nat. change (Z.to_nat 2) with 2%nat. change (Z.to_nat 4) with 4%nat. by rewrite F0, F2, F4. }
    rewrite G0. unfold mbind at 1, M_bind at 1, mem at 1. rewrite Z.eqb_refl. cbn [negb]. rewrite G4. unfold mbind at 1, M_bind at 1, mem at 1.
    rewrite G2. unfold mbind at 1, M_bind at 1, mem at 1. unfold mbind at 1, M_bind at 1.
    assert (exists s1, (if match n with NDirent _ _ _ _ _ => JFFS2_NODETYPE_DIRENT | _ => JFFS2_NODETYPE_INODE end =? JFFS2_NODETYPE_DIRENT
      then parse_dirent b dir (zlen pre) else mret ()) s = Ok () s1 /\ io s1 = io s /\ counts s1 = see dir (counts s) n) as (s1 & -> & Hio & Hcs).
    { destruct n as [pino version ino type name|]; [|by exists s]. rewrite Z.eqb_refl.
      apply (parse_dirent_spec b dir pre pino version ino type name (ff (- node_len (NDirent pino version ino type name) mod 4) ++ tl) s); try done.
      by rewrite Hb, E. }
    rewrite PAD_spec, <- Hpl, u32_id by width.
    replace (zlen pre + zlen (node_padded n)) with (zlen (pre ++ node_padded n)) by (rewrite length_app; lia).
    destruct (IH fuel (pre ++ node_padded n) k s1) as (s2 & Hrun & Hio2 & Hc2); try done; try lia.
    + rewrite Hb. unfold tl. by rewrite <- app_assoc.
    + injection Hio as _ _ Hd _ _. unfold erasesize in *. by rewrite Hd.
    + rewrite Hcs. by apply see_small.
    + exists s2. split; [exact Hrun|]. split; [congruence|]. by rewrite Hc2, Hcs.
Qed.

(** Blocks as the writer leaves them. *)
Definition written_block (es : Z) (ns : list jnode) : Prop :=
  Forall node_ok ns /\ Forall small ns /\ zlen (block_bytes ns) <= es.

Lemma length_full_block es ns : zlen (block_bytes ns) <= es -> zlen (full_block es ns) = es.
Proof. intros Hl. unfold full_block, ff. rewrite length_app, length_replicate. lia. Qed.

Lemma full_block_magic es ns : fld (full_block es ns) 0 2 = Some JFFS2_MAGIC_BITMASK.
Proof.
  unfold full_block, block_bytes. rewrite <- app_assoc. set (tl := _ ++ ff _).
  pose proof (fld_at [] (CLEANMARKER ++ tl) 0 2) as H. cbn [app length] in H. change (Z.of_nat 0 + 0) with 0 in H.
  rewrite H by (rewrite ?length_app; cbn [CLEANMARKER length]; lia). by vm_compute.
Qed.

Lemma concat_padded_mod ns : zlen (concat (node_padded <$> ns)) mod 4 = 0.
Proof.
  induction ns as [|n ns IH]; [done|]. cbn [fmap list_fmap concat]. change (list_fmap _ _ node_padded ns) with (node_padded <$> ns).
  rewrite length_app, Nat2Z.inj_add, length_node_padded, Z.add_comm. by rewrite Z.mod_add by lia.
Qed.

Lemma parse_block_spec dir ns s : written_block (erasesize s) ns -> erasesize s < 2 ^ 31 -> erasesize s mod 4 = 0 -> small_counts (counts s) ->
  exists s', mtd_parse_jffs2data (full_block (erasesize s) ns) dir s = Ok () s' /\ io s' = io s /\ counts s' = fold_left (see dir) ns (counts s).
Proof.
  intros (Hok & Hsm & Hl) H31 H4 Hc. pose proof (length_full_block _ _ Hl) as Hfl. unfold mtd_parse_jffs2data.
  set (b := full_block (erasesize s) ns) in *. set (k := erasesize s - zlen (block_bytes ns)).
  assert (b = CLEANMARKER ++ concat (node_padded <$> ns) ++ ff k) as Hb by (unfold b, full_block, block_bytes; fold k; by rewrite <- app_assoc).
  assert (zlen (block_bytes ns) = 12 + zlen (concat (node_padded <$> ns))) as Hbl by (unfold block_bytes; rewrite length_app; cbn [CLEANMARKER length]; lia).
  pose proof (concat_padded_mod ns) as Hm4. pose proof (length_concat_padded ns) as Hcount.
  destruct (parse_nodes_spec b dir ns (length b) CLEANMARKER k s Hb) as (s' & Hrun & Hs'); try done; try lia.
  { unfold k. rewrite Hbl. Z.div_mod_to_equations. lia. }
  exists s'. split; [|done]. cbn [parse_loop]. unfold mbind at 1, M_bind at 1, get at 1. cbv beta iota. rewrite u32_id, (proj2 (Z.ltb_lt _ _)) by width.
  pose proof (full_block_magic (erasesize s) ns) as G0. fold b in G0. rewrite G0. unfold mbind at 1, M_bind at 1, mem at 1. rewrite Z.eqb_refl. cbn [negb].
  assert (fld b (0 + 4) 4 = Some 12 /\ fld b (0 + 2) 2 = Some 0x2003) as [-> ->].
  { pose proof (fld_at [] b) as H. cbn [app length] in H. change (Z.of_nat 0) with 0 in H. rewrite !H by lia. rewrite Hb. by vm_compute. }
  unfold mbind at 1, M_bind at 1, mem at 1. unfold mbind at 1, M_bind at 1, mem at 1. unfold mbind at 1, M_bind at 1. cbn [Z.eqb].
  change (0x2003 =? JFFS2_NODETYPE_DIRENT) with false. unfold mret, M_ret. change (u32 (0 + PAD 12)) with (zlen CLEANMARKER). exact Hrun.
Qed.

(** ** The end of the image *)

(** [find_end] passes the blocks of the file system and stops behind the first block that has
    no node at its start. *)
Lemma find_end_spec dir nss : forall fuel pre bk tail s,
  d_flash (outdev s) = pre ++ concat (full_block (erasesize s) <$> nss) ++ bk ++ tail -> outpos s = zlen pre ->
  Forall (written_block (erasesize s)) nss -> zlen bk = erasesize s -> 2 <= erasesize s < 2 ^ 31 -> erasesize s mod 4 = 0 ->
  field bk 0 2 <> JFFS2_MAGIC_BITMASK -> small_counts (counts s) -> (length nss < fuel)%nat ->
  exists s', find_end fuel dir s = Ok (if field bk 0 2 =? KSAMTIB_CIGAM_2SFFJ then WrongEndian else FoundEnd) s' /\
    counts s' = fold_left (see dir) (mjoin nss) (counts s) /\
    io s' = (bk, ofs s, outdev s, outpos s + (zlen nss + 1) * erasesize s, mtdofs s + (zlen nss + 1) * erasesize s).
Proof.
  induction nss as [|ns nss IH]; intros fuel pre bk tail s Hd Hp Hw Hbk Hes He4 Hm Hc Hf; (destruct fuel as [|fuel]; [lia|]);
    cbn [find_end]; unfold mbind at 1, M_bind at 1, get at 1; cbv beta iota.
  - cbn [fmap list_fmap concat app] in Hd. assert (dev_read (outdev s) (outpos s) (erasesize s) = bk) as ->.
    { unfold dev_read. rewrite Hd, Hp, Nat2Z.id, drop_app_length. by apply take_app_length'; lia. }
    rewrite Hbk, Z.eqb_refl. cbn [negb]. unfold mbind, M_bind, set_buf, set_out, mem. cbn [jbuf ofs outdev outpos mtdofs last_ino last_version target_ino].
    assert (fld bk 0 2 = Some (field bk 0 2)) as ->.
    { pose proof (fld_at [] bk 0 2) as H. cbn [app length] in H. change (Z.of_nat 0 + 0) with 0 in H. by rewrite H by lia. }
    eexists. destruct (Z.eqb_spec (field bk 0 2) KSAMTIB_CIGAM_2SFFJ) as [Hk|Hk].
    + split; [reflexivity|]. split; [done|]. unfold io. cbn [jbuf ofs outdev outpos mtdofs length]. by rewrite Z.mul_1_l.
    + rewrite (proj2 (Z.eqb_neq (field bk 0 2) JFFS2_MAGIC_BITMASK)) by done. cbn [negb].
      split; [reflexivity|]. split; [done|]. unfold io. cbn [jbuf ofs outdev outpos mtdofs length]. by rewrite Z.mul_1_l.
  - apply Forall_cons in Hw as [Hn Hw]. cbn [fmap list_fmap concat] in Hd. change (list_fmap _ _ (full_block (erasesize s)) nss) with (full_block (erasesize s) <$> nss) in Hd.
    pose proof Hn as (_ & _ & Hbl). pose proof (length_full_block _ _ Hbl) as Hfl. set (b := full_block (erasesize s) ns) in *.
    assert (dev_read (outdev s) (outpos s) (erasesize s) = b) as ->.
    { unfold dev_read. rewrite Hd, Hp, Nat2Z.id, drop_app_length, <- app_assoc. by apply take_app_length'; lia. }
    rewrite Hfl, Z.eqb_refl. cbn [negb]. unfold mbind at 1, M_bind at 1, set_buf at 1. unfold mbind at 1, M_bind at 1, set_out at 1.
    cbn [jbuf ofs outdev outpos mtdofs last_ino last_version target_ino].
    pose proof (full_block_magic (erasesize s) ns) as G0. fold b in G0. rewrite G0. unfold mbind at 1, M_bind at 1, mem at 1.
    change (JFFS2_MAGIC_BITMASK =? KSAMTIB_CIGAM_2SFFJ) with false. rewrite Z.eqb_refl. cbn [negb].
    set (s1 := Jffs2 _ _ _ _ _ _ _ _). assert (erasesize s1 = erasesize s) as He1 by done.
    destruct (parse_block_spec dir ns s1) as (s2 & Hrun & Hio & Hcs); [done|lia|done|done|]. rewrite He1 in Hrun. fold b in Hrun.
    unfold mbind, M_bind. rewrite Hrun. injection Hio as Hj Ho Hdv Hps Hmt. assert (erasesize s2 = erasesize s) as He2 by (unfold erasesize; by rewrite Hdv).
    assert (small_counts (counts s2)) as Hc2.
    { rewrite Hcs. destruct Hn as (Hok & Hsm & _). clear -Hc Hok Hsm. change (counts s1) with (counts s). revert Hc. generalize (counts s).
      induction ns as [|n ns IH]; intros c Hc; [done|]. apply Forall_cons in Hok as [? ?]. apply Forall_cons in Hsm as [? ?]. cbn [fold_left]. apply IH; try done. by apply see_small. }
    destruct (IH fuel (pre ++ b) bk tail s2) as (s3 & Hr3 & Hc3 & Hio3); rewrite ?He2; try done.
    + rewrite Hdv. cbn [s1 outdev]. rewrite Hd. by rewrite <- !app_assoc.
    + rewrite Hps. cbn [s1 outpos]. rewrite Hp, length_app. lia.
    + cbn [length] in Hf. lia.
    + exists s3. split; [exact Hr3|]. split.
      * rewrite Hc3, Hcs. change (mjoin (ns :: nss)) with (ns ++ mjoin nss). by rewrite fold_left_app.
      * rewrite Hio3, He2, Ho, Hdv, Hps, Hmt. cbn [s1 jbuf ofs outdev outpos mtdofs length]. rewrite Nat2Z.inj_succ. f_equal; [f_equal|]; ring.
Qed.
