(* ===== verification/Jffs2Spec.v ===== *)
(** Theorems about appending files to jffs2: what is appended reads back as the file. *)

From stdpp Require Import gmap.
From S2P Require Import Prelude Crc Mtd MtdSpec Jffs2 Jffs2Nodes Jffs2Write Jffs2Parse.

(** ** The data nodes of a file *)

(** Nodes for the bytes [f] of a file from offset [off] on, with versions behind [v]. *)
Inductive chain (ino : Z) (st : filestat) : Z -> Z -> list jnode -> list Z -> Prop :=
  | chain_nil off v : chain ino st off v [] []
  | chain_cons off v data ns f :
      data <> [] -> chain ino st (off + zlen data) (v + 1) ns f ->
      chain ino st off v (NInode ino (v + 1) st off data :: ns) (data ++ f).

(** What a reader of the nodes in order sees in a file: each one overwrites from its offset. *)
Definition apply_node (ino : Z) (acc : list Z) (n : jnode) : list Z :=
  match n with
  | NInode i _ _ off data =>
      if i =? ino then take (Z.to_nat off) acc ++ data ++ drop (Z.to_nat off + length data) acc else acc
  | NDirent _ _ _ _ _ => acc
  end.
Definition file_of (ino : Z) (ns : list jnode) : list Z := fold_left (apply_node ino) ns [].

Lemma chain_file ino st off v ns f : chain ino st off v ns f -> forall acc, zlen acc = off ->
  fold_left (apply_node ino) ns acc = acc ++ f.
Proof.
  induction 1 as [off v|off v data ns f Hne _ IH]; intros acc Ha; cbn [fold_left]; [by rewrite app_nil_r|].
  cbn [apply_node]. rewrite Z.eqb_refl, take_ge, drop_ge, app_nil_r by lia. rewrite IH by (rewrite length_app; lia). by rewrite app_assoc.
Qed.

(** ** The writer as a list of nodes *)

Section nodes.
Context (d0 : device) (fl0 : list bool) (blks0 : list (list Z)) (done0 : list Z).
#[local] Abbreviation es := (d_erasesize d0).
#[local] Abbreviation room := (length (good_of fl0 blks0)).
#[local] Abbreviation lay := (lay d0 fl0 blks0 done0).
Context (Hes : 208 < es) (Hes4 : es mod 4 = 0) (Hes31 : es < 2 ^ 31).

(** Full blocks of nodes on flash, and the nodes of the block in the buffer. *)
Record holds (s : jffs2) (nss : list (list jnode)) (ns : list jnode) : Prop := {
  h_lay : lay s (full_block es <$> nss) (block_bytes ns);
  h_lt : zlen (block_bytes ns) < es;
  h_ok : Forall node_ok (mjoin nss ++ ns);
  h_ne : Forall (fun l => l <> []) nss
}.

Lemma block_bytes_ne ns : block_bytes ns <> [].
Proof. done. Qed.

Lemma block_bytes_app ns n : block_bytes (ns ++ [n]) = block_bytes ns ++ node_padded n.
Proof. unfold block_bytes. rewrite fmap_app, concat_app. cbn [fmap list_fmap concat]. by rewrite app_nil_r, <- app_assoc. Qed.

Lemma block_bytes_mod ns : zlen (block_bytes ns) mod 4 = 0.
Proof.
  induction ns as [|n ns IH] using rev_ind; [done|]. rewrite block_bytes_app, length_app, Nat2Z.inj_add, length_node_padded.
  by rewrite Z.mod_add by lia.
Qed.

Lemma nonempty_blocks {A} (nss : list (list A)) : Forall (fun l => l <> []) nss -> (length nss <= length (mjoin nss))%nat.
Proof.
  induction 1 as [|ns nss Hne _ IH]; [done|]. destruct ns; [done|]. change (mjoin ((a :: ns) :: nss)) with ((a :: ns) ++ mjoin nss).
  rewrite length_app. cbn [length]. lia.
Qed.

Lemma opp_mod_fill z m : 0 < z <= m -> - z mod m = m - z.
Proof. intros Hz. symmetry. apply (Z.mod_unique _ _ (-1)); lia. Qed.

(** Writing the block out. *)
Lemma close_block s out ns : lay s out (block_bytes ns) -> (length out < room)%nat ->
  exists s', pad es s = Ok () s' /\ counts s' = counts s /\ lay s' (out ++ [full_block es ns]) [].
Proof.
  intros Hl Hr. pose proof (lay_room _ _ _ _ _ _ _ Hl) as Hle.
  assert (0 < zlen (block_bytes ns)) as H0 by (unfold block_bytes; cbn [CLEANMARKER app length]; lia).
  destruct (pad_spec d0 fl0 blks0 done0 ltac:(lia) s out (block_bytes ns) es Hl) as (s' & Hp & Hc & Hl'); [lia|by apply Z.mod_same; lia|done|done|].
  exists s'. split; [exact Hp|]. split; [exact Hc|]. rewrite opp_mod_fill in Hl' by lia. fold (full_block es ns) in Hl'.
  assert (zlen (full_block es ns) = es) as E by (unfold full_block, ff; rewrite length_app, length_replicate; lia).
  by rewrite E, Z.eqb_refl in Hl'.
Qed.

Lemma new_block s out : lay s out [] -> exists s', prep_eraseblock s = Ok () s' /\ counts s' = counts s /\ lay s' out (block_bytes []).
Proof. intros Hl. apply (prep_empty d0 fl0 blks0 done0); [done|lia]. Qed.

(** Behind a node the next block is started when this one is full. *)
Lemma settle_node s nss ns n :
  lay s (full_block es <$> nss) (block_bytes ns ++ node_bytes n) -> Forall node_ok (mjoin nss ++ ns) -> node_ok n ->
  Forall (fun l => l <> []) nss -> (length nss < room)%nat ->
  exists s', pad 4 s = Ok () s' /\ counts s' = counts s /\
    ((holds s' nss (ns ++ [n]) /\ zlen (block_bytes (ns ++ [n])) < es) \/
     (lay s' (full_block es <$> (nss ++ [ns ++ [n]])) [] /\ zlen (block_bytes (ns ++ [n])) = es)).
Proof.
  intros Hl Hok Hn Hne Hr. set (c := block_bytes ns ++ node_bytes n) in *.
  assert (c ++ ff (- zlen c mod 4) = block_bytes (ns ++ [n])) as E.
  { unfold c. rewrite block_bytes_app. unfold node_padded. rewrite <- app_assoc. do 3 f_equal.
    rewrite length_app, Nat2Z.inj_add, length_node_bytes. pose proof (block_bytes_mod ns). Z.div_mod_to_equations. lia. }
  destruct (pad_spec d0 fl0 blks0 done0 ltac:(lia) s _ c 4 Hl) as (s' & Hp & Hc & Hl'); [lia|done|done|by rewrite length_fmap|].
  exists s'. split; [exact Hp|]. split; [exact Hc|]. rewrite E in Hl'. destruct (Z.eqb_spec (zlen (block_bytes (ns ++ [n]))) es) as [Hf|Hf].
  - right. split; [|done]. rewrite fmap_app. cbn [fmap list_fmap]. unfold full_block at 2. rewrite Hf, Z.sub_diag. by rewrite app_nil_r.
  - left. pose proof (lay_room _ _ _ _ _ _ _ Hl'). split; [|lia]. split; [done|lia| |done].
    rewrite app_assoc. by apply Forall_app_2; [|constructor].
Qed.

Lemma holds_ofs s nss ns : holds s nss ns -> ofs s = zlen (block_bytes ns) /\ erasesize s = es.
Proof. intros [Hl _ _ _]. split; [apply Hl|by apply (lay_es _ _ _ _ _ _ _ Hl)]. Qed.

(** Counters do not matter to the buffer. *)
Lemma lay_counts s out c i v : lay s out c ->
  lay (Jffs2 i v (jbuf s) (ofs s) (outdev s) (outpos s) (mtdofs s) (target_ino s)) out c.
Proof. by intros [Hf Hb Hby Hp Ho Hr]. Qed.

Lemma holds_counts s nss ns i v : holds s nss ns ->
  holds (Jffs2 i v (jbuf s) (ofs s) (outdev s) (outpos s) (mtdofs s) (target_ino s)) nss ns.
Proof. intros [Hl Hlt Hok Hne]. split; [by apply lay_counts|done|done|done]. Qed.

Lemma finish_node s nss ns n :
  lay s (full_block es <$> nss) (block_bytes ns ++ node_bytes n) -> Forall node_ok (mjoin nss ++ ns) -> node_ok n ->
  Forall (fun l => l <> []) nss -> (length nss < room)%nat ->
  exists s1 s' nss' ns', pad 4 s = Ok () s1 /\ prep_eraseblock s1 = Ok () s' /\ counts s' = counts s /\
    holds s' nss' ns' /\ mjoin nss' ++ ns' = (mjoin nss ++ ns) ++ [n].
Proof.
  intros Hl Hok Hn Hne Hr. destruct (settle_node s nss ns n Hl Hok Hn Hne Hr) as (s1 & Hp & Hc & [[Hh _]|[Hl1 _]]).
  - exists s1, s1, nss, (ns ++ [n]). split; [done|]. split; [|split; [done|split; [done|by rewrite app_assoc]]].
    apply (prep_noop d0 fl0 blks0 done0 s1 _ _ (h_lay _ _ _ Hh)). apply block_bytes_ne.
  - destruct (new_block s1 _ Hl1) as (s2 & Hp2 & Hc2 & Hl2).
    assert (mjoin (nss ++ [ns ++ [n]]) = (mjoin nss ++ ns) ++ [n]) as E by (rewrite join_app; cbn [mjoin list_join]; by rewrite app_nil_r, app_assoc).
    exists s1, s2, (nss ++ [ns ++ [n]]), []. split; [done|]. split; [done|]. split; [congruence|]. split; [|by rewrite app_nil_r].
    split; [done|cbn; lia| |apply Forall_app_2; [done|constructor; [by destruct ns|constructor]]].
    rewrite app_nil_r, E. by apply Forall_app_2; [|constructor].
Qed.

(** Room for a node with more than 128 bytes of data. *)
Lemma make_room_spec s nss ns : holds s nss ns -> (length (mjoin nss ++ ns) < room)%nat ->
  exists s' nss' ns', make_room 3 s = Ok (es - zlen (block_bytes ns') - 68) s' /\ counts s' = counts s /\ holds s' nss' ns' /\
    mjoin nss' ++ ns' = mjoin nss ++ ns /\ 128 < es - zlen (block_bytes ns') - 68.
Proof.
  intros Hh Hr. destruct (holds_ofs _ _ _ Hh) as [Ho He]. pose proof Hh as [Hl Hlt Hok Hne].
  assert (forall k t mss ms, holds t mss ms -> 128 < es - zlen (block_bytes ms) - 68 ->
    make_room (S k) t = Ok (es - zlen (block_bytes ms) - 68) t) as Hgo.
  { intros k t mss ms Ht H128. destruct (holds_ofs _ _ _ Ht) as [Ho' He']. cbn [make_room]. unfold mbind, M_bind, get. cbv beta iota.
    unfold rbytes. rewrite He', Ho', Z.mod_small by (destruct Ht; lia). rewrite s32_id by lia.
    replace (es - zlen (block_bytes ms) - 68) with (es - zlen (block_bytes ms) - 68) by lia. by rewrite (proj2 (Z.ltb_lt _ _)) by lia. }
  destruct (decide (128 < es - zlen (block_bytes ns) - 68)) as [H128|H128].
  { exists s, nss, ns. split; [by eapply Hgo|]. done. }
  assert (ns <> []) as Hnn by (intros ->; cbn in H128; lia).
  pose proof (nonempty_blocks nss Hne) as Hcount. rewrite length_app in Hr.
  destruct (close_block s _ ns Hl) as (s1 & Hp & Hc1 & Hl1); [rewrite length_fmap; lia|].
  destruct (new_block s1 _ Hl1) as (s2 & Hp2 & Hc2 & Hl2).
  assert (holds s2 (nss ++ [ns]) []) as Hh2.
  { split; [by rewrite fmap_app|cbn; lia| |by apply Forall_app_2; [|constructor]].
    rewrite app_nil_r. rewrite join_app. cbn [mjoin list_join]. by rewrite app_nil_r. }
  exists s2, (nss ++ [ns]), []. split; [|split; [congruence|split; [exact Hh2|split; [|cbn; lia]]]].
  - rewrite <- (Hgo 1%nat s2 _ _ Hh2) by (cbn; lia). cbn [make_room]. unfold mbind at 1, M_bind, get. cbv beta iota.
    unfold rbytes. rewrite He, Ho, Z.mod_small by lia. rewrite s32_id by lia. rewrite (proj2 (Z.ltb_ge _ _)) by lia.
    unfold mbind at 1, M_bind. rewrite Hp. unfold mbind at 1, M_bind. by rewrite Hp2.
  - rewrite app_nil_r, join_app. cbn [mjoin list_join]. by rewrite app_nil_r.
Qed.

(** The loop over the file. *)
Lemma add_chunks_spec inode st fuel : forall s nss ns rest off,
  holds s nss ns -> is_u32 inode -> stat_ok st -> Forall is_byte rest -> 0 <= off -> off + zlen rest < 2 ^ 31 ->
  0 <= last_version s -> last_version s + zlen rest < 2 ^ 31 ->
  Z.of_nat (length (mjoin nss ++ ns)) + (zlen rest + 128) / 129 < Z.of_nat room -> (length rest < fuel)%nat ->
  exists s' nss' ns' cs, add_chunks fuel inode st rest off s = Ok () s' /\ holds s' nss' ns' /\
    mjoin nss' ++ ns' = (mjoin nss ++ ns) ++ cs /\ chain inode st off (last_version s) cs rest /\
    zlen cs <= (zlen rest + 128) / 129 /\ target_ino s' = target_ino s /\ last_ino s' = last_ino s.
Proof.
  induction fuel as [|fuel IH]; intros s nss ns rest off Hh Hi Hst Hby Ho Hoff Hv Hvr Hroom Hf; [lia|].
  assert (0 <= (zlen rest + 128) / 129) as Hq by (apply Z.div_pos; lia).
  destruct (make_room_spec s nss ns Hh) as (s1 & nss1 & ns1 & Hmr & Hc1 & Hh1 & Hlog & H128); [lia|].
  injection Hc1 as Hc1i Hc1v Hc1t. set (len := es - zlen (block_bytes ns1) - 68) in *.
  cbn [add_chunks]. unfold mbind at 1, M_bind at 1. rewrite Hmr.
  set (n := if 4096 <? len then 4096 else len). assert (129 <= n <= len) as Hn by (unfold n; destruct (Z.ltb_spec 4096 len); lia).
  set (wbuf := take (Z.to_nat n) rest). assert (zlen wbuf = Z.min n (zlen rest)) as Hw by (unfold wbuf; rewrite length_take; lia).
  destruct (Z.leb_spec (zlen wbuf) 0) as [Hz|Hz].
  { assert (rest = []) as -> by (destruct rest; [done|cbn [length] in *; lia]).
    exists s1, nss1, ns1, []. split; [reflexivity|]. split; [done|]. rewrite app_nil_r. split; [done|]. split; [constructor|]. split; [by vm_compute|done]. }
  assert (Forall is_byte wbuf) as Hwb by (by apply Forall_take).
  set (nd := NInode inode (last_version s + 1) st off wbuf).
  assert (node_ok nd) as Hnd by (unfold nd, node_ok; split_and!; try done; width).
  unfold mbind at 1, M_bind at 1, get at 1. cbv beta iota. unfold mbind at 1, M_bind at 1, set_counts at 1. rewrite Hc1v.
  set (s2 := Jffs2 (last_ino s1) (last_version s + 1) _ _ _ _ _ _).
  pose proof (holds_counts s1 nss1 ns1 (last_ino s1) (last_version s + 1) Hh1) as Hh2. fold s2 in Hh2.
  set (raw := raw_inode _ _ _ _ _ _ _).
  assert (node_bytes nd = raw ++ wbuf) as Hnb by done. pose proof (length_node_bytes nd) as Hnl. rewrite Hnb, length_app in Hnl. cbn [nd node_len] in Hnl.
  pose proof (node_bytes_ok nd Hnd) as Hnby. rewrite Hnb in Hnby. apply Forall_app in Hnby as [Hraw _].
  destruct (add_data_spec d0 fl0 blks0 done0 s2 _ _ raw (h_lay _ _ _ Hh2) Hraw) as (s3 & Hr3 & Hc3 & Hl3); [lia|].
  unfold mbind at 1, M_bind at 1. rewrite Hr3.
  destruct (add_data_spec d0 fl0 blks0 done0 s3 _ _ wbuf Hl3 Hwb) as (s4 & Hr4 & Hc4 & Hl4); [rewrite length_app; lia|].
  unfold mbind at 1, M_bind at 1. rewrite Hr4. rewrite <- app_assoc, <- Hnb in Hl4.
  pose proof Hh1 as [_ _ Hok1 Hne1]. pose proof (nonempty_blocks nss1 Hne1) as Hcount. assert (length (mjoin nss1 ++ ns1) = length (mjoin nss ++ ns)) as Hll by (by rewrite Hlog).
  rewrite length_app in Hll.
  destruct (finish_node s4 nss1 ns1 nd Hl4 Hok1 Hnd Hne1) as (s5 & s6 & nss6 & ns6 & Hp5 & Hp6 & Hc6 & Hh6 & Hlog6); [lia|].
  unfold mbind at 1, M_bind at 1. rewrite Hp5. unfold mbind at 1, M_bind at 1. rewrite Hp6.
  assert (counts s6 = (last_ino s, last_version s + 1, target_ino s)) as Hcs
    by (rewrite Hc6, Hc4, Hc3; unfold counts, s2; cbn [last_ino last_version target_ino]; by rewrite Hc1i, Hc1t).
  injection Hcs as Hci Hcv Hct.
  assert (rest = wbuf ++ drop (Z.to_nat n) rest) as Hsplit by (symmetry; apply take_drop).
  assert (zlen (drop (Z.to_nat n) rest) = zlen rest - zlen wbuf) as Hdl by (rewrite length_drop; lia).
  assert (drop (Z.to_nat (zlen wbuf)) rest = drop (Z.to_nat n) rest) as ->.
  { destruct (decide (n <= zlen rest)); [f_equal; lia|]. by rewrite !drop_ge by lia. }
  assert ((zlen (drop (Z.to_nat n) rest) + 128) / 129 + 1 <= (zlen rest + 128) / 129) as Hdiv
    by (rewrite Hdl; clear -Hw Hz Hn; Z.div_mod_to_equations; lia).
  rewrite Hlog in Hlog6. pose proof (f_equal length Hlog6) as Hlen6. rewrite (length_app (mjoin nss ++ ns)) in Hlen6. cbn [length] in Hlen6.
  destruct (IH s6 nss6 ns6 (drop (Z.to_nat n) rest) (off + zlen wbuf) Hh6 Hi Hst) as (s7 & nss7 & ns7 & cs & Hr7 & Hh7 & Hlog7 & Hch & Hcl & Ht7 & Hi7);
    [by apply Forall_drop|lia|lia|lia|lia|lia|lia|].
  exists s7, nss7, ns7, (nd :: cs). split; [exact Hr7|]. split; [exact Hh7|]. split; [by rewrite Hlog7, Hlog6, <- app_assoc|].
  split; [|split; [cbn [length]; lia|split; congruence]]. rewrite Hsplit. constructor; [by intros E; rewrite E in Hz|]. by rewrite Hcv in Hch.
Qed.

(** The buffer before a directory entry: a new block, or one with room. *)
Definition before (s : jffs2) (nss : list (list jnode)) (ns : list jnode) : Prop :=
  holds s nss ns \/ (ns = [] /\ lay s (full_block es <$> nss) [] /\ Forall node_ok (mjoin nss) /\ Forall (fun l => l <> []) nss).

Lemma prep_before s nss ns : before s nss ns ->
  exists s', prep_eraseblock s = Ok () s' /\ counts s' = counts s /\ holds s' nss ns.
Proof.
  intros [Hh|(-> & Hl & Hok & Hne)].
  - exists s. split; [|done]. apply (prep_noop d0 fl0 blks0 done0 s _ _ (h_lay _ _ _ Hh)). apply block_bytes_ne.
  - destruct (new_block s _ Hl) as (s' & Hp & Hc & Hl'). exists s'. split; [done|]. split; [done|].
    split; [done|cbn; lia|by rewrite app_nil_r|done].
Qed.

Lemma before_ofs s nss ns : before s nss ns -> 0 <= ofs s < es /\ erasesize s = es.
Proof.
  intros [Hh|(-> & Hl & _)].
  - destruct (holds_ofs _ _ _ Hh) as [-> ->]. destruct Hh. split; [lia|done].
  - rewrite (lay_ofs _ _ _ _ _ _ _ Hl), (lay_es _ _ _ _ _ _ _ Hl). cbn. split; [lia|done].
Qed.

Lemma zwrite_lay s out c data more : lay s out c -> Forall is_byte (data ++ more) -> zlen c + zlen data + zlen more <= es ->
  exists b b', zwrite (jbuf s) (ofs s) data = Some b /\ zwrite b (ofs s + zlen data) more = Some b' /\
    forall i v, lay (Jffs2 i v b' (ofs s + zlen data + zlen more) (outdev s) (outpos s) (mtdofs s) (target_ino s)) out (c ++ data ++ more).
Proof.
  intros [Hf Hb Hby Hp Ho Hr] Hd Hle. rewrite Ho in *. set (free := drop (length c) (jbuf s)).
  assert (jbuf s = c ++ free) as Hs by (by apply buf_split). assert (zlen free = es - zlen c) as Hfl by (unfold free; rewrite length_drop; lia).
  exists ((c ++ data) ++ drop (length data) free), (((c ++ data) ++ more) ++ drop (length more) (drop (length data) free)).
  split; [|split].
  - rewrite Hs, zwrite_app_r by lia. by rewrite app_assoc.
  - rewrite <- Nat2Z.inj_add, <- length_app, zwrite_app_r by (rewrite length_drop; lia). by rewrite app_assoc.
  - intros i v. rewrite app_assoc. split; cbn [jbuf ofs]; try done.
    + rewrite !length_app, !length_drop. lia.
    + rewrite <- app_assoc. by apply Forall_app_2.
    + apply take_app_length.
    + rewrite !length_app. lia.
    + rewrite !length_app. lia.
Qed.

Lemma add_dirent_spec s nss ns name type parent :
  before s nss ns -> node_ok (NDirent parent (last_version s) (last_ino s + 1) type name) ->
  zlen (block_bytes ns) + 44 + zlen name < es -> (length nss < room)%nat ->
  exists s', add_dirent name type parent s = Ok (last_ino s + 1) s' /\
    holds s' nss (ns ++ [NDirent parent (last_version s) (last_ino s + 1) type name]) /\
    counts s' = (last_ino s + 2, last_version s + 1, target_ino s).
Proof.
  intros Hb Hok Hfit Hr. destruct (before_ofs _ _ _ Hb) as [Ho He]. destruct (prep_before _ _ _ Hb) as (s1 & Hp1 & Hc1 & Hh1).
  injection Hc1 as Hc1i Hc1v Hc1t. set (nd := NDirent _ _ _ _ _) in *. pose proof Hok as (_ & _ & _ & _ & Hn & Hnb).
  destruct (holds_ofs _ _ _ Hh1) as [Ho1 He1]. pose proof Hh1 as [Hl1 _ Hok1 Hne1].
  set (raw := raw_dirent parent (last_version s) (last_ino s + 1) type name).
  assert (node_bytes nd = raw ++ name) as Hnd by done. pose proof (length_node_bytes nd) as Hnl. rewrite Hnd, length_app in Hnl. cbn [nd node_len] in Hnl.
  assert (zlen raw = 40) as Hrl by lia.
  destruct (zwrite_lay s1 _ _ raw name Hl1) as (b & b' & Hw1 & Hw2 & Hl2); [rewrite <- Hnd; by apply node_bytes_ok|lia|].
  specialize (Hl2 (last_ino s + 1 + 1) (last_version s + 1)). rewrite Hrl in *. rewrite <- Hnd in Hl2.
  destruct (settle_node _ nss ns nd Hl2 Hok1 Hok Hne1 Hr) as (s3 & Hp3 & Hc3 & Hcase).
  exists s3. split; [|split].
  - unfold add_dirent. unfold mbind at 1, M_bind at 1, get at 1. cbv beta iota. rewrite He.
    assert (u32 (ofs s - es) = 2 ^ 32 + (ofs s - es)) as -> by (unfold u32; symmetry; apply (Z.mod_unique _ _ (-1)); lia).
    rewrite (proj2 (Z.ltb_ge _ _)) by lia. unfold mbind at 1, M_bind at 1, mret, M_ret. unfold mbind at 1, M_bind at 1. rewrite Hp1.
    unfold mbind at 1, M_bind at 1, get at 1. cbv beta iota. rewrite Hc1i, Hc1v. fold raw.
    unfold mbind, M_bind, set_counts, mem, set_buf, set_ofs. cbn [last_ino last_version jbuf ofs outdev outpos mtdofs target_ino].
    rewrite Hw1, Hw2. cbn [last_ino last_version jbuf ofs outdev outpos mtdofs target_ino]. rewrite (u8_id (zlen name)) by width. by rewrite Hp3.
  - destruct Hcase as [[Hh _]|[_ Hfull]]; [exact Hh|]. rewrite block_bytes_app, length_app in Hfull.
    pose proof (length_node_padded nd) as Hpl. cbn [nd node_len] in Hpl. Z.div_mod_to_equations. lia.
  - rewrite Hc3. unfold counts. cbn [last_ino last_version target_ino]. by rewrite Hc1t, <- Z.add_assoc.
Qed.

(** The node of a new directory. *)
Definition dir_stat : filestat := Stat (Z.lor S_IFDIR 0x1ed) 0 0 0 0.

Lemma add_dir_spec s nss ns name parent :
  before s nss ns -> node_ok (NDirent parent (last_version s) (last_ino s + 1) DT_DIR name) ->
  zlen (block_bytes ns) + 116 + zlen name < es -> (length nss < room)%nat ->
  exists s', add_dir name parent s = Ok (last_ino s + 1) s' /\
    holds s' nss (ns ++ [NDirent parent (last_version s) (last_ino s + 1) DT_DIR name; NInode (last_ino s + 1) 1 dir_stat 0 []]) /\
    counts s' = (last_ino s + 2, last_version s + 1, target_ino s).
Proof.
  intros Hb Hok Hfit Hr. destruct (add_dirent_spec s nss ns name DT_DIR parent Hb Hok) as (s1 & Hp1 & Hh1 & Hc1); [lia|done|].
  set (n1 := NDirent _ _ _ _ _) in *. set (n2 := NInode (last_ino s + 1) 1 dir_stat 0 []).
  assert (node_ok n2) as Hok2 by (destruct Hok as (_ & _ & Hi & _); unfold n2, node_ok, stat_ok; cbn; split_and!; try done; width).
  destruct (holds_ofs _ _ _ Hh1) as [Ho1 He1]. pose proof Hh1 as [Hl1 Hlt1 Hok1 Hne1].
  assert (zlen (block_bytes (ns ++ [n1])) + 72 < es) as Hfit1.
  { rewrite block_bytes_app, length_app. pose proof (length_node_padded n1) as Hpl. cbn [n1 node_len] in Hpl. Z.div_mod_to_equations. lia. }
  assert (node_bytes n2 = raw_inode 68 (last_ino s + 1) 1 dir_stat 0 0 0) as Hnb by (cbn [n2 node_bytes]; rewrite app_nil_r; done).
  destruct (add_data_spec d0 fl0 blks0 done0 s1 _ _ (node_bytes n2) Hl1) as (s2 & Hp2 & Hc2 & Hl2); [by apply node_bytes_ok|rewrite length_node_bytes; cbn [n2 node_len length]; lia|].
  destruct (settle_node s2 nss (ns ++ [n1]) n2 Hl2 Hok1 Hok2 Hne1 Hr) as (s3 & Hp3 & Hc3 & Hcase).
  exists s3. split; [|split].
  - unfold add_dir. unfold mbind at 1, M_bind at 1. rewrite Hp1. unfold mbind at 1, M_bind at 1, get at 1. cbv beta iota.
    unfold rbytes. rewrite He1, Ho1, Z.mod_small, (proj2 (Z.ltb_ge _ _)) by lia. unfold mbind, M_bind, mret, M_ret.
    rewrite (prep_noop d0 fl0 blks0 done0 s1 _ _ Hl1) by apply block_bytes_ne. fold dir_stat. rewrite <- Hnb, Hp2. by rewrite Hp3.
  - assert (ns ++ [n1; n2] = (ns ++ [n1]) ++ [n2]) as -> by (by rewrite <- app_assoc). destruct Hcase as [[Hh _]|[_ Hfull]]; [exact Hh|].
    rewrite block_bytes_app, length_app in Hfull. pose proof (length_node_padded n2) as Hpl. cbn [n2 node_len length] in Hpl. change ((68 + Z.of_nat 0 + 3) / 4 * 4) with 68 in Hpl. lia.
  - congruence.
Qed.

(** ** The whole append *)

Definition eof_block (n : Z) : list Z := JFFS2_EOF ++ ff (n - 4).

Lemma add_eof_spec s nss ns : holds s nss ns -> (length (mjoin nss) + 1 < room)%nat ->
  exists s', add_eof es s = Ok () s' /\ counts s' = counts s /\ lay s' ((full_block es <$> (nss ++ [ns])) ++ [eof_block es]) [].
Proof.
  intros [Hl Hlt Hok Hne] Hr. pose proof (nonempty_blocks nss Hne) as Hcount.
  destruct (close_block s _ ns Hl) as (s1 & Hp1 & Hc1 & Hl1); [rewrite length_fmap; lia|].
  destruct (add_data_spec d0 fl0 blks0 done0 s1 _ [] JFFS2_EOF Hl1) as (s2 & Hp2 & Hc2 & Hl2); [unfold is_byte; repeat constructor; lia|cbn; lia|].
  destruct (pad_spec d0 fl0 blks0 done0 ltac:(lia) s2 _ _ es Hl2) as (s3 & Hp3 & Hc3 & Hl3);
    [lia|by apply Z.mod_same; lia|done|intros _; rewrite length_app, length_fmap; cbn [length]; lia|].
  exists s3. unfold add_eof, mbind, M_bind. rewrite Hp1, Hp2, Hp3. split; [done|]. split; [congruence|].
  cbn [app] in Hl3. change (zlen JFFS2_EOF) with 4 in Hl3. rewrite opp_mod_fill in Hl3 by lia. fold (eof_block es) in Hl3.
  assert (zlen (eof_block es) = es) as E by (unfold eof_block, ff; rewrite length_app, length_replicate; cbn [JFFS2_EOF length]; lia).
  rewrite E, Z.eqb_refl in Hl3. by rewrite fmap_app.
Qed.

(** A file behind whatever is in the buffer. *)
Lemma add_file_spec s nss ns st f name parent :
  before s nss ns -> node_ok (NDirent parent (last_version s) (last_ino s + 1) DT_REG (base_name name)) -> stat_ok st -> Forall is_byte f ->
  zlen (block_bytes ns) + 44 + zlen (base_name name) < es -> zlen f < 2 ^ 31 -> 0 <= last_version s -> last_version s + zlen f + 1 < 2 ^ 31 ->
  Z.of_nat (length (mjoin nss ++ ns)) + (zlen f + 128) / 129 + 2 < Z.of_nat room ->
  exists s' nss' ns' cs, add_file (Some (st, Some f)) name parent s = Ok () s' /\ holds s' nss' ns' /\
    mjoin nss' ++ ns' = (mjoin nss ++ ns) ++ NDirent parent (last_version s) (last_ino s + 1) DT_REG (base_name name) :: cs /\
    chain (last_ino s + 1) st 0 (last_version s + 1) cs f /\ (length (mjoin nss') + 1 < room)%nat /\ zlen cs <= (zlen f + 128) / 129.
Proof.
  intros Hb Hnd Hst Hby Hfit Hf31 Hv Hv31 Hr. set (nd := NDirent _ _ _ _ _) in *.
  assert (0 <= (zlen f + 128) / 129) as Hq by (apply Z.div_pos; lia).
  assert (length nss <= length (mjoin nss))%nat as Hcount by (destruct Hb as [[_ _ _ Hne]|(_ & _ & _ & Hne)]; by apply nonempty_blocks).
  rewrite length_app in Hr.
  destruct (add_dirent_spec s nss ns (base_name name) DT_REG parent Hb Hnd Hfit) as (s1 & Hp1 & Hh1 & Hc1); [lia|]. fold nd in Hh1.
  injection Hc1 as Hc1i Hc1v Hc1t.
  destruct (add_chunks_spec (last_ino s + 1) st (S (length f)) s1 nss (ns ++ [nd]) f 0 Hh1) as (s2 & nss2 & ns2 & cs & Hp2 & Hh2 & Hlog & Hch & Hcl & Ht & _);
    [by destruct Hnd as (_ & _ & ? & _)|done|done|lia|lia|lia|lia|rewrite !length_app; cbn [length]; lia|lia|].
  exists s2, nss2, ns2, cs. split; [|split; [done|]].
  - unfold add_file. unfold mbind, M_bind. by rewrite Hp1.
  - rewrite Hc1v in Hch. split; [rewrite Hlog; by rewrite <- !app_assoc|]. split; [done|]. split; [|done].
    pose proof (f_equal length Hlog) as Hl. rewrite !length_app in Hl. cbn [length] in Hl. lia.
Qed.

Lemma Forall_mjoin {A} (P : A -> Prop) mss : Forall P (mjoin mss) -> Forall (Forall P) mss.
Proof.
  induction mss as [|ns mss IH]; [constructor|]. change (mjoin (ns :: mss)) with (ns ++ mjoin mss).
  intros [Hn Hns]%Forall_app. constructor; [done|by apply IH].
Qed.

(** What a reader makes of blocks that were written: nodes [pre], then a file. *)
Definition file_log (blocks : list (list Z)) (pre : list jnode) (pino version ino : Z) (st : filestat) (name f : list Z) : Prop :=
  exists cs, read_log blocks = Some (pre ++ NDirent pino version ino DT_REG name :: cs) /\
    chain ino st 0 (version + 1) cs f /\ file_of ino cs = f.

(** The last steps of both ways to append: a file behind [pre], and the end marker. *)
Lemma append_lay s1 pre st f name parent :
  before s1 [] pre -> is_u32 parent -> 0 <= last_ino s1 < 2 ^ 31 - 2 -> 0 <= last_version s1 ->
  last_version s1 + zlen f + 1 < 2 ^ 31 -> stat_ok st -> Forall is_byte f -> zlen f < 2 ^ 31 ->
  Forall is_byte (base_name name) -> zlen (base_name name) < 256 -> zlen (block_bytes pre) + 44 + zlen (base_name name) < es ->
  zlen pre + (zlen f + 128) / 129 + 2 < Z.of_nat room ->
  exists s2 s3 blocks, add_file (Some (st, Some f)) name parent s1 = Ok () s2 /\ add_eof es s2 = Ok () s3 /\
    lay s3 (blocks ++ [eof_block es]) [] /\ (length blocks + 1 <= room)%nat /\ zlen blocks <= zlen pre + (zlen f + 128) / 129 + 2 /\
    file_log blocks pre parent (last_version s1) (last_ino s1 + 1) st (base_name name) f.
Proof.
  intros Hb1 Hpar Hi Hv Hv31 Hst Hby Hf31 Hnb Hnl Hnf Hroom.
  destruct (add_file_spec s1 [] pre st f name parent Hb1) as (s2 & nss & ns & cs & Hp2 & Hh2 & Hlog & Hch & Hr2 & Hcs);
    try done; [|].
  { unfold node_ok, DT_REG. split_and!; try done; width. }
  destruct (add_eof_spec s2 nss ns Hh2 Hr2) as (s3 & Hp3 & _ & Hl3).
  pose proof (nonempty_blocks nss (h_ne _ _ _ Hh2)) as Hcount.
  exists s2, s3, (full_block es <$> (nss ++ [ns])). split; [exact Hp2|]. split; [exact Hp3|]. split; [exact Hl3|].
  pose proof (f_equal length Hlog) as Hll. rewrite !length_app in Hll. cbn [length mjoin list_join app] in Hll.
  rewrite length_fmap, length_app. cbn [length]. split; [lia|]. split; [lia|]. exists cs. split; [|split; [exact Hch|]].
  - assert (mjoin (nss ++ [ns]) = mjoin nss ++ ns) as Ej by (rewrite join_app; cbn [mjoin list_join]; by rewrite app_nil_r).
    pose proof (h_ok _ _ _ Hh2) as Hok. rewrite read_log_full, Ej, Hlog; [done|].
    apply Forall_app in Hok as [Hok1 Hok2]. apply Forall_app_2; [by apply Forall_mjoin|by constructor].
  - apply (chain_file _ _ _ _ _ _ Hch []). done.
Qed.

(** [mtd_replace_jffs2] at the place where the blocks to be written start. *)
Lemma replace_lay s garbage st f name pos :
  blocked d0 fl0 blks0 pos done0 -> zlen garbage = es -> ofs s = 0 ->
  0 <= last_ino s < 2 ^ 31 - 2 -> 0 <= last_version s -> last_version s + zlen f + 1 < 2 ^ 31 ->
  stat_ok st -> Forall is_byte f -> zlen f < 2 ^ 31 ->
  Forall is_byte (base_name name) -> zlen (base_name name) < 256 -> zlen (base_name name) + 56 < es ->
  (zlen f + 128) / 129 + 2 < Z.of_nat room ->
  exists s' blocks, mtd_replace_jffs2 (Some garbage) d0 pos pos (Some (st, Some f)) name s = Ok (mtdofs s' - pos) s' /\
    lay s' (blocks ++ [eof_block es]) [] /\ (length blocks + 1 <= room)%nat /\ zlen blocks <= (zlen f + 128) / 129 + 2 /\
    file_log blocks [] 1 (last_version s) (Z.max 1 (last_ino s) + 1) st (base_name name) f.
Proof.
  intros Hbk Hg Ho Hi Hv Hv31 Hst Hby Hf31 Hnb Hnl Hnf Hroom.
  set (s1 := Jffs2 (Z.max 1 (last_ino s)) (last_version s) garbage 0 d0 pos pos 1).
  assert (lay s1 [] []) as Hl1.
  { split; [|done|constructor|done|done|cbn; lia].
    split; [constructor|]. split; [done|]. split; [exists (d_flash d0); symmetry; by apply with_flash_same|].
    exists fl0, blks0, []. cbn [s1 outdev mtdofs concat length]. rewrite app_nil_r, spans_0. split; [exact Hbk|]. split; [done|]. split_and!; [lia|lia|done|done]. }
  destruct (append_lay s1 [] st f name 1) as (s2 & s3 & blocks & Hp2 & Hp3 & Hl3 & Hr3 & Hc3 & Hlog); try done; cbn [s1 last_ino last_version]; try lia;
    [right; done|cbn; lia|].
  exists s3, blocks. split; [|done].
  unfold mtd_replace_jffs2, mbind, M_bind, set_out, mem, set_buf, set_target, get. cbv beta iota.
  cbn [last_ino last_version jbuf ofs outdev outpos mtdofs target_ino]. unfold set_counts, mret, M_ret.
  match goal with |- match ?x with _ => _ end = _ => replace x with (@Ok unit () s1) end.
  - rewrite Hp2. change (erasesize (Jffs2 _ _ _ _ d0 _ _ _)) with es. by rewrite Hp3.
  - unfold s1. rewrite Ho. destruct (Z.eqb_spec (last_ino s) 0) as [->|Hne]; [done|]. by replace (Z.max 1 (last_ino s)) with (last_ino s) by lia.
Qed.
End nodes.

(** ** Devices *)

(** The good blocks from block [k] on. *)
Definition good_from (k : nat) (d : device) : list (list Z) := good_of (drop k (flags_of d)) (drop k (blocks_of d)).

Lemma slices_concat (bs : list (list Z)) m : Forall (fun b : list Z => length b = m) bs ->
  (fun i => take m (drop (i * m) (concat bs))) <$> seq 0 (length bs) = bs.
Proof.
  induction 1 as [|b bs Hb _ IH]; [done|]. cbn [length seq fmap list_fmap concat]. f_equal.
  - change (0 * m)%nat with 0%nat. rewrite drop_0. by apply take_app_length'.
  - rewrite <- fmap_S_seq. change (list_fmap _ _ ?f ?l) with (f <$> l). rewrite <- list_fmap_compose. rewrite <- IH at 2.
    apply list_fmap_ext. intros _ i _. cbn [compose]. f_equal. rewrite Nat.mul_succ_l, Nat.add_comm, <- drop_drop. by rewrite drop_app_length'.
Qed.

Lemma blocks_of_concat d bs : 0 < d_erasesize d -> d_flash d = concat bs -> Forall (fun b : list Z => zlen b = d_erasesize d) bs -> blocks_of d = bs.
Proof.
  intros He Hf Hb. unfold blocks_of, d_size. pose proof (concat_blocks _ _ Hb) as Hl. rewrite Hf, Hl, Z.div_mul, Nat2Z.id by lia.
  apply slices_concat. eapply Forall_impl; [exact Hb|]. cbv beta. lia.
Qed.

Lemma blocked_drop d fl blks k : (k <= length blks)%nat -> blocked d fl blks 0 [] ->
  blocked d (drop k fl) (drop k blks) (Z.of_nat k * d_erasesize d) (concat (take k blks)).
Proof.
  intros Hk Hb. induction k as [|k IH]; [rewrite !drop_0; by rewrite take_0|]. specialize (IH ltac:(lia)).
  pose proof (bl_flags _ _ _ _ _ Hb) as Hfl.
  destruct (lookup_lt_is_Some_2 fl k ltac:(lia)) as [f Hf]. destruct (lookup_lt_is_Some_2 blks k ltac:(lia)) as [b Hbk].
  rewrite (drop_S fl f k Hf), (drop_S blks b k Hbk) in IH. apply blocked_skip in IH.
  rewrite (take_S_r _ _ _ Hbk), concat_app. cbn [concat]. rewrite app_nil_r.
  replace (Z.of_nat (S k) * d_erasesize d) with (Z.of_nat k * d_erasesize d + d_erasesize d) by lia. exact IH.
Qed.

(** What blocks written out are to a reader of the device. *)
Lemma onflash_blocks d k s out : sound d -> (k <= length (blocks_of d))%nat -> (length out <= length (good_from k d))%nat ->
  onflash d (drop k (flags_of d)) (drop k (blocks_of d)) (concat (take k (blocks_of d))) s out ->
  take k (blocks_of (outdev s)) = take k (blocks_of d) /\ good_from k (outdev s) = out ++ drop (length out) (good_from k d).
Proof.
  intros Hs Hk Hlen (Hout & _ & (f & Hd) & fl & blks & pre & Hb & Hpl & _). pose proof (sound_blocked d Hs) as Hb0. destruct Hs as (He & _ & _).
  pose proof (blocked_drop d _ _ k Hk Hb0) as Hbk.
  specialize (Hpl []). rewrite app_nil_r in Hpl. assert (place fl blks [] = blks) as Epl by (by destruct fl). rewrite Epl in Hpl.
  set (pl := place (drop k (flags_of d)) (drop k (blocks_of d)) out) in *.
  assert (Forall (fun b : list Z => zlen b = d_erasesize d) pl) as Hpb by (apply place_blocks; [apply Hbk|done]).
  assert (blocks_of (outdev s) = take k (blocks_of d) ++ pl) as Ebl.
  { apply blocks_of_concat; [by rewrite Hd| |rewrite Hd; apply Forall_app_2; [apply Forall_take, Hb0|done]].
    rewrite (bl_flash _ _ _ _ _ Hb), concat_app, Hpl, concat_app. by rewrite <- app_assoc. }
  assert (length pl = length (drop k (blocks_of d))) as Hpll by (apply length_place).
  assert (flags_of (outdev s) = flags_of d) as Efl.
  { assert (d_size (outdev s) = d_size d) as Hsz.
    { unfold d_size. rewrite (bl_flash _ _ _ _ _ Hb), (bl_flash _ _ _ _ _ Hbk). rewrite !length_app.
      pose proof (concat_blocks _ _ Hpb) as H1. rewrite Hpl, concat_app, length_app in H1.
      pose proof (concat_blocks _ _ (bl_blocks _ _ _ _ _ Hbk)) as H2. rewrite <- Hpl in H1. rewrite Hpll in H1. lia. }
    unfold flags_of. rewrite Hsz. rewrite Hd in Hsz |- *. unfold mtd_block_is_bad. rewrite Hsz. done. }
  rewrite Ebl. assert (length (take k (blocks_of d)) = k) as Hkl by (rewrite length_take; lia). split.
  - by apply take_app_length'.
  - unfold good_from. rewrite Efl, Ebl, drop_app_length' by done. unfold pl. apply good_of_place; [apply Hbk|exact Hlen].
Qed.

(** The state an append starts from: a fresh buffer in front of block [k]. *)
Lemma start_lay d k s : sound d -> (k <= length (blocks_of d))%nat -> outdev s = d -> outpos s = mtdofs s ->
  mtdofs s = Z.of_nat k * d_erasesize d -> zlen (jbuf s) = d_erasesize d -> ofs s = 0 ->
  lay d (drop k (flags_of d)) (drop k (blocks_of d)) (concat (take k (blocks_of d))) s [] [].
Proof.
  intros Hs Hk Hd Hp Hm Hb Ho. pose proof (blocked_drop d _ _ k Hk (sound_blocked d Hs)) as Hbk. destruct Hs as (He & _ & _).
  split; [|done|constructor|done|done|cbn; lia].
  split; [constructor|]. split; [done|]. split; [exists (d_flash d); rewrite Hd; symmetry; by apply with_flash_same|].
  exists (drop k (flags_of d)), (drop k (blocks_of d)), []. rewrite Hd, Hm. cbn [concat]. rewrite app_nil_r. split; [exact Hbk|]. split; [done|]. cbn [length]. rewrite spans_0. split_and!; [lia|lia|done|done].
Qed.

(** From block [k] on: nodes [pre], then a file, then the end marker. *)
Definition appended (d d' : device) (k : nat) (pre : list jnode) (pino version ino : Z) (st : filestat) (name f : list Z) : Prop :=
  exists blocks,
    take k (blocks_of d') = take k (blocks_of d) /\
    good_from k d' = blocks ++ eof_block (d_erasesize d) :: drop (length blocks + 1) (good_from k d) /\
    file_log blocks pre pino version ino st name f.

(** Blocks that were written out from block [k] on. *)
Lemma lay_appended d k s blocks pre pino version ino st name f : sound d -> (k <= length (blocks_of d))%nat ->
  lay d (drop k (flags_of d)) (drop k (blocks_of d)) (concat (take k (blocks_of d))) s (blocks ++ [eof_block (d_erasesize d)]) [] ->
  (length blocks + 1 <= length (good_from k d))%nat -> file_log blocks pre pino version ino st name f ->
  appended d (outdev s) k pre pino version ino st name f.
Proof.
  intros Hs Hk Hl Hr Hlog. destruct (onflash_blocks d k s (blocks ++ [eof_block (d_erasesize d)]) Hs Hk) as [Htake Hgood];
    [rewrite length_app; exact Hr|apply Hl|].
  exists blocks. split; [exact Htake|]. split; [|exact Hlog]. rewrite Hgood, (length_app blocks). by rewrite <- app_assoc.
Qed.
