(* ===== verification/Jffs2Append.v ===== *)
(** [mtd jffs2write] as a whole: finding the end of the file system, the directory and the
    numbers to go on with, and appending the file; where it does not. *)

From stdpp Require Import gmap.
From S2P Require Import Prelude Crc Mtd MtdSpec MtdTrx Jffs2 Jffs2Nodes Jffs2Write Jffs2Parse Jffs2Spec.

(** What the nodes of the image say before any was read: no directory is found yet, unless the
    file goes to the root. *)
Definition scanned (dir : list Z) (ns : list jnode) : Z * Z * Z :=
  fold_left (see dir) ns (0, 0, if decide (dir = []) then 1 else 0).

(** An image of [nss] in front of a block that holds no node. *)
Record image_on (d : device) (nss : list (list jnode)) (bk : list Z) (rest : list (list Z)) : Prop := {
  im_sound : sound d;
  im_es : 208 < d_erasesize d < 2 ^ 31 /\ d_erasesize d mod 4 = 0;
  im_blocks : blocks_of d = (full_block (d_erasesize d) <$> nss) ++ bk :: rest;
  im_written : Forall (written_block (d_erasesize d)) nss;
  im_end : field bk 0 2 <> JFFS2_MAGIC_BITMASK
}.

(** The state of a fresh process that opened the device. *)
Definition fresh (d : device) : jffs2 := Jffs2 0 0 [] 0 d 0 0 0.

Lemma image_flash d nss bk rest : image_on d nss bk rest ->
  d_flash d = concat (full_block (d_erasesize d) <$> nss) ++ bk ++ concat rest /\ zlen bk = d_erasesize d /\
  (length nss <= length (blocks_of d))%nat /\ zlen nss <= d_size d.
Proof.
  intros [Hs [He _] Hb Hw _]. pose proof (sound_blocked d Hs) as Hbl. pose proof (bl_blocks _ _ _ _ _ Hbl) as Hsz. rewrite Hb in Hsz.
  apply Forall_app in Hsz as [_ Hsz]. apply Forall_cons in Hsz as [Hbk _].
  pose proof (bl_flash _ _ _ _ _ Hbl) as Hf. cbn [app] in Hf. assert (0 < d_erasesize d) as H0 by lia. pose proof (blocked_count _ _ _ _ _ H0 Hbl) as Hc.
  rewrite (bl_flags _ _ _ _ _ Hbl), Hb, length_app, length_fmap in Hc. rewrite Hb, length_app, length_fmap in *. rewrite concat_app in Hf.
  split; [exact Hf|]. split; [exact Hbk|]. cbn [length] in *. lia.
Qed.

(** The search on a fresh process. *)
Lemma find_end_fresh d nss bk rest dir garbage t : image_on d nss bk rest ->
  exists s', find_end (S (S (Z.to_nat (d_size d)))) dir (Jffs2 0 0 garbage 0 d 0 0 t) =
      Ok (if field bk 0 2 =? KSAMTIB_CIGAM_2SFFJ then WrongEndian else FoundEnd) s' /\
    counts s' = fold_left (see dir) (mjoin nss) (0, 0, t) /\
    io s' = (bk, 0, d, (zlen nss + 1) * d_erasesize d, (zlen nss + 1) * d_erasesize d).
Proof.
  intros Him. destruct (image_flash d nss bk rest Him) as (Hf & Hbk & _ & Hc). destruct Him as [_ [He He4] _ Hw Hend].
  destruct (find_end_spec dir nss (S (S (Z.to_nat (d_size d)))) [] bk (concat rest) (Jffs2 0 0 garbage 0 d 0 0 t)) as (s' & Hrun & Hcs & Hio);
    unfold erasesize; cbn [outdev outpos]; try done; try lia.
  exists s'. split; [exact Hrun|]. split; [exact Hcs|]. exact Hio.
Qed.

Lemma scan_ok dir nss es : forall c, Forall (written_block es) nss -> small_counts c -> is_u32 c.2 ->
  small_counts (fold_left (see dir) (mjoin nss) c) /\ is_u32 (fold_left (see dir) (mjoin nss) c).2.
Proof.
  assert (forall ns c, Forall node_ok ns -> Forall small ns -> small_counts c -> is_u32 c.2 ->
    small_counts (fold_left (see dir) ns c) /\ is_u32 (fold_left (see dir) ns c).2) as Hns.
  { induction ns as [|n ns IH]; intros c Hok Hsm Hc Ht; [done|]. apply Forall_cons in Hok as [Hn Hok]. apply Forall_cons in Hsm as [Hs Hsm].
    cbn [fold_left]. apply IH; try done; [by apply see_small|]. destruct n as [pino version ino type name|]; [|done]. cbn [see snd].
    destruct (_ && _); [apply Hn|done]. }
  induction nss as [|ns nss IH]; intros c Hw Hc Ht; [done|]. apply Forall_cons in Hw as [(Hok & Hsm & _) Hw].
  change (mjoin (ns :: nss)) with (ns ++ mjoin nss). rewrite fold_left_app. destruct (Hns ns c Hok Hsm Hc Ht). by apply IH.
Qed.

(** The nodes of a directory that is made for the file. *)
Definition new_dir (i v : Z) (dir : list Z) : list jnode := [NDirent 1 v (i + 1) DT_DIR dir; NInode (i + 1) 1 dir_stat 0 []].

(** The directory is made when none was found. *)
Lemma target_spec d fl0 blks0 done0 s dir :
  208 < d_erasesize d -> d_erasesize d < 2 ^ 31 -> d_erasesize d mod 4 = 0 -> before d fl0 blks0 done0 s [] [] ->
  0 <= last_ino s < 2 ^ 31 - 1 -> is_u32 (last_version s) -> Forall is_byte dir -> zlen dir < 256 -> 128 + zlen dir < d_erasesize d ->
  (0 < length (good_of fl0 blks0))%nat ->
  let t := target_ino s in
  let pre := if t =? 0 then new_dir (last_ino s) (last_version s) dir else [] in
  exists s', (if t =? 0 then t ← add_dir dir 1; set_target t else mret ()) s = Ok () s' /\ before d fl0 blks0 done0 s' [] pre /\
    zlen (block_bytes pre) <= 130 + zlen dir /\ erasesize s' = d_erasesize d /\
    counts s' = if t =? 0 then (last_ino s + 2, last_version s + 1, last_ino s + 1) else counts s.
Proof.
  intros He He31 He4 Hb Hi Hv Hdb Hdl Hfit Hg t pre. unfold pre, t. destruct (Z.eqb_spec (target_ino s) 0) as [Ht|Hne].
  2:{ exists s. split_and!; try done; [cbn; lia|by apply (before_ofs _ _ _ _ He _ _ _ Hb)]. }
  destruct (add_dir_spec d fl0 blks0 done0 He He4 He31 s [] [] dir 1 Hb) as (s3 & Hp3 & Hh3 & Hc3).
  - unfold node_ok, DT_DIR. split_and!; try done; width.
  - cbn. lia.
  - done.
  - cbn [app] in Hh3. injection Hc3 as Hc3i Hc3v _.
    set (s4 := Jffs2 (last_ino s3) (last_version s3) (jbuf s3) (ofs s3) (outdev s3) (outpos s3) (mtdofs s3) (last_ino s + 1)).
    exists s4. split; [|split; [|split; [|split]]].
    + unfold mbind, M_bind. by rewrite Hp3.
    + left. destruct Hh3 as [[Hf Hbu Hbyt Hpr Hof Hro] Hlt Hok Hn]. by repeat (split; try done).
    + unfold new_dir, block_bytes. cbn [fmap list_fmap concat]. rewrite !length_app, !Nat2Z.inj_add, !length_node_padded.
      cbn [node_len]. change (zlen CLEANMARKER) with 12. change (zlen []) with 0. Z.div_mod_to_equations. lia.
    + apply (holds_ofs _ _ _ _ _ _ _ Hh3).
    + unfold counts. cbn [s4 last_ino last_version target_ino]. by rewrite Hc3i, Hc3v.
Qed.

(** C20: [mtd jffs2write] puts a file into a directory of a jffs2 image.  It passes the blocks of
    the image, goes on with the inode and version numbers found there, keeps the blocks, and
    writes in place of the end marker: the directory if no entry of the root was taken for it,
    the entry of the file in that directory, nodes that make up the file, and a new end
    marker; a reader that checks every checksum gets them back. *)
Theorem jffs2_write_appends (d : device) nss bk rest (dir garbage : list Z) (st : filestat) (f filename : list Z) :
  image_on d nss bk rest -> field bk 0 2 <> KSAMTIB_CIGAM_2SFFJ -> zlen garbage = d_erasesize d ->
  stat_ok st -> Forall is_byte f -> Forall is_byte dir -> zlen dir < 256 ->
  Forall is_byte (base_name filename) -> zlen (base_name filename) < 256 ->
  180 + zlen dir + zlen (base_name filename) < d_erasesize d ->
  let '(i, v, t) := scanned dir (mjoin nss) in
  let i := Z.max 1 i in
  let k := length nss in
  i < 2 ^ 31 - 6 -> v + zlen f + 3 < 2 ^ 31 ->
  (zlen f + 128) / 129 + 4 < Z.of_nat (length (good_from k d)) ->
  exists s', mtd_write_jffs2 None (Some garbage) dir (Some (st, Some f)) filename (fresh d) = Ok 0 s' /\
    if t =? 0
    then appended d (outdev s') k (new_dir i v dir) (i + 1) (v + 1) (i + 3) st (base_name filename) f
    else appended d (outdev s') k [] t v (i + 1) st (base_name filename) f.
Proof.
  intros Him Hend Hg Hst Hby Hdb Hdl Hnb Hnl Hfit. destruct (scanned dir (mjoin nss)) as [[i v] t] eqn:Hsc. cbv zeta. intros Hi Hv Hroom.
  set (t0 := if decide (dir = []) then 1 else 0) in *.
  destruct (find_end_fresh d nss bk rest dir garbage t0 Him) as (s1 & Hrun & Hcs & Hio).
  rewrite (proj2 (Z.eqb_neq _ KSAMTIB_CIGAM_2SFFJ)) in Hrun by done.
  destruct (image_flash d nss bk rest Him) as (_ & Hbk & Hk & _). pose proof Him as [Hs [He He4] _ Hw _].
  destruct (scan_ok dir nss _ (0, 0, t0) Hw) as [[Hsc1 Hsc2] Ht]; [by split|cbn [snd]; unfold t0; destruct (decide _); width|].
  unfold scanned in Hsc. fold t0 in Hsc. rewrite Hsc in Hcs, Hsc1, Hsc2, Ht. cbn [fst snd] in Hsc1, Hsc2, Ht.
  injection Hcs as Hci Hcv Hct. injection Hio as Hij Hio Hid Hip Him'.
  set (m := zlen nss * d_erasesize d). set (i1 := Z.max 1 i) in *.
  set (s2 := Jffs2 i1 v bk 0 d m m t).
  pose proof (start_lay d (length nss) s2 Hs Hk eq_refl eq_refl eq_refl Hbk eq_refl) as Hl2.
  set (fl0 := drop (length nss) (flags_of d)) in *. set (blks0 := drop (length nss) (blocks_of d)) in *. set (done0 := concat (take (length nss) (blocks_of d))) in *.
  assert (before d fl0 blks0 done0 s2 [] []) as Hb2 by (right; done).
  assert (0 <= (zlen f + 128) / 129) as Hq by (apply Z.div_pos; lia).
  set (pre := if t =? 0 then new_dir i1 v dir else []).
  destruct (target_spec d fl0 blks0 done0 s2 dir ltac:(lia) ltac:(lia) He4 Hb2) as (s3 & Hdir & Hb3 & Hpl & He3 & Hc3);
    cbn [s2 last_ino last_version target_ino]; try done; try width; [change (good_of fl0 blks0) with (good_from (length nss) d); lia|].
  cbn [s2 last_ino last_version target_ino] in Hdir, Hb3, Hpl, Hc3. fold pre in Hb3, Hpl.
  assert (last_ino s3 = (if t =? 0 then i1 + 2 else i1) /\ last_version s3 = (if t =? 0 then v + 1 else v) /\
    target_ino s3 = (if t =? 0 then i1 + 1 else t)) as (H3i & H3v & H3t) by (destruct (t =? 0); by injection Hc3).
  assert (i1 <= last_ino s3 <= i1 + 2 /\ v <= last_version s3 <= v + 1 /\ is_u32 (target_ino s3) /\ zlen pre <= 2) as (R1 & R2 & R3 & R4)
    by (rewrite H3i, H3v, H3t; unfold pre, new_dir; destruct (t =? 0); cbn [length]; split_and!; width).
  destruct (append_lay d fl0 blks0 done0 ltac:(lia) He4 ltac:(lia) s3 pre st f filename (target_ino s3))
    as (s4 & s5 & blocks & Hp4 & Hp5 & Hl5 & Hr5 & _ & Hlog); try done; try lia; [change (good_of fl0 blks0) with (good_from (length nss) d); lia|].
  pose proof (lay_appended d (length nss) s5 blocks _ _ _ _ _ _ _ Hs Hk Hl5 Hr5 Hlog) as Happ. exists s5. split.
  - unfold mtd_write_jffs2, fresh. unfold mbind at 1, M_bind at 1, set_buf at 1. cbn [jbuf ofs outdev outpos mtdofs last_ino last_version target_ino].
    unfold mbind at 1, M_bind at 1.
    assert ((if decide (dir = []) then set_target 1 else mret ()) (Jffs2 0 0 garbage 0 d 0 0 0) = Ok () (Jffs2 0 0 garbage 0 d 0 0 t0)) as ->
      by (unfold t0; by destruct (decide (dir = []))).
    unfold mbind at 1, M_bind at 1, get at 1. cbv beta iota. unfold mbind at 1, M_bind at 1. cbn [outdev]. rewrite Hrun.
    unfold mbind at 1, M_bind at 1, get at 1. cbv beta iota. unfold mbind at 1, M_bind at 1, set_out at 1. unfold mbind at 1, M_bind at 1, set_ofs at 1.
    cbn [jbuf ofs outdev outpos mtdofs last_ino last_version target_ino]. assert (erasesize s1 = d_erasesize d) as He1 by (unfold erasesize; by rewrite Hid). rewrite He1, Hij, Hid, Him', Hci, Hcv, Hct.
    replace ((zlen nss + 1) * d_erasesize d - d_erasesize d) with m by (unfold m; lia).
    unfold mbind at 1, M_bind at 1.
    assert ((if i =? 0 then set_counts 1 v else mret ()) (Jffs2 i v bk 0 d m m t) = Ok () s2) as Hset.
    { unfold s2, i1. destruct (Z.eqb_spec i 0) as [->|Hne]; [done|]. replace (Z.max 1 i) with i by lia. done. }
    rewrite Hset. unfold mbind at 1, M_bind at 1. rewrite Hdir. unfold mbind, M_bind, get. cbv beta iota. rewrite Hp4, He3, Hp5. done.
  - rewrite H3i, H3v, H3t in Happ. unfold pre in Happ. destruct (t =? 0); [|exact Happ]. by rewrite <- Z.add_assoc in Happ.
Qed.

(** ** Where it goes wrong *)

(** Steps that do not touch the device. *)
Definition keeps {A} (m : M A) : Prop := forall s a s', m s = Ok a s' -> outdev s' = outdev s.

Lemma keeps_bind {A B} (m : M A) (k : A -> M B) : keeps m -> (forall a, keeps (k a)) -> keeps (m ≫= k).
Proof.
  intros Hm Hk s b s'. unfold mbind, M_bind. destruct (m s) as [a s1| | |] eqn:E; try done. intros Hr. rewrite (Hk a _ _ _ Hr). by apply (Hm _ _ _ E).
Qed.

Lemma keeps_ret {A} (a : A) : keeps (mret a).
Proof. intros s b s' [= _ <-]. done. Qed.

Lemma keeps_mem {A} (o : option A) : keeps (mem o).
Proof. intros s b s'. unfold mem. destruct o; [|done]. by intros [= _ <-]. Qed.

Lemma keeps_get : keeps get.
Proof. intros s b s' [= _ <-]. done. Qed.

Lemma keeps_counts i v : keeps (set_counts i v).
Proof. intros s b s' Hr. unfold set_counts in Hr. by simplify_eq. Qed.

Lemma keeps_target t : keeps (set_target t).
Proof. intros s b s' Hr. unfold set_target in Hr. by simplify_eq. Qed.

Lemma keeps_if {A} (b : bool) (m m' : M A) : keeps m -> keeps m' -> keeps (if b then m else m').
Proof. by destruct b. Qed.

Create HintDb keeps.
#[local] Hint Resolve keeps_ret keeps_mem keeps_get keeps_if keeps_counts keeps_target : keeps.
#[local] Hint Extern 2 (keeps (_ ≫= _)) => apply keeps_bind; [|intros ?] : keeps.

Lemma parse_loop_keeps fuel : forall b dir o, keeps (parse_loop fuel b dir o).
Proof.
  induction fuel as [|fuel IH]; intros b dir o; [by intros s a s'|]. cbn [parse_loop]. unfold parse_dirent. eauto 30 with keeps.
Qed.

Lemma find_end_keeps dir fuel : keeps (find_end fuel dir).
Proof.
  induction fuel as [|fuel IH]; [by intros s a s'|]. intros s a s'. cbn [find_end]. unfold mbind at 1, M_bind at 1, get at 1. cbv beta iota.
  destruct (negb _); [by intros [= _ <-]|]. unfold mbind at 1, M_bind at 1, set_buf at 1. unfold mbind at 1, M_bind at 1, set_out at 1.
  set (s1 := Jffs2 _ _ _ _ _ _ _ _). intros Hr. pose proof parse_loop_keeps.
  match type of Hr with ?m s1 = _ => assert (keeps m) as Hm by (unfold mtd_parse_jffs2data; eauto 30 with keeps) end.
  exact (Hm _ _ _ Hr).
Qed.

(** When [jffs2write] gives up (no memory, the other byte order, no end in sight) the device
    is as it was. *)
Theorem jffs2_write_refuses trx malloc dir file filename s s' :
  mtd_write_jffs2 trx malloc dir file filename s = Ok (-1) s' -> outdev s' = outdev s.
Proof.
  unfold mtd_write_jffs2. destruct malloc as [b|]; [|by intros [= <-]].
  unfold mbind at 1, M_bind at 1, set_buf at 1. set (s1 := Jffs2 _ _ _ _ _ _ _ _). change (outdev s) with (outdev s1). revert s'. generalize s1. clear s s1.
  intros s s'. unfold mbind at 1, M_bind at 1.
  destruct ((if decide (dir = []) then set_target 1 else mret ()) s) as [u s1| | |] eqn:E1; try done.
  assert (outdev s1 = outdev s) as <- by (destruct (decide (dir = [])); [by apply (keeps_target _ _ _ _ E1)|by apply (keeps_ret _ _ _ _ E1)]).
  unfold mbind at 1, M_bind at 1, get at 1. cbv beta iota. unfold mbind at 1, M_bind at 1.
  destruct (find_end _ dir s1) as [r s2| | |] eqn:E2; try done. pose proof (find_end_keeps _ _ _ _ _ E2) as <-.
  destruct r; [|by intros [= <-]..]. intros Hr. exfalso. revert Hr. generalize s2. clear.
  assert (forall A (m : M A) (k : A -> M Z), (forall a s s', k a s <> Ok (-1) s') -> forall s s', (m ≫= k) s <> Ok (-1) s') as Hb.
  { intros A m k Hk s s1. unfold mbind, M_bind. destruct (m s); [apply Hk|done..]. }
  intros s2. revert s2 s'. do 9 (apply Hb; intros ?). destruct trx as [ok|]; [|done]. apply Hb. intros [d r]. by apply Hb.
Qed.

(** C39: A node whose length field is 0 stops the parser for good: no number of rounds gets it
    past the node, and [mtd write -j] or [mtd jffs2write] on such an image never returns. *)
Theorem parse_zero_length_spins fuel b dir o s :
  0 <= o < erasesize s -> erasesize s < 2 ^ 31 -> fld b o 2 = Some JFFS2_MAGIC_BITMASK -> fld b (o + 4) 4 = Some 0 ->
  (exists t, fld b (o + 2) 2 = Some t /\ t <> JFFS2_NODETYPE_DIRENT) -> parse_loop fuel b dir o s = Spin.
Proof.
  intros Ho He Hm Hl (t & Ht & Hne). induction fuel as [|fuel IH]; [done|]. cbn [parse_loop]. unfold mbind, M_bind, get, mem. cbv beta iota.
  rewrite u32_id, (proj2 (Z.ltb_lt _ _)), Hm, Z.eqb_refl, Hl, Ht by width. cbn [negb]. rewrite (proj2 (Z.eqb_neq _ _)) by done.
  unfold mret, M_ret. change (PAD 0) with 0. rewrite Z.add_0_r, u32_id by width. exact IH.
Qed.

(** C40: [add_dirent] compares [ofs - erasesize] as an unsigned number, so its check for room
    never holds: an entry that does not fit the rest of the block is written past the end of
    the buffer. *)
Theorem add_dirent_overruns name type parent s :
  zlen (jbuf s) = erasesize s -> 0 < ofs s < erasesize s -> erasesize s < 2 ^ 31 -> zlen name < 2 ^ 30 ->
  erasesize s < ofs s + 40 + zlen name -> add_dirent name type parent s = Fault.
Proof.
  intros Hb Ho He Hn Hover. unfold add_dirent, mbind, M_bind, get. cbv beta iota.
  assert (u32 (ofs s - erasesize s) = 2 ^ 32 + (ofs s - erasesize s)) as -> by (unfold u32; symmetry; apply (Z.mod_unique _ _ (-1)); lia).
  rewrite (proj2 (Z.ltb_ge _ _)) by lia. unfold mret, M_ret, prep_eraseblock, mbind, M_bind, get. cbv beta iota.
  rewrite (proj2 (Z.ltb_lt 0 _)) by lia. unfold set_counts, mret, M_ret. cbv beta iota.
  set (raw := raw_dirent _ _ _ _ _).
  assert (zlen raw = 40) as Hraw by (unfold raw, raw_dirent; rewrite !length_app, length_node_header, !length_le_bytes; cbn [length]; lia).
  unfold mem. destruct (zwrite (jbuf s) (ofs s) raw) as [b|] eqn:Hw; [|done]. apply zwrite_length in Hw as Hl.
  assert (zwrite b (ofs s + 40) name = None) as ->; [|done]. unfold zwrite. rewrite (proj2 (Z.leb_gt _ (zlen b))) by lia. by rewrite andb_false_r.
Qed.

(** ** The theorems at work *)

(** A root directory with one entry in a block of 256 bytes, the end marker, and blank blocks,
    one of them bad. *)
Definition demo_nodes : list (list jnode) := [[NDirent 1 3 2 DT_DIR (bs "etc")]].
Definition demo_end : list Z := eof_block 256.
Definition demo_jffs2 : device :=
  Device 256 true (fun o => o =? 768) (fun _ => true)
    (concat (full_block 256 <$> demo_nodes) ++ demo_end ++ replicate (Z.to_nat 2048) 0xff).
Definition demo_stat : filestat := Stat 0x81a4 5 7 7 7.
Definition demo_file : list Z := [1; 2; 3; 4; 5].

Lemma demo_image : image_on demo_jffs2 demo_nodes demo_end (replicate 8 (replicate 256 0xff)).
Proof.
  split.
  - split; [done|]. split; [exists 10; split; [done|vm_compute; reflexivity]|]. done.
  - by split.
  - vm_compute. reflexivity.
  - constructor; [|constructor]. split; [|split; [|vm_compute; discriminate]].
    + constructor; [|constructor]. unfold node_ok, is_u32, is_byte. split_and!; try (vm_compute; discriminate || reflexivity). eval_decide.
    + constructor; [|constructor]. split; [done|]. split; [done|]. eval_decide.
  - vm_compute. discriminate.
Qed.

Lemma demo_stat_ok : stat_ok demo_stat /\ Forall is_byte demo_file.
Proof. split; [unfold stat_ok, is_u32; cbn; lia|unfold demo_file, is_byte; repeat constructor; lia]. Qed.

Lemma jffs2_write_appends_witness :
  exists s', mtd_write_jffs2 None (Some (replicate 256 0)) (bs "tmp") (Some (demo_stat, Some demo_file)) (bs "/root/a.txt") (fresh demo_jffs2) = Ok 0 s' /\
    appended demo_jffs2 (outdev s') 1 (new_dir 2 3 (bs "tmp")) 3 4 5 demo_stat (bs "a.txt") demo_file.
Proof.
  pose proof (jffs2_write_appends demo_jffs2 demo_nodes demo_end _ (bs "tmp") (replicate 256 0) demo_stat demo_file (bs "/root/a.txt") demo_image) as H.
  assert (scanned (bs "tmp") (mjoin demo_nodes) = (2, 3, 0)) as E by (vm_compute; reflexivity). rewrite E in H. cbv zeta in H.
  destruct H as (s' & Hrun & Happ); [vm_compute; discriminate|reflexivity|apply demo_stat_ok|apply demo_stat_ok|eval_decide|reflexivity|eval_decide|reflexivity
    |reflexivity|reflexivity|reflexivity|vm_compute; reflexivity|].
  exists s'. split; [exact Hrun|exact Happ].
Defined.

Lemma jffs2_write_refuses_witness :
  exists s', mtd_write_jffs2 None (Some (replicate 4 0)) [] None [] (fresh (Device 4 false (fun _ => false) (fun _ => true) [0x19; 0x85; 0; 0])) = Ok (-1) s' /\
    outdev s' = Device 4 false (fun _ => false) (fun _ => true) [0x19; 0x85; 0; 0].
Proof.
  eexists. split; [vm_compute; reflexivity|].
  apply (jffs2_write_refuses None (Some (replicate 4 0)) [] None [] (fresh (Device 4 false (fun _ => false) (fun _ => true) [0x19; 0x85; 0; 0]))).
  vm_compute. reflexivity.
Defined.

Lemma parse_zero_length_spins_witness :
  parse_loop (Z.to_nat 1000) ([0x85; 0x19; 3; 0x20; 0; 0; 0; 0] ++ replicate 8 0) (bs "tmp") 0
    (fresh (Device 16 false (fun _ => false) (fun _ => true) (replicate 16 0))) = Spin.
Proof.
  apply parse_zero_length_spins; [cbn; lia|reflexivity|reflexivity|reflexivity|]. exists 0x2003. split; [reflexivity|discriminate].
Defined.

Lemma add_dirent_overruns_witness :
  add_dirent (bs "a.txt") DT_REG 1 (Jffs2 1 0 (replicate 64 0) 24 (Device 64 false (fun _ => false) (fun _ => true) []) 0 0 1) = Fault.
Proof. apply add_dirent_overruns; cbn; lia. Defined.
