(* ===== verification/MtdWrite.v ===== *)
(** [mtd write] with [-j]: the whole block loop of [mtd_write]
    (package/system/mtd/src/mtd.c), which reads the numbers of the jffs2 nodes it passes and
    puts a file in place of the end marker of the image (jffs2.c). *)

From stdpp Require Import gmap.
From S2P Require Import Prelude Crc Mtd MtdSpec MtdTrx Jffs2 Jffs2Nodes Jffs2Write Jffs2Parse Jffs2Spec.

(** ** Definitions *)

Section loop.
(** [-n], [-p], [-s] and [-d]; what [stat] and [open] find under the name given with [-j],
    and what the [malloc] of [mtd_replace_jffs2] returns; whether the program has [trx_fixup], a
    weak symbol, and then whether it can map the device. *)
Context (no_erase : bool) (part_offset jffs2_skip_bytes : Z) (jffs2dir : list Z).
Context (file : option (filestat * option (list Z))) (filename : list Z) (malloc : option (list Z)).
Context (trx : option bool).

(** The loop variables with [skip], whether [jffs2file] is set, [jffs2_replaced], and the
    variables of jffs2.c. *)
Record jwriting := JWriting {
  j_w : writing; j_skip : Z; j_file : bool; j_replaced : bool; j_st : jffs2
}.

(** The parser looks at [erasesize], which is that of the open device. *)
Definition on_device (d : device) (js : jffs2) : jffs2 :=
  Jffs2 (last_ino js) (last_version js) (jbuf js) (ofs js) d (outpos js) (mtdofs js) (target_ino js).

(** [buflen = 0]: the block in [buf] is done with. *)
Definition emptied (w : writing) (d : device) (pos ww e offset : Z) : writing :=
  Writing d pos (w_image w) (w_buf w) 0 ww e (w_skip_bad w) offset.

(** What the [jffs2file] branch does with a block. *)
Inductive appending := Appended (s : jwriting) | NotHere (js : jffs2) | AppendExits (d : device).

Definition append_here (s : jwriting) (w : writing) : option appending :=
  if j_file s && (jffs2_skip_bytes <=? w_w w) then
    marker ← zslice (w_buf w) 0 4;
    if decide (marker = JFFS2_EOF) then
      match mtd_replace_jffs2 malloc (w_dev w) (w_pos w) (w_e w) file filename (j_st s) with
      | Ok skip js =>
          Some (Appended (JWriting (emptied w (outdev js) (outpos js) (w_w w + skip) (w_e w + skip) 0)
                            (skip - w_buflen w) false true js))
      | Exit js => Some (AppendExits (outdev js))
      | Fault | Spin => None
      end
    else
      match mtd_parse_jffs2data (w_buf w) jffs2dir (on_device (w_dev w) (j_st s)) with
      | Ok _ js => Some (NotHere js)
      | Exit js => Some (AppendExits (outdev js))
      | Fault | Spin => None
      end
  else Some (NotHere (j_st s)).

(** Behind the loop. *)
Definition write_done (d : device) (replaced : bool) : option device :=
  match trx with
  | Some mmap_ok => if replaced then fst <$> trx_fixup mmap_ok d else Some d
  | None => Some d
  end.

Definition add_front (d : device) (o : outcome (list device)) : outcome (list device) :=
  match o with Returns ds => Returns (d :: ds) | Exits ds => Exits (d :: ds) end.

Fixpoint jwrite_loop (fuel : nat) (rest : list device) (s : jwriting) : option (outcome (list device)) :=
  match fuel with
  | O => None
  | S fuel =>
      match fill (j_w s) with
      | None => d ← write_done (w_dev (j_w s)) (j_replaced s); Some (Returns (d :: rest))
      | Some w =>
          if 0 <? j_skip s then
            jwrite_loop fuel rest
              (JWriting (emptied w (w_dev w) (w_pos w) (w_w w) (w_e w) (w_offset w)) (j_skip s - w_buflen w)
                 (j_file s) (j_replaced s) (j_st s))
          else
            a ← append_here s w;
            match a with
            | AppendExits d => Some (Exits (d :: rest))
            | Appended s => jwrite_loop fuel rest s
            | NotHere js =>
                r ← (if no_erase then Some (Erased w) else erase_ahead (block_fuel (w_dev w)) w);
                match r with
                | EraseExits w => Some (Exits (w_dev w :: rest))
                | EraseFailed w =>
                    match rest with
                    | [] => Some (Exits [w_dev w])
                    | next :: rest =>
                        '(d, offset) ←
                          (if w_w w <? w_e w then
                             data ← zslice (w_buf w) (w_offset w) (w_e w - w_w w);
                             Some ((dev_write (w_dev w) (w_pos w) data).1, w_e w - w_w w)
                           else Some (w_dev w, w_offset w));
                        r ← jwrite_loop fuel rest
                              (JWriting (Writing next (start_pos part_offset) (w_image w) (w_buf w) (w_buflen w) 0 0 (w_skip_bad w) offset)
                                 (j_skip s) (j_file s) (j_replaced s) js);
                        Some (add_front d r)
                    end
                | Erased w =>
                    data ← zslice (w_buf w) (w_offset w) (w_buflen w);
                    let '(d, result) := dev_write (w_dev w) (w_pos w) data in
                    if result <? w_buflen w then Some (Exits (d :: rest))
                    else
                      jwrite_loop fuel rest
                        (JWriting (emptied w d (w_pos w + result) (w_w w + w_buflen w) (w_e w) 0) (j_skip s) (j_file s) (j_replaced s) js)
                end
            end
      end
  end.

(** [mtd_write (imagefd, "dev:rest...", NULL, part_offset)], with [jffs2file] set or not.  Every
    round uses up a block of the image or goes on to the next device. *)
Definition mtd_write_image (jffs2file : bool) (dev : device) (rest : list device) (buf image : list Z)
  : option (outcome (list device)) :=
  jwrite_loop (S (length rest + length buf + length image)) rest
    (JWriting (Writing dev (start_pos part_offset) image buf (zlen buf) 0 0 0 0) 0 jffs2file false
       (Jffs2 0 0 [] 0 dev 0 0 0)).
End loop.

(** ** Without [-j] *)

(** The loop is then the one of [Mtd.mtd_write]. *)
Lemma jwrite_loop_plain no_erase part_offset skip_bytes dir file filename malloc trx js : forall fuel rest w,
  jwrite_loop no_erase part_offset skip_bytes dir file filename malloc trx fuel rest (JWriting w 0 false false js) =
  write_loop no_erase part_offset fuel rest w.
Proof.
  induction fuel as [|fuel IH]; intros rest w; [done|]. cbn [jwrite_loop write_loop j_w j_skip j_file j_replaced j_st].
  destruct (fill w) as [w1|]; [|by destruct trx]. change (0 <? 0) with false. cbv iota. unfold append_here. cbn [j_file andb j_st mbind option_bind].
  destruct (if no_erase then _ else _) as [[w2|w2|w2]|]; try done; cbn [mbind option_bind].
  - destruct (zslice _ _ _) as [data|]; [|done]. cbn [mbind option_bind]. destruct (dev_write _ _ data) as [d result]. destruct (_ <? _); [done|]. apply IH.
  - destruct rest as [|next rest]; [done|]. destruct (if _ <? _ then _ else _) as [[d offset]|]; [|done]. cbn [mbind option_bind].
    rewrite IH. destruct (write_loop _ _ _ _ _) as [[]|]; done.
Qed.

Lemma mtd_write_image_plain no_erase part_offset skip_bytes dir file filename malloc trx dev rest buf image :
  mtd_write_image no_erase part_offset skip_bytes dir file filename malloc trx false dev rest buf image =
  mtd_write no_erase dev rest buf image part_offset.
Proof. apply jwrite_loop_plain. Qed.

(** ** One block *)

(** Between two rounds on a single device, with the blocks [bs] of the image to come. *)
Record at_blocks (d0 : device) (w : writing) (fl : list bool) (blks : list (list Z)) (done_ : list Z) (bs : list (list Z)) : Prop := {
  ab_blocked : blocked (w_dev w) fl blks (w_pos w) done_;
  ab_dev : exists f, w_dev w = with_flash d0 f;
  ab_e : w_e w = w_pos w;
  ab_w : w_e w - w_skip_bad w = w_w w;
  ab_offset : w_offset w = 0;
  ab_buflen : w_buflen w = zlen (take (Z.to_nat (w_buflen w)) (w_buf w)) /\ w_buflen w <= d_erasesize d0;
  ab_bytes : Forall is_byte (stream w);
  ab_left : chunks (length (stream w)) (d_erasesize d0) (stream w) = bs
}.

Section block.
Context (d0 : device) (Hes : 0 < d_erasesize d0).
#[local] Abbreviation es := (d_erasesize d0).

Lemma at_blocks_es w fl blks done_ bs : at_blocks d0 w fl blks done_ bs -> d_erasesize (w_dev w) = es.
Proof. intros [_ [f Hd] _ _ _ _ _ _]. by rewrite Hd. Qed.

Lemma fill_end w fl blks done_ : at_blocks d0 w fl blks done_ [] -> fill w = None.
Proof.
  intros H. pose proof (at_blocks_es _ _ _ _ _ H) as He. destruct H as [_ _ _ _ _ [Hb Hle] _ Hl].
  rewrite (fill_spec w es He Hes Hb Hle). destruct (stream w) as [|x st]; [done|]. by cbn [length chunks] in Hl.
Qed.

(** Filling the buffer takes the next block; throwing it away leaves the others. *)
Lemma fill_block w fl blks done_ x bs : at_blocks d0 w fl blks done_ (x :: bs) ->
  exists image, fill w = Some (Writing (w_dev w) (w_pos w) image x es (w_w w) (w_e w) (w_skip_bad w) 0) /\
    zlen x = es /\ Forall is_byte x /\ Forall is_byte image /\ chunks (length image) es image = bs /\ (length image < length (stream w))%nat.
Proof.
  intros H. pose proof (at_blocks_es _ _ _ _ _ H) as He. destruct H as [_ _ _ _ Ho [Hb Hle] Hby Hl].
  rewrite (fill_spec w es He Hes Hb Hle), Ho. destruct (stream w) as [|y st] eqn:E; [done|]. rewrite <- E in Hl, Hby |- *.
  exists (drop (Z.to_nat es) (stream w)). assert (length (stream w) = S (length st)) as Hn by (by rewrite E).
  rewrite Hn in Hl. rewrite E in Hl at 1. cbn [chunks] in Hl. rewrite <- E in Hl. injection Hl as Hx Hbs. rewrite Hx.
  split; [done|]. split; [subst x; by apply chunk_length|]. split; [|split; [by apply Forall_drop|]].
  - subst x. apply Forall_app. split; [by apply Forall_take|apply Forall_replicate; unfold is_byte; lia].
  - split; [|rewrite length_drop; lia]. rewrite <- Hbs. symmetry. apply (chunks_fuel es Hes). rewrite length_drop. lia.
Qed.

(** The state with the buffer emptied. *)
Lemma at_emptied x bs image d pos ww e k fl' blks' done' :
  Forall is_byte image -> chunks (length image) es image = bs -> blocked d fl' blks' pos done' -> (exists f, d = with_flash d0 f) -> e = pos -> e - k = ww ->
  at_blocks d0 (Writing d pos image x 0 ww e k 0) fl' blks' done' bs.
Proof. intros Hi Hc Hb Hd -> Hw. split; try done. split; [done|cbn; lia]. Qed.

(** Erasing and programming the next good block. *)
Lemma put_block w fl blks done_ x bs image : at_blocks d0 w fl blks done_ (x :: bs) -> good_of fl blks <> [] ->
  zlen x = es -> Forall is_byte x -> Forall is_byte image -> chunks (length image) es image = bs ->
  exists w2 bads b rest flr d', blks = bads ++ b :: rest /\ fl = replicate (length bads) true ++ false :: flr /\
    erase_ahead (block_fuel (w_dev w)) (Writing (w_dev w) (w_pos w) image x es (w_w w) (w_e w) (w_skip_bad w) 0) = Some (Erased w2) /\
    zslice (w_buf w2) (w_offset w2) (w_buflen w2) = Some x /\ dev_write (w_dev w2) (w_pos w2) x = (d', es) /\ w_buflen w2 = es /\
    w_w w2 = w_w w /\ w_image w2 = image /\ at_blocks d0 (emptied w2 d' (w_pos w2 + es) (w_w w2 + es) (w_e w2) 0) flr rest (done_ ++ concat bads ++ x) bs.
Proof.
  intros H Hg Hxl Hx Hi Hc. pose proof (at_blocks_es _ _ _ _ _ H) as He. destruct H as [Hb [f Hd] Hee Hw Ho _ _ _].
  assert (0 < d_erasesize (w_dev w)) as He' by (by rewrite He).
  destruct (erase_ahead_spec fl blks (w_dev w) (w_pos w) done_ (block_fuel (w_dev w))
    (Writing (w_dev w) (w_pos w) image x es (w_w w) (w_e w) (w_skip_bad w) 0))
    as (bads & b & rest & flr & w2 & -> & -> & HE & Hd2 & Hp2 & He2 & Hw2 & Hi2 & Hbuf2 & Hbl2 & Hww2 & Hof2 & Hb2); try done.
  { unfold block_fuel. pose proof (blocked_count _ _ _ _ _ He' Hb). lia. }
  cbn [w_image w_buf w_buflen w_w w_offset] in Hi2, Hbuf2, Hbl2, Hww2, Hof2, Hw2. rewrite He in *.
  exists w2, bads, b, rest, flr, (with_flash (w_dev w) ((done_ ++ concat bads ++ x) ++ concat rest)). do 3 (split; [done|]).
  rewrite Hbuf2, Hof2, Hbl2, zslice_Some by lia. change (drop (Z.to_nat 0) x) with x. rewrite take_ge by lia. split; [done|].
  assert (w_pos w2 = zlen (done_ ++ concat bads)) as Hp2' by (rewrite Hp2, length_app, <- (bl_start _ _ _ _ _ Hb); lia).
  split; [|split; [done|split; [done|split; [done|]]]].
  - rewrite Hp2', (dev_write_at (w_dev w2) (done_ ++ concat bads) (replicate (Z.to_nat es) 0xff) (concat rest) x);
      [|rewrite Hd2; cbn [with_flash d_flash]; by rewrite <- app_assoc|rewrite length_replicate; lia].
    replace (Z.to_nat es) with (length x) by lia. rewrite land_ff, Hd2, Hxl by done. f_equal. unfold with_flash. cbn [d_erasesize d_nand d_bad d_erase_ok].
    f_equal. by rewrite <- !app_assoc.
  - unfold emptied. rewrite Hi2, Hbuf2, Hww2. apply at_emptied; [done|done| |exists ((done_ ++ concat bads ++ x) ++ concat rest); by rewrite Hd|rewrite He2, Hp2; lia|lia].
    rewrite Hp2. eapply blocked_prefix; [exact Hb2|]. rewrite !length_app, <- (bl_start _ _ _ _ _ Hb). lia.
Qed.
End block.
