(* ===== verification/MtdAppend.v ===== *)
(** [mtd -j file write image dev]: the image with the file in place of its end marker. *)

From stdpp Require Import gmap.
From S2P Require Import Prelude Crc Mtd MtdSpec MtdTrx Jffs2 Jffs2Nodes Jffs2Write Jffs2Parse Jffs2Spec Jffs2Append MtdWrite.

(** ** Blocks in front of the end marker *)

(** Blocks of an image that the loop writes as they are, from byte [w] on, with the nodes it
    sees: those before [skip_bytes] are not looked at, the others hold no node at their start or
    are blocks of nodes. *)
Inductive passes (es skip_bytes : Z) : Z -> list (list Z) -> list jnode -> Prop :=
  | passes_nil w : passes es skip_bytes w [] []
  | passes_early w x bs ns : w < skip_bytes -> passes es skip_bytes (w + es) bs ns -> passes es skip_bytes w (x :: bs) ns
  | passes_other w x bs ns : skip_bytes <= w -> field x 0 2 <> JFFS2_MAGIC_BITMASK -> take 4 x <> JFFS2_EOF ->
      passes es skip_bytes (w + es) bs ns -> passes es skip_bytes w (x :: bs) ns
  | passes_nodes w ns0 bs ns : skip_bytes <= w -> written_block es ns0 ->
      passes es skip_bytes (w + es) bs ns -> passes es skip_bytes w (full_block es ns0 :: bs) (ns0 ++ ns).

Section append.
Context (d0 : device) (part_offset skip_bytes : Z) (dir : list Z) (file : option (filestat * option (list Z))) (filename : list Z)
  (malloc : option (list Z)) (trx : option bool).
#[local] Abbreviation es := (d_erasesize d0).
#[local] Abbreviation loop := (jwrite_loop false part_offset skip_bytes dir file filename malloc trx).
#[local] Abbreviation append_here := (append_here skip_bytes dir file filename malloc).
Context (Hes : 4 <= es < 2 ^ 31) (Hes4 : es mod 4 = 0).

(** *** Rounds of the loop *)

(** A block behind the appended data that is thrown away. *)
Lemma skip_round w fl blks done_ x bs skip jf rp js fuel : at_blocks d0 w fl blks done_ (x :: bs) -> 0 < skip ->
  exists w', loop (S fuel) [] (JWriting w skip jf rp js) = loop fuel [] (JWriting w' (skip - es) jf rp js) /\
    at_blocks d0 w' fl blks done_ bs /\ (length (stream w') < length (stream w))%nat.
Proof.
  intros H Hs. destruct (fill_block d0 ltac:(lia) w fl blks done_ x bs H) as (image & Hf & Hxl & _ & Hi & Hc & Hlt). eexists.
  cbn [jwrite_loop j_w j_skip]. rewrite Hf, (proj2 (Z.ltb_lt _ _)) by done. cbn [w_dev w_pos w_w w_e w_offset w_buflen j_file j_replaced j_st].
  split; [reflexivity|]. unfold emptied. cbn [w_image w_buf w_skip_bad]. split; [|done]. pose proof H as [Hb Hd He Hw _ _ _ _].
  by apply at_emptied; [lia|..].
Qed.

(** A block that is written. *)
Lemma write_round w fl blks done_ x bs jf rp js js' fuel : at_blocks d0 w fl blks done_ (x :: bs) -> good_of fl blks <> [] ->
  (zlen x = es -> forall w1, w_buf w1 = x -> w_w w1 = w_w w -> w_dev w1 = w_dev w ->
    append_here (JWriting w 0 jf rp js) w1 = Some (NotHere js')) ->
  exists w' bads b rest flr, blks = bads ++ b :: rest /\ fl = replicate (length bads) true ++ false :: flr /\
    loop (S fuel) [] (JWriting w 0 jf rp js) = loop fuel [] (JWriting w' 0 jf rp js') /\
    at_blocks d0 w' flr rest (done_ ++ concat bads ++ x) bs /\ w_w w' = w_w w + es /\ (length (stream w') < length (stream w))%nat.
Proof.
  intros H Hg Ha. destruct (fill_block d0 ltac:(lia) w fl blks done_ x bs H) as (image & Hf & Hxl & Hxb & Hi & Hc & Hlt).
  destruct (put_block d0 ltac:(lia) w fl blks done_ x bs image H Hg Hxl Hxb Hi Hc)
    as (w2 & bads & b & rest & flr & d' & -> & -> & HE & Hz & Hdw & Hbl & Hww & Him & Hab).
  exists (emptied w2 d' (w_pos w2 + es) (w_w w2 + es) (w_e w2) 0), bads, b, rest, flr. do 2 (split; [done|]).
  split; [|split; [done|split; [cbn [emptied w_w]; lia|]]].
  - cbn [jwrite_loop j_w j_skip]. rewrite Hf. change (0 <? 0) with false. cbv iota. rewrite Ha by done. cbn [mbind option_bind].
    cbn [w_dev]. rewrite HE. cbn [mbind option_bind]. rewrite Hz. cbn [mbind option_bind]. rewrite Hdw, Hbl, Z.ltb_irrefl. reflexivity.
  - unfold emptied, stream at 1. cbn [w_buflen w_buf w_image]. by rewrite take_0, Him.
Qed.

(** What is left of the image behind the appended data: [k] blocks are thrown away. *)
Lemma tail_run bs : forall k w fl blks done_ rp js fuel, at_blocks d0 w fl blks done_ bs ->
  (length (drop k bs) <= length (good_of fl blks))%nat -> (length (stream w) < fuel)%nat ->
  loop fuel [] (JWriting w (Z.of_nat k * es) false rp js) =
    (d ← write_done trx (with_flash d0 (done_ ++ concat (place fl blks (drop k bs)))) rp; Some (Returns [d])).
Proof.
  induction bs as [|x bs IH]; intros k w fl blks done_ rp js fuel H Hr Hf; (destruct fuel as [|fuel]; [lia|]).
  - cbn [jwrite_loop j_w j_replaced]. rewrite (fill_end d0 ltac:(lia) w fl blks done_ H), drop_nil. destruct H as [Hb [f Hd] _ _ _ _ _ _].
    assert (place fl blks [] = blks) as -> by (by destruct fl). rewrite <- (bl_flash _ _ _ _ _ Hb). by rewrite Hd.
  - destruct k as [|k].
    + change (Z.of_nat 0 * es) with 0. cbn [drop] in *. destruct (write_round w fl blks done_ x bs false rp js js fuel H) as (w' & bads & b & rest & flr & -> & -> & -> & H' & _ & Hlt).
      { intros E. rewrite E in Hr. cbn [length] in Hr. lia. }
      { done. }
      rewrite good_of_skip in Hr. cbn [length] in Hr. 
      pose proof (IH 0%nat w' flr rest (done_ ++ concat bads ++ x) rp js fuel H') as Hrun. rewrite drop_0 in Hrun.
      change (Z.of_nat 0 * es) with 0 in Hrun. rewrite Hrun by lia.
      rewrite place_skip, concat_app. cbn [concat]. by rewrite <- !app_assoc.
    + destruct (skip_round w fl blks done_ x bs (Z.of_nat (S k) * es) false rp js fuel H) as (w' & -> & H' & Hlt); [lia|].
      replace (Z.of_nat (S k) * es - es) with (Z.of_nat k * es) by lia. cbn [drop] in *. apply IH; [done|done|lia].
Qed.

(** The parser at a block that is passed over. *)
Lemma not_here_early w x jf rp js : w_w w < skip_bytes -> forall w1, w_buf w1 = x -> w_w w1 = w_w w ->
  append_here (JWriting w 0 jf rp js) w1 = Some (NotHere js).
Proof. intros Hlt w1 _ Hw. unfold MtdWrite.append_here. cbn [j_file j_st]. by rewrite Hw, (proj2 (Z.leb_gt _ _)), andb_false_r by lia. Qed.

Lemma on_device_counts d js : counts (on_device d js) = counts js /\ ofs (on_device d js) = ofs js.
Proof. done. Qed.

(** A block without nodes, and a block of nodes. *)
Lemma parse_other x d js : d_erasesize d = es -> zlen x = es -> field x 0 2 <> JFFS2_MAGIC_BITMASK ->
  mtd_parse_jffs2data x dir (on_device d js) = Ok () (on_device d js).
Proof.
  intros Hd Hx Hm. unfold mtd_parse_jffs2data. cbn [parse_loop]. unfold mbind at 1, M_bind at 1, get at 1. cbv beta iota.
  unfold erasesize. cbn [on_device outdev]. rewrite Hd, u32_id, (proj2 (Z.ltb_lt 0 es)) by (lia || width).
  pose proof (fld_at [] x 0 2) as H. cbn [app length] in H. change (Z.of_nat 0 + 0) with 0 in H.
  unfold mbind at 1, M_bind at 1, mem at 1. rewrite H by lia. change (Z.to_nat 0) with 0%nat. change (Z.to_nat 2) with 2%nat.
  by rewrite (proj2 (Z.eqb_neq _ _)) by done.
Qed.

Lemma zslice_front (x : list Z) : 4 <= zlen x -> zslice x 0 4 = Some (take 4 x).
Proof. intros Hx. by rewrite zslice_Some by lia. Qed.

Lemma full_block_front ns : take 4 (full_block es ns) <> JFFS2_EOF.
Proof. unfold full_block, block_bytes. rewrite <- app_assoc. done. Qed.

(** Looking at a block that is not the end marker. *)
Lemma not_here_parse w x rp js js' : skip_bytes <= w_w w -> zlen x = es -> take 4 x <> JFFS2_EOF ->
  mtd_parse_jffs2data x dir (on_device (w_dev w) js) = Ok () js' ->
  forall w1, w_buf w1 = x -> w_w w1 = w_w w -> w_dev w1 = w_dev w -> append_here (JWriting w 0 true rp js) w1 = Some (NotHere js').
Proof.
  intros Hw Hx Hne Hp w1 Hb1 Hw1 Hd1. unfold MtdWrite.append_here. cbn [j_file j_st andb]. rewrite Hb1, Hw1, Hd1, (proj2 (Z.leb_le _ _)) by done.
  rewrite zslice_front by lia. cbn [mbind option_bind]. by rewrite decide_False, Hp by done.
Qed.

(** What looking at a block does to the variables of jffs2.c. *)
Definition looks (w0 : Z) (x : list Z) (ns : list jnode) : Prop := forall w js,
  d_erasesize (w_dev w) = es -> w_w w = w0 -> small_counts (counts js) -> zlen x = es ->
  exists js', ofs js' = ofs js /\ counts js' = fold_left (see dir) ns (counts js) /\ small_counts (counts js') /\
    forall w1, w_buf w1 = x -> w_w w1 = w_w w -> w_dev w1 = w_dev w -> append_here (JWriting w 0 true false js) w1 = Some (NotHere js').

(** The blocks [bs] are written, and the numbers in them remembered. *)
Definition passed (w0 : Z) (bs : list (list Z)) (ns : list jnode) : Prop := forall w fl blks done_ more js fuel,
  at_blocks d0 w fl blks done_ (bs ++ more) -> w_w w = w0 -> ofs js = 0 -> small_counts (counts js) ->
  (length bs <= length (good_of fl blks))%nat -> (length (stream w) < fuel)%nat ->
  exists fuel' w' fl' blks' pre js',
    loop fuel [] (JWriting w 0 true false js) = loop fuel' [] (JWriting w' 0 true false js') /\
    at_blocks d0 w' fl' blks' (done_ ++ concat pre) more /\ w_w w' = w0 + zlen bs * es /\
    (forall tl, place fl blks (bs ++ tl) = pre ++ place fl' blks' tl) /\
    (length (good_of fl' blks') + length bs = length (good_of fl blks))%nat /\
    (length pre = spans fl (length bs) /\ fl' = drop (length pre) fl) /\
    ofs js' = 0 /\ counts js' = fold_left (see dir) ns (counts js) /\ small_counts (counts js') /\ (length (stream w') < fuel')%nat.

Lemma passed_nil w0 : passed w0 [] [].
Proof.
  intros w fl blks done_ more js fuel H Hw Ho Hc Hr Hf. exists fuel, w, fl, blks, [], js. cbn [concat length app fold_left] in *.
  rewrite app_nil_r, spans_0. split_and!; try done; lia.
Qed.

Lemma passed_cons w0 x bs n0 ns : looks w0 x n0 -> passed (w0 + es) bs ns -> passed w0 (x :: bs) (n0 ++ ns).
Proof.
  intros Hx Hbs w fl blks done_ more js fuel H Hw Ho Hc Hr Hf. destruct fuel as [|fuel]; [lia|]. cbn [app] in H.
  destruct (fill_block d0 ltac:(lia) _ _ _ _ _ _ H) as (_ & _ & Hxl & _).
  destruct (Hx w js (at_blocks_es _ _ _ _ _ _ H) Hw Hc Hxl) as (js1 & Ho1 & Hc1 & Hs1 & Ha).
  destruct (write_round w fl blks done_ x (bs ++ more) true false js js1 fuel H) as (w1 & bads & b & rest & flr & -> & -> & -> & H1 & Hw1 & Hlt).
  { intros E. rewrite E in Hr. cbn [length] in Hr. lia. }
  { by intros _. }
  rewrite good_of_skip in Hr. cbn [length] in Hr.
  destruct (Hbs w1 flr rest _ more js1 fuel H1) as (fuel' & w' & fl' & blks' & pre & js' & -> & H' & Hw' & Hpl & Hg & [Hsp Hfl] & Ho' & Hc' & Hs' & Hf');
    [lia|lia|done|lia|lia|].
  exists fuel', w', fl', blks', (bads ++ x :: pre), js'. split; [done|]. split; [|split; [|split; [|split; [|split; [|split; [done|split; [|done]]]]]]].
  - rewrite concat_app. cbn [concat]. by rewrite <- !app_assoc in H'.
  - cbn [length]. lia.
  - intros tl. cbn [app]. rewrite place_skip, Hpl. by rewrite <- app_assoc.
  - rewrite good_of_skip. cbn [length]. lia.
  - rewrite length_app. cbn [length]. rewrite spans_skip, <- Hsp, Hfl. split; [lia|].
    replace (length bads + S (length pre))%nat with (length bads + 1 + length pre)%nat by lia. by rewrite drop_skip.
  - by rewrite fold_left_app, <- Hc1.
Qed.

Lemma pass_run w0 bs ns : passes es skip_bytes w0 bs ns -> passed w0 bs ns.
Proof.
  induction 1 as [w|w x bs ns Hlt _ IH|w x bs ns Hge Hm Hne _ IH|w ns0 bs ns Hge Hwb _ IH]; [apply passed_nil|..].
  - apply (passed_cons w x bs [] ns); [|done]. intros s js He <- Hc Hx. exists js. split_and!; try done.
    intros w1 Hb1 Hw1 _. by eapply not_here_early.
  - apply (passed_cons w x bs [] ns); [|done]. intros s js He <- Hc Hx. exists (on_device (w_dev s) js). split_and!; try done.
    apply not_here_parse; try done. by apply parse_other.
  - apply passed_cons; [|done]. intros s js He <- Hc Hx.
    assert (erasesize (on_device (w_dev s) js) = es) as He' by done.
    destruct (parse_block_spec dir ns0 (on_device (w_dev s) js)) as (js' & Hp & Hio & Hcs); rewrite ?He'; try done; [lia|].
    rewrite He' in Hp. exists js'. injection Hio as _ Hofs _ _ _. split; [exact Hofs|]. split; [exact Hcs|]. split.
    + rewrite Hcs. destruct Hwb as (Hok & Hsm & _). apply see_all_small; done.
    + by apply not_here_parse.
Qed.
End append.

(** *** The end marker *)

(** A file that can be appended to a device with erase blocks of [es] bytes, when the last
    inode and version seen are [i] and [v]. *)
Record appendable (es : Z) (garbage : list Z) (st : filestat) (f filename : list Z) (i v : Z) : Prop := {
  ap_es : 208 < es < 2 ^ 31 /\ es mod 4 = 0;
  ap_malloc : zlen garbage = es;
  ap_stat : stat_ok st;
  ap_file : Forall is_byte f;
  ap_name : Forall is_byte (base_name filename) /\ zlen (base_name filename) < 256 /\ zlen (base_name filename) + 56 < es;
  ap_counts : 0 <= i < 2 ^ 31 - 2 /\ 0 <= v /\ v + zlen f + 1 < 2 ^ 31
}.

Lemma append_round d0 part_offset skip_bytes dir st f filename garbage trx w fl blks done_ x bs js fuel :
  let es := d_erasesize d0 in
  let loop := jwrite_loop false part_offset skip_bytes dir (Some (st, Some f)) filename (Some garbage) trx in
  appendable es garbage st f filename (last_ino js) (last_version js) ->
  at_blocks d0 w fl blks done_ (x :: bs) -> skip_bytes <= w_w w -> take 4 x = JFFS2_EOF -> ofs js = 0 ->
  (zlen f + 128) / 129 + 2 < Z.of_nat (length (good_of fl blks)) ->
  exists w' fl' blks' pre js' blocks k,
    loop (S fuel) [] (JWriting w 0 true false js) = loop fuel [] (JWriting w' (Z.of_nat k * es) false true js') /\
    at_blocks d0 w' fl' blks' (done_ ++ concat pre) bs /\
    (forall tl, place fl blks (blocks ++ eof_block es :: tl) = pre ++ place fl' blks' tl) /\
    (length (good_of fl' blks') + (length blocks + 1) = length (good_of fl blks))%nat /\
    (k + 1 = spans fl (length blocks + 1))%nat /\ zlen blocks <= (zlen f + 128) / 129 + 2 /\ Forall (fun b : list Z => zlen b = es) (blocks ++ [eof_block es]) /\
    file_log blocks [] 1 (last_version js) (Z.max 1 (last_ino js) + 1) st (base_name filename) f /\ (length (stream w') < length (stream w))%nat.
Proof.
  intros es loop [[He He4] Hg Hst Hby (Hnb & Hnl & Hnf) (Hi & Hv & Hv31)] H Hw Hx Ho Hr.
  destruct (fill_block d0 ltac:(lia) w fl blks done_ x bs H) as (image & Hf & Hxl & Hxb & Hib & Hc & Hlt).
  pose proof (at_blocks_es _ _ _ _ _ _ H) as Hde. fold es in Hde. pose proof H as [Hb [fl0 Hd] Hee Hww _ _ _ _].
  assert (0 <= (zlen f + 128) / 129) as Hq by (apply Z.div_pos; lia).
  destruct (replace_lay (w_dev w) fl blks done_ ltac:(rewrite Hde; lia) ltac:(by rewrite Hde) ltac:(rewrite Hde; lia) js garbage st f filename (w_pos w))
    as (js' & blocks & Hrun & Hl & Hle & Hbound & Hlog); rewrite ?Hde; try done; [lia|]. rewrite Hde in Hl.
  destruct Hl as [(Hsz & Hpos & [g Hout] & fl' & blks' & pre & Hb' & Hpl & Hgood & Hpre & Hspan & _) _ _ _ _ _].
  assert (Forall (fun b : list Z => zlen b = es) pre) as Hpb.
  { pose proof (Hpl []) as E. rewrite app_nil_r in E.
    assert (Forall (fun b : list Z => zlen b = es) (place fl blks (blocks ++ [eof_block es]))) as Hall.
    { apply place_blocks; [eapply Forall_impl; [apply Hb|]|eapply Forall_impl; [exact Hsz|]]; cbv beta; congruence. }
    rewrite E in Hall. by apply Forall_app in Hall as [? _]. }
  assert (mtdofs js' - w_pos w = zlen pre * es) as Hskip.
  { rewrite <- (bl_start _ _ _ _ _ Hb'), <- (bl_start _ _ _ _ _ Hb), length_app, <- (concat_blocks _ _ Hpb). lia. }
  rewrite length_app in Hpre, Hspan. cbn [length] in Hpre, Hspan.
  exists (Writing (outdev js') (outpos js') image x 0 (w_w w + zlen pre * es) (w_e w + zlen pre * es) (w_skip_bad w) 0),
    fl', blks', pre, js', blocks, (length pre - 1)%nat.
  split; [|split; [|split; [|split; [|split; [lia|split; [done|split; [|split; [done|exact Hlt]]]]]]]].
  - unfold loop. cbn [jwrite_loop j_w j_skip]. rewrite Hf. change (0 <? 0) with false. cbv iota. unfold append_here.
    cbn [j_file j_st andb w_w w_buf w_dev w_pos w_e w_buflen]. rewrite (proj2 (Z.leb_le _ _)), zslice_front by lia. cbn [mbind option_bind].
    rewrite decide_True, Hee, Hrun by done. rewrite Hskip, <- Hee. cbn [mbind option_bind emptied w_image w_buf w_skip_bad].
    do 2 f_equal. fold es. rewrite Nat2Z.inj_sub by lia. lia.
  - apply at_emptied; try done; [lia|by rewrite Hpos|exists g; by rewrite Hout, Hd|rewrite Hpos, Hee; lia|lia].
  - intros tl. rewrite <- Hpl. by rewrite <- app_assoc.
  - rewrite length_app in Hgood. exact Hgood.
  - eapply Forall_impl; [exact Hsz|]. cbv beta. congruence.
Qed.

(** The good blocks of a device that was written from its start. *)
Lemma good_placed d out : sound d -> Forall (fun b : list Z => zlen b = d_erasesize d) out -> (length out <= length (good_from 0 d))%nat ->
  good_from 0 (with_flash d (concat (place (flags_of d) (blocks_of d) out))) = out ++ drop (length out) (good_from 0 d).
Proof.
  intros Hs Hout Hlen. pose proof (sound_blocked d Hs) as Hb. destruct Hs as (He & _ & _). set (pl := place _ _ out).
  assert (Forall (fun b : list Z => zlen b = d_erasesize d) pl) as Hpl by (apply place_blocks; [apply Hb|done]).
  set (d' := with_flash d (concat pl)).
  assert (d_size d' = d_size d) as Hsz.
  { unfold d_size. rewrite (bl_flash _ _ _ _ _ Hb). cbn [d' with_flash d_flash app].
    rewrite (concat_blocks _ _ Hpl), (concat_blocks _ _ (bl_blocks _ _ _ _ _ Hb)). unfold pl. by rewrite length_place. }
  assert (flags_of d' = flags_of d) as Hfl.
  { unfold flags_of. rewrite Hsz. cbn [d' with_flash d_erasesize]. apply list_fmap_ext. intros _ i _. unfold mtd_block_is_bad. by rewrite Hsz. }
  assert (blocks_of d' = pl) as Hbl by (by apply blocks_of_concat).
  unfold good_from. rewrite !drop_0, Hfl, Hbl. apply good_of_place; [apply Hb|exact Hlen].
Qed.

(** ** The whole command *)

(** C21: Flashing an image with [-j], without [-n] and [-p]: on a device with any pattern of bad
    blocks and room for the image and the file, [mtd write]
    writes the blocks of the image up to its end marker as they are, puts the file there with
    the inode and version numbers that follow on those of the nodes it passed, and ends it with a
    new marker. The file and its marker take the place of the old marker and of [k] blocks of the
    image behind it, where [k + 1] is exactly the number of blocks, bad ones counted, that they
    take up on the device; the other blocks of the image are all written behind them, and the
    good blocks not needed keep their old contents. From the appended blocks a reader that checks
    every checksum gets the file back. *)
Theorem mtd_write_appends_file (d : device) part_offset skip_bytes dir st f filename garbage trx buf image bs eofb more ns :
  let es := d_erasesize d in
  let blocks_in := chunks (length (buf ++ image)) es (buf ++ image) in
  let '(i, v, _) := fold_left (see dir) ns (0, 0, 0) in
  sound d -> Forall is_byte (buf ++ image) -> zlen buf <= es -> part_offset <= 0 ->
  blocks_in = bs ++ eofb :: more -> passes es skip_bytes 0 bs ns -> take 4 eofb = JFFS2_EOF -> skip_bytes <= zlen bs * es ->
  appendable es garbage st f filename i v ->
  zlen blocks_in + (zlen f + 128) / 129 + 2 < Z.of_nat (length (good_from 0 d)) ->
  exists d' blocks k,
    mtd_write_image false part_offset skip_bytes dir (Some (st, Some f)) filename (Some garbage) trx true d [] buf image =
      (d'' ← write_done trx d' true; Some (Returns [d''])) /\
    (spans (flags_of d) (length bs) + (k + 1) = spans (flags_of d) (length bs + (length blocks + 1)))%nat /\
    good_from 0 d' = bs ++ (blocks ++ [eof_block es]) ++ drop k more ++
      drop (length (bs ++ (blocks ++ [eof_block es]) ++ drop k more)) (good_from 0 d) /\
    file_log blocks [] 1 v (Z.max 1 i + 1) st (base_name filename) f.
Proof.
  intros es blocks_in. destruct (fold_left (see dir) ns (0, 0, 0)) as [[i v] t] eqn:Hsee.
  intros Hs Hby Hbl Hpo Hin Hpass Heof Hskip Hap Hroom. pose proof (sound_blocked d Hs) as Hb. pose proof Hap as [[He He4] _ _ _ _ _].
  set (w := Writing d (start_pos part_offset) image buf (zlen buf) 0 0 0 0). set (js := Jffs2 0 0 [] 0 d 0 0 0).
  assert (start_pos part_offset = 0) as Hp0 by (unfold start_pos; by rewrite (proj2 (Z.ltb_ge _ _)) by lia).
  assert (stream w = buf ++ image) as Hst by (unfold stream; cbn [w w_buflen w_buf w_image]; by rewrite take_ge by lia).
  assert (at_blocks d w (flags_of d) (blocks_of d) [] (bs ++ eofb :: more)) as H.
  { split; rewrite ?Hst; cbn [w w_dev w_pos w_e w_w w_skip_bad w_offset w_buflen w_buf]; rewrite ?Hp0; try done.
    - exists (d_flash d). symmetry. by apply with_flash_same.
    - by rewrite take_ge by lia. }
  rewrite Hin, length_app in Hroom. cbn [length] in Hroom. assert (0 <= (zlen f + 128) / 129) as Hq by (apply Z.div_pos; lia).
  change (good_from 0 d) with (good_of (flags_of d) (blocks_of d)) in *.
  destruct (pass_run d part_offset skip_bytes dir (Some (st, Some f)) filename (Some garbage) trx ltac:(lia) He4 0 bs ns Hpass
    w (flags_of d) (blocks_of d) [] (eofb :: more) js (S (length (buf ++ image))) H)
    as (fuel1 & w1 & fl1 & blks1 & pre1 & js1 & Hrun1 & H1 & Hw1 & Hpl1 & Hg1 & [Hsp1 Hfl1] & Ho1 & Hc1 & Hs1 & Hf1); try done; [lia|rewrite Hst; lia|].
  change (counts js) with (0, 0, 0) in Hc1. rewrite Hsee in Hc1. injection Hc1 as Hci Hcv Hct.
  destruct fuel1 as [|fuel1]; [lia|].
  destruct (append_round d part_offset skip_bytes dir st f filename garbage trx w1 fl1 blks1 ([] ++ concat pre1) eofb more js1 fuel1)
    as (w2 & fl2 & blks2 & pre2 & js2 & blocks & k & Hrun2 & H2 & Hpl2 & Hg2 & Hk & Hbound & Hsz2 & Hlog & Hlt2); rewrite ?Hci, ?Hcv; try done; [lia|lia|].
  assert (length (drop k more) <= length (good_of fl2 blks2))%nat as Hr2 by (rewrite length_drop; lia).
  set (out := bs ++ (blocks ++ [eof_block es]) ++ drop k more). set (pl := place (flags_of d) (blocks_of d) out).
  assert (concat pl = ([] ++ concat pre1) ++ concat pre2 ++ concat (place fl2 blks2 (drop k more))) as Epl.
  { unfold pl, out. rewrite Hpl1. rewrite <- app_assoc. cbn [app]. unfold es. rewrite Hpl2, !concat_app. done. }
  exists (with_flash d (concat pl)), blocks, k. split; [|split; [by rewrite spans_add, <- Hsp1, <- Hfl1, Hk|split; [|by rewrite Hci, Hcv in Hlog]]].
  - unfold mtd_write_image. cbn [length Nat.add]. rewrite <- length_app. fold w js. rewrite Hrun1, Hrun2.
    rewrite (tail_run d part_offset skip_bytes dir (Some (st, Some f)) filename (Some garbage) trx ltac:(lia) more k w2 fl2 blks2 _ true js2 fuel1 H2) by (done || lia).
    rewrite Epl. by rewrite <- !app_assoc.
  - pose proof (chunks_length es (length (buf ++ image)) (buf ++ image) ltac:(lia)) as Hch. fold blocks_in in Hch. rewrite Hin in Hch.
    apply Forall_app in Hch as [Hch1 Hch2]. apply Forall_cons in Hch2 as [_ Hch2].
    unfold pl. rewrite good_placed; [|done|apply Forall_app_2; [done|]; apply Forall_app_2; [done|by apply Forall_drop]|].
    + unfold out. rewrite <- !app_assoc. done.
    + unfold out. rewrite !length_app. cbn [length]. change (good_from 0 d) with (good_of (flags_of d) (blocks_of d)). lia.
Qed.

(** ** The theorems at work *)

(** Twelve blocks of 256 bytes, the fourth one bad, and an image of a kernel, a block of nodes,
    the end marker and a block behind it. *)
Definition demo_target : device := Device 256 true (fun o => o =? 768) (fun _ => true) (replicate (Z.to_nat 3072) 7).
Definition demo_kernel : list Z := replicate (Z.to_nat 256) 5.
Definition demo_behind : list Z := replicate (Z.to_nat 256) 9.
Definition demo_upload : list Z := concat ([demo_kernel] ++ (full_block 256 <$> demo_nodes) ++ [eof_block 256; demo_behind]).

Lemma demo_passes : passes 256 0 0 ([demo_kernel] ++ (full_block 256 <$> demo_nodes)) (mjoin demo_nodes).
Proof.
  apply passes_other; [done|vm_compute; discriminate|vm_compute; discriminate|].
  apply (passes_nodes 256 0 256 [NDirent 1 3 2 DT_DIR (bs "etc")] [] []); [done| |constructor].
  pose proof (im_written _ _ _ _ demo_image) as H. by apply Forall_cons in H as [? _].
Qed.

Lemma demo_target_sound : sound demo_target.
Proof. split; [done|]. split; [exists 12; split; [done|vm_compute; reflexivity]|]. done. Qed.

Lemma mtd_write_appends_file_witness :
  exists d' blocks k,
    mtd_write_image false 0 0 [] (Some (demo_stat, Some demo_file)) (bs "a.txt") (Some (replicate (Z.to_nat 256) 0)) None true demo_target [] [] demo_upload =
      (d'' ← write_done None d' true; Some (Returns [d''])) /\
    (spans (flags_of demo_target) 2 + (k + 1) = spans (flags_of demo_target) (2 + (length blocks + 1)))%nat /\
    good_from 0 d' = ([demo_kernel] ++ (full_block 256 <$> demo_nodes)) ++ (blocks ++ [eof_block 256]) ++ drop k [demo_behind] ++
      drop (length (([demo_kernel] ++ (full_block 256 <$> demo_nodes)) ++ (blocks ++ [eof_block 256]) ++ drop k [demo_behind])) (good_from 0 demo_target) /\
    file_log blocks [] 1 3 3 demo_stat (bs "a.txt") demo_file.
Proof.
  pose proof (mtd_write_appends_file demo_target 0 0 [] demo_stat demo_file (bs "a.txt") (replicate (Z.to_nat 256) 0) None [] demo_upload
    ([demo_kernel] ++ (full_block 256 <$> demo_nodes)) (eof_block 256) [demo_behind] (mjoin demo_nodes)) as H.
  cbv zeta in H. assert (fold_left (see []) (mjoin demo_nodes) (0, 0, 0) = (2, 3, 0)) as E by (vm_compute; reflexivity). rewrite E in H.
  apply H; [exact demo_target_sound|eval_decide|done|done|vm_compute; reflexivity|exact demo_passes|reflexivity|done| |vm_compute; reflexivity].
  split; [by split|reflexivity|apply demo_stat_ok|apply demo_stat_ok| |by vm_compute].
  split; [eval_decide|by vm_compute].
Defined.

(** With [-n] nothing advances [e], which is where [mtd_replace_jffs2] erases: the file is
    programmed behind the kernel, over what was there, and the kernel is erased. *)
Example no_erase_append_wipes_start :
  match mtd_write_image true 0 0 [] (Some (demo_stat, Some demo_file)) (bs "a.txt") (Some (replicate (Z.to_nat 256) 0)) None true
    (Device 256 false (fun _ => false) (fun _ => true) (replicate (Z.to_nat 1024) 0xff)) [] [] (demo_kernel ++ eof_block 256) with
  | Some (Returns [d']) => take 256 (d_flash d') = replicate 256 0xff
  | _ => False
  end.
Proof. vm_compute. reflexivity. Qed.
