(* ===== verification/MtdMain.v ===== *)
(** The mtd command line (package/system/mtd/src/mtd.c): finding devices, options, commands and
    [main], on a system with several devices and files. *)

From stdpp Require Import gmap.
From S2P Require Import Prelude Libc Crc Otrx Mtd MtdSpec MtdTrx MtdVerify Jffs2 Jffs2Nodes Jffs2Parse Jffs2Spec Jffs2Append MtdWrite.

(** ** Devices by name *)

(** The devices of a system by number, and the files: what [stat] finds and, if the file can be
    opened, its contents. *)
Abbreviation devices := (gmap Z device).
Abbreviation mtdfiles := (gmap (list Z) (filestat * option (list Z))).

(** [a:b:c] *)
Fixpoint split_colon (s : list Z) : list (list Z) :=
  match s with
  | [] => [[]]
  | c :: s =>
      match split_colon s with
      | w :: ws => if c =? 58 then [] :: w :: ws else (c :: w) :: ws
      | [] => [[]]
      end
  end.

(** What the options leave behind. *)
Record options := Options {
  o_force : bool; o_boot : bool; o_no_erase : bool;
  o_jffs2file : option (list Z); o_skip_bytes : Z; o_quiet : Z; o_erase : list (list Z);
  o_dir : list Z; o_part_offset : Z; o_dump_len : Z; o_offset : Z
}.

Inductive command := CMD_ERASE | CMD_WRITE | CMD_UNLOCK | CMD_JFFS2WRITE | CMD_FIXTRX | CMD_VERIFY | CMD_DUMP.

(** How the program ends: the exit status, the devices, what was written to standard output,
    and whether it rebooted the system. *)
Record result := Result { status : Z; devs_out : devices; stdout : list Z; rebooted : bool }.

Section system.
(** The lines of /proc/mtd; the devices behind /dev/mtd/i ([true]) and /dev/mtdi, and behind
    any other path; files and standard input. *)
Context (proc_mtd : option (list (list Z))) (char_node : bool -> Z -> option Z) (path_node : list Z -> option Z).
Context (files : mtdfiles) (stdin : list Z).
(** Whether trx.o is linked, and then whether it can map a device; whether [strtoul] reports a
    number without digits; what [malloc] returns to jffs2.c; how reading a device goes. *)
Context (trx : option bool) (einval : bool) (malloc : option (list Z)) (reads : list read_result).
Context `{L : md5lib}.

Fixpoint open_loop (mtd name : list Z) (lines : list (list Z)) : option Z :=
  match lines with
  | [] => path_node mtd
  | dev :: lines =>
      match scan_mtd_num dev with
      | Some (i, _) =>
          if contains name dev then match char_node true i with Some n => Some n | None => char_node false i end
          else open_loop mtd name lines
      | None => open_loop mtd name lines
      end
  end.

(** [mtd_open (mtd, false)]: the number of the device. *)
Definition mtd_open (mtd : list Z) : option Z :=
  open_loop mtd (take 4095 (34 :: mtd ++ [34])) (default [] proc_mtd).

(** Something that is not an MTD device has no [MEMGETINFO]. *)
Definition mtd_check_open (devs : devices) (mtd : list Z) : option (Z * device) :=
  n ← mtd_open mtd; d ← devs !! n; Some (n, d).

Definition opens (devs : devices) (mtd : list Z) : bool := bool_decide (is_Some (mtd_check_open devs mtd)).

Definition mtd_check (devs : devices) (mtd : list Z) : bool := forallb (opens devs) (split_colon mtd).

(** Locks are not part of a device: [MEMUNLOCK] comes before every erase. *)
Definition mtd_unlock (devs : devices) (mtd : list Z) : outcome devices :=
  if forallb (opens devs) (split_colon mtd) then Returns devs else Exits devs.

(** [image_check]: the result, the rest of the image and what is in [buf]. *)
Definition image_check (devs : devices) (mtd image : list Z) : option (outcome (Z * list Z * list Z)) :=
  match trx with
  | Some _ => trx_check mtd image (snd <$> mtd_check_open devs mtd)
  | None => Some (Returns (1, image, []))
  end.

(** [mtd_erase] by name. *)
Definition erase_named (devs : devices) (mtd : list Z) : outcome devices :=
  match mtd_check_open devs mtd with
  | None => Exits devs
  | Some (n, d) => match mtd_erase d with Returns d => Returns (<[n := d]> devs) | Exits d => Exits (<[n := d]> devs) end
  end.

(** ** Options *)

Definition mtd_kind (c : Z) : optkind :=
  if bool_decide (c ∈ bs "frnq") then NoArg else if bool_decide (c ∈ bs "edsjpol") then WithArg else Unknown.

(** [-e]: [erase] has eight places, the last of which is needed for the end of the list. *)
Definition add_erase (l : list (list Z)) (a : list Z) : option (list (list Z)) :=
  if (length l <? 7)%nat then Some (l ++ [a]) else None.

(** One round of the [switch]; [inl] is [usage()]. *)
Definition option_step (o : options) (ch : Z * list Z) : option (unit + options) :=
  let '(c, a) := ch in
  let '(Options force boot no_erase jfile skip quiet erase dir part_offset dump_len offset) := o in
  let numeric (k : Z -> options) := Some (if strtoul0_fails einval a then inl () else inr (k (strtoul0 a))) in
  if c =? 102 then Some (inr (Options true boot no_erase jfile skip quiet erase dir part_offset dump_len offset))
  else if c =? 114 then Some (inr (Options force true no_erase jfile skip quiet erase dir part_offset dump_len offset))
  else if c =? 110 then Some (inr (Options force boot true jfile skip quiet erase dir part_offset dump_len offset))
  else if c =? 106 then Some (inr (Options force boot no_erase (Some a) skip quiet erase dir part_offset dump_len offset))
  else if c =? 115 then numeric (fun n => Options force boot no_erase jfile (s32 n) quiet erase dir part_offset dump_len offset)
  else if c =? 113 then Some (inr (Options force boot no_erase jfile skip (quiet + 1) erase dir part_offset dump_len offset))
  else if c =? 101 then
    erase ← add_erase erase a;
    Some (inr (Options force boot no_erase jfile skip quiet erase dir part_offset dump_len offset))
  else if c =? 100 then Some (inr (Options force boot no_erase jfile skip quiet erase a part_offset dump_len offset))
  else if c =? 112 then numeric (fun n => Options force boot no_erase jfile skip quiet erase dir n dump_len offset)
  else if c =? 108 then numeric (fun n => Options force boot no_erase jfile skip quiet erase dir part_offset n offset)
  else if c =? 111 then numeric (fun n => Options force boot no_erase jfile skip quiet erase dir part_offset dump_len n)
  else Some (inl ()).

Fixpoint parse_options (o : options) (chs : list (Z * list Z)) : option (unit + options) :=
  match chs with
  | [] => Some (inr o)
  | ch :: chs => r ← option_step o ch; match r with inl _ => Some (inl ()) | inr o => parse_options o chs end
  end.

Definition no_options : options := Options false false false None 0 0 [] [] 0 0 0.

(** ** Commands *)

(** The chain of [strcmp]: the command, the image file and the device; [None] is [usage()].
    Neither seama.o nor linksys_bootcount.o is linked. *)
Definition parse_command (argv : list (list Z)) : option (command * list Z * list Z) :=
  match argv with
  | [c; a] =>
      if decide (c = bs "unlock") then Some (CMD_UNLOCK, [], a)
      else if decide (c = bs "erase") then Some (CMD_ERASE, [], a)
      else if bool_decide (c = bs "fixtrx") && bool_decide (is_Some trx) then Some (CMD_FIXTRX, [], a)
      else if decide (c = bs "dump") then Some (CMD_DUMP, [], a)
      else None
  | [c; a; b] =>
      if decide (c = bs "verify") then Some (CMD_VERIFY, a, b)
      else if decide (c = bs "write") then Some (CMD_WRITE, a, b)
      else if decide (c = bs "jffs2write") then Some (CMD_JFFS2WRITE, a, b)
      else None
  | _ => None
  end.

(** What [write] and [jffs2write] check before anything else: [inl] is [exit(1)], otherwise the
    image with what is already in [buf]. *)
Definition prepare (o : options) (devs : devices) (cmd : command) (imagefile device : list Z) : option (unit + (list Z * list Z)) :=
  match cmd with
  | CMD_WRITE =>
      match (if decide (imagefile = bs "-") then Some stdin else files !! imagefile ≫= snd) with
      | None => Some (inl ())
      | Some image =>
          if negb (mtd_check devs device) then Some (inl ())
          else
            r ← image_check devs device image;
            match r with
            | Exits _ => Some (inl ())
            | Returns (ret, image, buf) => if (ret =? 0) && negb (o_force o) then Some (inl ()) else Some (inr (buf, image))
            end
      end
  | CMD_JFFS2WRITE => Some (if negb (mtd_check devs device) then inl () else inr ([], []))
  | _ => Some (inr ([], []))
  end.

(** The loop over [erase]: the devices and [unlocked]. *)
Fixpoint erase_all (devs : devices) (device : list Z) (unlocked : bool) (erase : list (list Z)) : outcome (devices * bool) :=
  match erase with
  | [] => Returns (devs, unlocked)
  | e :: erase =>
      match mtd_unlock devs e with
      | Exits devs => Exits (devs, unlocked)
      | Returns devs =>
          match erase_named devs e with
          | Exits devs => Exits (devs, unlocked)
          | Returns devs => erase_all devs device (if decide (e = device) then true else unlocked) erase
          end
      end
  end.

(** The devices of a list are opened one after the other; they are different ones. *)
Definition open_all (devs : devices) (mtd : list Z) : option (list (Z * device)) :=
  mapM (mtd_check_open devs) (split_colon mtd).

Definition store_all (devs : devices) (ns : list Z) (ds : list device) : devices :=
  foldr (fun nd devs => <[nd.1 := nd.2]> devs) devs (zip ns ds).

(** [mtd_write] by name; without a list of different devices it is not modelled. *)
Definition write_named (o : options) (devs : devices) (mtd buf image : list Z) : option (outcome devices) :=
  match open_all devs mtd with
  | Some ((n, d) :: rest) =>
      let ns := n :: (fst <$> rest) in
      if decide (NoDup ns) then
        let jfile := default [] (o_jffs2file o) in
        r ← mtd_write_image (o_no_erase o) (o_part_offset o) (o_skip_bytes o) (o_dir o) (files !! jfile) jfile malloc trx
              (bool_decide (is_Some (o_jffs2file o))) d (snd <$> rest) buf image;
        Some match r with Returns ds => Returns (store_all devs ns ds) | Exits ds => Exits (store_all devs ns ds) end
      else None
  | _ => Some (Exits devs)
  end.

(** [mtd_write_jffs2] by name; its result is dropped. *)
Definition jffs2write_named (o : options) (devs : devices) (mtd imagefile : list Z) : option (outcome devices) :=
  match mtd_check_open devs mtd with
  | None => Some (Returns devs)
  | Some (n, d) =>
      match mtd_write_jffs2 trx malloc (o_dir o) (files !! imagefile) imagefile (fresh d) with
      | Ok _ s => Some (Returns (<[n := outdev s]> devs))
      | Exit s => Some (Exits (<[n := outdev s]> devs))
      | Fault | Spin => None
      end
  end.

(** [mtd_dump] by name: what it prints.  A length of 2 GiB and more is negative as an [int]
    and goes to [read] as a huge number; [lseek] refuses a position outside the device. *)
Definition dump_named (devs : devices) (mtd : list Z) (offset dump_len : Z) : option (outcome (list Z)) :=
  match mtd_check_open devs mtd with
  | None => Some (Returns [])
  | Some (_, d) =>
      if s32 dump_len <? 0 then None
      else mtd_dump d (if (0 <=? s32 offset) && (s32 offset <=? d_size d) then s32 offset else 0) (s32 dump_len)
  end.

Definition fixtrx_named (devs : devices) (mtd : list Z) (offset : Z) : option (outcome devices) :=
  let dev := mtd_check_open devs mtd in
  let store d := match dev, d with Some (n, _), Some d => <[n := d]> devs | _, _ => devs end in
  r ← mtd_fixtrx true (snd <$> dev) offset;
  Some match r with Returns d => Returns (store d) | Exits d => Exits (store d) end.

(** The [switch] over the command: the devices and what was printed. *)
Definition run_command (o : options) (cmd : command) (devs : devices) (imagefile device buf image : list Z) (unlocked : bool)
  : option (outcome (devices * list Z)) :=
  let silent (r : outcome devices) := match r with Returns ds => Returns (ds, []) | Exits ds => Exits (ds, []) end in
  let unlock (k : option (outcome devices)) :=
    if unlocked then silent <$> k
    else match mtd_unlock devs device with Exits ds => Some (Exits (ds, [])) | Returns _ => silent <$> k end in
  match cmd with
  | CMD_UNLOCK => unlock (Some (Returns devs))
  | CMD_VERIFY =>
      _ ← mtd_verify (snd <$> mtd_check_open devs device) (files !! imagefile ≫= snd) reads;
      Some (Returns (devs, []))
  | CMD_DUMP =>
      r ← dump_named devs device (o_offset o) (o_dump_len o);
      Some match r with Returns out => Returns (devs, out) | Exits out => Exits (devs, out) end
  | CMD_ERASE => unlock (Some (erase_named devs device))
  | CMD_WRITE => unlock (write_named o devs device buf image)
  | CMD_JFFS2WRITE => unlock (jffs2write_named o devs device imagefile)
  | CMD_FIXTRX => silent <$> fixtrx_named devs device (o_offset o)
  end.

(** [main]; [args] is without the name of the program. *)
Definition mtd_main (args : list (list Z)) (devs : devices) : option result :=
  let failed devs out := Result 1 devs out false in
  r ← parse_options no_options (getopt mtd_kind args);
  match r with
  | inl _ => Some (failed devs [])
  | inr o =>
      match parse_command (getopt_operands mtd_kind args) with
      | None => Some (failed devs [])
      | Some (cmd, imagefile, device) =>
          p ← prepare o devs cmd imagefile device;
          match p with
          | inl _ => Some (failed devs [])
          | inr (buf, image) =>
              match erase_all devs device false (o_erase o) with
              | Exits (devs, _) => Some (failed devs [])
              | Returns (devs, unlocked) =>
                  r ← run_command o cmd devs imagefile device buf image unlocked;
                  Some match r with
                       | Exits (devs, out) => failed devs out
                       | Returns (devs, out) => Result 0 devs out (o_boot o)
                       end
              end
          end
      end
  end.
End system.

(** ** The loops end *)

Lemma dump_loop_ends d : forall fuel pos offset size out, 0 <= pos -> (Z.to_nat (d_size d - pos) < fuel)%nat ->
  is_Some (dump_loop fuel d pos offset size out).
Proof.
  induction fuel as [|fuel IH]; intros pos offset size out Hp Hf; [lia|]. cbn [dump_loop].
  set (len := if _ <? size then _ else _). set (data := dev_read d pos len).
  assert (zlen data <= Z.max 0 (d_size d - pos)) as Hd by (unfold data, dev_read, d_size; rewrite length_take, length_drop; lia).
  destruct (Z.eqb_spec (zlen data) 0) as [E|E]; [by eexists|]. cbn [orb]. destruct (negb _); [by eexists|].
  destruct (mtd_block_is_bad d offset); [|by eexists]. destruct (0 <? _); [|by eexists]. apply IH; lia.
Qed.

Lemma verify_loop_ends `{L : md5lib} d : forall fuel reads pos st_size ctx, 0 <= st_size -> (length reads + Z.to_nat st_size < fuel)%nat ->
  is_Some (verify_loop fuel d reads pos st_size ctx).
Proof.
  induction fuel as [|fuel IH]; intros reads pos st_size ctx Hs Hf; [lia|]. cbn [verify_loop].
  set (data := dev_read d pos (if 256 <? st_size then 256 else st_size)).
  assert (zlen data <= st_size) as Hd by (unfold data, dev_read; rewrite length_take; destruct (Z.ltb_spec 256 st_size); lia).
  destruct reads as [|[] reads]; cbn [length tail] in *.
  - destruct (Z.eqb_spec (zlen data) 0); [by eexists|]. destruct (0 <? _); [|by eexists]. apply IH; cbn [length]; lia.
  - destruct (Z.eqb_spec (zlen data) 0); [by eexists|]. destruct (0 <? _); [|by eexists]. apply IH; lia.
  - destruct (0 <? st_size); [|by eexists]. apply IH; lia.
  - by eexists.
Qed.

(** [erase_ahead] ends and leaves the buffer alone. *)
Lemma erase_ahead_ends : forall fuel s, 0 < d_erasesize (w_dev s) -> 0 <= w_e s -> (Z.to_nat (d_size (w_dev s) - w_e s) < fuel)%nat ->
  exists r, erase_ahead fuel s = Some r /\
    match r with
    | Erased s' => d_erasesize (w_dev s') = d_erasesize (w_dev s) /\ 0 <= w_e s' /\ w_image s' = w_image s /\ w_buf s' = w_buf s /\
        w_buflen s' = w_buflen s /\ w_offset s' = w_offset s
    | _ => True
    end.
Proof.
  induction fuel as [|fuel IH]; intros s Hes He Hf; [lia|]. cbn [erase_ahead]. destruct (_ <? _); [|by eexists].
  destruct (mtd_block_is_bad (w_dev s) (w_e s)) as [[]|] eqn:Hbad; [| |by eexists].
  - assert (w_e s < d_size (w_dev s)).
    { unfold mtd_block_is_bad in Hbad. destruct (d_nand _); [|done]. destruct (Z.leb_spec 0 (w_e s)); [|done]. by destruct (Z.ltb_spec (w_e s) (d_size (w_dev s))). }
    apply (IH (with_erase s _ _ _ _)); cbn [with_erase w_dev w_e]; lia || done.
  - destruct (mtd_erase_block (w_dev s) (w_e s)) as [d|] eqn:Hd; [|by eexists].
    assert (d_erasesize d = d_erasesize (w_dev s) /\ d_size d = d_size (w_dev s) /\ w_e s + d_erasesize (w_dev s) <= d_size (w_dev s)) as (E1 & E2 & E3).
    { unfold mtd_erase_block in Hd. destruct (Z.leb_spec 0 (w_e s)); [|done]. destruct (Z.leb_spec (w_e s + d_erasesize (w_dev s)) (d_size (w_dev s))); [|done].
      cbn [andb] in Hd. destruct (d_erase_ok _ _); [|done]. injection Hd as <-. cbn [with_flash d_erasesize]. unfold d_size in *. cbn [with_flash d_flash].
      rewrite !length_app, length_take, length_replicate, length_drop. split; [done|lia]. }
    destruct (IH (with_erase s d (w_pos s) (w_e s + d_erasesize (w_dev s)) (w_skip_bad s))) as (r & -> & Hr); cbn [with_erase w_dev w_e]; [lia|lia|lia|].
    exists r. split; [done|]. destruct r; try done. by rewrite <- E1.
Qed.

Lemma fill_goes_on s s1 : 0 < d_erasesize (w_dev s) -> 0 <= w_buflen s <= zlen (w_buf s) -> fill s = Some s1 ->
  w_dev s1 = w_dev s /\ w_e s1 = w_e s /\ w_offset s1 = w_offset s /\ w_buflen s1 = d_erasesize (w_dev s) /\ d_erasesize (w_dev s) <= zlen (w_buf s1) /\
  (length (w_image s1) < Z.to_nat (w_buflen s) + length (w_image s))%nat.
Proof.
  intros Hes Hb. unfold fill. set (n := Z.to_nat _). destruct (Z.eqb_spec (w_buflen s + zlen (take n (w_image s))) 0) as [|E]; [done|].
  intros [= <-]. cbn [w_dev w_e w_offset w_buflen w_buf w_image]. rewrite length_take in E. split_and!; try done.
  - rewrite !length_app, !length_take, length_replicate. lia.
  - rewrite length_drop. lia.
Qed.

Lemma write_loop_ends no_erase part_offset : forall fuel s, 0 < d_erasesize (w_dev s) -> 0 <= w_e s -> w_offset s = 0 ->
  0 <= w_buflen s <= zlen (w_buf s) -> (Z.to_nat (w_buflen s) + length (w_image s) < fuel)%nat -> is_Some (write_loop no_erase part_offset fuel [] s).
Proof.
  induction fuel as [|fuel IH]; intros s Hes He Ho Hb Hf; [lia|]. cbn [write_loop]. destruct (fill s) as [s1|] eqn:Hfill; [|by eexists].
  destruct (fill_goes_on s s1 Hes Hb Hfill) as (Ed & Ee & Eo & El & Ebl & Hlt).
  assert (exists r, (if no_erase then Some (Erased s1) else erase_ahead (block_fuel (w_dev s1)) s1) = Some r /\
    match r with Erased s' => d_erasesize (w_dev s') = d_erasesize (w_dev s1) /\ 0 <= w_e s' /\ w_image s' = w_image s1 /\ w_buf s' = w_buf s1 /\
        w_buflen s' = w_buflen s1 /\ w_offset s' = w_offset s1 | _ => True end) as (r & -> & Hr).
  { destruct no_erase; [exists (Erased s1); split; [done|]; by rewrite Ee|]. apply erase_ahead_ends; rewrite ?Ed, ?Ee; try done. unfold block_fuel. lia. }
  cbn [mbind option_bind]. destruct r as [s2|s2|s2]; [|by eexists..]. destruct Hr as (H1 & H2 & H3 & H4 & H5 & H6).
  rewrite H6, Eo, Ho, H4, H5, El, zslice_Some by lia. cbn [mbind option_bind]. destruct (dev_write _ _ _) as [d k] eqn:Hd.
  destruct (_ <? _); [by eexists|].
  assert (d_erasesize d = d_erasesize (w_dev s)) as E by (unfold dev_write in Hd; injection Hd as <- _; cbn [with_flash d_erasesize]; congruence).
  apply IH; cbn [w_dev w_e w_offset w_buflen w_buf w_image]; rewrite ?E, ?H3; try done; lia.
Qed.

Lemma erase_loop_es d : forall fuel start, d_erasesize (match erase_loop fuel d start with Returns d => d | Exits d => d end) = d_erasesize d.
Proof.
  intros fuel. revert d. induction fuel as [|fuel IH]; intros d start; [done|]. cbn [erase_loop]. destruct (_ <? _); [|done].
  destruct (mtd_block_is_bad d start) as [[]|]; [by rewrite IH| |done]. rewrite IH. unfold mtd_erase_block. by destruct (_ && _).
Qed.

(** ** Options *)

Section facts.
Context (proc_mtd : option (list (list Z))) (char_node : bool -> Z -> option Z) (path_node : list Z -> option Z).
Context (files : mtdfiles) (stdin : list Z).
Context (trx : option bool) (einval : bool) (malloc : option (list Z)) (reads : list read_result).
Context `{L : md5lib}.
#[local] Abbreviation mtd_open := (mtd_open proc_mtd char_node path_node).
#[local] Abbreviation mtd_check_open := (mtd_check_open proc_mtd char_node path_node).
#[local] Abbreviation mtd_main := (mtd_main proc_mtd char_node path_node files stdin trx einval malloc reads).

(** How often [-e] is given, and whether [-f] is. *)
Definition count_erase (chs : list (Z * list Z)) : nat := length (filter (fun ch => ch.1 = 101) chs).
Definition forced (chs : list (Z * list Z)) : Prop := exists a, (102, a) ∈ chs.

(** One option: [-e] alone can fail to be taken, and only [-f] forces. *)
Lemma option_step_spec o c a : (c = 101 -> (length (o_erase o) < 7)%nat) ->
  exists r, option_step einval o (c, a) = Some r /\
    match r with
    | inl _ => True
    | inr o' => length (o_erase o') = (length (o_erase o) + (if decide (c = 101)%Z then 1 else 0))%nat /\
        (c <> 102 -> o_force o' = o_force o)
    end.
Proof.
  intros He. destruct o as [force boot no_erase jfile skip quiet erase dir part_offset dump_len offset]. unfold option_step.
  cbn [o_erase o_force] in *. destruct (decide (c = 101)) as [->|Hne].
  - exists (inr (Options force boot no_erase jfile skip quiet (erase ++ [a]) dir part_offset dump_len offset)).
    unfold add_erase. rewrite (proj2 (Nat.ltb_lt _ _)) by auto. split; [reflexivity|]. cbn [o_erase o_force]. by rewrite length_app.
  - rewrite (proj2 (Z.eqb_neq c 101)) by done.
    repeat match goal with |- context [?x =? ?y] => destruct (Z.eqb_spec x y) end; try destruct (strtoul0_fails einval a);
      eexists; (split; [reflexivity|]); cbn [o_erase o_force]; try done; (split; [lia|done]).
Qed.

Lemma parse_options_total chs : forall o, (length (o_erase o) + count_erase chs <= 7)%nat ->
  exists r, parse_options einval o chs = Some r /\
    match r with inl _ => True | inr o' => ~ forced chs -> o_force o' = o_force o end.
Proof.
  induction chs as [|[c a] chs IH]; intros o Hn; [eexists; by split|].
  assert (count_erase ((c, a) :: chs) = (if decide (c = 101)%Z then 1 else 0) + count_erase chs)%nat as Hc.
  { unfold count_erase. rewrite filter_cons. cbn [fst]. by destruct (decide (c = 101)). }
  rewrite Hc in Hn. cbn [parse_options].
  destruct (option_step_spec o c a) as (r & -> & Hr); [intros ->; rewrite decide_True in Hn by done; lia|]. cbn [mbind option_bind].
  destruct r as [|o1]; [eexists; by split|]. destruct Hr as [Hlen Hforce].
  destruct (IH o1) as (r & -> & Hr); [lia|]. exists r. split; [done|]. destruct r as [|o']; [done|]. intros Hnf. rewrite Hr, Hforce; [done| |].
  - intros ->. apply Hnf. exists a. by left.
  - intros [b Hb]. apply Hnf. exists b. by right.
Qed.

(** ** Which devices change *)

(** [ds'] has the same devices as [ds] and differs at numbers in [P] at most. *)
Definition only (P : Z -> Prop) (ds ds' : devices) : Prop := forall n,
  (~ P n -> ds' !! n = ds !! n) /\ (is_Some (ds' !! n) <-> is_Some (ds !! n)).

#[local] Instance only_preorder P : PreOrder (only P).
Proof.
  split.
  - intros ds n. done.
  - intros ds1 ds2 ds3 H1 H2 n. destruct (H1 n) as [E1 D1], (H2 n) as [E2 D2]. split; [intros Hn; by rewrite E2, E1|by rewrite D2].
Qed.

Lemma only_insert (P : Z -> Prop) ds n d : P n -> is_Some (ds !! n) -> only P ds (<[n := d]> ds).
Proof.
  intros Hp Hs m. destruct (decide (n = m)) as [<-|Hne].
  - split; [done|]. rewrite lookup_insert_eq. by split.
  - rewrite lookup_insert_ne by done. done.
Qed.

Lemma only_store (P : Z -> Prop) ds ns : Forall (fun n => P n /\ is_Some (ds !! n)) ns -> forall dl, only P ds (store_all ds ns dl).
Proof.
  unfold store_all. induction 1 as [|n ns [Hp Hs] _ IH]; intros [|d dl]; try reflexivity. cbn [zip zip_with foldr].
  etransitivity; [apply IH|]. apply only_insert; [done|]. by apply (IH dl n).
Qed.

Definition final {A} (o : outcome A) : A := match o with Returns a => a | Exits a => a end.

(** Devices that one of [names] stands for. *)
Definition named (names : list (list Z)) (n : Z) : Prop := exists name, name ∈ names /\ mtd_open name = Some n.

Lemma check_open_spec ds name n d : mtd_check_open ds name = Some (n, d) -> mtd_open name = Some n /\ ds !! n = Some d.
Proof.
  unfold MtdMain.mtd_check_open. destruct (mtd_open name) as [m|]; [|done]. cbn [mbind option_bind].
  destruct (ds !! m) as [d'|] eqn:E; [|done]. cbn [mbind option_bind]. by intros [= <- <-].
Qed.

Section changes.
Context (names : list (list Z)).
#[local] Abbreviation kept := (only (named names)).

Lemma insert_kept ds name n d d' : name ∈ names -> mtd_check_open ds name = Some (n, d) -> kept ds (<[n := d']> ds).
Proof. intros Hn [Ho Hd]%check_open_spec. apply only_insert; [by exists name|by rewrite Hd]. Qed.

Lemma unlock_kept ds name : final (mtd_unlock proc_mtd char_node path_node ds name) = ds.
Proof. unfold mtd_unlock. by destruct (forallb _ _). Qed.

Lemma erase_kept ds name : name ∈ names -> kept ds (final (erase_named proc_mtd char_node path_node ds name)).
Proof.
  intros Hn. unfold erase_named. destruct (MtdMain.mtd_check_open _ _ _ ds name) as [[n d]|] eqn:E; [|reflexivity].
  destruct (mtd_erase d); by eapply insert_kept.
Qed.

Lemma erase_all_kept device erase : Forall (fun e => e ∈ names) erase -> forall ds u,
  kept ds (final (erase_all proc_mtd char_node path_node ds device u erase)).1.
Proof.
  induction 1 as [|e erase He _ IH]; intros ds u; [reflexivity|]. cbn [erase_all].
  pose proof (unlock_kept ds e) as Hu. destruct (mtd_unlock _ _ _ ds e) as [ds1|ds1]; cbn [final] in Hu; subst ds1; [|reflexivity].
  pose proof (erase_kept ds e He) as He1. destruct (erase_named _ _ _ ds e) as [ds1|ds1]; [|exact He1]. etransitivity; [exact He1|apply IH].
Qed.

Lemma write_kept o ds mtd buf image r : split_colon mtd ⊆ names ->
  write_named proc_mtd char_node path_node files trx malloc o ds mtd buf image = Some r -> kept ds (final r).
Proof.
  intros Hsub. unfold write_named, open_all. destruct (mapM _ _) as [l|] eqn:E; [|by intros [= <-]].
  assert (Forall (fun n => named names n /\ is_Some (ds !! n)) (fst <$> l)) as Hl.
  { apply Forall_fmap. apply mapM_Some_1 in E. revert Hsub. induction E as [|name [n d] nm l Hname _ IH]; intros Hsub; [constructor|].
    apply check_open_spec in Hname as [Ho Hd]. constructor; [|apply IH; set_solver].
    split; [exists name; split; [set_solver|done]|cbn [fst]; by rewrite Hd]. }
  destruct l as [|[n d] rest]; [by intros [= <-]|]. cbn [fmap list_fmap fst] in Hl. destruct (decide _); [|done].
  destruct (mtd_write_image _ _ _ _ _ _ _ _ _ _ _ _ _) as [[dl|dl]|]; [| |done]; intros [= <-]; by apply only_store.
Qed.

Lemma jffs2write_kept o ds mtd imagefile r : mtd ∈ names ->
  jffs2write_named proc_mtd char_node path_node files trx malloc o ds mtd imagefile = Some r -> kept ds (final r).
Proof.
  intros Hn. unfold jffs2write_named. destruct (MtdMain.mtd_check_open _ _ _ ds mtd) as [[n d]|] eqn:E; [|by intros [= <-]].
  destruct (mtd_write_jffs2 _ _ _ _ _ _); try done; intros [= <-]; by eapply insert_kept.
Qed.

Lemma fixtrx_kept ds mtd offset r : mtd ∈ names ->
  fixtrx_named proc_mtd char_node path_node ds mtd offset = Some r -> kept ds (final r).
Proof.
  intros Hn. unfold fixtrx_named. destruct (mtd_fixtrx _ _ _) as [[d|d]|]; [| |done]; intros [= <-]; cbn [final];
    (destruct (MtdMain.mtd_check_open _ _ _ ds mtd) as [[n d0]|] eqn:E; [|reflexivity]); (destruct d as [d|]; [by eapply insert_kept|reflexivity]).
Qed.

Lemma run_kept o cmd ds imagefile device buf image unlocked r : device ∈ names -> split_colon device ⊆ names ->
  run_command proc_mtd char_node path_node files trx malloc reads o cmd ds imagefile device buf image unlocked = Some r ->
  kept ds (final r).1.
Proof.
  intros Hd Hs.
  assert (forall k : option (outcome devices), (forall q, k = Some q -> kept ds (final q)) ->
    forall q, (fun q => match q with Returns ds => Returns (ds, @nil Z) | Exits ds => Exits (ds, []) end) <$> k = Some q -> kept ds (final q).1) as Hsil.
  { intros [[q|q]|] Hk r' [= <-]; exact (Hk _ eq_refl). }
  pose proof (unlock_kept ds device) as Hu.
  destruct cmd; cbn [run_command]; try (destruct unlocked; [|destruct (mtd_unlock _ _ _ ds device) as [ds1|ds1]; cbn [final] in Hu; subst ds1;
    [|by intros [= <-]]]); try apply Hsil.
  - intros q [= <-]. by apply erase_kept.
  - intros q [= <-]. by apply erase_kept.
  - intros q. by apply write_kept.
  - intros q. by apply write_kept.
  - by intros q [= <-].
  - by intros q [= <-].
  - intros q. by apply jffs2write_kept.
  - intros q. by apply jffs2write_kept.
  - intros q. by apply fixtrx_kept.
  - destruct (mtd_verify _ _ _); [|done]. by intros [= <-].
  - destruct (dump_named _ _ _ _ _ _ _) as [[q|q]|]; [| |done]; by intros [= <-].
Qed.
End changes.

(** The names on a command line: those given with [-e], the device argument, and the parts of it. *)
Definition names_of (args : list (list Z)) : list (list Z) :=
  match parse_options einval no_options (getopt mtd_kind args), parse_command trx (getopt_operands mtd_kind args) with
  | Some (inr o), Some (_, _, device) => o_erase o ++ device :: split_colon device
  | _, _ => []
  end.

Lemma main_kept args ds r : mtd_main args ds = Some r -> only (named (names_of args)) ds (devs_out r).
Proof.
  unfold MtdMain.mtd_main, names_of. destruct (parse_options _ _ _) as [[|o]|]; [by intros [= <-]| |done]. cbn [mbind option_bind].
  destruct (parse_command _ _) as [[[cmd imagefile] device]|]; [|by intros [= <-]]. set (names := o_erase o ++ _).
  destruct (prepare _ _ _ _ _ _ _ _ _ _ _) as [[|[buf image]]|]; [by intros [= <-]| |done]. cbn [mbind option_bind].
  assert (kept_e : only (named names) ds (final (erase_all proc_mtd char_node path_node ds device false (o_erase o))).1).
  { apply erase_all_kept. apply Forall_forall. intros e He. unfold names. set_solver. }
  destruct (erase_all _ _ _ ds device false (o_erase o)) as [[ds1 u]|[ds1 u]]; cbn [final fst] in kept_e; [|by intros [= <-]].
  destruct (run_command _ _ _ _ _ _ _ _ _ _ _ _ _ _ _) as [q|] eqn:E; [|done]. cbn [mbind option_bind]. intros [= <-].
  apply (run_kept names) in E; [|unfold names; set_solver|unfold names; set_solver].
  etransitivity; [exact kept_e|]. destruct q as [[ds2 out]|[ds2 out]]; exact E.
Qed.

(** ** Theorems *)

(** Command lines that are worked off in a bounded number of steps: at most seven [-e], no
    [jffs2write], [fixtrx] or [-j], [write] to one device, and no [-l] of 2 GiB or more. *)
Definition straight (args : list (list Z)) : Prop :=
  (count_erase (getopt mtd_kind args) <= 7)%nat /\
  match parse_options einval no_options (getopt mtd_kind args), parse_command trx (getopt_operands mtd_kind args) with
  | Some (inr o), Some (CMD_JFFS2WRITE, _, _) | Some (inr o), Some (CMD_FIXTRX, _, _) => False
  | Some (inr o), Some (CMD_WRITE, _, device) => o_jffs2file o = None /\ 58 ∉ device
  | Some (inr o), Some (CMD_DUMP, _, _) => 0 <= s32 (o_dump_len o)
  | _, _ => True
  end.

(** Every device has erase blocks. *)
Definition have_blocks (ds : devices) : Prop := map_Forall (fun _ d => 0 < d_erasesize d) ds.

Lemma erase_all_blocks device erase : forall ds u, have_blocks ds ->
  have_blocks (final (erase_all proc_mtd char_node path_node ds device u erase)).1.
Proof.
  induction erase as [|e erase IH]; intros ds u Hb; [done|]. cbn [erase_all].
  pose proof (unlock_kept ds e) as Hu. destruct (mtd_unlock _ _ _ ds e) as [ds1|ds1]; cbn [final] in Hu; subst ds1; [|done].
  assert (have_blocks (final (erase_named proc_mtd char_node path_node ds e))) as He.
  { unfold erase_named. destruct (MtdMain.mtd_check_open _ _ _ ds e) as [[n d]|] eqn:E; [|done]. apply check_open_spec in E as [_ Hd].
    pose proof (erase_loop_es d (S (Z.to_nat (d_size d))) 0) as Hes. pose proof (Hb n d Hd) as Hd0. cbv beta in Hd0. unfold mtd_erase.
    destruct (erase_loop _ d 0) as [d'|d']; cbn [final]; (apply map_Forall_insert_2; [by rewrite Hes|done]). }
  destruct (erase_named _ _ _ ds e) as [ds1|ds1]; [|done]. by apply IH.
Qed.

Lemma trx_check_ends mtd image dev : is_Some (trx_check mtd image dev).
Proof.
  unfold trx_check. destruct (negb _); [by eexists|]. destruct (Z.ltb_spec (zlen (take 32 image)) 32) as [|Hs]; [by eexists|].
  rewrite !get_le32_take by lia. cbn [mbind option_bind]. destruct (_ || _); [by eexists|]. destruct dev; [|by eexists]. destruct (_ <? _); by eexists.
Qed.

Lemma prepare_ends o ds cmd imagefile device : is_Some (prepare proc_mtd char_node path_node files stdin trx o ds cmd imagefile device).
Proof.
  destruct cmd; try by eexists. cbn [prepare]. destruct (if decide _ then _ else _) as [image|]; [|by eexists]. destruct (negb _); [by eexists|].
  unfold image_check. destruct trx; [destruct (trx_check_ends device image (snd <$> mtd_check_open ds device)) as [r ->]|]; cbn [mbind option_bind].
  - destruct r as [[[ret rest] buf]|]; [|by eexists]. destruct (_ && _); by eexists.
  - by eexists.
Qed.

Lemma split_colon_one s : 58 ∉ s -> split_colon s = [s].
Proof.
  induction s as [|c s IH]; intros Hn; [done|]. cbn [split_colon]. rewrite IH by set_solver. rewrite (proj2 (Z.eqb_neq c 58)) by set_solver. done.
Qed.

Lemma write_ends o ds device buf image : have_blocks ds -> o_jffs2file o = None -> 58 ∉ device ->
  is_Some (write_named proc_mtd char_node path_node files trx malloc o ds device buf image).
Proof.
  intros Hb Hj Hone. unfold write_named, open_all. rewrite (split_colon_one device Hone). cbn [mapM mbind option_bind mret option_ret].
  destruct (MtdMain.mtd_check_open _ _ _ ds device) as [[n d]|] eqn:E; [|by eexists]. apply check_open_spec in E as [_ Hd]. cbn [mbind option_bind mret option_ret fmap list_fmap].
  rewrite decide_True by apply NoDup_singleton. rewrite Hj, bool_decide_eq_false_2, mtd_write_image_plain by (by intros [? ?]).
  destruct (write_loop_ends (o_no_erase o) (o_part_offset o) (S (length buf + length image)) (Writing d (start_pos (o_part_offset o)) image buf (zlen buf) 0 0 0 0)) as [r Hr];
    cbn [w_dev w_e w_offset w_buflen w_buf w_image]; try lia; [exact (Hb n d Hd)|].
  unfold mtd_write. cbn [length Nat.add]. rewrite Hr. by eexists.
Qed.

Lemma main_ends args ds : straight args -> have_blocks ds -> is_Some (mtd_main args ds).
Proof.
  intros [He Hst] Hb. unfold MtdMain.mtd_main.
  destruct (parse_options_total (getopt mtd_kind args) no_options He) as (r & Hr & _). rewrite Hr in Hst |- *. cbn [mbind option_bind].
  destruct r as [|o]; [by eexists|]. destruct (parse_command _ _) as [[[cmd imagefile] device]|]; [|by eexists].
  destruct (prepare_ends o ds cmd imagefile device) as [p ->]. cbn [mbind option_bind]. destruct p as [|[buf image]]; [by eexists|].
  pose proof (erase_all_blocks device (o_erase o) ds false Hb) as Hb1.
  destruct (erase_all _ _ _ ds device false (o_erase o)) as [[ds1 u]|[ds1 u]]; [|by eexists]. cbn [final fst] in Hb1.
  assert (is_Some (run_command proc_mtd char_node path_node files trx malloc reads o cmd ds1 imagefile device buf image u)) as [q ->]; [|by eexists].
  destruct cmd; cbn [run_command]; try done.
  - destruct u; [by eexists|]. destruct (mtd_unlock _ _ _ ds1 device); by eexists.
  - destruct Hst as [Hj Hone]. destruct (write_ends o ds1 device buf image Hb1 Hj Hone) as [q ->].
    destruct u; [by eexists|]. destruct (mtd_unlock _ _ _ ds1 device); by eexists.
  - destruct u; [by eexists|]. destruct (mtd_unlock _ _ _ ds1 device); by eexists.
  - unfold mtd_verify. destruct (files !! imagefile ≫= snd) as [f|]; [|by eexists]. destruct (snd <$> _) as [d|]; [|by eexists].
    destruct (verify_loop_ends d (S (length f + length reads)) reads 0 (zlen f) md5_begin) as [v ->]; [lia|lia|]. by eexists.
  - unfold dump_named. destruct (MtdMain.mtd_check_open _ _ _ ds1 device) as [[n d]|]; [|by eexists]. rewrite (proj2 (Z.ltb_ge _ _)) by done.
    unfold mtd_dump. set (pos := if _ =? 0 then 0 else _).
    assert (0 <= pos) as Hpos by (unfold pos; destruct (Z.leb_spec 0 (s32 (o_offset o))); cbn [andb]; repeat case_match; lia).
    destruct (dump_loop_ends d (S (Z.to_nat (d_size d))) pos 0 (if s32 (o_dump_len o) =? 0 then d_size d else s32 (o_dump_len o)) []) as [v ->]; [done|lia|by eexists].
Qed.

(** C18: Whenever [mtd] comes to an end, whatever the command line, it has changed no device but
    those that a name on it stands for, given with [-e] or as the device argument or a part of
    it, and has added or removed none; it exits with 0 or 1, and reboots only when it exits with
    0.  It does come to an end on command lines with at most seven [-e] that unlock, erase,
    verify, dump (not with an [-l] of 2 GiB or more) or write to one device without [-j], on
    devices whose erase blocks are not empty; with [-j], [jffs2write] and [fixtrx] it need not.
    What is undefined in C (an eighth [-e]) and a device twice in a list to write are no end here. *)
Theorem mtd_changes_only_named args ds :
  (straight args -> have_blocks ds -> exists r, mtd_main args ds = Some r) /\
  (forall r, mtd_main args ds = Some r ->
     (forall n, (forall name, name ∈ names_of args -> mtd_open name <> Some n) -> devs_out r !! n = ds !! n) /\
     (forall n, is_Some (devs_out r !! n) <-> is_Some (ds !! n)) /\
     (status r = 0 \/ status r = 1 /\ rebooted r = false)).
Proof.
  split; [intros Hs Hb; by apply main_ends|]. intros r Hr. pose proof (main_kept args ds r Hr) as Hk. split; [|split].
  - intros n Hn. apply Hk. intros (name & Hin & Ho). by apply (Hn name).
  - intros n. apply Hk.
  - revert Hr. unfold MtdMain.mtd_main. destruct (parse_options _ _ _) as [[|o]|]; [intros [= <-]; by right| |done]. cbn [mbind option_bind].
    destruct (parse_command _ _) as [[[cmd imagefile] device]|]; [|intros [= <-]; by right].
    destruct (prepare _ _ _ _ _ _ _ _ _ _ _) as [[|[buf image]]|]; [intros [= <-]; by right| |done]. cbn [mbind option_bind].
    destruct (erase_all _ _ _ ds device false (o_erase o)) as [[ds1 u]|[ds1 u]]; [|intros [= <-]; by right].
    destruct (run_command _ _ _ _ _ _ _ _ _ _ _ _ _ _ _) as [[[ds2 out]|[ds2 out]]|]; [| |done]; intros [= <-]; [by left|by right].
Qed.

(** An image that [trx_check] does not take for a TRX. *)
Definition not_trx (image : list Z) : Prop := zlen image < 32 \/ le_val (take 4 image) <> TRX_MAGIC.

Lemma trx_check_refuses image dev : not_trx image ->
  exists rest buf, trx_check (bs "firmware") image dev = Some (Returns (0, rest, buf)).
Proof.
  intros Hn. unfold trx_check. rewrite bool_decide_eq_true_2 by done. cbn [negb]. destruct (Z.ltb_spec (zlen (take 32 image)) 32) as [Hs|Hs]; [by eauto|].
  rewrite !get_le32_take by lia. rewrite length_take in Hs. destruct Hn as [Hn|Hn]; [lia|]. cbn [mbind option_bind].
  change (Z.to_nat 0) with 0%nat. rewrite drop_0, take_take. change (4 `min` 32)%nat with 4%nat.
  rewrite (proj2 (Z.eqb_neq _ TRX_MAGIC)) by done. by eauto.
Qed.

(** C19: The image is checked before anything is erased or written: on a build with TRX support,
    [mtd write] of a file (or of standard input) that is no TRX to the partition "firmware"
    without [-f] exits with 1 and leaves every device as it was, whatever other options are
    given, the devices to erase first ([-e], at most seven of them) among them. *)
Theorem mtd_write_checks_first mmap_ok args ds imagefile image :
  trx = Some mmap_ok -> getopt_operands mtd_kind args = [bs "write"; imagefile; bs "firmware"] ->
  ~ forced (getopt mtd_kind args) -> (count_erase (getopt mtd_kind args) <= 7)%nat ->
  (if decide (imagefile = bs "-") then Some stdin else files !! imagefile ≫= snd) = Some image -> not_trx image ->
  mtd_main args ds = Some (Result 1 ds [] false).
Proof.
  intros Htrx Hops Hf He Himg Hnot. unfold MtdMain.mtd_main.
  destruct (parse_options_total (getopt mtd_kind args) no_options He) as (r & -> & Hr). cbn [mbind option_bind].
  destruct r as [|o]; [done|]. rewrite Hops.
  change (parse_command _ _) with (Some (CMD_WRITE, imagefile, bs "firmware")). cbv iota beta. unfold prepare. rewrite Himg.
  destruct (mtd_check _ _ _ ds _); [|done]. cbn [negb]. unfold image_check. rewrite Htrx.
  destruct (trx_check_refuses image (snd <$> mtd_check_open ds (bs "firmware")) Hnot) as (rest & buf & ->). cbn [mbind option_bind].
  rewrite Hr by done. done.
Qed.

(** What the image check read is the start of the image. *)
Lemma image_check_reads ds mtd image ret rest buf :
  image_check proc_mtd char_node path_node trx ds mtd image = Some (Returns (ret, rest, buf)) -> buf ++ rest = image /\ zlen buf <= 32.
Proof.
  unfold image_check. destruct trx as [ok|]; [|by intros [= _ <- <-]]. unfold trx_check.
  destruct (negb _); [by intros [= _ <- <-]|].
  assert (take 32 image ++ drop 32 image = image /\ zlen (take 32 image) <= 32) as H by (rewrite take_drop, length_take; split; [done|lia]).
  destruct (_ <? 32); [by intros [= _ <- <-]|]. destruct (get_le32 _ 0); [|done]. destruct (get_le32 _ 4); [|done]. cbn [mbind option_bind].
  destruct (_ || _); [by intros [= _ <- <-]|]. destruct (snd <$> _); [|done]. destruct (_ <? _); by intros [= _ <- <-].
Qed.

Lemma check_one ds dev n d : 58 ∉ dev -> mtd_check_open ds dev = Some (n, d) -> mtd_check proc_mtd char_node path_node ds dev = true.
Proof.
  intros Hc Ho. unfold mtd_check. rewrite split_colon_one by done. cbn [forallb]. unfold opens. rewrite Ho.
  by rewrite bool_decide_eq_true_2 by (by eexists).
Qed.

End facts.

(** ** The theorems at work *)

(** Two partitions of eight blocks of 32 bytes, the second block of the first one bad, and an
    image file. *)
Definition demo_line (i : list Z) (name : list Z) : list Z := bs "mtd" ++ i ++ bs ": 00000100 00000020 " ++ 34 :: name ++ [34].
Definition demo_proc : option (list (list Z)) := Some [bs "dev:    size   erasesize  name"; demo_line (bs "0") (bs "boot"); demo_line (bs "1") (bs "firmware")].
Definition demo_node (slash : bool) (i : Z) : option Z := if slash then None else Some i.
Definition demo_devs : devices :=
  {[ 0 := Device 32 true (fun o => o =? 32) (fun _ => true) (replicate 256 7); 1 := Device 32 false (fun _ => false) (fun _ => true) (replicate 256 9) ]}.
Definition demo_files : mtdfiles := {[ bs "a.img" := (demo_stat, Some (replicate 40 1)) ]}.

Lemma mtd_changes_only_named_witness :
  exists r, mtd_main demo_proc demo_node (fun _ => None) demo_files [] None false None [] [bs "-r"; bs "erase"; bs "firmware"] demo_devs = Some r /\
    devs_out r !! 0 = demo_devs !! 0.
Proof.
  destruct (mtd_changes_only_named demo_proc demo_node (fun _ => None) demo_files [] None false None [] [bs "-r"; bs "erase"; bs "firmware"] demo_devs) as [Hends Hall].
  destruct Hends as [r Hr].
  - split; [apply Nat.leb_le; vm_compute; reflexivity|]. vm_compute. exact I.
  - unfold have_blocks, demo_devs. apply map_Forall_insert_2; [done|]. by apply map_Forall_singleton.
  - exists r. split; [exact Hr|]. apply (Hall r Hr).
    assert (names_of None false [bs "-r"; bs "erase"; bs "firmware"] = [bs "firmware"; bs "firmware"]) as -> by (vm_compute; reflexivity).
    intros name Hin. apply elem_of_cons in Hin as [->|Hin]; [vm_compute; discriminate|]. apply list_elem_of_singleton in Hin as ->. vm_compute. discriminate.
Defined.

Lemma mtd_write_checks_first_witness :
  mtd_main demo_proc demo_node (fun _ => None) demo_files [] (Some true) false None [] [bs "-r"; bs "-e"; bs "boot"; bs "write"; bs "a.img"; bs "firmware"] demo_devs =
    Some (Result 1 demo_devs [] false).
Proof.
  apply (mtd_write_checks_first demo_proc demo_node (fun _ => None) demo_files [] (Some true) false None [] true _ demo_devs (bs "a.img") (replicate 40 1));
    [reflexivity|vm_compute; reflexivity| |vm_compute; lia|vm_compute; reflexivity|right; vm_compute; discriminate].
  intros [a Ha]. assert (getopt mtd_kind [bs "-r"; bs "-e"; bs "boot"; bs "write"; bs "a.img"; bs "firmware"] = [(114, []); (101, bs "boot")]) as E by (vm_compute; reflexivity).
  rewrite E in Ha. apply elem_of_cons in Ha as [Ha|Ha]; [discriminate|]. apply list_elem_of_singleton in Ha. discriminate.
Defined.


(** The eighth [-e] is stored behind the end of [erase]. *)
Example eighth_erase_overruns :
  mtd_main demo_proc demo_node (fun _ => None) demo_files [] None false None []
    (mjoin (replicate 8 [bs "-e"; bs "boot"]) ++ [bs "erase"; bs "boot"]) demo_devs = None.
Proof. vm_compute. reflexivity. Qed.
