(* ===== verification/Lmo.v ===== *)
(** LuCI translation archives (realtek/luci/modules/luci-base/src): the hash and the lookup
    of template_lmo.c, its catalogs, and the compiler po2lmo.c that writes the archives.

    The compiler runs on the build host and the lookup on the device, so the one feature
    of C they may disagree on, the signedness of plain [char], is a parameter of the hash. *)

From stdpp Require Import gmap.
From S2P Require Import Prelude Libc.

(** ** Hashing *)

Section sfh.
Context (char_signed : bool).

(** A plain [char] promoted to [int]. *)
Definition char_val (b : Z) : Z := if char_signed && (128 <=? b) then b - 256 else b.

Definition sfh_get16 (d0 d1 : Z) : Z := Z.shiftl d1 8 + d0.

(** The main loop, four bytes a round, and what is left for the end cases. *)
Fixpoint sfh_loop (data : list Z) (hash : Z) : list Z * Z :=
  match data with
  | d0 :: d1 :: d2 :: d3 :: data =>
      let hash := u32 (hash + sfh_get16 d0 d1) in
      let tmp := Z.lxor (u32 (Z.shiftl (sfh_get16 d2 d3) 11)) hash in
      let hash := Z.lxor (u32 (Z.shiftl hash 16)) tmp in
      sfh_loop data (u32 (hash + Z.shiftr hash 11))
  | _ => (data, hash)
  end.

Definition sfh_tail (data : list Z) (hash : Z) : Z :=
  match data with
  | [d0; d1; d2] =>
      let hash := u32 (hash + sfh_get16 d0 d1) in
      let hash := Z.lxor hash (u32 (Z.shiftl hash 16)) in
      let hash := Z.lxor hash (u32 (Z.shiftl (char_val d2) 18)) in
      u32 (hash + Z.shiftr hash 11)
  | [d0; d1] =>
      let hash := u32 (hash + sfh_get16 d0 d1) in
      let hash := Z.lxor hash (u32 (Z.shiftl hash 11)) in
      u32 (hash + Z.shiftr hash 17)
  | [d0] =>
      let hash := u32 (hash + char_val d0) in
      let hash := Z.lxor hash (u32 (Z.shiftl hash 10)) in
      u32 (hash + Z.shiftr hash 1)
  | _ => hash
  end.

Definition sfh_avalanche (hash : Z) : Z :=
  let hash := Z.lxor hash (u32 (Z.shiftl hash 3)) in
  let hash := u32 (hash + Z.shiftr hash 5) in
  let hash := Z.lxor hash (u32 (Z.shiftl hash 4)) in
  let hash := u32 (hash + Z.shiftr hash 17) in
  let hash := Z.lxor hash (u32 (Z.shiftl hash 25)) in
  u32 (hash + Z.shiftr hash 6).

(** [sfh_hash (data, len)] of the [len] bytes of [data]. *)
Definition sfh_hash (data : list Z) : Z :=
  match data with
  | [] => 0
  | _ => let '(rest, hash) := sfh_loop data (u32 (zlen data)) in sfh_avalanche (sfh_tail rest hash)
  end.

(** The [for] loop of [lmo_canon_hash]: [res] is what [ptr] has passed. *)
Fixpoint canon_loop (str : list Z) (prev : Z) (res : list Z) : list Z :=
  match str with
  | [] => res
  | c :: str =>
      if is_space c then canon_loop str c (if is_space prev then res else res ++ [32])
      else canon_loop str c (res ++ [c])
  end.

(** A trailing space is dropped. *)
Definition canon_trim (res : list Z) : list Z :=
  match last res with
  | Some c => if is_space c then take (length res - 1) res else res
  | None => res
  end.

(** [None]: [str] has fewer than [len] bytes. *)
Definition lmo_canon_hash (str : option (list Z)) (len : Z) : option Z :=
  match str with
  | None => Some 0
  | Some s =>
      if 4096 <=? u32 len then Some 0
      else data ← zslice s 0 len; Some (sfh_hash (canon_trim (canon_loop data 32 [])))
  end.
End sfh.

(** ** Archives *)

Record lmo_entry := LmoEntry { e_key_id : Z; e_val_id : Z; e_offset : Z; e_length : Z }.

Definition lmo_entry_size : Z := 16.

Definition lmo_entry_bytes (e : lmo_entry) : list Z :=
  be_bytes 4 (e_key_id e) ++ be_bytes 4 (e_val_id e) ++ be_bytes 4 (e_offset e) ++ be_bytes 4 (e_length e).

(** A mapped archive; [ar_index] is the offset of the index in the mapping. *)
Record lmo_archive := LmoArchive { ar_mmap : list Z; ar_size : Z; ar_index : Z; ar_length : Z }.

Definition get_be32 (l : list Z) (off : Z) : option Z := be_val <$> zslice l off 4.

(** [lmo_open] of a file with the given contents; [malloc_ok] and [mmap_ok] are the fate of
    the two allocations (an empty file cannot be mapped).  [None]: a file of one to three
    bytes is read before its start. *)
Definition lmo_open (malloc_ok mmap_ok : bool) (file : option (list Z)) : option (option lmo_archive) :=
  match file with
  | None => Some None
  | Some m =>
      let size := u32 (zlen m) in
      if negb malloc_ok then Some None
      else if negb mmap_ok || (size =? 0) then Some None
      else
        idx_offset ← get_be32 m (size - 4);
        if size <=? idx_offset then Some None
        else Some (Some (LmoArchive m size idx_offset (s32 (u32 (size - idx_offset - 4) / lmo_entry_size))))
  end.

(** The [while (1)] of [lmo_find_entry]: the position found.  [None]: a key read outside
    the mapping, or no fuel. *)
Fixpoint find_loop (fuel : nat) (ar : lmo_archive) (hash l r : Z) : option (option Z) :=
  match fuel with
  | O => None
  | S fuel =>
      let m := u32 (l + u32 (r - l) / 2) in
      if r <? l then Some None
      else
        k ← get_be32 (ar_mmap ar) (ar_index ar + lmo_entry_size * m);
        if k =? hash then Some (Some m)
        else if hash <? k then
          if m =? 0 then Some None else find_loop fuel ar hash l (m - 1)
        else find_loop fuel ar hash (u32 (m + 1)) r
  end.

(** An interval of [unsigned int] is halved at most 33 times. *)
Definition lmo_find_entry (ar : lmo_archive) (hash : Z) : option (option Z) :=
  find_loop 34 ar hash 0 (u32 (ar_length ar - 1)).

(** ** Catalogs

    [_lmo_catalogs] lists the live catalogs with their addresses, [_lmo_active_catalog] is
    an address, which may no longer be that of a live catalog. *)

Record lmo_catalog := LmoCatalog { lang : list Z; archives : list lmo_archive }.

Record lmo_state := LmoState {
  _lmo_catalogs : list (Z * lmo_catalog);
  _lmo_active_catalog : option Z
}.

(** [!strncmp(a, b, n)] on strings without NUL. *)
Definition strncmp_eq (n : nat) (a b : list Z) : bool := bool_decide (take n (a ++ [0]) = take n (b ++ [0])).

Definition lmo_change_catalog (st : lmo_state) (lng : list Z) : lmo_state * Z :=
  match list_find (fun c => strncmp_eq 6 (lang c.2) lng = true) (_lmo_catalogs st) with
  | Some (_, (a, _)) => (LmoState (_lmo_catalogs st) (Some a), 0)
  | None => (st, -1)
  end.

Section catalogs.
Context (fnmatch : list Z -> list Z -> bool).
Context (malloc_ok mmap_ok : bool) (fs : filesys) (readdir : path -> option (list path)).

Definition lmo_pattern (lng : list Z) : list Z := take 15 (bs "*." ++ lng ++ bs ".lmo").

Definition lmo_path (dir name : path) : path := take 4095 (dir ++ [47] ++ name).

(** [while ((de = readdir(dh)) != NULL)] *)
Fixpoint load_loop (lng : list Z) (dir : path) (names : list path) (ars : list lmo_archive)
  : option (list lmo_archive) :=
  match names with
  | [] => Some ars
  | n :: names =>
      if fnmatch (lmo_pattern lng) n then
        ar ← lmo_open malloc_ok mmap_ok (fs !! lmo_path dir n);
        load_loop lng dir names (match ar with Some ar => ar :: ars | None => ars end)
      else load_loop lng dir names ars
  end.

(** [cat] is the address [malloc] returns for the new catalog. *)
Definition lmo_load_catalog (cat : option Z) (st : lmo_state) (lng : list Z) (dir : option path)
  : option (lmo_state * Z) :=
  match lmo_change_catalog st lng with
  | (st, 0) => Some (st, 0)
  | (st, _) =>
      match d ← dir; names ← readdir d; Some (d, names), cat with
      | Some (d, names), Some a =>
          ars ← load_loop lng d names [];
          Some (LmoState ((a, LmoCatalog (take 5 lng) ars) :: _lmo_catalogs st)
                  (match _lmo_active_catalog st with None => Some a | act => act end), 0)
      | _, _ => Some (st, -1)
      end
  end.
End catalogs.

(** [lmo_close_catalog]: the first catalog of that language is unlinked and freed;
    [_lmo_active_catalog] is left as it is. *)
Fixpoint close_loop (lng : list Z) (cats : list (Z * lmo_catalog)) : list (Z * lmo_catalog) :=
  match cats with
  | [] => []
  | c :: cats => if strncmp_eq 6 (lang c.2) lng then cats else c :: close_loop lng cats
  end.

Definition lmo_close_catalog (st : lmo_state) (lng : list Z) : lmo_state :=
  LmoState (close_loop lng (_lmo_catalogs st)) (_lmo_active_catalog st).

(** What [*out] and [*outlen] are set to: the archive, the offset in it and the length. *)
Abbreviation translation := (lmo_archive * Z * Z)%type.

Fixpoint translate_loop (hash : Z) (ars : list lmo_archive) : option (Z * option translation) :=
  match ars with
  | [] => Some (-1, None)
  | ar :: ars =>
      e ← lmo_find_entry ar hash;
      match e with
      | Some m =>
          let p := ar_index ar + lmo_entry_size * m in
          off ← get_be32 (ar_mmap ar) (p + 8);
          len ← get_be32 (ar_mmap ar) (p + 12);
          Some (0, Some (ar, off, s32 len))
      | None => translate_loop hash ars
      end
  end.

(** [None]: the active catalog has been freed, or a read is out of range. *)
Definition lmo_translate (char_signed : bool) (st : lmo_state) (key : option (list Z)) (keylen : Z)
  : option (Z * option translation) :=
  match key, _lmo_active_catalog st with
  | Some _, Some a =>
      hash ← lmo_canon_hash char_signed key keylen;
      '(_, (_, cat)) ← list_find (fun c => c.1 = a) (_lmo_catalogs st);
      translate_loop hash (archives cat)
  | _, _ => Some (-2, None)
  end.

(** What the caller reads through [*out]. *)
Definition translation_text (t : translation) : option (list Z) :=
  let '(ar, off, len) := t in zslice (ar_mmap ar) off len.

(** ** The compiler *)

Definition BUFSZ : Z := 4096.

(** The loop of [extract_string] over [src] from [pos]: [dest] and [off]. *)
Fixpoint extract_loop (src : list Z) (len pos off : Z) (esc : bool) (dest : list Z) : option (list Z * Z) :=
  match src with
  | [] => Some (dest, off)
  | c :: src =>
      if negb (pos <? len) then Some (dest, off)
      else if (off =? -1) && (c =? 34) then extract_loop src len (pos + 1) (pos + 1) esc dest
      else if 0 <=? off then
        if esc then
          let off := if (c =? 34) || (c =? 92) then off + 1 else off in
          dest ← zset dest (pos - off) c; extract_loop src len (pos + 1) off false dest
        else if c =? 92 then dest ← zset dest (pos - off) c; extract_loop src len (pos + 1) off true dest
        else if negb (c =? 34) then dest ← zset dest (pos - off) c; extract_loop src len (pos + 1) off esc dest
        else dest ← zset dest (pos - off) 0; Some (dest, off)
      else extract_loop src len (pos + 1) off esc dest
  end.

Definition extract_string (src dest : list Z) (len : Z) : option (list Z * Z) :=
  '(dest, off) ← extract_loop src len 0 (-1) false dest;
  if -1 <? off then s ← cstr dest; Some (dest, zlen s) else Some (dest, -1).

(** [strcat (dst, src)] in a buffer: [None] when it does not fit. *)
Definition strcat (dst src : list Z) : option (list Z) :=
  d ← cstr dst; s ← cstr src; zwrite dst (zlen d) (s ++ [0]).

(** [fgets (line, n, in)] on what is left of the input. *)
Fixpoint fgets (n : nat) (inp : list Z) : list Z * list Z :=
  match n, inp with
  | S n, c :: inp => if c =? 10 then ([c], inp) else let '(l, inp) := fgets n inp in (c :: l, inp)
  | _, _ => ([], inp)
  end.

Definition starts_with (s l : list Z) : bool := bool_decide (take (length s) l = s).

Definition cmp_index (a b : lmo_entry) : Z :=
  let x := e_key_id a in
  let y := e_key_id b in
  if x <? y then -1 else if y <? x then 1 else 0.

Section po2lmo.
Context (char_signed : bool) (file_max : Z) (realloc_ok : Z -> bool) (can_create : path -> bool).
Context (qsort : list lmo_entry -> list lmo_entry).
(** The stack garbage [tmp] starts with. *)
Context (tmp0 : list Z).

(** The locals of [main] and the output file. *)
Record po := Po {
  po_state : Z; po_key : list Z; po_val : list Z; po_tmp : list Z;
  po_offset : Z; po_array : list lmo_entry;
  po_fs : filesys; po_out : file
}.

Definition with_strings (st : po) (state : Z) (key val tmp : list Z) : po :=
  Po state key val tmp (po_offset st) (po_array st) (po_fs st) (po_out st).

(** [print]: [inr] is [die]. *)
Definition print (fs : filesys) (out : file) (data : list Z) : filesys * file + filesys :=
  let '(fs, out, r) := fwrite file_max fs out data in
  if r <? zlen data then inr fs else inl (fs, out).

(** The branches of the loop body before [if( state == 4 )]; [inr] is [die]. *)
Definition po_scan (line : list Z) (st : po) : option (po + filesys) :=
  if (po_state st =? 0) && starts_with (bs "msgid " ++ [34]) line then
    '(key, r) ← extract_string line (po_key st) BUFSZ;
    if r =? -1 then Some (inr (po_fs st))
    else Some (inl (with_strings st (if r =? 0 then 1 else 2) key (po_val st) (po_tmp st)))
  else if (po_state st =? 1) || (po_state st =? 2) then
    if starts_with (bs "msgstr " ++ [34]) line || (po_state st =? 2) then
      '(val, r) ← extract_string line (po_val st) BUFSZ;
      Some (inl (with_strings st (if r =? -1 then 4 else 3) (po_key st) val (po_tmp st)))
    else
      '(tmp, r) ← extract_string line (po_tmp st) BUFSZ;
      if r =? -1 then Some (inl (with_strings st 2 (po_key st) (po_val st) tmp))
      else key ← strcat (po_key st) tmp; Some (inl (with_strings st (po_state st) key (po_val st) tmp))
  else if po_state st =? 3 then
    '(tmp, r) ← extract_string line (po_tmp st) BUFSZ;
    if r =? -1 then Some (inl (with_strings st 4 (po_key st) (po_val st) tmp))
    else val ← strcat (po_val st) tmp; Some (inl (with_strings st (po_state st) (po_key st) val tmp))
  else Some (inl st).

(** Appending an entry and its value; [inr] is [die]. *)
Definition po_append (key val : list Z) (st : po) : option (po + filesys) :=
  let key_id := sfh_hash char_signed key in
  let val_id := sfh_hash char_signed val in
  if key_id =? val_id then Some (inl st)
  else if negb (realloc_ok ((zlen (po_array st) + 1) * lmo_entry_size)) then Some (inr (po_fs st))
  else
    let entry := LmoEntry key_id val_id (u32 (po_offset st)) (zlen val) in
    let length := zlen val + (4 - zlen val mod 4) mod 4 in
    data ← zslice (po_val st) 0 length;
    match print (po_fs st) (po_out st) data with
    | inr fs => Some (inr fs)
    | inl (fs, out) =>
        Some (inl (Po (po_state st) (po_key st) (po_val st) (po_tmp st) (s32 (po_offset st + length))
                     (po_array st ++ [entry]) fs out))
    end.

(** [if( state == 4 )] *)
Definition po_flush (st : po) : option (po + filesys) :=
  if po_state st =? 4 then
    key ← cstr (po_key st);
    val ← cstr (po_val st);
    r ← (if (0 <? zlen key) && (0 <? zlen val) then po_append key val st else Some (inl st));
    match r with
    | inr fs => Some (inr fs)
    | inl st =>
        let zeros := replicate (Z.to_nat BUFSZ) 0 in
        Some (inl (with_strings st 0 zeros zeros (po_tmp st)))
    end
  else Some (inl st).

Definition po_line (line : list Z) (st : po) : option (po + filesys) :=
  r ← po_scan line st;
  match r with inl st => po_flush st | inr fs => Some (inr fs) end.

(** The [while] over the input.  At the end of the file the line is empty. *)
Fixpoint po_loop (fuel : nat) (inp : list Z) (st : po) : option (po + filesys) :=
  match fuel with
  | O => None
  | S fuel =>
      match fgets (Z.to_nat (BUFSZ - 1)) inp with
      | ([], _) =>
          if 2 <=? po_state st then
            r ← po_line [] st;
            match r with inl st => po_loop fuel [] st | inr fs => Some (inr fs) end
          else Some (inl st)
      | (line, inp) =>
          s ← cstr (line ++ [0]);
          r ← po_line s st;
          match r with inl st => po_loop fuel inp st | inr fs => Some (inr fs) end
      end
  end.

Definition print_uint32 (x : Z) (fs : filesys) (out : file) : filesys * file + filesys :=
  print fs out (be_bytes 4 x).

(** The words of the sorted index, one [print_uint32] each. *)
Fixpoint print_words (xs : list Z) (fs : filesys) (out : file) : filesys * file + filesys :=
  match xs with
  | [] => inl (fs, out)
  | x :: xs => match print_uint32 x fs out with inl (fs, out) => print_words xs fs out | inr fs => inr fs end
  end.

Definition entry_words (e : lmo_entry) : list Z := [e_key_id e; e_val_id e; e_offset e; e_length e].

Definition print_index (array : list lmo_entry) (fs : filesys) (out : file) : filesys * file + filesys :=
  print_words (array_words ← qsort array; entry_words array_words) fs out.

(** [main]: the file system and the exit status. *)
Definition po2lmo_main (fs : filesys) (argv : list path) : option (filesys * Z) :=
  match argv with
  | [_; inp; outp] =>
      match fopen_r fs inp with
      | None => Some (fs, 1)
      | Some _ =>
          match fopen_w can_create fs outp with
          | None => Some (fs, 1)
          | Some (fs, out) =>
              let zeros := replicate (Z.to_nat BUFSZ) 0 in
              let text := contents fs inp in
              r ← po_loop (S (S (length text))) text (Po 0 zeros zeros tmp0 0 [] fs out);
              match r with
              | inr fs => Some (fs, 1)
              | inl st =>
                  match print_index (po_array st) (po_fs st) (po_out st) with
                  | inr fs => Some (fs, 1)
                  | inl (fs, out) =>
                      if 0 <? po_offset st then
                        match print_uint32 (po_offset st) fs out with
                        | inr fs => Some (fs, 1)
                        | inl (fs, _) => Some (fs, 0)
                        end
                      else Some (delete outp fs, 0)
                  end
              end
          end
      end
  | _ => Some (fs, 1)
  end.
End po2lmo.
