(* ===== verification/LmoPo.v ===== *)
(** How po2lmo reads a PO file: quoting, lines, and the entries it collects. *)

From stdpp Require Import gmap.
From S2P Require Import Prelude Libc Lmo LmoSpec.

(** ** Quoting *)

(** A string as a PO file writes it between quotes. *)
Definition po_escape (s : list Z) : list Z :=
  c ← s; if (c =? 34) || (c =? 92) then [92; c] else [c].

Lemma zset_at {A} (pre : list A) x y suf : zset (pre ++ x :: suf) (zlen pre) y = Some (pre ++ y :: suf).
Proof. rewrite zset_Some by (rewrite length_app; simpl; lia). by rewrite Nat2Z.id, insert_app_r_alt, Nat.sub_diag by lia. Qed.

Lemma extract_escaped s : forall pos off pre suf rest len,
  0 <= off -> zlen pre = pos - off -> (length s < length suf)%nat -> pos + zlen (po_escape s) < len ->
  exists off', off <= off' /\
    extract_loop (po_escape s ++ 34 :: rest) len pos off false (pre ++ suf) =
      Some (pre ++ s ++ 0 :: drop (S (length s)) suf, off').
Proof.
  induction s as [|c s IH]; intros pos off pre [|x suf] rest len Ho Hp Hs Hl; try (cbn [length] in Hs; lia).
  - exists off. split; [done|]. cbn [po_escape mbind list_bind app extract_loop].
    rewrite (proj2 (Z.ltb_lt pos len)) by (cbn [length] in Hl; lia). rewrite (proj2 (Z.eqb_neq off (-1))) by lia.
    rewrite (proj2 (Z.leb_le 0 off)) by lia. cbn [negb andb Z.eqb Pos.eqb]. rewrite <- Hp, zset_at. done.
  - assert (exists off', off <= off' /\ extract_loop (po_escape s ++ 34 :: rest) len
      (pos + zlen (if (c =? 34) || (c =? 92) then [92; c] else [c]))
      (off + (if (c =? 34) || (c =? 92) then 1 else 0)) false ((pre ++ [c]) ++ suf) =
      Some (pre ++ (c :: s) ++ 0 :: drop (S (length s)) suf, off')) as (off' & Ho' & HE).
    { change (po_escape (c :: s)) with ((if (c =? 34) || (c =? 92) then [92; c] else [c]) ++ po_escape s) in Hl.
      rewrite length_app, Nat2Z.inj_add in Hl. cbn [length] in Hs.
      destruct (IH (pos + zlen (if (c =? 34) || (c =? 92) then [92; c] else [c])) (off + (if (c =? 34) || (c =? 92) then 1 else 0))
        (pre ++ [c]) suf rest len) as (off' & Ho' & HE); [destruct ((c =? 34) || (c =? 92)); rewrite ?length_app; cbn [length] in *; lia..|].
      exists off'. split; [destruct ((c =? 34) || (c =? 92)); lia|]. rewrite HE. by rewrite <- app_assoc. }
    exists off'. split; [done|]. change (drop (S (length (c :: s))) (x :: suf)) with (drop (S (length s)) suf). rewrite <- HE.
    change (po_escape (c :: s)) with ((if (c =? 34) || (c =? 92) then [92; c] else [c]) ++ po_escape s) in *.
    rewrite length_app in Hl. destruct ((c =? 34) || (c =? 92)) eqn:Ec; cbn [app extract_loop length] in *.
    + rewrite (proj2 (Z.ltb_lt pos len)), (proj2 (Z.ltb_lt (pos + 1) len)) by lia.
      rewrite (proj2 (Z.eqb_neq off (-1))), (proj2 (Z.leb_le 0 off)) by lia. cbn [negb andb Z.eqb Pos.eqb].
      rewrite <- Hp, zset_at. cbn [mbind option_bind]. rewrite Ec.
      replace (pos + 1 - (off + 1)) with (zlen pre) by lia. rewrite zset_at. cbn [mbind option_bind].
      rewrite <- app_assoc. f_equal; lia.
    + apply orb_false_iff in Ec as [E1 E2]. rewrite (proj2 (Z.ltb_lt pos len)) by lia.
      rewrite (proj2 (Z.eqb_neq off (-1))), (proj2 (Z.leb_le 0 off)) by lia. rewrite E1, E2. cbn [negb andb].
      rewrite <- Hp, zset_at. cbn [mbind option_bind]. rewrite Z.add_0_r, <- app_assoc. done.
Qed.

(** Text before the first quote is skipped; without a quote nothing happens. *)
Lemma extract_skip p : forall src len pos esc dest, 34 ∉ p -> pos + zlen p <= len ->
  extract_loop (p ++ src) len pos (-1) esc dest = extract_loop src len (pos + zlen p) (-1) esc dest.
Proof.
  induction p as [|c p IH]; intros src len pos esc dest Hq Hl; [by rewrite Z.add_0_r|].
  cbn [app extract_loop length] in *. rewrite (proj2 (Z.ltb_lt pos len)) by lia.
  rewrite (proj2 (Z.eqb_neq c 34)) by set_solver. cbn [negb andb Z.eqb Z.leb Z.compare Pos.eqb]. rewrite IH by (set_solver || lia).
  f_equal. lia.
Qed.

Lemma extract_quoted p s dest rest :
  34 ∉ p -> is_cstr s -> zlen p + zlen (po_escape s) + 2 <= BUFSZ -> (length s < length dest)%nat ->
  extract_string (p ++ 34 :: po_escape s ++ 34 :: rest) dest BUFSZ =
    Some (s ++ 0 :: drop (S (length s)) dest, zlen s).
Proof.
  intros Hp Hs Hl Hd. unfold extract_string. rewrite extract_skip by (done || lia). cbn [extract_loop].
  rewrite (proj2 (Z.ltb_lt _ BUFSZ)) by lia. cbn [negb andb Z.eqb Pos.eqb].
  destruct (extract_escaped s (0 + zlen p + 1) (0 + zlen p + 1) [] dest rest BUFSZ) as (off' & Ho & HE); [cbn [length]; lia..|].
  cbn [app] in HE. rewrite HE. cbn [mbind option_bind]. rewrite (proj2 (Z.ltb_lt (-1) off')) by lia. by rewrite cstr_app.
Qed.

Lemma extract_none s dest : 34 ∉ s -> zlen s <= BUFSZ -> extract_string s dest BUFSZ = Some (dest, -1).
Proof.
  intros Hq Hl. unfold extract_string. rewrite <- (app_nil_r s), extract_skip by (done || lia). done.
Qed.

(** ** Lines *)

Lemma fgets_line n : forall l rest, 10 ∉ l -> (length l < n)%nat -> fgets n (l ++ 10 :: rest) = (l ++ [10], rest).
Proof.
  induction n as [|n IH]; intros [|c l] rest Hn Hl; cbn [length] in *; try lia; [done|].
  cbn [app fgets]. rewrite (proj2 (Z.eqb_neq c 10)) by set_solver. by rewrite IH by (set_solver || lia).
Qed.

Lemma starts_with_app s l : starts_with s (s ++ l) = true.
Proof. unfold starts_with. by rewrite take_app_length, bool_decide_true. Qed.

(** A string that fits on one line of a PO file. *)
Definition po_string (s : list Z) : Prop := Forall (fun c => is_char c /\ c <> 10) s /\ zlen (po_escape s) <= 4085.

Lemma po_string_cstr s : po_string s -> is_cstr s.
Proof. intros [Hs _]. eapply Forall_impl; [exact Hs|]. naive_solver. Qed.

Lemma po_escape_chars s : Forall (fun c => is_char c /\ c <> 10) s -> Forall (fun c => is_char c /\ c <> 10) (po_escape s).
Proof.
  intros Hs. induction Hs as [|c s Hc Hs IH]; [constructor|].
  change (po_escape (c :: s)) with ((if (c =? 34) || (c =? 92) then [92; c] else [c]) ++ po_escape s).
  apply Forall_app. split; [|done]. destruct ((c =? 34) || (c =? 92)); [|by apply Forall_singleton].
  apply Forall_cons. split; [unfold is_char; lia|by apply Forall_singleton].
Qed.

Lemma po_escape_length s : (length s <= length (po_escape s))%nat.
Proof.
  induction s as [|c s IH]; [simpl; lia|].
  change (po_escape (c :: s)) with ((if (c =? 34) || (c =? 92) then [92; c] else [c]) ++ po_escape s).
  rewrite length_app. destruct ((c =? 34) || (c =? 92)); cbn [length]; lia.
Qed.

(** The lines of one entry: the key, the value, and an empty line. *)
Definition quoted (p s : list Z) : list Z := p ++ 34 :: po_escape s ++ [34].
Definition po_entry (kv : list Z * list Z) : list Z :=
  (quoted (bs "msgid ") kv.1 ++ [10]) ++ (quoted (bs "msgstr ") kv.2 ++ [10]) ++ [10].

(** One turn of the loop on a line. *)
Lemma po_loop_line cs fm rok fuel l rest st :
  Forall (fun c => is_char c /\ c <> 10) l -> zlen l < 4095 ->
  po_loop cs fm rok (S fuel) (l ++ 10 :: rest) st =
    (r ← po_line cs fm rok (l ++ [10]) st; match r with inl st => po_loop cs fm rok fuel rest st | inr fs => Some (inr fs) end).
Proof.
  intros Hl Hlen. cbn [po_loop]. change (Z.to_nat (BUFSZ - 1)) with 4095%nat.
  assert (10 ∉ l) as Hn by (intros Hin; by destruct (proj1 (Forall_forall _ l) Hl 10 Hin) as [_ ?]).
  rewrite fgets_line by (done || lia). rewrite cstr_app.
  - by destruct l.
  - apply Forall_app. split; [eapply Forall_impl; [exact Hl|]; naive_solver|]. apply Forall_singleton. unfold is_char. lia.
Qed.

(** One turn that neither fails nor ends the program. *)
Lemma po_loop_next cs fm rok fuel l rest st1 st2 st :
  Forall (fun c => is_char c /\ c <> 10) l -> zlen l < 4095 ->
  po_scan (l ++ [10]) st = Some (inl st1) -> po_flush cs fm rok st1 = Some (inl st2) ->
  po_loop cs fm rok (S fuel) (l ++ 10 :: rest) st = po_loop cs fm rok fuel rest st2.
Proof. intros Hl Hlen Hs Hf. rewrite po_loop_line by done. unfold po_line. by rewrite Hs; cbn [mbind option_bind]; rewrite Hf. Qed.

(** ** Entries *)

Definition zeros : list Z := replicate (Z.to_nat BUFSZ) 0.

(** A value padded to four bytes. *)
Definition pad (v : list Z) : list Z := v ++ replicate (Z.to_nat ((4 - zlen v mod 4) mod 4)) 0.

(** Whether po2lmo keeps an entry. *)
Definition emits (cs : bool) (kv : list Z * list Z) : bool :=
  (0 <? zlen kv.1) && (0 <? zlen kv.2) && negb (sfh_hash cs kv.1 =? sfh_hash cs kv.2).

(** The values and the index that come of a list of entries. *)
Definition compile_entry (cs : bool) (acc : list Z * list lmo_entry) (kv : list Z * list Z) : list Z * list lmo_entry :=
  if emits cs kv then
    (acc.1 ++ pad kv.2, acc.2 ++ [LmoEntry (sfh_hash cs kv.1) (sfh_hash cs kv.2) (zlen acc.1) (zlen kv.2)])
  else acc.
Definition compile (cs : bool) (acc : list Z * list lmo_entry) (es : list (list Z * list Z)) : list Z * list lmo_entry :=
  fold_left (compile_entry cs) es acc.

Lemma buf_of (v : list Z) : (length v < Z.to_nat BUFSZ)%nat ->
  v ++ 0 :: drop (S (length v)) zeros = v ++ replicate (Z.to_nat BUFSZ - length v) 0.
Proof.
  intros Hl. f_equal. unfold zeros. rewrite drop_replicate.
  by replace (Z.to_nat BUFSZ - length v)%nat with (S (Z.to_nat BUFSZ - S (length v))) by lia.
Qed.

Lemma pad_amount (v : list Z) : 0 <= (4 - zlen v mod 4) mod 4 < 4 /\ (zlen v + (4 - zlen v mod 4) mod 4) mod 4 = 0.
Proof.
  split; [by apply Z.mod_pos_bound|]. rewrite Zplus_mod_idemp_r, Z.add_sub_assoc.
  rewrite (Z.div_mod (zlen v) 4) at 1 by lia. replace (4 * (zlen v / 4) + zlen v mod 4 + 4 - zlen v mod 4) with ((zlen v / 4 + 1) * 4) by lia.
  apply Z.mod_mul. lia.
Qed.

Lemma pad_length (v : list Z) : zlen (pad v) = zlen v + (4 - zlen v mod 4) mod 4.
Proof. unfold pad. rewrite length_app, length_replicate. pose proof (pad_amount v). lia. Qed.

Lemma pad_slice (v : list Z) : (length v < Z.to_nat BUFSZ)%nat ->
  zslice (v ++ replicate (Z.to_nat BUFSZ - length v) 0) 0 (zlen v + (4 - zlen v mod 4) mod 4) = Some (pad v).
Proof.
  intros Hl. destruct (pad_amount v) as [Hp Hm]. set (p := (4 - zlen v mod 4) mod 4) in *. change (Z.to_nat BUFSZ) with 4096%nat in *.
  assert (zlen v + p <= 4096) as Hle by (assert (zlen v + p = 4 * ((zlen v + p) / 4)) by (rewrite Z.div_exact in * |- *; lia); lia).
  rewrite zslice_Some by (rewrite ?length_app, ?length_replicate; lia). f_equal. change (Z.to_nat 0) with 0%nat. rewrite drop_0.
  rewrite Z2Nat.inj_add, Nat2Z.id, take_app_add by lia. unfold pad. fold p. f_equal. rewrite take_replicate. f_equal. lia.
Qed.

Section entries.
Context (cs : bool) (fm : Z) (rok : Z -> bool) (Hrok : forall n, rok n = true) (outp : path) (fs0 : filesys).

Lemma print_append (data d : list Z) : zlen data + zlen d <= fm ->
  print fm (<[outp := data]> fs0) (File outp (zlen data)) d =
    inl (<[outp := data ++ d]> fs0, File outp (zlen (data ++ d))).
Proof.
  intros Hl. unfold print, fwrite. cbn [f_pos f_path]. rewrite take_ge by lia. rewrite Z.ltb_irrefl.
  rewrite contents_insert, splice_end, insert_insert_eq, length_app. do 3 f_equal. lia.
Qed.

(** Between two entries. *)
Definition idle (tmp : list Z) (acc : list Z * list lmo_entry) : po :=
  Po 0 zeros zeros tmp (zlen acc.1) acc.2 (<[outp := acc.1]> fs0) (File outp (zlen acc.1)).

Lemma po_flush_entry (k v tmp : list Z) (acc : list Z * list lmo_entry) :
  is_cstr k -> is_cstr v -> (length k < Z.to_nat BUFSZ)%nat -> (length v < Z.to_nat BUFSZ)%nat ->
  zlen (pad v) + zlen acc.1 < 2 ^ 31 -> zlen (pad v) + zlen acc.1 <= fm ->
  po_flush cs fm rok (Po 4 (k ++ replicate (Z.to_nat BUFSZ - length k) 0) (v ++ replicate (Z.to_nat BUFSZ - length v) 0)
    tmp (zlen acc.1) acc.2 (<[outp := acc.1]> fs0) (File outp (zlen acc.1))) =
  Some (inl (idle tmp (compile_entry cs acc (k, v)))).
Proof.
  intros Hk Hv Lk Lv H31 Hfm. unfold po_flush. cbn [po_state po_key po_val Z.eqb Pos.eqb].
  assert (forall s, is_cstr s -> (length s < Z.to_nat BUFSZ)%nat -> cstr (s ++ replicate (Z.to_nat BUFSZ - length s) 0) = Some s) as Hc.
  { intros s Hs Ls. rewrite <- buf_of by done. by apply cstr_app. }
  rewrite !Hc by done. cbn [mbind option_bind]. unfold compile_entry, emits. cbn [fst snd].
  destruct ((0 <? zlen k) && (0 <? zlen v)); cbn [andb]; [|done].
  unfold po_append. destruct (sfh_hash cs k =? sfh_hash cs v); cbn [negb]; [done|].
  rewrite Hrok. cbn [negb po_val]. rewrite pad_slice by done. cbn [mbind option_bind po_fs po_out].
  rewrite print_append by lia. cbn [mbind option_bind po_state po_key po_val po_tmp po_offset po_array with_strings].
  unfold idle. cbn [fst snd]. rewrite <- pad_length, u32_id by width. rewrite s32_id by lia.
  unfold with_strings. cbn [po_offset po_array po_fs po_out]. by rewrite Z.add_comm, length_app, Nat2Z.inj_add, Z.add_comm.
Qed.

(** A string line: the buffer it is read into holds the string. *)
Lemma quoted_line p s : po_string s -> 34 ∉ p -> zlen p <= 7 ->
  extract_string (quoted p s ++ [10]) zeros BUFSZ = Some (s ++ replicate (Z.to_nat BUFSZ - length s) 0, zlen s).
Proof.
  intros Hs Hp Lp. pose proof (po_escape_length s). pose proof Hs as [_ Hl].
  rewrite <- buf_of by (change BUFSZ with 4096; lia). unfold quoted. rewrite <- !app_assoc. cbn [app]. rewrite <- app_assoc.
  apply extract_quoted; [done|by apply po_string_cstr|change BUFSZ with 4096; lia|unfold zeros; rewrite length_replicate; change BUFSZ with 4096; lia].
Qed.

Lemma quoted_starts p s : starts_with (p ++ [34]) (quoted p s ++ [10]) = true.
Proof.
  replace (quoted p s ++ [10]) with ((p ++ [34]) ++ po_escape s ++ [34; 10]); [apply starts_with_app|].
  unfold quoted. rewrite <- !app_assoc. cbn [app]. by rewrite <- app_assoc.
Qed.

Lemma quoted_chars p s : Forall (fun c => is_char c /\ c <> 10) p -> po_string s ->
  Forall (fun c => is_char c /\ c <> 10) (quoted p s) /\ zlen (quoted p s) <= zlen p + 4087.
Proof.
  intros Hp [Hs Hl]. pose proof (po_escape_chars s Hs). unfold quoted. split.
  - rewrite Forall_app, Forall_cons, Forall_app, Forall_singleton. unfold is_char in *. split_and!; done || lia.
  - rewrite length_app. cbn [length]. rewrite length_app. cbn [length]. lia.
Qed.

Lemma po_entry_step kv rest tmp acc fuel :
  po_string kv.1 -> po_string kv.2 -> zlen (pad kv.2) + zlen acc.1 < 2 ^ 31 -> zlen (pad kv.2) + zlen acc.1 <= fm ->
  po_loop cs fm rok (S (S (S fuel))) (po_entry kv ++ rest) (idle tmp acc) =
    po_loop cs fm rok fuel rest (idle tmp (compile_entry cs acc kv)).
Proof.
  destruct kv as [k v]. cbn [fst snd]. intros Hk Hv H31 Hfm. pose proof (po_escape_length k). pose proof (po_escape_length v).
  destruct (quoted_chars (bs "msgid ") k ltac:(eval_decide) Hk) as [C1 L1]. change (zlen (bs "msgid ")) with 6 in L1.
  destruct (quoted_chars (bs "msgstr ") v ltac:(eval_decide) Hv) as [C2 L2]. change (zlen (bs "msgstr ")) with 7 in L2.
  set (kb := k ++ replicate (Z.to_nat BUFSZ - length k) 0). set (vb := v ++ replicate (Z.to_nat BUFSZ - length v) 0).
  set (s1 := if zlen k =? 0 then 1 else 2). assert (s1 = 1 \/ s1 = 2) as Hs1 by (unfold s1; destruct (_ =? _); auto).
  unfold po_entry. cbn [fst snd]. rewrite <- !app_assoc. cbn [app].
  rewrite (po_loop_next _ _ _ _ _ _ (with_strings (idle tmp acc) s1 kb zeros tmp) (with_strings (idle tmp acc) s1 kb zeros tmp));
    [|done|lia| |unfold po_flush; cbn [with_strings po_state]; by rewrite (proj2 (Z.eqb_neq s1 4)) by lia].
  2:{ unfold po_scan. cbn [idle po_state po_key Z.eqb andb]. rewrite quoted_starts, quoted_line by (done || eval_decide).
      cbn [mbind option_bind]. by rewrite (proj2 (Z.eqb_neq (zlen k) (-1))) by lia. }
  rewrite (po_loop_next _ _ _ _ _ _ (with_strings (idle tmp acc) 3 kb vb tmp) (with_strings (idle tmp acc) 3 kb vb tmp));
    [|done|lia| |done].
  2:{ unfold po_scan. cbn [with_strings po_state po_val]. rewrite (proj2 (Z.eqb_neq s1 0)) by lia. cbn [andb].
      replace ((s1 =? 1) || (s1 =? 2)) with true by (by destruct Hs1 as [-> | ->]).
      cbn [idle po_val]. rewrite quoted_starts, quoted_line by (done || eval_decide). cbn [orb mbind option_bind].
      by rewrite (proj2 (Z.eqb_neq (zlen v) (-1))) by lia. }
  change (10 :: rest) with ([] ++ 10 :: rest).
  apply (po_loop_next _ _ _ _ _ _ (with_strings (idle tmp acc) 4 kb vb tmp)); [constructor|done| |].
  - unfold po_scan. cbn [with_strings po_state po_tmp Z.eqb Pos.eqb andb orb]. by rewrite extract_none by eval_decide.
  - destruct (Hk) as [_ Lk], (Hv) as [_ Lv].
    apply po_flush_entry; try done; try (by apply po_string_cstr); change BUFSZ with 4096; lia.
Qed.
End entries.
