(* ===== verification/LmoRoundtrip.v ===== *)
(** The archive po2lmo writes, and looking translations up in it. *)

From stdpp Require Import gmap sorting.
From S2P Require Import Prelude Libc Lmo LmoSpec LmoPo.

(** ** What is compiled *)

(** [e] describes the entry [kv], whose value is in [data]. *)
Definition describes (cs : bool) (data : list Z) (e : lmo_entry) (kv : list Z * list Z) : Prop :=
  e_key_id e = sfh_hash cs kv.1 /\ e_val_id e = sfh_hash cs kv.2 /\ e_length e = zlen kv.2 /\
  exists d1 d2, data = d1 ++ kv.2 ++ d2 /\ e_offset e = zlen d1.

Lemma describes_app cs data more e kv : describes cs data e kv -> describes cs (data ++ more) e kv.
Proof.
  intros (H1 & H2 & H3 & d1 & d2 & -> & H4). split_and!; try done. exists d1, (d2 ++ more). by rewrite <- !app_assoc.
Qed.

Lemma compile_sound cs es : forall acc e, e ∈ (compile cs acc es).2 ->
  e ∈ acc.2 \/ exists kv, kv ∈ es /\ emits cs kv = true /\ describes cs (compile cs acc es).1 e kv.
Proof.
  assert (forall es acc, exists more, (compile cs acc es).1 = acc.1 ++ more) as Hgrow.
  { clear es. induction es as [|kv es IH]; intros acc; [exists []; by rewrite app_nil_r|].
    change (compile cs acc (kv :: es)) with (compile cs (compile_entry cs acc kv) es).
    destruct (IH (compile_entry cs acc kv)) as [more ->]. unfold compile_entry. destruct (emits cs kv); [|by exists more].
    exists (pad kv.2 ++ more). cbn [fst]. by rewrite <- app_assoc. }
  induction es as [|kv es IH]; intros acc e He; [by left|].
  change (compile cs acc (kv :: es)) with (compile cs (compile_entry cs acc kv) es) in *.
  destruct (IH _ _ He) as [Hin|(kv' & Hkv & Hem & Hd)]; [|right; exists kv'; split_and!; try done; by right].
  destruct (Hgrow es (compile_entry cs acc kv)) as [more Hmore]. rewrite Hmore. clear He Hmore.
  unfold compile_entry in *. destruct (emits cs kv) eqn:Eem; [|by left].
  cbn [snd fst] in *. apply elem_of_app in Hin as [Hin|Hin]; [by left|]. apply list_elem_of_singleton in Hin as ->.
  right. exists kv. split_and!; [by left|done|]. apply describes_app. split_and!; try done.
  exists acc.1, (drop (length kv.2) (pad kv.2)). split; [|done]. unfold pad. by rewrite drop_app_length.
Qed.

Lemma compile_keeps cs es : forall acc e, e ∈ acc.2 -> e ∈ (compile cs acc es).2.
Proof.
  induction es as [|kv es IH]; intros acc e He; [done|].
  change (compile cs acc (kv :: es)) with (compile cs (compile_entry cs acc kv) es). apply IH.
  unfold compile_entry. destruct (emits cs kv); [|done]. apply elem_of_app. by left.
Qed.

Lemma compile_complete cs es : forall acc kv, kv ∈ es -> emits cs kv = true ->
  exists e, e ∈ (compile cs acc es).2 /\ e_key_id e = sfh_hash cs kv.1.
Proof.
  induction es as [|kv' es IH]; intros acc kv Hin Hem; [by apply not_elem_of_nil in Hin|].
  change (compile cs acc (kv' :: es)) with (compile cs (compile_entry cs acc kv') es).
  apply elem_of_cons in Hin as [<-|Hin]; [|by apply IH].
  eexists. split; [apply compile_keeps; unfold compile_entry; rewrite Hem; apply elem_of_app; right; by apply list_elem_of_singleton|done].
Qed.

(** A bound on the size of the archive. *)
Definition archive_bound (es : list (list Z * list Z)) : nat := sum_list_with (fun kv => length (pad kv.2) + 16)%nat es + 4.

Lemma compile_bound cs es : forall acc,
  zlen (compile cs acc es).1 + 16 * zlen (compile cs acc es).2 + 4 <=
    zlen acc.1 + 16 * zlen acc.2 + Z.of_nat (archive_bound es).
Proof.
  unfold archive_bound. induction es as [|kv es IH]; intros acc; [cbn; lia|].
  change (compile cs acc (kv :: es)) with (compile cs (compile_entry cs acc kv) es). cbn [sum_list_with].
  specialize (IH (compile_entry cs acc kv)). etrans; [exact IH|]. unfold compile_entry.
  destruct (emits cs kv); cbn [fst snd]; rewrite ?length_app; cbn [length]; lia.
Qed.

Section compiled.
Context (cs : bool) (fm : Z) (rok : Z -> bool) (Hrok : forall n, rok n = true) (outp : path) (fs0 : filesys).

Lemma po_loop_entries es : forall acc tmp fuel,
  Forall (fun kv => po_string kv.1 /\ po_string kv.2) es ->
  zlen acc.1 + Z.of_nat (archive_bound es) < 2 ^ 31 -> zlen acc.1 + Z.of_nat (archive_bound es) <= fm ->
  (3 * length es < fuel)%nat ->
  po_loop cs fm rok fuel (concat (po_entry <$> es)) (idle outp fs0 tmp acc) =
    Some (inl (idle outp fs0 tmp (compile cs acc es))).
Proof.
  induction es as [|kv es IH]; intros acc tmp fuel Hes H31 Hfm Hf.
  - destruct fuel; [simpl in Hf; lia|]. done.
  - apply Forall_cons in Hes as [[Hk Hv] Hes]. cbn [length] in Hf. unfold archive_bound in *. cbn [sum_list_with] in *.
    destruct fuel as [|[|[|fuel]]]; [lia..|]. cbn [fmap list_fmap concat].
    rewrite po_entry_step by (done || lia).
    change (compile cs acc (kv :: es)) with (compile cs (compile_entry cs acc kv) es).
    assert (zlen (compile_entry cs acc kv).1 <= zlen acc.1 + zlen (pad kv.2)) as Hle
      by (unfold compile_entry; destruct (emits cs kv); cbn [fst]; rewrite ?length_app; lia).
    apply IH; try done; lia.
Qed.

Lemma print_words_append xs : forall data, zlen data + 4 * zlen xs <= fm ->
  print_words fm xs (<[outp := data]> fs0) (File outp (zlen data)) =
    inl (<[outp := data ++ concat (be_bytes 4 <$> xs)]> fs0, File outp (zlen (data ++ concat (be_bytes 4 <$> xs)))).
Proof.
  induction xs as [|x xs IH]; intros data Hl; [cbn; by rewrite app_nil_r|].
  cbn [print_words length fmap list_fmap concat] in *. unfold print_uint32.
  rewrite print_append by (rewrite length_be_bytes; lia).
  rewrite IH by (rewrite length_app, length_be_bytes; lia). by rewrite <- !app_assoc.
Qed.
End compiled.

(** ** The archive *)

Definition index_bytes (ix : list lmo_entry) : list Z := ix ≫= lmo_entry_bytes.

Definition archive_file (data : list Z) (ix : list lmo_entry) : list Z :=
  data ++ index_bytes ix ++ be_bytes 4 (zlen data).

Lemma length_index_bytes ix : zlen (index_bytes ix) = 16 * zlen ix.
Proof.
  unfold index_bytes. induction ix as [|e ix IH]; [done|]. cbn [mbind list_bind] in *. rewrite length_app.
  unfold lmo_entry_bytes at 1. rewrite !length_app, !length_be_bytes. cbn [length]. lia.
Qed.

Lemma index_words ix : concat (be_bytes 4 <$> (ix ≫= entry_words)) = index_bytes ix.
Proof.
  induction ix as [|e ix IH]; [done|]. unfold index_bytes in *. cbn [mbind list_bind] in *.
  rewrite fmap_app, concat_app, IH. unfold entry_words, lmo_entry_bytes. cbn [fmap list_fmap concat].
  by rewrite app_nil_r.
Qed.

Lemma get_be32_at l1 z l2 off : is_u32 z -> off = zlen l1 -> get_be32 (l1 ++ be_bytes 4 z ++ l2) off = Some z.
Proof.
  intros Hz ->. unfold get_be32. pose proof (zslice_app l1 (be_bytes 4 z) l2) as H. rewrite length_be_bytes in H.
  change (Z.of_nat 4) with 4 in H. rewrite H. cbn [fmap option_fmap option_map]. by rewrite be_val_bytes32.
Qed.

Definition entry_ok (e : lmo_entry) : Prop :=
  is_u32 (e_key_id e) /\ is_u32 (e_val_id e) /\ is_u32 (e_offset e) /\ is_u32 (e_length e).

(** The fields of the entry at position [i]. *)
Lemma archive_entry data ix i e :
  entry_ok e -> zget ix i = Some e ->
  get_be32 (archive_file data ix) (zlen data + lmo_entry_size * i) = Some (e_key_id e) /\
  get_be32 (archive_file data ix) (zlen data + lmo_entry_size * i + 8) = Some (e_offset e) /\
  get_be32 (archive_file data ix) (zlen data + lmo_entry_size * i + 12) = Some (e_length e).
Proof.
  intros (H1 & H2 & H3 & H4) Hi. pose proof (zget_Some_lt _ _ _ Hi) as Hlt.
  rewrite <- (Z2Nat.id i), zget_nat in Hi by lia. apply list_elem_of_split_length in Hi as (a & b & -> & Hl).
  assert (i = zlen a) as -> by lia. unfold archive_file, index_bytes. rewrite bind_app. cbn [mbind list_bind].
  change (a ≫= lmo_entry_bytes) with (index_bytes a). unfold lmo_entry_size. rewrite <- length_index_bytes.
  unfold lmo_entry_bytes at 1 3 5. rewrite <- !app_assoc. split_and!.
  - rewrite (app_assoc data). apply get_be32_at; [done|]. rewrite length_app. lia.
  - rewrite (app_assoc data), (app_assoc _ (be_bytes 4 (e_key_id e))), (app_assoc _ (be_bytes 4 (e_val_id e))).
    apply get_be32_at; [done|]. rewrite !length_app, !length_be_bytes. lia.
  - rewrite (app_assoc data), (app_assoc _ (be_bytes 4 (e_key_id e))), (app_assoc _ (be_bytes 4 (e_val_id e))),
      (app_assoc _ (be_bytes 4 (e_offset e))).
    apply get_be32_at; [done|]. rewrite !length_app, !length_be_bytes. lia.
Qed.

Definition archive_of (data : list Z) (ix : list lmo_entry) : lmo_archive :=
  LmoArchive (archive_file data ix) (zlen (archive_file data ix)) (zlen data) (zlen ix).

Lemma length_archive_file data ix : zlen (archive_file data ix) = zlen data + 16 * zlen ix + 4.
Proof. unfold archive_file. rewrite !length_app, length_be_bytes, !Nat2Z.inj_add, length_index_bytes. lia. Qed.

Lemma lmo_open_archive data ix :
  zlen (archive_file data ix) < 2 ^ 31 ->
  lmo_open true true (Some (archive_file data ix)) = Some (Some (archive_of data ix)).
Proof.
  intros Hl. pose proof (length_archive_file data ix) as Hf. unfold lmo_open. rewrite u32_id by width. cbn [negb orb].
  rewrite (proj2 (Z.eqb_neq _ 0)) by lia.
  assert (get_be32 (archive_file data ix) (zlen (archive_file data ix) - 4) = Some (zlen data)) as ->.
  { rewrite Hf. unfold archive_file. rewrite <- (app_nil_r (be_bytes 4 (zlen data))), app_assoc.
    apply get_be32_at; [width|]. rewrite length_app, Nat2Z.inj_add, length_index_bytes. lia. }
  cbn [mbind option_bind]. rewrite (proj2 (Z.leb_gt _ _)) by lia. unfold archive_of. do 3 f_equal.
  rewrite u32_id by width. unfold lmo_entry_size.
  replace (zlen (archive_file data ix) - zlen data - 4) with (zlen ix * 16) by lia. rewrite Z.div_mul by lia. apply s32_id. lia.
Qed.

(** Looking a key up in a compiled archive gives the value compiled for it. *)
Lemma translate_archive cs es ix kv :
  let '(data, arr) := compile cs ([], []) es in
  ix ≡ₚ arr -> StronglySorted Z.le (e_key_id <$> ix) -> zlen (archive_file data ix) < 2 ^ 31 ->
  kv ∈ es -> emits cs kv = true ->
  (forall kv', kv' ∈ es -> emits cs kv' = true -> sfh_hash cs kv'.1 = sfh_hash cs kv.1 -> kv'.2 = kv.2) ->
  exists t, translate_loop (sfh_hash cs kv.1) [archive_of data ix] = Some (0, Some t) /\ translation_text t = Some kv.2.
Proof.
  destruct (compile cs ([], []) es) as [data arr] eqn:Ec. intros Hp Hs Hl Hin Hem Huniq.
  pose proof (length_archive_file data ix) as Hf.
  assert (forall e, e ∈ ix -> exists kv', kv' ∈ es /\ emits cs kv' = true /\ describes cs data e kv') as Hsound.
  { intros e He. rewrite Hp in He. pose proof (compile_sound cs es ([], []) e) as Hc.
    rewrite Ec in Hc. destruct (Hc He) as [Hx|Hx]; [by apply not_elem_of_nil in Hx|done]. }
  assert (forall e, e ∈ ix -> entry_ok e) as Hok.
  { intros e He. destruct (Hsound e He) as (kv' & _ & _ & E1 & E2 & E3 & d1 & d2 & -> & E4). rewrite !length_app in Hf.
    split_and!; rewrite ?E1, ?E2; try apply sfh_hash_range; width. }
  destruct (compile_complete cs es ([], []) kv Hin Hem) as (e0 & He0 & Hk0). rewrite Ec in He0. cbn [snd] in He0. rewrite <- Hp in He0.
  assert (indexed (archive_of data ix) (e_key_id <$> ix)) as Hix.
  { split; [by rewrite length_fmap|]. rewrite length_fmap. split; [destruct ix; [by apply not_elem_of_nil in He0|cbn [length] in *; lia]|].
    intros i k Hi. pose proof (zget_Some_lt _ _ _ Hi) as Hlt. rewrite <- (Z2Nat.id i), zget_nat in Hi by lia.
    apply list_lookup_fmap_Some in Hi as (e & -> & Hi). rewrite <- zget_nat, Z2Nat.id in Hi by lia.
    apply archive_entry; [|done]. apply Hok. rewrite <- (Z2Nat.id i), zget_nat in Hi by lia. by eapply list_elem_of_lookup_2. }
  destruct (find_entry_spec _ _ (sfh_hash cs kv.1) Hix Hs) as ([m|] & Hfind & Hm).
  2:{ destruct Hm. rewrite <- Hk0. by apply list_elem_of_fmap_2. }
  pose proof (zget_Some_lt _ _ _ Hm) as Hlt. rewrite length_fmap in Hlt. rewrite <- (Z2Nat.id m), zget_nat in Hm by lia.
  apply list_lookup_fmap_Some in Hm as (e & Hke & He). pose proof (list_elem_of_lookup_2 _ _ _ He) as Hein.
  rewrite <- zget_nat, Z2Nat.id in He by lia. destruct (archive_entry data ix m e (Hok e Hein) He) as (_ & Ho & Hn).
  destruct (Hsound e Hein) as (kv' & Hkv' & Hem' & E1 & _ & E3 & d1 & d2 & Hd & E4).
  assert (kv'.2 = kv.2) as Ev by (apply Huniq; congruence).
  exists (archive_of data ix, zlen d1, zlen kv.2). split.
  - cbn [translate_loop]. rewrite Hfind. cbn [mbind option_bind archive_of ar_index ar_mmap]. rewrite Ho, Hn. cbn [mbind option_bind].
    rewrite E4, E3, Ev, s32_id; [done|]. assert (zlen data = zlen d1 + (zlen kv.2 + zlen d2)) by (rewrite Hd, Ev, !length_app; lia). lia.
  - unfold translation_text. cbn [archive_of ar_mmap]. unfold archive_file. rewrite Hd, Ev, <- !app_assoc. apply zslice_app.
Qed.

(** ** Sorting *)

(** What C promises of [qsort] with [cmp_index]. *)
Definition qsort_ok (qsort : list lmo_entry -> list lmo_entry) : Prop :=
  forall l, qsort l ≡ₚ l /\ StronglySorted (fun a b => cmp_index a b <= 0) (qsort l).

Lemma cmp_index_le a b : cmp_index a b <= 0 <-> e_key_id a <= e_key_id b.
Proof. unfold cmp_index. repeat case_match; lia. Qed.

Lemma qsort_keys qsort l : qsort_ok qsort -> StronglySorted Z.le (e_key_id <$> qsort l).
Proof.
  intros Hq. destruct (Hq l) as [_ Hs]. eapply StronglySorted_fmap; [|exact Hs]. intros a b. apply cmp_index_le.
Qed.

(** ** The whole program *)

Section main.
Context (cs : bool) (fm : Z) (rok : Z -> bool) (can_create : path -> bool) (qsort : list lmo_entry -> list lmo_entry).
Context (tmp0 : list Z) (fs : filesys) (prog inp outp : path) (es : list (list Z * list Z)).
Context (Hrok : forall n, rok n = true) (Hcan : can_create outp = true) (Hq : qsort_ok qsort) (Hne : inp <> outp).
Context (Hin : fs !! inp = Some (concat (po_entry <$> es))).
Context (Hes : Forall (fun kv => po_string kv.1 /\ po_string kv.2) es).
Context (Hfm : Z.of_nat (archive_bound es) <= fm) (H31 : Z.of_nat (archive_bound es) < 2 ^ 31).

#[local] Abbreviation data := (compile cs ([], []) es).1.
#[local] Abbreviation ix := (qsort (compile cs ([], []) es).2).

Lemma entries_size : zlen (archive_file data ix) <= Z.of_nat (archive_bound es).
Proof.
  rewrite length_archive_file. pose proof (compile_bound cs es ([], [])) as Hb. cbn [fst snd length] in Hb.
  destruct (Hq (compile cs ([], []) es).2) as [Hp _]. rewrite (Permutation_length Hp). lia.
Qed.

Lemma entries_fuel : (3 * length es < S (S (length (concat (po_entry <$> es)))))%nat.
Proof.
  clear. induction es as [|kv l IH]; [simpl; lia|]. cbn [fmap list_fmap concat length]. rewrite length_app.
  unfold po_entry at 1. rewrite !length_app. cbn [length]. lia.
Qed.

(** A run on a well-formed PO file with at least one translation. *)
Lemma po2lmo_run : 0 < zlen data ->
  exists fs', po2lmo_main cs fm rok can_create qsort tmp0 fs [prog; inp; outp] = Some (fs', 0) /\
    fs' !! outp = Some (archive_file data ix).
Proof.
  intros Hpos. pose proof entries_size as Hsz. rewrite length_archive_file in Hsz.
  unfold po2lmo_main, fopen_r, fopen_w. rewrite Hin, Hcan. cbn [mbind option_bind].
  rewrite contents_insert_ne by done. unfold contents. rewrite Hin. cbn [default from_option].
  pose proof (po_loop_entries cs fm rok Hrok outp fs es ([], []) tmp0 _ Hes ltac:(cbn [fst length]; lia) ltac:(cbn [fst length]; lia) entries_fuel) as Hl.
  unfold idle at 1 in Hl. cbn [fst snd length] in Hl. change (Z.of_nat 0) with 0 in Hl. unfold zeros in Hl. cbn [id] in *. rewrite Hl.
  cbn [mbind option_bind idle po_array po_fs po_out po_offset]. unfold print_index.
  rewrite print_words_append.
  2:{ assert (forall l, zlen (l ≫= entry_words) = 4 * zlen l) as ->; [|lia].
      induction l as [|e l IH]; [done|]. cbn [mbind list_bind length] in *. rewrite length_app. cbn [length entry_words]. lia. }
  rewrite index_words, (proj2 (Z.ltb_lt 0 _)) by lia. unfold print_uint32.
  rewrite print_append by (rewrite length_app, length_be_bytes; pose proof (length_index_bytes ix); lia).
  eexists. split; [done|]. rewrite lookup_insert_eq. unfold archive_file. by rewrite <- app_assoc.
Qed.
End main.

(** * Theorems *)

(** C6: A translation survives the whole way: po2lmo compiles a PO file (any strings without NUL
    and newline, quoted and escaped) on a host whose [char] may be signed, the archive is
    found in a directory and loaded as a catalog, and on the device the lookup of a key
    written in canonical white space returns exactly the bytes of its value.  The key must
    hash alike on both sides (it is ASCII, or [char] has the same sign), and no other kept
    entry may share its hash with another value. *)
Theorem po2lmo_translate (host target : bool) (fm : Z) (rok : Z -> bool) (can_create : path -> bool)
    (qsort : list lmo_entry -> list lmo_entry) (fnmatch : list Z -> list Z -> bool)
    (tmp0 : list Z) (fs : filesys) (prog inp dir name lng : path) (readdir : path -> option (list path)) (a : Z)
    (es : list (list Z * list Z)) (kv : list Z * list Z) :
  (forall n, rok n = true) -> can_create (lmo_path dir name) = true -> qsort_ok qsort -> inp <> lmo_path dir name ->
  fs !! inp = Some (concat (po_entry <$> es)) -> Forall (fun kv => po_string kv.1 /\ po_string kv.2) es ->
  Z.of_nat (archive_bound es) <= fm -> Z.of_nat (archive_bound es) < 2 ^ 31 ->
  readdir dir = Some [name] -> fnmatch (lmo_pattern lng) name = true ->
  kv ∈ es -> emits host kv = true -> unwords (words kv.1) = kv.1 ->
  (Forall (fun b => b < 128) kv.1 \/ host = target) ->
  (forall kv', kv' ∈ es -> emits host kv' = true -> sfh_hash host kv'.1 = sfh_hash host kv.1 -> kv'.2 = kv.2) ->
  exists fs' st t,
    po2lmo_main host fm rok can_create qsort tmp0 fs [prog; inp; lmo_path dir name] = Some (fs', 0) /\
    lmo_load_catalog fnmatch true true fs' readdir (Some a) (LmoState [] None) lng (Some dir) = Some (st, 0) /\
    lmo_translate target st (Some kv.1) (zlen kv.1) = Some (0, Some t) /\ translation_text t = Some kv.2.
Proof.
  intros Hrok Hcan Hq Hne Hin Hes Hfm H31 Hdir Hfn Hkv Hem Hcanon Hsign Huniq.
  set (arr := (compile host ([], []) es).2). pose proof (entries_size host qsort es Hq) as Hsz.
  pose proof (translate_archive host es (qsort arr) kv) as Ht. destruct (compile host ([], []) es) as [data arr'] eqn:Ec.
  cbn [snd] in arr. subst arr. cbn [fst snd] in Hsz.
  destruct Ht as (t & Ht & Htxt); try done; [apply Hq|by apply qsort_keys|lia|].
  assert (0 < zlen data) as Hpos.
  { destruct (compile_complete host es ([], []) kv Hkv Hem) as (e & He & _). destruct (compile_sound host es ([], []) e He) as [Hx|Hx];
      rewrite Ec in *; [by apply not_elem_of_nil in Hx|]. destruct Hx as (kv' & _ & Hem' & _ & _ & _ & d1 & d2 & Hd & _).
    cbn [fst] in Hd. unfold emits in Hem'. rewrite Hd, !length_app. destruct (Z.ltb_spec 0 (zlen kv'.2)); [lia|]. by rewrite andb_false_r in Hem'. }
  pose proof (po2lmo_run host fm rok can_create qsort tmp0 fs prog inp (lmo_path dir name) es) as Hrun. rewrite Ec in Hrun.
  destruct Hrun as (fs' & Hmain & Hfile); try done. cbn [fst snd] in Hfile.
  exists fs', (LmoState [(a, LmoCatalog (take 5 lng) [archive_of data (qsort arr')])] (Some a)), t. split_and!; [done| | |done].
  - unfold lmo_load_catalog, lmo_change_catalog. cbn [_lmo_catalogs list_find mbind option_bind]. rewrite Hdir. cbn [mbind option_bind].
    cbn [load_loop]. rewrite Hfn, Hfile, lmo_open_archive by lia. done.
  - unfold lmo_translate. cbn [_lmo_active_catalog].
    assert (zlen kv.1 < 4096) as Hkl.
    { pose proof (proj1 (Forall_forall _ es) Hes kv Hkv) as [[_ Hl] _]. pose proof (po_escape_length kv.1). lia. }
    rewrite canon_hash_words, Hcanon by done. cbn [mbind option_bind _lmo_catalogs list_find fst].
    rewrite decide_True by done. cbn [mbind option_bind archives].
    replace (sfh_hash target kv.1) with (sfh_hash host kv.1); [done|]. destruct Hsign as [Ha| ->]; [by apply sfh_hash_ascii|done].
Qed.

(** Lookups do not depend on how a key's white space is written: the canonical hash of a key
    is the hash of its words joined with single spaces. *)
Theorem lmo_canon_hash_words (cs : bool) (s : list Z) :
  zlen s < 4096 -> lmo_canon_hash cs (Some s) (zlen s) = Some (sfh_hash cs (unwords (words s))).
Proof. apply canon_hash_words. Qed.

(** C36: The binary search of [lmo_find_entry] terminates on every non-empty sorted index that
    is inside its mapping, finds a position with the hash when there is one, and reports
    none otherwise; no key is read outside the index. *)
Theorem lmo_find_entry_search (ar : lmo_archive) (ks : list Z) (hash : Z) :
  indexed ar ks -> StronglySorted Z.le ks ->
  exists res, lmo_find_entry ar hash = Some res /\
    match res with Some m => zget ks m = Some hash | None => hash ∉ ks end.
Proof. apply find_entry_spec. Qed.

(** Closing the catalog in use leaves [_lmo_active_catalog] pointing at freed memory: the
    next lookup of any key is a use after free.  The language is one [lmo_change_catalog]
    can find (at most five characters). *)
Theorem lmo_close_catalog_dangles (cs : bool) (fnmatch : list Z -> list Z -> bool) (malloc_ok mmap_ok : bool) (fs : filesys)
    (readdir : path -> option (list path)) (a : Z) (lng key : list Z) (dir : path) (st : lmo_state) :
  zlen lng <= 5 ->
  lmo_load_catalog fnmatch malloc_ok mmap_ok fs readdir (Some a) (LmoState [] None) lng (Some dir) = Some (st, 0) ->
  _lmo_active_catalog st = Some a /\
  lmo_translate cs (lmo_close_catalog st lng) (Some key) (zlen key) = None.
Proof.
  intros Hl. unfold lmo_load_catalog, lmo_change_catalog. cbn [_lmo_catalogs list_find mbind option_bind].
  destruct (readdir dir) as [names|]; cbn [mbind option_bind]; [|done].
  destruct (load_loop _ _ _ _ _ _ _ _) as [ars|]; cbn [mbind option_bind]; [|done]. intros [= <-]. split; [done|].
  unfold lmo_close_catalog, lmo_translate. cbn [_lmo_catalogs _lmo_active_catalog close_loop snd lang].
  rewrite take_ge by lia. unfold strncmp_eq. rewrite bool_decide_true by done. cbn [list_find].
  by destruct (lmo_canon_hash _ _ _).
Qed.

(** The hash of a key does not depend on the signedness of [char] as long as the key is
    ASCII; a byte above 127 in the tail makes the two hashes differ, so that a key hashed on
    the host is not found on the device. *)
Theorem sfh_hash_signedness :
  (forall s, Forall (fun b => b < 128) s -> sfh_hash true s = sfh_hash false s) /\
  sfh_hash true [195; 188; 195] <> sfh_hash false [195; 188; 195].
Proof. split; [intros s; apply sfh_hash_ascii|vm_compute; discriminate]. Qed.

(** * Concrete instances *)

Definition index_le (a b : lmo_entry) : Prop := cmp_index a b <= 0.

#[export] Instance index_le_dec : RelDecision index_le.
Proof. intros a b. unfold index_le. apply _. Defined.

Lemma merge_sort_ok : qsort_ok (merge_sort index_le).
Proof.
  assert (Transitive index_le) by (intros a b c; unfold index_le; rewrite !cmp_index_le; lia).
  assert (Total index_le) by (intros a b; unfold index_le; rewrite !cmp_index_le; lia).
  intros l. split; [apply merge_sort_Permutation|apply (StronglySorted_merge_sort index_le)].
Qed.

Definition demo_entries : list (list Z * list Z) :=
  [([], bs "Language: de"); (bs "Save & Apply", bs "Speichern"); (bs "a " ++ [34] ++ bs "b" ++ [92; 34], [195; 188; 34])].

Definition demo_po : filesys := <[bs "base.po" := concat (po_entry <$> demo_entries)]> ∅.
Definition demo_readdir (d : path) : option (list path) :=
  if bool_decide (d = bs "i18n") then Some [bs "base.de.lmo"] else None.
Definition demo_fnmatch (pat n : list Z) : bool := bool_decide (drop (length n + 1 - length pat) n = drop 1 pat).
Definition demo_key : list Z * list Z := (bs "a " ++ [34] ++ bs "b" ++ [92; 34], [195; 188; 34]).

Lemma po2lmo_translate_witness :
  exists fs' st t,
    po2lmo_main true 1000000 (fun _ => true) (fun _ => true) (merge_sort index_le) [] demo_po
      [bs "po2lmo"; bs "base.po"; lmo_path (bs "i18n") (bs "base.de.lmo")] = Some (fs', 0) /\
    lmo_load_catalog demo_fnmatch true true fs' demo_readdir (Some 4096) (LmoState [] None) (bs "de") (Some (bs "i18n")) = Some (st, 0) /\
    lmo_translate false st (Some demo_key.1) (zlen demo_key.1) = Some (0, Some t) /\ translation_text t = Some demo_key.2.
Proof.
  apply (po2lmo_translate true false 1000000 (fun _ => true) (fun _ => true) (merge_sort index_le) demo_fnmatch [] demo_po
           (bs "po2lmo") (bs "base.po") (bs "i18n") (bs "base.de.lmo") (bs "de") demo_readdir 4096 demo_entries demo_key).
  - done.
  - done.
  - exact merge_sort_ok.
  - vm_compute; discriminate.
  - reflexivity.
  - unfold demo_entries. repeat (apply Forall_cons; split; [split; (split; [eval_decide|vm_compute; discriminate])|]). apply Forall_nil. done.
  - vm_compute; discriminate.
  - vm_compute; reflexivity.
  - reflexivity.
  - reflexivity.
  - unfold demo_entries, demo_key. right. right. left.
  - vm_compute; reflexivity.
  - vm_compute; reflexivity.
  - left. eval_decide.
  - assert (Forall (fun kv' => emits true kv' = true -> sfh_hash true kv'.1 = sfh_hash true demo_key.1 -> kv'.2 = demo_key.2) demo_entries) as Hall.
    { unfold demo_entries. repeat (apply Forall_cons; split; [vm_compute; (reflexivity || discriminate || (intros; discriminate))|]). apply Forall_nil. done. }
    intros kv' Hin. by apply (proj1 (Forall_forall _ _) Hall).
Defined.

Lemma lmo_canon_hash_words_witness :
  lmo_canon_hash false (Some (bs "  Save   & Apply ")) (zlen (bs "  Save   & Apply ")) = Some (sfh_hash false (bs "Save & Apply")).
Proof. apply (lmo_canon_hash_words false (bs "  Save   & Apply ")). vm_compute. reflexivity. Defined.

Definition demo_archive : lmo_archive :=
  archive_of [1; 2; 3; 4] [LmoEntry 5 0 0 4; LmoEntry 7 0 0 4; LmoEntry 9 0 0 4].

Lemma demo_indexed : indexed demo_archive [5; 7; 9].
Proof.
  split; [done|]. split; [done|]. intros i k Hi. pose proof (zget_Some_lt _ _ _ Hi) as Hlt. cbn [length] in Hlt.
  assert (i = 0 \/ i = 1 \/ i = 2) as [-> | [-> | ->]] by lia; injection Hi as <-; vm_compute; reflexivity.
Qed.

Lemma lmo_find_entry_search_witness :
  exists res, lmo_find_entry demo_archive 9 = Some res /\
    match res with Some m => zget [5; 7; 9] m = Some 9 | None => 9 ∉ [5; 7; 9] end.
Proof. apply (lmo_find_entry_search demo_archive [5; 7; 9] 9 demo_indexed). repeat constructor; lia. Defined.

Lemma lmo_close_catalog_dangles_witness :
  exists st, lmo_load_catalog demo_fnmatch true true ∅ demo_readdir (Some 4096) (LmoState [] None) (bs "de") (Some (bs "i18n")) = Some (st, 0) /\
    lmo_translate false (lmo_close_catalog st (bs "de")) (Some (bs "Save")) (zlen (bs "Save")) = None.
Proof.
  eexists. split; [vm_compute; reflexivity|].
  apply (lmo_close_catalog_dangles false demo_fnmatch true true ∅ demo_readdir 4096 (bs "de") (bs "Save") (bs "i18n"));
    [vm_compute; discriminate|vm_compute; reflexivity].
Defined.
