(* ===== verification/LuciText.v ===== *)
(** The text functions of the web interface (realtek/luci/modules/luci-base/src/
    template_utils.c): the growing buffer, checking UTF-8, escaping for XML and for Lua
    strings, stripping tags. *)

From stdpp Require Import gmap.
From S2P Require Import Prelude Libc.

(** ** The buffer *)

(** [dptr] is kept as an offset into [data]. *)
Record template_buffer := Buffer { b_data : list Z; b_dptr : Z; b_size : Z; b_fill : Z }.

(** Work on a buffer; [None] is an access outside it. *)
Definition W (A : Type) : Type := template_buffer -> option (A * template_buffer).

#[export] Instance W_ret : MRet W := fun A a b => Some (a, b).
#[export] Instance W_bind : MBind W := fun A B k m b => match m b with Some (a, b) => k a b | None => None end.

Section text.
(** Which sizes [malloc] and [realloc] can give, and what fresh memory holds. *)
Context (can_alloc : Z -> bool) (junk : Z).

(** [None] is [NULL]. *)
Definition buf_init (size : Z) : option template_buffer :=
  let size := if size <=? 0 then 1024 else size in
  if can_alloc 16 && can_alloc size then Some (Buffer (0 :: replicate (Z.to_nat (size - 1)) junk) 0 size 0) else None.

Definition buf_grow (size : Z) : W Z := fun b =>
  let size := if size <=? 0 then 1024 else size in
  let n := u32 (b_size b + size) in
  if can_alloc n then
    Some (s32 n, Buffer (take (Z.to_nat n) (b_data b ++ replicate (Z.to_nat (n - zlen (b_data b))) junk)) (b_dptr b) n (b_fill b))
  else Some (0, b).

(** [*dptr++ = c], for one character or several. *)
Definition store (s : list Z) : W unit := fun b =>
  data ← zwrite (b_data b) (b_dptr b) s; Some ((), Buffer data (b_dptr b + zlen s) (b_size b) (b_fill b)).
Definition terminate : W unit := fun b =>
  data ← zset (b_data b) (b_dptr b) 0; Some ((), Buffer data (b_dptr b) (b_size b) (b_fill b)).
Definition add_fill (n : Z) : W unit := fun b => Some ((), Buffer (b_data b) (b_dptr b) (b_size b) (u32 (b_fill b + n))).

Definition buf_putchar (c : Z) : W Z := fun b =>
  (r ← (if b_size b <=? u32 (b_fill b + 1) then buf_grow 0 else mret 1);
   if r =? 0 then mret 0
   else _ ← store [c]; _ ← terminate; _ ← add_fill 1; mret 1) b.

Definition buf_append (s : list Z) : W Z := fun b =>
  (r ← (if b_size b <=? u32 (b_fill b + zlen s + 1) then buf_grow (zlen s + 1) else mret 1);
   if r =? 0 then mret 0
   else _ ← store s; _ ← add_fill (zlen s); _ ← terminate; mret (zlen s)) b.

Definition buf_length (b : template_buffer) : Z := b_fill b.
Definition buf_destroy (b : template_buffer) : list Z := b_data b.

(** ** UTF-8 *)

Definition mb_num_chars (c : Z) : Z :=
  if Z.land c 0xE0 =? 0xC0 then 2
  else if Z.land c 0xF0 =? 0xE0 then 3
  else if Z.land c 0xF8 =? 0xF0 then 4
  else if Z.land c 0xFC =? 0xF8 then 5
  else if Z.land c 0xFE =? 0xFC then 6
  else 1.

Definition mb_is_cont (c : Z) : bool := (0x80 <=? c) && (c <=? 0xBF).

(** [*(s + i) >> k == x]; the sequence is inside the string. *)
Definition top (s : list Z) (i : nat) (k x : Z) : bool := Z.shiftr (default 0 (s !! i)) k =? x.

Definition mb_is_shortest (s : list Z) (n : Z) : bool :=
  if n =? 2 then negb (top s 0 1 0x60 && top s 1 6 2)
  else if n =? 3 then negb (top s 0 0 0xE0 && top s 1 5 4 && top s 2 6 2)
  else if n =? 4 then negb (top s 0 0 0xF0 && top s 1 4 8 && top s 2 6 2 && top s 3 6 2)
  else if n =? 5 then negb (top s 0 0 0xF8 && top s 1 3 0x10 && top s 2 6 2 && top s 3 6 2 && top s 4 6 2)
  else if n =? 6 then negb (top s 0 0 0xF8 && top s 1 2 0x20 && top s 2 6 2 && top s 3 6 2 && top s 4 6 2 && top s 5 6 2)
  else true.

Definition byte_in (s : list Z) (i : nat) (lo hi : Z) : bool := (lo <=? default 0 (s !! i)) && (default 0 (s !! i) <=? hi).

Definition mb_is_surrogate (s : list Z) (n : Z) : bool := (n =? 3) && byte_in s 0 0xED 0xED && byte_in s 1 0xA0 0xBF.

Definition mb_is_illegal (s : list Z) (n : Z) : bool :=
  (n =? 3) && byte_in s 0 0xEF 0xEF && byte_in s 1 0xBF 0xBF && byte_in s 2 0xBE 0xBF.

(** Continuation bytes at the front of [s], [k] at most. *)
Fixpoint conts (k : nat) (s : list Z) : Z :=
  match k, s with
  | S k, c :: s => if mb_is_cont c then 1 + conts k s else 0
  | _, _ => 0
  end.

(** [_validate_utf8 (&ptr, l, buf)] with the [l] bytes at [ptr]: how many it takes, 0 when the
    buffer is full. *)
Definition validate_utf8 (s : list Z) : W Z :=
  match s with
  | [] => mret 0
  | c :: rest =>
      if (1 <=? c) && (c <=? 0x7F) then r ← buf_putchar c; mret (if r =? 0 then 0 else 1)
      else
        let n := mb_num_chars c in
        if 1 <? n then
          let v := 1 + conts (Z.to_nat n) rest in
          r ← (if (n =? 5) || (n =? 6) then buf_putchar 63
               else if (v =? n) && mb_is_shortest s n && negb (mb_is_surrogate s n) && negb (mb_is_illegal s n)
               then buf_append (take (Z.to_nat n) s)
               else buf_putchar 63);
          mret (if r =? 0 then 0 else v)
        else r ← buf_putchar 63; mret (if r =? 0 then 0 else 1)
  end.

(** The loop of [utf8]: every round takes a byte at least. *)
Fixpoint utf8_loop (fuel : nat) (s : list Z) : W unit :=
  match fuel, s with
  | S fuel, c :: rest =>
      if (1 <=? c) && (c <=? 0x7F) then
        r ← buf_putchar c;
        if r =? 0 then mret () else utf8_loop fuel rest
      else
        v ← validate_utf8 s;
        if v =? 0 then mret () else utf8_loop fuel (drop (Z.to_nat v) s)
  | _, _ => mret ()
  end.

(** A function that fills a buffer and gives out its string; [Some None] is [NULL]. *)
Definition with_buffer (l : Z) (m : W unit) : option (option (list Z)) :=
  match buf_init (s32 l) with
  | None => Some None
  | Some b => '(_, b) ← m b; Some <$> cstr (buf_destroy b)
  end.

Definition utf8 (s : list Z) : option (option (list Z)) := with_buffer (zlen s) (utf8_loop (length s) s).

(** ** XML *)

(** [snprintf (esq, sizeof(esq), "&#%i;", c)] for two digits. *)
Definition entity (c : Z) : list Z := [38; 35; 48 + c / 10; 48 + c mod 10; 59].

Definition is_markup (c : Z) : bool := (c =? 0x26) || (c =? 0x27) || (c =? 0x22) || (c =? 0x3C) || (c =? 0x3E).

Definition xml_invalid (c : Z) : bool :=
  ((0 <=? c) && (c <=? 8)) || ((0x0B <=? c) && (c <=? 0x0C)) || ((0x0E <=? c) && (c <=? 0x1F)) || (c =? 0x7F).

Fixpoint pcdata_loop (fuel : nat) (s : list Z) : W unit :=
  match fuel, s with
  | S fuel, c :: rest =>
      if xml_invalid c then pcdata_loop fuel rest
      else if is_markup c then
        r ← buf_append (entity c);
        if r =? 0 then mret () else pcdata_loop fuel rest
      else if c <=? 0x7F then
        _ ← buf_putchar c; pcdata_loop fuel rest
      else
        v ← validate_utf8 s;
        if v =? 0 then mret () else pcdata_loop fuel (drop (Z.to_nat v) s)
  | _, _ => mret ()
  end.

Definition pcdata (s : list Z) : option (option (list Z)) := with_buffer (zlen s) (pcdata_loop (length s) s).

Definition is_alpha (c : Z) : bool := ((65 <=? c) && (c <=? 90)) || ((97 <=? c) && (c <=? 122)).

(** What follows the first [>], if there is one. *)
Fixpoint after_gt (s : list Z) : option (list Z) :=
  match s with
  | [] => None
  | c :: s => if c =? 62 then Some s else after_gt s
  end.

Fixpoint striptags_loop (fuel : nat) (prev : Z) (s : list Z) : W unit :=
  match fuel, s with
  | S fuel, c :: rest =>
      if (c =? 60) && match rest with d :: _ :: _ => (d =? 47) || is_alpha d | _ => false end then
        match after_gt s with
        | Some rest => _ ← (if is_space prev then mret 0 else buf_putchar 32); striptags_loop fuel 32 rest
        | None => striptags_loop fuel prev rest
        end
      else if is_space c then
        _ ← (if is_space prev then mret 0 else buf_putchar c); striptags_loop fuel c rest
      else
        _ ← (if is_markup c then buf_append (entity c) else buf_putchar c); striptags_loop fuel c rest
  | _, _ => mret ()
  end.

(** The result of [buf_init] is not checked. *)
Definition striptags (s : list Z) : option (list Z) :=
  b ← buf_init (s32 (zlen s));
  '(_, b) ← striptags_loop (length s) 32 s b; cstr (buf_destroy b).

(** ** Lua strings *)

(** One round of [luastr_escape]; [*ptr] is a plain [char]. *)
Definition escape_char (escape_xml : bool) (c : Z) : W Z :=
  if c =? 92 then buf_append [92; 92]
  else if c =? 34 then buf_append (if escape_xml then entity 34 else [92; 34])
  else if c =? 10 then buf_append [92; 110]
  else if is_markup c && escape_xml then buf_append (entity c)
  else buf_putchar c.

Fixpoint luastr_escape (s : list Z) (escape_xml : bool) : W unit :=
  match s with
  | [] => mret ()
  | c :: s => _ ← escape_char escape_xml c; luastr_escape s escape_xml
  end.

(** [luastr_translate]; [lookup] is what [lmo_translate] finds. *)
Definition luastr_translate (lookup : list Z -> option (list Z)) (s : list Z) (escape_xml : bool) : W unit :=
  luastr_escape (default s (lookup s)) escape_xml.
End text.
