(* ===== verification/LuciTextSpec.v ===== *)
(** What the text functions of the web interface give out: UTF-8, text without markup, Lua
    strings. *)

From stdpp Require Import gmap.
From S2P Require Import Prelude Libc LuciText.

(** ** The buffer as a string *)

Section buffer.
Context (can_alloc : Z -> bool) (junk : Z).
Context (Hmem : forall n, 0 < n < 2 ^ 31 -> can_alloc n = true).
#[local] Abbreviation buf_putchar := (buf_putchar can_alloc junk).
#[local] Abbreviation buf_append := (buf_append can_alloc junk).
#[local] Abbreviation buf_grow := (buf_grow can_alloc junk).

(** A buffer with the text [t], the NUL behind it, and no more room than [cap] and the text
    account for. *)
Definition rep (cap : Z) (b : template_buffer) (t : list Z) : Prop :=
  exists tl, b = Buffer (t ++ 0 :: tl) (zlen t) (zlen (t ++ 0 :: tl)) (zlen t) /\ zlen (t ++ 0 :: tl) <= cap + 2 * zlen t + 1026.

(** [m] returns [a] and appends [out]. *)
Definition emits {A} (m : W A) (a : A) (out : list Z) : Prop := forall cap b t,
  rep cap b t -> 0 <= cap -> cap + 2 * (zlen t + zlen out) + 4000 < 2 ^ 31 -> exists b', m b = Some (a, b') /\ rep cap b' (t ++ out).

Lemma emits_ret {A} (a : A) : emits (mret a) a [].
Proof. intros cap b t Hr _ _. exists b. by rewrite app_nil_r. Qed.

Lemma emits_bind {A B} (m : W A) (k : A -> W B) a r o1 o2 : emits m a o1 -> emits (k a) r o2 -> emits (m ≫= k) r (o1 ++ o2).
Proof.
  intros Hm Hk cap b t Hr Hc Hl. rewrite length_app in Hl. destruct (Hm cap b t Hr Hc) as (b1 & H1 & Hr1); [lia|].
  destruct (Hk cap b1 (t ++ o1) Hr1 Hc) as (b2 & H2 & Hr2); [rewrite length_app; lia|]. exists b2.
  unfold mbind, W_bind. rewrite H1, app_assoc. done.
Qed.

(** Making room for [n] more characters. *)
Lemma grow_rep cap tl t n : let size := zlen (t ++ 0 :: tl) in
  0 <= n -> 0 <= cap -> size <= cap + 2 * zlen t + 1026 -> cap + 2 * (zlen t + n) + 3000 < 2 ^ 31 ->
  exists tl', buf_grow n (Buffer (t ++ 0 :: tl) (zlen t) size (zlen t)) =
    Some (zlen (t ++ 0 :: tl'), Buffer (t ++ 0 :: tl') (zlen t) (zlen (t ++ 0 :: tl')) (zlen t)) /\
    zlen (t ++ 0 :: tl') = size + (if n <=? 0 then 1024 else n).
Proof.
  intros size Hn Hc Hs Hl. set (k := if n <=? 0 then 1024 else n). assert (0 < k <= n + 1024) as Hk by (unfold k; destruct (Z.leb_spec n 0); lia).
  assert (0 < size) as H0 by (unfold size; rewrite length_app; cbn [length]; lia).
  exists (tl ++ replicate (Z.to_nat k) junk).
  assert (zlen (t ++ 0 :: tl ++ replicate (Z.to_nat k) junk) = size + k) as Hlen
    by (unfold size; rewrite !length_app; cbn [length]; rewrite length_app, length_replicate; lia).
  split; [|exact Hlen]. unfold LuciText.buf_grow. cbn [b_size b_data b_dptr b_fill]. fold k. rewrite u32_id by width.
  rewrite Hmem, s32_id by lia. fold size. replace (size + k - size) with k by lia. rewrite Hlen. do 3 f_equal.
  rewrite take_ge by (rewrite length_app, length_replicate; fold size; lia). by rewrite <- app_assoc.
Qed.

Lemma store_spec s t free z f : (length s <= length free)%nat ->
  store s (Buffer (t ++ free) (zlen t) z f) = Some ((), Buffer ((t ++ s) ++ drop (length s) free) (zlen (t ++ s)) z f).
Proof.
  intros Hl. unfold store. cbn [b_data b_dptr b_size b_fill]. rewrite zwrite_app_r by done. cbn [mbind option_bind].
  rewrite app_assoc, length_app. by rewrite Nat2Z.inj_add.
Qed.

Lemma terminate_spec t free z f : (0 < length free)%nat ->
  terminate (Buffer (t ++ free) (zlen t) z f) = Some ((), Buffer (t ++ 0 :: drop 1 free) (zlen t) z f).
Proof. intros Hl. unfold terminate. cbn [b_data b_dptr b_size b_fill]. by rewrite zset_app_r. Qed.

(** Room for [s] and the NUL. *)
Lemma room_rep cap b t n g : rep cap b t -> 0 <= cap -> 0 < n -> cap + 2 * (zlen t + n) + 3900 < 2 ^ 31 -> (n <= g \/ n = 1 /\ g <= 0) -> 0 <= g <= n + 1 ->
  exists r tl, (if b_size b <=? u32 (b_fill b + n) then buf_grow g else mret 1) b =
      Some (r, Buffer (t ++ 0 :: tl) (zlen t) (zlen (t ++ 0 :: tl)) (zlen t)) /\ r <> 0 /\
    n <= zlen tl /\ zlen (t ++ 0 :: tl) <= cap + 2 * (zlen t + n - 1) + 1026.
Proof.
  intros (tl & -> & Hcap) Hc Hn Hl Hg Hg'. cbn [b_size b_fill]. rewrite u32_id by width.
  assert (zlen (t ++ 0 :: tl) = zlen t + 1 + zlen tl) as Hlen by (rewrite length_app; cbn [length]; lia).
  destruct (Z.leb_spec (zlen (t ++ 0 :: tl)) (zlen t + n)) as [Hle|Hgt].
  - destruct (grow_rep cap tl t g) as (tl' & -> & Hs'); [lia|lia|lia|lia|].
    assert (zlen (t ++ 0 :: tl') = zlen t + 1 + zlen tl') as Hlen' by (rewrite length_app; cbn [length]; lia).
    exists (zlen (t ++ 0 :: tl')), tl'. split; [done|]. destruct (Z.leb_spec g 0); lia.
  - exists 1, tl. split; [done|]. lia.
Qed.

Lemma emits_putchar c : emits (buf_putchar c) 1 [c].
Proof.
  intros cap b t Hr Hc Hl. cbn [length] in Hl. destruct (room_rep cap b t 1 0 Hr Hc) as (r & tl & Hg & Hr0 & Htl & Hcap); [lia|lia|lia|lia|].
  unfold LuciText.buf_putchar. unfold mbind at 1, W_bind at 1. rewrite Hg, (proj2 (Z.eqb_neq r 0)) by done.
  unfold mbind, W_bind. rewrite store_spec by (cbn [length]; lia). rewrite terminate_spec by (rewrite length_drop; cbn [length]; lia).
  cbn [length drop]. unfold add_fill, mret, W_ret. cbn [b_data b_dptr b_size b_fill]. rewrite u32_id by width.
  eexists. split; [reflexivity|]. exists (drop 1 tl). rewrite !length_app in *. cbn [length] in *. rewrite length_drop.
  split; [|lia]. f_equal; lia.
Qed.

Lemma emits_append s : s <> [] -> emits (buf_append s) (zlen s) s.
Proof.
  intros Hne cap b t Hr Hc Hl. assert (0 < zlen s) as Hs by (destruct s; [done|cbn [length]; lia]).
  destruct (room_rep cap b t (zlen s + 1) (zlen s + 1) Hr Hc) as (r & tl & Hg & Hr0 & Htl & Hcap); [lia|lia|lia|lia|].
  unfold LuciText.buf_append. unfold mbind at 1, W_bind at 1. rewrite <- Z.add_assoc, Hg, (proj2 (Z.eqb_neq r 0)) by done.
  unfold mbind, W_bind. rewrite store_spec by (cbn [length]; lia). unfold add_fill. cbn [b_data b_dptr b_size b_fill].
  rewrite terminate_spec by (rewrite length_drop; cbn [length]; lia). unfold mret, W_ret. rewrite u32_id by width.
  eexists. split; [reflexivity|]. exists (drop (length s) tl). rewrite drop_drop, Nat.add_1_r. cbn [drop].
  rewrite !length_app in *. cbn [length] in *. rewrite length_drop. split; [|lia]. f_equal; lia.
Qed.

(** From an empty buffer to the string that is given out. *)
Lemma init_rep l : 0 <= l < 2 ^ 31 -> exists b, buf_init can_alloc junk (s32 l) = Some b /\ rep (Z.max 1024 l) b [].
Proof.
  intros Hl. rewrite s32_id by lia. unfold buf_init. set (size := if l <=? 0 then 1024 else l).
  assert (0 < size <= Z.max 1024 l) as Hs by (unfold size; destruct (Z.leb_spec l 0); lia). rewrite !Hmem by lia. cbn [andb].
  eexists. split; [reflexivity|]. exists (replicate (Z.to_nat (size - 1)) junk). cbn [app length]. rewrite length_replicate.
  split; [|lia]. f_equal; lia.
Qed.

Lemma cstr_app_nz t tl : Forall (fun c => c <> 0) t -> cstr (t ++ 0 :: tl) = Some t.
Proof. induction 1 as [|c t Hc _ IH]; [done|]. cbn [app cstr]. by rewrite (proj2 (Z.eqb_neq c 0)), IH by done. Qed.

Lemma with_buffer_emits l m out : 0 <= l -> emits m () out -> Forall (fun c => c <> 0) out -> l + 2 * zlen out + 6000 < 2 ^ 31 ->
  with_buffer can_alloc junk l m = Some (Some out).
Proof.
  intros Hl Hm Hnz Hlen. unfold with_buffer. destruct (init_rep l) as (b & -> & Hr); [lia|].
  destruct (Hm _ _ _ Hr) as (b' & -> & tl & -> & _); [lia|cbn [length]; lia|]. cbn [mbind option_bind buf_destroy b_data app]. by rewrite cstr_app_nz.
Qed.
End buffer.

(** ** Code points *)

(** The UTF-8 encoding of a code point of up to 21 bits. *)
Definition encode (cp : Z) : list Z :=
  if cp <? 0x80 then [cp]
  else if cp <? 0x800 then [0xC0 + cp / 64; 0x80 + cp mod 64]
  else if cp <? 0x10000 then [0xE0 + cp / 4096; 0x80 + cp / 64 mod 64; 0x80 + cp mod 64]
  else [0xF0 + cp / 262144; 0x80 + cp / 4096 mod 64; 0x80 + cp / 64 mod 64; 0x80 + cp mod 64].

(** What [_validate_utf8] lets through: not NUL, surrogates and the two noncharacters at the end of
    the first plane, but all that four bytes can hold; code points end at 0x10FFFF. *)
Definition legal (cp : Z) : Prop := 0 < cp < 0x200000 /\ ~ 0xD800 <= cp <= 0xDFFF /\ cp <> 0xFFFE /\ cp <> 0xFFFF.

Definition unicode (cp : Z) : Prop := legal cp /\ cp <= 0x10FFFF.

Definition text (cps : list Z) : list Z := concat (encode <$> cps).

(** A lead byte and a continuation byte that start a value above the code points. *)
Definition big_start (a b : Z) : Prop := 0xF5 <= a < 0xF8 /\ 0x80 <= b < 0xC0 \/ a = 0xF4 /\ 0x90 <= b < 0xC0.
Definition beyond (s : list Z) : Prop := exists pre a b post, s = pre ++ a :: b :: post /\ big_start a b.

Lemma num_chars_spec c : is_byte c -> mb_num_chars c =
  if c <? 0xC0 then 1 else if c <? 0xE0 then 2 else if c <? 0xF0 then 3 else if c <? 0xF8 then 4 else if c <? 0xFC then 5 else if c <? 0xFE then 6 else 1.
Proof.
  intros Hc. apply Z.eqb_eq. revert c Hc. apply byte_forall. vm_compute. reflexivity.
Qed.

Definition cont (c : Z) : Prop := 0x80 <= c <= 0xBF.

Lemma is_cont_spec c : mb_is_cont c = true <-> cont c.
Proof. unfold mb_is_cont, cont. rewrite andb_true_iff, !Z.leb_le. done. Qed.

(** Text that does not go on with a continuation byte. *)
Definition ended (s : list Z) : Prop := match s with c :: _ => ~ cont c | [] => True end.

Lemma conts_range k s : 0 <= conts k s <= Z.min (Z.of_nat k) (zlen s).
Proof.
  revert s. induction k as [|k IH]; intros [|c s]; cbn [conts length]; try lia. destruct (mb_is_cont c); [|lia]. specialize (IH s). lia.
Qed.

Lemma conts_exact k : forall s, conts (S k) s = Z.of_nat k ->
  exists xs tl, s = xs ++ tl /\ length xs = k /\ Forall cont xs /\ ended tl.
Proof.
  induction k as [|k IH]; intros s Hs.
  - exists [], s. destruct s as [|c s]; [done|]. cbn [conts] in Hs. destruct (mb_is_cont c) eqn:E; [pose proof (conts_range 0 s); cbn [conts] in *; lia|].
    split_and!; try done. intros Hc%is_cont_spec. congruence.
  - destruct s as [|c s]; [cbn [conts] in Hs; lia|]. change (conts (S (S k)) (c :: s)) with (if mb_is_cont c then 1 + conts (S k) s else 0) in Hs.
    destruct (mb_is_cont c) eqn:E; [|lia]. destruct (IH s) as (xs & tl & -> & Hl & Hx & He); [lia|].
    exists (c :: xs), tl. split_and!; try done; [cbn [length]; lia|]. constructor; [by apply is_cont_spec|done].
Qed.

Lemma conts_app k xs tl : length xs = k -> Forall cont xs -> ended tl -> conts (S k) (xs ++ tl) = Z.of_nat k.
Proof.
  revert xs. induction k as [|k IH]; intros [|x xs] Hl Hx He; try done.
  - destruct tl as [|c tl]; [done|]. cbn [app conts]. destruct (mb_is_cont c) eqn:E; [|done]. by apply is_cont_spec in E.
  - apply Forall_cons in Hx as [Hx Hxs]. change (conts (S (S k)) ((x :: xs) ++ tl)) with (if mb_is_cont x then 1 + conts (S k) (xs ++ tl) else 0).
    rewrite (proj2 (is_cont_spec x)) by done. rewrite IH by (done || cbn [length] in Hl; lia). lia.
Qed.

(** *** Sequences *)

(** The tests on a sequence of [n] bytes. *)
Definition seq_ok (s : list Z) (n : Z) : bool := mb_is_shortest s n && negb (mb_is_surrogate s n) && negb (mb_is_illegal s n).

(** The tests as inequalities between bytes. *)
Lemma seq_ok2 c a tl : cont a -> seq_ok (c :: a :: tl) 2 = true <-> ~ 0xC0 <= c < 0xC2.
Proof.
  intros Ha. unfold cont in Ha. assert (a / 64 = 2) as H1 by (Z.div_mod_to_equations; lia). assert (c / 2 = 96 <-> 0xC0 <= c < 0xC2) as H2 by (Z.div_mod_to_equations; lia).
  unfold seq_ok, mb_is_shortest, mb_is_surrogate, mb_is_illegal, top. cbn [Z.eqb Pos.eqb lookup list_lookup default from_option id andb negb].
  rewrite !Z.shiftr_div_pow2 by lia. change (2 ^ 1) with 2. change (2 ^ 6) with 64.
  rewrite H1, !andb_true_r, negb_true_iff, Z.eqb_neq. lia.
Qed.

Lemma seq_ok3 c a b tl : cont a -> cont b -> seq_ok (c :: a :: b :: tl) 3 = true <->
  ~ (c = 0xE0 /\ a < 0xA0) /\ ~ (c = 0xED /\ 0xA0 <= a) /\ ~ (c = 0xEF /\ a = 0xBF /\ 0xBE <= b).
Proof.
  intros Ha Hb. unfold cont in Ha, Hb. assert (b / 64 = 2) as H1 by (Z.div_mod_to_equations; lia). assert (a / 32 = 4 <-> a < 0xA0) as H2 by (Z.div_mod_to_equations; lia).
  unfold seq_ok, mb_is_shortest, mb_is_surrogate, mb_is_illegal, byte_in, top. cbn [Z.eqb Pos.eqb lookup list_lookup default from_option id].
  rewrite !Z.shiftr_div_pow2 by lia. change (2 ^ 0) with 1. change (2 ^ 5) with 32. change (2 ^ 6) with 64.
  rewrite H1, Z.div_1_r, !andb_true_iff, !negb_true_iff, !andb_false_iff, !Z.eqb_neq, !Z.leb_gt. lia.
Qed.

Lemma seq_ok4 c a b d tl : cont a -> cont b -> cont d -> seq_ok (c :: a :: b :: d :: tl) 4 = true <-> ~ (c = 0xF0 /\ a < 0x90).
Proof.
  intros Ha Hb Hd. unfold cont in Ha, Hb, Hd. assert (b / 64 = 2) as H1 by (Z.div_mod_to_equations; lia). assert (d / 64 = 2) as H3 by (Z.div_mod_to_equations; lia).
  assert (a / 16 = 8 <-> a < 0x90) as H2 by (Z.div_mod_to_equations; lia).
  unfold seq_ok, mb_is_shortest, mb_is_surrogate, mb_is_illegal, top. cbn [Z.eqb Pos.eqb lookup list_lookup default from_option id andb negb].
  rewrite !Z.shiftr_div_pow2 by lia. change (2 ^ 0) with 1. change (2 ^ 4) with 16. change (2 ^ 6) with 64.
  rewrite H1, H3, Z.div_1_r, !andb_true_r, negb_true_iff, andb_false_iff, !Z.eqb_neq. lia.
Qed.

Lemma encode2 cp : 0x80 <= cp < 0x800 -> encode cp = [0xC0 + cp / 64; 0x80 + cp mod 64].
Proof. intros H. unfold encode. rewrite (proj2 (Z.ltb_ge _ _)), (proj2 (Z.ltb_lt _ _)) by lia. done. Qed.
Lemma encode3 cp : 0x800 <= cp < 0x10000 -> encode cp = [0xE0 + cp / 4096; 0x80 + cp / 64 mod 64; 0x80 + cp mod 64].
Proof. intros H. unfold encode. rewrite !(proj2 (Z.ltb_ge _ _)), (proj2 (Z.ltb_lt _ _)) by lia. done. Qed.
Lemma encode4 cp : 0x10000 <= cp ->
  encode cp = [0xF0 + cp / 262144; 0x80 + cp / 4096 mod 64; 0x80 + cp / 64 mod 64; 0x80 + cp mod 64].
Proof. intros H. unfold encode. by rewrite !(proj2 (Z.ltb_ge _ _)) by lia. Qed.

(** The parts of a code point of two, three and four bytes. *)
Lemma parts2 h l : 0 <= l < 64 -> (64 * h + l) / 64 = h /\ (64 * h + l) mod 64 = l.
Proof. intros Hl. Z.div_mod_to_equations; lia. Qed.
Lemma parts3 h m l : 0 <= m < 64 -> 0 <= l < 64 -> let cp := 4096 * h + 64 * m + l in cp / 4096 = h /\ cp / 64 mod 64 = m /\ cp mod 64 = l.
Proof.
  intros Hm Hl cp. assert (cp = 64 * (64 * h + m) + l) as E by (unfold cp; lia). destruct (parts2 (64 * h + m) l Hl) as [E1 E2], (parts2 h m Hm) as [E3 E4].
  rewrite <- E in E1, E2. change 4096 with (64 * 64). rewrite <- Z.div_div by lia. by rewrite E1, E3, E4.
Qed.
Lemma parts4 h m l k : 0 <= m < 64 -> 0 <= l < 64 -> 0 <= k < 64 -> let cp := 262144 * h + 4096 * m + 64 * l + k in
  cp / 262144 = h /\ cp / 4096 mod 64 = m /\ cp / 64 mod 64 = l /\ cp mod 64 = k.
Proof.
  intros Hm Hl Hk cp. assert (cp = 64 * (4096 * h + 64 * m + l) + k) as E by (unfold cp; lia).
  destruct (parts2 (4096 * h + 64 * m + l) k Hk) as [E1 E2], (parts3 h m l Hm Hl) as (E3 & E4 & E5). rewrite <- E in E1, E2.
  change 262144 with (64 * 4096). change 4096 with (64 * 64) at 2. rewrite <- !Z.div_div, E1 by lia. by rewrite E3, E4, E5.
Qed.

Lemma seq2 c a tl : 0xC0 <= c < 0xE0 -> cont a -> seq_ok (c :: a :: tl) 2 = true ->
  exists cp, legal cp /\ 0x80 <= cp /\ encode cp = [c; a].
Proof.
  intros Hc Ha Hok%seq_ok2; [|done]. unfold cont in Ha. exists (64 * (c - 0xC0) + (a - 0x80)). destruct (parts2 (c - 0xC0) (a - 0x80)) as [E1 E2]; [lia|].
  split; [unfold legal; lia|]. split; [lia|]. rewrite encode2, E1, E2 by lia. repeat f_equal; lia.
Qed.

Lemma seq3 c a b tl : 0xE0 <= c < 0xF0 -> cont a -> cont b -> seq_ok (c :: a :: b :: tl) 3 = true ->
  exists cp, legal cp /\ 0x80 <= cp /\ encode cp = [c; a; b].
Proof.
  intros Hc Ha Hb Hok%seq_ok3; [|done..]. unfold cont in Ha, Hb. exists (4096 * (c - 0xE0) + 64 * (a - 0x80) + (b - 0x80)).
  destruct (parts3 (c - 0xE0) (a - 0x80) (b - 0x80)) as (E1 & E2 & E3); [lia|lia|].
  split; [unfold legal; lia|]. split; [lia|]. rewrite encode3, E1, E2, E3 by lia. repeat f_equal; lia.
Qed.

Lemma seq4 c a b d tl : 0xF0 <= c < 0xF8 -> cont a -> cont b -> cont d -> seq_ok (c :: a :: b :: d :: tl) 4 = true ->
  exists cp, legal cp /\ 0x80 <= cp /\ encode cp = [c; a; b; d].
Proof.
  intros Hc Ha Hb Hd Hok%seq_ok4; [|done..]. unfold cont in Ha, Hb, Hd. exists (262144 * (c - 0xF0) + 4096 * (a - 0x80) + 64 * (b - 0x80) + (d - 0x80)).
  destruct (parts4 (c - 0xF0) (a - 0x80) (b - 0x80) (d - 0x80)) as (E1 & E2 & E3 & E4); [lia|lia|lia|].
  split; [unfold legal; lia|]. split; [lia|]. rewrite encode4, E1, E2, E3, E4 by lia. repeat f_equal; lia.
Qed.

(** The encoding of a legal code point of more than one byte: a lead byte, continuation bytes,
    and the tests hold. *)
Lemma encode_multi cp : legal cp -> 0x80 <= cp -> exists c xs n,
  encode cp = c :: xs /\ (n = 2 /\ 0xC0 <= c < 0xE0 \/ n = 3 /\ 0xE0 <= c < 0xF0 \/ n = 4 /\ 0xF0 <= c < 0xF8) /\ zlen (encode cp) = n /\ Forall cont xs /\
  forall tl, seq_ok ((c :: xs) ++ tl) n = true.
Proof.
  intros (Hr & Hs & H1 & H2) Hm. unfold cont. destruct (decide (cp < 0x800)) as [H|H].
  - set (h := cp / 64). set (l := cp mod 64). assert (cp = 64 * h + l /\ 0 <= l < 64) as [Ecp Hl] by (unfold h, l; Z.div_mod_to_equations; lia).
    rewrite encode2 by lia. fold h l. eexists _, _, 2. split; [done|]. split; [lia|]. split; [done|]. split; [repeat constructor; lia|].
    intros tl. apply seq_ok2; unfold cont; lia.
  - destruct (decide (cp < 0x10000)) as [H'|H'].
    + set (h := cp / 4096). set (m := cp / 64 mod 64). set (l := cp mod 64).
      assert (cp = 4096 * h + 64 * m + l /\ 0 <= m < 64 /\ 0 <= l < 64) as (Ecp & Hm' & Hl) by (unfold h, m, l; Z.div_mod_to_equations; lia).
      rewrite encode3 by lia. fold h m l. eexists _, _, 3. split; [done|]. split; [lia|]. split; [done|]. split; [repeat constructor; lia|].
      intros tl. apply seq_ok3; unfold cont; lia.
    + set (h := cp / 262144). set (m := cp / 4096 mod 64). set (l := cp / 64 mod 64). set (k := cp mod 64).
      assert (cp = 262144 * h + 4096 * m + 64 * l + k /\ 0 <= m < 64 /\ 0 <= l < 64 /\ 0 <= k < 64) as (Ecp & Hm' & Hl & Hk)
        by (unfold h, m, l, k; Z.div_mod_to_equations; lia).
      rewrite encode4 by lia. fold h m l k. eexists _, _, 4. split; [done|]. split; [lia|]. split; [done|]. split; [repeat constructor; lia|].
      intros tl. apply seq_ok4; unfold cont; lia.
Qed.

Lemma encode_big cp : legal cp -> 0x10FFFF < cp -> exists a b xs, encode cp = a :: b :: xs /\ big_start a b.
Proof.
  intros (Hr & _) Hb. rewrite encode4 by lia. eexists _, _, _. split; [done|]. unfold big_start. Z.div_mod_to_equations. lia.
Qed.

(** ** One step of the sanitizer *)

(** What [_validate_utf8] appends, and how many bytes it takes. *)
Definition unit_out (s : list Z) : list Z * Z :=
  match s with
  | [] => ([], 0)
  | c :: rest =>
      if (1 <=? c) && (c <=? 0x7F) then ([c], 1)
      else
        let n := mb_num_chars c in
        if 1 <? n then
          let v := 1 + conts (Z.to_nat n) rest in
          (if (n <=? 4) && (v =? n) && seq_ok s n then take (Z.to_nat n) s else [63], v)
        else ([63], 1)
  end.

(** It takes a byte at least, gives out the encoding of one code point, and of the ASCII
    characters only the one that is there or a question mark. *)
Lemma unit_spec c rest : is_byte c -> Forall is_byte rest ->
  exists cp, (unit_out (c :: rest)).1 = encode cp /\ legal cp /\ 1 <= (unit_out (c :: rest)).2 <= zlen (c :: rest) /\
    (0x80 <= cp \/ cp = 63 \/ cp = c /\ 1 <= c < 0x80) /\ (unicode cp \/ beyond (c :: rest)).
Proof.
  intros Hc Hr. assert (unicode 63) as H63u by (unfold unicode, legal; lia). unfold unit_out. cbn [length]. assert (legal 63) as H63 by (unfold legal; lia).
  destruct ((1 <=? c) && (c <=? 127)) eqn:Ha.
  { apply andb_true_iff in Ha as [H1%Z.leb_le H2%Z.leb_le]. exists c. cbn [fst snd]. unfold encode. rewrite (proj2 (Z.ltb_lt c 128)) by lia.
    split; [done|]. split; [unfold legal; lia|]. split; [lia|]. split; [lia|]. left. unfold unicode, legal. lia. }
  set (n := mb_num_chars c). pose proof (num_chars_spec c Hc) as Hn. fold n in Hn.
  destruct (Z.ltb_spec 1 n) as [Hn1|Hn1]; [|exists 63; cbn [fst snd]; split_and!; try done; try lia; auto].
  pose proof (conts_range (Z.to_nat n) rest) as Hv. cbn [fst snd].
  destruct ((n <=? 4) && (1 + conts (Z.to_nat n) rest =? n) && seq_ok (c :: rest) n) eqn:Hok; [|exists 63; split_and!; try done; try lia; auto].
  apply andb_true_iff in Hok as [[H4%Z.leb_le Hvn%Z.eqb_eq]%andb_true_iff Hok].
  destruct (conts_exact (Z.to_nat n - 1) rest) as (xs & tl & -> & Hl & Hx & _); [replace (S (Z.to_nat n - 1)) with (Z.to_nat n) by lia; lia|].
  assert (take (Z.to_nat n) (c :: xs ++ tl) = c :: xs) as ->.
  { replace (Z.to_nat n) with (S (length xs)) by lia. cbn [take]. by rewrite take_app_length. }
  assert (n = 2 /\ 0xC0 <= c < 0xE0 \/ n = 3 /\ 0xE0 <= c < 0xF0 \/ n = 4 /\ 0xF0 <= c < 0xF8) as Hcase.
  { clear -Hn Hn1 H4. repeat match type of Hn with context [c <? ?y] => destruct (Z.ltb_spec c y) end; lia. }
  assert (exists cp, legal cp /\ 0x80 <= cp /\ encode cp = c :: xs) as (cp & Hleg & Hge & Henc).
  { destruct Hcase as [[E Hr2]|[[E Hr3]|[E Hr4]]]; rewrite E in Hl, Hok.
    - destruct xs as [|a [|]]; try done. apply Forall_cons in Hx as [Ha' _]. by apply (seq2 c a tl).
    - destruct xs as [|a [|b [|]]]; try done. apply Forall_cons in Hx as [Ha' [Hb' _]%Forall_cons]. by apply (seq3 c a b tl).
    - destruct xs as [|a [|b [|d [|]]]]; try done. apply Forall_cons in Hx as [Ha' [Hb' [Hd' _]%Forall_cons]%Forall_cons]. by apply (seq4 c a b d tl). }
  exists cp. split; [done|]. split; [done|]. split; [lia|]. split; [lia|]. destruct (decide (cp <= 0x10FFFF)) as [|Hbig]; [by left|right].
  destruct (encode_big cp Hleg) as (a & b & ys & Eb & Hs); [lia|]. rewrite Henc in Eb. injection Eb as -> ->. by exists [], a, b, (ys ++ tl).
Qed.

(** The encoding of a legal code point is taken as it is. *)
Lemma unit_encode cp rest : legal cp -> ended rest -> unit_out (encode cp ++ rest) = (encode cp, zlen (encode cp)).
Proof.
  intros Hleg He. destruct (decide (cp < 0x80)) as [Hs|Hm].
  { unfold encode. rewrite (proj2 (Z.ltb_lt _ _)) by lia. cbn [app unit_out length]. destruct Hleg as [? _].
    by rewrite (proj2 (Z.leb_le 1 cp)), (proj2 (Z.leb_le cp 127)) by lia. }
  destruct (encode_multi cp Hleg) as (c & xs & n & -> & Hcase & Hn & Hx & Hok); [lia|]. cbn [app unit_out].
  rewrite (proj2 (Z.leb_gt c 127)) by lia. rewrite andb_false_r.
  rewrite num_chars_spec by (unfold is_byte; lia). replace (if c <? 192 then _ else _) with n by (clear -Hcase; repeat match goal with |- context [c <? ?y] => destruct (Z.ltb_spec c y) end; lia).
  rewrite (proj2 (Z.ltb_lt 1 n)), (proj2 (Z.leb_le n 4)) by lia. cbn [length] in Hn.
  replace (Z.to_nat n) with (S (length xs)) by lia. rewrite conts_app by done.
  rewrite (proj2 (Z.eqb_eq _ _)) by lia. rewrite (Hok rest : seq_ok (c :: xs ++ rest) n = true). cbn [andb]. cbn [take]. rewrite take_app_length.
  f_equal. cbn [length]. lia.
Qed.

Lemma encode_ended cp rest : legal cp -> ended (encode cp ++ rest).
Proof.
  intros Hleg. destruct (decide (cp < 0x80)) as [Hs|Hs].
  - unfold encode. rewrite (proj2 (Z.ltb_lt _ _)) by lia. cbn [app ended]. unfold cont. lia.
  - destruct (encode_multi cp Hleg) as (c & xs & n & -> & Hcase & _); [lia|]. cbn [app ended]. unfold cont. lia.
Qed.

Lemma text_ended cps : Forall legal cps -> ended (text cps).
Proof. destruct 1 as [|cp cps Hcp Hcps]; [done|]. unfold text. cbn [fmap list_fmap concat]. by apply encode_ended. Qed.

(** ** UTF-8 *)

Fixpoint utf8_out (fuel : nat) (s : list Z) : list Z :=
  match fuel, s with
  | S fuel, _ :: _ => (unit_out s).1 ++ utf8_out fuel (drop (Z.to_nat (unit_out s).2) s)
  | _, _ => []
  end.

Fixpoint pcdata_out (fuel : nat) (s : list Z) : list Z :=
  match fuel, s with
  | S fuel, c :: rest =>
      if xml_invalid c then pcdata_out fuel rest
      else if is_markup c then entity c ++ pcdata_out fuel rest
      else if c <=? 0x7F then c :: pcdata_out fuel rest
      else (unit_out s).1 ++ pcdata_out fuel (drop (Z.to_nat (unit_out s).2) s)
  | _, _ => []
  end.

Section loops.
Context (can_alloc : Z -> bool) (junk : Z).
Context (Hmem : forall n, 0 < n < 2 ^ 31 -> can_alloc n = true).

Lemma emits_map {A B} (m : W A) (a : A) out (f : A -> B) b : emits m a out -> f a = b -> emits (r ← m; mret (f r)) b out.
Proof. intros Hm <-. rewrite <- (app_nil_r out). eapply emits_bind; [exact Hm|apply emits_ret]. Qed.

Lemma emits_validate c rest : is_byte c -> emits (validate_utf8 can_alloc junk (c :: rest)) (unit_out (c :: rest)).2 (unit_out (c :: rest)).1.
Proof.
  intros Hc. unfold validate_utf8, unit_out. destruct ((1 <=? c) && (c <=? 127)); [by eapply emits_map; [by apply emits_putchar|]|].
  pose proof (num_chars_spec c Hc) as Hn. set (n := mb_num_chars c) in *.
  destruct (Z.ltb_spec 1 n) as [Hn1|Hn1]; [|by eapply emits_map; [by apply emits_putchar|]].
  pose proof (conts_range (Z.to_nat n) rest) as Hv. set (v := 1 + conts (Z.to_nat n) rest) in *. cbn [fst snd].
  assert (2 <= n <= 6) as Hn6 by (clear -Hn Hn1; repeat match type of Hn with context [c <? ?y] => destruct (Z.ltb_spec c y) end; lia).
  replace ((n =? 5) || (n =? 6)) with (negb (n <=? 4)) by (destruct (Z.leb_spec n 4), (Z.eqb_spec n 5), (Z.eqb_spec n 6); try done; lia).
  destruct (n <=? 4); cbn [negb andb]; [|by eapply emits_map; [by apply emits_putchar|]]. unfold seq_ok. rewrite <- !andb_assoc.
  destruct ((v =? n) && _) eqn:Hok; [|by eapply emits_map; [by apply emits_putchar|]].
  apply andb_true_iff in Hok as [Hvn%Z.eqb_eq _].
  assert (zlen (take (Z.to_nat n) (c :: rest)) = n) as Hl by (rewrite length_take; cbn [length]; lia).
  eapply emits_map; [apply emits_append; [done|]|].
  - intros E. rewrite E in Hl. cbn [length] in Hl. lia.
  - rewrite Hl. by rewrite (proj2 (Z.eqb_neq n 0)) by lia.
Qed.

Lemma emits_utf8_loop fuel : forall s, Forall is_byte s -> emits (utf8_loop can_alloc junk fuel s) () (utf8_out fuel s).
Proof.
  induction fuel as [|fuel IH]; intros [|c rest] Hs; try apply emits_ret. apply Forall_cons in Hs as [Hc Hr]. cbn [utf8_loop utf8_out].
  destruct (unit_spec c rest Hc Hr) as (_ & _ & _ & Hv & _).
  destruct ((1 <=? c) && (c <=? 127)) eqn:Ha.
  - assert (unit_out (c :: rest) = ([c], 1)) as -> by (unfold unit_out; by rewrite Ha). cbn [fst snd].
    eapply emits_bind; [by apply emits_putchar|]. cbn [Z.eqb]. by apply IH.
  - eapply emits_bind; [by apply emits_validate|]. rewrite (proj2 (Z.eqb_neq _ 0)) by lia. apply IH, Forall_drop. by constructor.
Qed.

Lemma emits_pcdata_loop fuel : forall s, Forall is_byte s -> emits (pcdata_loop can_alloc junk fuel s) () (pcdata_out fuel s).
Proof.
  induction fuel as [|fuel IH]; intros [|c rest] Hs; try apply emits_ret. apply Forall_cons in Hs as [Hc Hr]. cbn [pcdata_loop pcdata_out].
  destruct (unit_spec c rest Hc Hr) as (_ & _ & _ & Hv & _).
  destruct (xml_invalid c); [by apply IH|]. destruct (is_markup c).
  { eapply emits_bind; [by apply emits_append|]. cbn [length Z.of_nat Z.eqb]. by apply IH. }
  destruct (c <=? 127).
  { change (c :: pcdata_out fuel rest) with ([c] ++ pcdata_out fuel rest). eapply emits_bind; [by apply emits_putchar|]. by apply IH. }
  eapply emits_bind; [by apply emits_validate|]. rewrite (proj2 (Z.eqb_neq _ 0)) by lia. apply IH, Forall_drop. by constructor.
Qed.
End loops.

Lemma encode_facts cp : legal cp -> 1 <= zlen (encode cp) <= 4 /\ Forall (fun c => 0x80 <= c \/ c = cp /\ 0 < cp < 0x80) (encode cp).
Proof.
  intros Hleg. destruct (decide (cp < 0x80)) as [Hs|Hs].
  - unfold encode. rewrite (proj2 (Z.ltb_lt _ _)) by lia. cbn [length]. split; [lia|]. constructor; [right; destruct Hleg; lia|constructor].
  - destruct (encode_multi cp Hleg) as (c & xs & n & -> & Hcase & Hn & Hx & _); [lia|]. split; [lia|].
    constructor; [lia|]. eapply Forall_impl; [exact Hx|]. unfold cont. cbv beta. lia.
Qed.

Lemma text_app cps cps' : text (cps ++ cps') = text cps ++ text cps'.
Proof. unfold text. by rewrite fmap_app, concat_app. Qed.

Lemma text_cons cp cps : text (cp :: cps) = encode cp ++ text cps.
Proof. done. Qed.

Lemma text_nz cps : Forall legal cps -> Forall (fun c => c <> 0) (text cps).
Proof.
  induction 1 as [|cp cps Hcp _ IH]; [constructor|]. rewrite text_cons. apply Forall_app_2; [|done].
  eapply Forall_impl; [apply (encode_facts cp Hcp)|]. cbv beta. lia.
Qed.

Lemma utf8_out_text fuel : forall s, Forall is_byte s ->
  exists cps, Forall legal cps /\ utf8_out fuel s = text cps /\ zlen (text cps) <= 4 * zlen s /\ (Forall unicode cps \/ beyond s).
Proof.
  induction fuel as [|fuel IH]; intros [|c rest] Hs; try (exists []; split_and!; auto; done). pose proof Hs as [Hc Hr]%Forall_cons.
  destruct (unit_spec c rest Hc Hr) as (cp & Ho & Hcp & Hv & _ & Hu). cbn [utf8_out]. rewrite Ho. set (k := Z.to_nat (unit_out (c :: rest)).2) in *.
  destruct (IH (drop k (c :: rest))) as (cps & Hcps & -> & Hl & Hus); [by apply Forall_drop|].
  exists (cp :: cps). split; [by constructor|]. rewrite text_cons. split; [done|]. rewrite length_drop in Hl. rewrite length_app.
  destruct (encode_facts cp Hcp) as [He _]. split; [lia|]. destruct Hu as [Hu|]; [|by right]. destruct Hus as [Hus|(pre & a & b & post & E & Hb)]; [left; by constructor|right].
  exists (take k (c :: rest) ++ pre), a, b, post. rewrite <- app_assoc, <- E, take_drop. done.
Qed.

Lemma utf8_out_id cps : Forall legal cps -> forall fuel, (length (text cps) <= fuel)%nat -> utf8_out fuel (text cps) = text cps.
Proof.
  induction 1 as [|cp cps Hcp Hcps IH]; intros fuel Hf; [by destruct fuel|]. rewrite text_cons in *. rewrite length_app in Hf.
  destruct (encode_facts cp Hcp) as [He _]. destruct fuel as [|fuel]; [lia|].
  assert (exists c xs, encode cp ++ text cps = c :: xs) as (c & xs & E) by (destruct (encode cp); [cbn [length] in He; lia|by do 2 eexists]).
  rewrite E. cbn [utf8_out]. rewrite <- E, unit_encode by (done || by apply text_ended). cbn [fst snd].
  rewrite Nat2Z.id, drop_app_length, IH by lia. done.
Qed.

(** C14: [utf8] on any bytes returns a sequence of well-formed shortest UTF-8 encodings of one to four bytes, none of them of NUL, a
    surrogate, 0xFFFE or 0xFFFF, and text that already is such a sequence comes back as it is.  Four bytes hold values up to 0x1FFFFF,
    and the code does not stop at the last code point: the result is Unicode text unless the input has the start of an encoding
    above 0x10FFFF (F4 90 to F4 BF, or F5, F6 or F7 before a continuation byte), which is copied. *)
Theorem utf8_sanitizes (can_alloc : Z -> bool) (junk : Z) (s : list Z) :
  (forall n, 0 < n < 2 ^ 31 -> can_alloc n = true) -> Forall is_byte s -> 9 * zlen s + 6000 < 2 ^ 31 ->
  exists cps, Forall legal cps /\ utf8 can_alloc junk s = Some (Some (text cps)) /\ (Forall unicode cps \/ beyond s) /\
    forall cps', Forall legal cps' -> s = text cps' -> text cps = s.
Proof.
  intros Hmem Hs Hl. destruct (utf8_out_text (length s) s Hs) as (cps & Hcps & Ho & Hlen & Hu). exists cps. split; [done|]. split; [|split; [done|]].
  - unfold utf8. apply with_buffer_emits; [done|lia| |by apply text_nz|lia]. rewrite <- Ho. by apply emits_utf8_loop.
  - intros cps' Hcps' ->. rewrite <- Ho. by apply utf8_out_id.
Qed.

(** ** XML *)

(** A reader of character data: entities stand for characters, and markup does not occur. *)
Fixpoint xml_read (s : list Z) : option (list Z) :=
  match s with
  | [] => Some []
  | 38 :: 35 :: a :: b :: 59 :: rest => if (digit_val a <? 10) && (digit_val b <? 10) then cons (10 * digit_val a + digit_val b) <$> xml_read rest else None
  | c :: rest => if is_markup c then None else cons c <$> xml_read rest
  end.

Lemma xml_read_plain c s : is_markup c = false -> xml_read (c :: s) = cons c <$> xml_read s.
Proof.
  intros Hm. assert (c <> 38) as Hc by (intros ->; done). cbn [xml_read]. rewrite Hm. destruct c as [|c|c]; try done.
  repeat (destruct c as [c|c|]; try done).
Qed.

Lemma xml_read_entity c s : is_markup c = true -> xml_read (entity c ++ s) = cons c <$> xml_read s.
Proof.
  intros Hm. unfold is_markup in Hm. rewrite !orb_true_iff, !Z.eqb_eq in Hm. destruct Hm as [[[[->| ->]| ->]| ->]| ->]; done.
Qed.

Lemma xml_read_plains xs s : Forall (fun c => is_markup c = false) xs -> xml_read (xs ++ s) = app xs <$> xml_read s.
Proof.
  induction 1 as [|c xs Hc _ IH]; [cbn [app]; by destruct (xml_read s)|]. cbn [app]. rewrite xml_read_plain, IH by done. by destruct (xml_read s).
Qed.

Definition xml_valid (c : Z) : bool := negb (xml_invalid c).

Lemma pcdata_read fuel : forall s, Forall is_byte s -> Forall (fun c => c <> 0) s ->
  xml_read (pcdata_out fuel s) = Some (List.filter xml_valid (utf8_out fuel s)) /\
  Forall (fun c => c <> 0) (pcdata_out fuel s) /\ zlen (pcdata_out fuel s) <= 5 * zlen s.
Proof.
  induction fuel as [|fuel IH]; intros [|c rest] Hs Hz; try done. pose proof Hs as [Hc Hr]%Forall_cons. pose proof Hz as [Hc0 Hr0]%Forall_cons.
  destruct (unit_spec c rest Hc Hr) as (cp & Ho & Hcp & Hv & Hwhich & _). destruct (IH rest Hr Hr0) as (IH1 & IH2 & IH3).
  unfold is_byte in Hc. cbn [pcdata_out utf8_out].
  destruct (decide (c <= 0x7F)) as [Hasc|Hmb].
  - assert (unit_out (c :: rest) = ([c], 1)) as -> by (unfold unit_out; by rewrite (proj2 (Z.leb_le 1 c)), (proj2 (Z.leb_le c 127)) by lia).
    cbn [fst snd app List.filter]. change (drop (Z.to_nat 1) (c :: rest)) with rest. rewrite (proj2 (Z.leb_le c 127)) by lia.
    unfold xml_valid at 1. destruct (xml_invalid c) eqn:Hinv; cbn [negb]; [split_and!; try done; cbn [length]; lia|].
    destruct (is_markup c) eqn:Hm.
    + rewrite xml_read_entity, IH1 by done. split; [done|]. split; [|rewrite length_app; cbn [entity length]; lia].
      apply Forall_app_2; [|done]. unfold entity. repeat constructor; try lia; Z.div_mod_to_equations; lia.
    + rewrite xml_read_plain, IH1 by done. split; [done|]. split; [by constructor|cbn [length]; lia].
  - rewrite (proj2 (Z.leb_gt c 127)) by lia.
    assert (xml_invalid c = false) as -> by (unfold xml_invalid; repeat rewrite (proj2 (Z.leb_gt c _)) by lia; rewrite !andb_false_r; by rewrite (proj2 (Z.eqb_neq c _)) by lia).
    assert (is_markup c = false) as -> by (unfold is_markup; by rewrite !(proj2 (Z.eqb_neq c _)) by lia).
    destruct (IH (drop (Z.to_nat (unit_out (c :: rest)).2) (c :: rest))) as (J1 & J2 & J3); [by apply Forall_drop|by apply Forall_drop|].
    rewrite Ho in *. destruct (encode_facts cp Hcp) as [He Hb].
    assert (Forall (fun x => 0x80 <= x \/ x = 63) (encode cp)) as Hb' by (eapply Forall_impl; [exact Hb|]; cbv beta; lia).
    rewrite xml_read_plains, J1 by (eapply Forall_impl; [exact Hb'|]; cbv beta; intros x Hx; unfold is_markup; by rewrite !(proj2 (Z.eqb_neq x _)) by lia).
    rewrite List.filter_app. cbn [fmap option_fmap option_map]. rewrite length_drop in J3. split; [|split; [apply Forall_app_2; [|done]|rewrite length_app; lia]].
    + do 2 f_equal. symmetry. clear -Hb'. induction Hb' as [|x xs Hx _ IHx]; [done|]. cbn [List.filter]. rewrite IHx.
      assert (xml_valid x = true) as ->; [|done]. unfold xml_valid, xml_invalid. apply negb_true_iff.
      repeat rewrite (proj2 (Z.leb_gt x _)) by lia. rewrite !andb_false_r. by rewrite (proj2 (Z.eqb_neq x _)) by lia.
    + eapply Forall_impl; [exact Hb'|]. cbv beta. lia.
Qed.


(** ** Stripping tags *)

Fixpoint striptags_out (fuel : nat) (prev : Z) (s : list Z) : list Z :=
  match fuel, s with
  | S fuel, c :: rest =>
      if (c =? 60) && match rest with d :: _ :: _ => (d =? 47) || is_alpha d | _ => false end then
        match after_gt s with
        | Some rest => (if is_space prev then [] else [32]) ++ striptags_out fuel 32 rest
        | None => striptags_out fuel prev rest
        end
      else if is_space c then (if is_space prev then [] else [c]) ++ striptags_out fuel c rest
      else (if is_markup c then entity c else [c]) ++ striptags_out fuel c rest
  | _, _ => []
  end.

(** White space behind white space is dropped; [prev] is the character before. *)
Fixpoint squeeze (prev : Z) (s : list Z) : list Z :=
  match s with
  | [] => []
  | c :: s => (if is_space c && is_space prev then [] else [c]) ++ squeeze c s
  end.

Fixpoint squeezed (prev : Z) (s : list Z) : bool :=
  match s with
  | [] => true
  | c :: s => negb (is_space c && is_space prev) && squeezed c s
  end.

Lemma after_gt_suffix s rest : after_gt s = Some rest -> exists pre, s = pre ++ rest /\ pre <> [].
Proof.
  induction s as [|c s IH]; [done|]. cbn [after_gt]. destruct (c =? 62); [intros [= <-]; by exists [c]|].
  intros (pre & -> & _)%IH. by exists (c :: pre).
Qed.

Lemma markup_not_space c : is_markup c = true -> is_space c = false.
Proof. unfold is_markup. rewrite !orb_true_iff, !Z.eqb_eq. by intros [[[[->| ->]| ->]| ->]| ->]. Qed.

Lemma space_not_markup c : is_space c = true -> is_markup c = false.
Proof. intros Hs. destruct (is_markup c) eqn:E; [|done]. apply markup_not_space in E. congruence. Qed.

(** A character of the output and what it is read as. *)
Lemma read_char c out d : xml_read out = Some d -> xml_read ((if is_markup c then entity c else [c]) ++ out) = Some (c :: d).
Proof. intros Hd. destruct (is_markup c) eqn:Hm; [rewrite xml_read_entity|cbn [app]; rewrite xml_read_plain]; by rewrite ?Hd. Qed.

Lemma squeezed_weaken p q d : is_space q = true -> squeezed q d = true -> squeezed p d = true.
Proof.
  intros Hq. destruct d as [|c d]; [done|]. cbn [squeezed]. rewrite Hq, andb_true_r. destruct (is_space c); [done|by rewrite andb_false_l].
Qed.

Lemma striptags_read fuel : forall prev s, Forall is_byte s -> Forall (fun c => c <> 0) s ->
  exists d, xml_read (striptags_out fuel prev s) = Some d /\ squeezed prev d = true /\
    Forall (fun c => c <> 0) (striptags_out fuel prev s) /\ zlen (striptags_out fuel prev s) <= 5 * zlen s /\
    (60 ∉ s -> (length s <= fuel)%nat -> d = squeeze prev s).
Proof.
  induction fuel as [|fuel IH]; intros prev [|c rest] Hs Hz; cbn [striptags_out]; try (exists []; split_and!; try done; intros _ Hf; cbn [length] in Hf; lia).
  pose proof Hs as [Hc Hr]%Forall_cons. pose proof Hz as [Hc0 Hr0]%Forall_cons. cbn [length squeeze].
  set (gap := fun (x : Z) out => (if is_space prev then [] else [x]) ++ out).
  assert (forall x out d, is_space x = true -> xml_read out = Some d -> squeezed x d = true -> Forall (fun c => c <> 0) out -> x <> 0 ->
    exists d', xml_read (gap x out) = Some d' /\ squeezed prev d' = true /\ Forall (fun c => c <> 0) (gap x out) /\ zlen (gap x out) <= 1 + zlen out /\
      d' = (if is_space prev then [] else [x]) ++ d) as Hgap.
  { intros x out d Hx Ho Hd Hnz Hx0. unfold gap. destruct (is_space prev) eqn:Hp; cbn [app].
    - exists d. split_and!; try done; [by apply (squeezed_weaken _ x)|lia].
    - exists (x :: d). rewrite xml_read_plain, Ho by (by apply space_not_markup). split_and!; try done; [cbn [squeezed]; by rewrite Hp, andb_false_r|by constructor|cbn [length]; lia]. }
  destruct ((c =? 60) && _) eqn:Htag.
  - apply andb_true_iff in Htag as [->%Z.eqb_eq _]. destruct (after_gt (60 :: rest)) as [rest'|] eqn:Hgt.
    + apply after_gt_suffix in Hgt as (pre & E & Hpre). rewrite E in Hs, Hz. apply Forall_app in Hs as [_ Hs], Hz as [_ Hz].
      destruct (IH 32 rest' Hs Hz) as (d & H1 & H2 & H3 & H4 & _). destruct (Hgap 32 _ d eq_refl H1 H2 H3) as (d' & G1 & G2 & G3 & G4 & _); [done|].
      exists d'. split_and!; try done; [|intros Hn; exfalso; apply Hn; by left].
      fold (gap 32 (striptags_out fuel 32 rest')). apply (f_equal length) in E. rewrite length_app in E. cbn [length] in E. destruct pre; [done|cbn [length] in E; lia].
    + destruct (IH prev rest Hr Hr0) as (d & H1 & H2 & H3 & H4 & _). exists d. split_and!; try done; [lia|]. intros Hn. exfalso. apply Hn. by left.
  - clear Htag. destruct (is_space c) eqn:Hsp; cbn [andb].
    + destruct (IH c rest Hr Hr0) as (d & H1 & H2 & H3 & H4 & H5). destruct (Hgap c _ d Hsp H1 H2 H3 Hc0) as (d' & G1 & G2 & G3 & G4 & ->).
      eexists. split_and!; try done; [fold (gap c (striptags_out fuel c rest)); lia|]. intros Hn Hf. rewrite H5; [done|set_solver|lia].
    + destruct (IH c rest Hr Hr0) as (d & H1 & H2 & H3 & H4 & H5). exists (c :: d). split; [by apply read_char|].
      split; [cbn [squeezed]; by rewrite Hsp|]. split; [apply Forall_app_2; [|done]|].
      * destruct (is_markup c); [|by constructor]. unfold is_byte in Hc. unfold entity. repeat constructor; try lia; Z.div_mod_to_equations; lia.
      * split; [rewrite length_app; destruct (is_markup c); cbn [entity length]; lia|]. intros Hn Hf. cbn [app]. rewrite H5; [done|set_solver|lia].
Qed.

Section strip.
Context (can_alloc : Z -> bool) (junk : Z).
Context (Hmem : forall n, 0 < n < 2 ^ 31 -> can_alloc n = true).

(** A step whose result is not looked at. *)
Lemma emits_drop {A B} (m : W A) (k : W B) r o1 o2 : (exists a, emits m a o1) -> emits k r o2 -> emits (_ ← m; k) r (o1 ++ o2).
Proof. intros [a Hm] Hk. by eapply emits_bind. Qed.

Lemma emits_char c : exists a, emits (if is_markup c then buf_append can_alloc junk (entity c) else buf_putchar can_alloc junk c) a
  (if is_markup c then entity c else [c]).
Proof. destruct (is_markup c); eexists; [by apply emits_append|by apply emits_putchar]. Qed.

Lemma emits_gap (b : bool) c : exists a, emits (if b then mret 0 else buf_putchar can_alloc junk c) a (if b then [] else [c]).
Proof. destruct b; eexists; [apply emits_ret|by apply emits_putchar]. Qed.

Lemma emits_striptags_loop fuel : forall prev s, emits (striptags_loop can_alloc junk fuel prev s) () (striptags_out fuel prev s).
Proof.
  induction fuel as [|fuel IH]; intros prev [|c rest]; try apply emits_ret. cbn [striptags_loop striptags_out].
  destruct ((c =? 60) && _).
  - destruct (after_gt (c :: rest)); [|apply IH]. apply emits_drop; [apply emits_gap|apply IH].
  - destruct (is_space c); (apply emits_drop; [|apply IH]); [apply emits_gap|apply emits_char].
Qed.
End strip.

(** C28: The output of [striptags] is safe in XML: it holds no markup, only entities for it, and
    a reader of it gets text that neither starts with white space nor has two white space
    characters in a row; text without a [<] loses nothing but such white space. *)
Theorem striptags_escapes (can_alloc : Z -> bool) (junk : Z) (s : list Z) :
  (forall n, 0 < n < 2 ^ 31 -> can_alloc n = true) -> Forall is_byte s -> Forall (fun c => c <> 0) s -> 11 * zlen s + 6000 < 2 ^ 31 ->
  exists out d, striptags can_alloc junk s = Some out /\ xml_read out = Some d /\ squeezed 32 d = true /\ (60 ∉ s -> d = squeeze 32 s).
Proof.
  intros Hmem Hs Hz Hl. destruct (striptags_read (length s) 32 s Hs Hz) as (d & Hr & Hsq & Hnz & Hlen & Hid).
  exists (striptags_out (length s) 32 s), d. split; [|split; [done|split; [done|intros Hn; by apply Hid]]].
  unfold striptags. destruct (init_rep can_alloc junk Hmem (zlen s)) as (b & -> & Hb); [lia|]. cbn [mbind option_bind].
  destruct (emits_striptags_loop can_alloc junk Hmem (length s) 32 s _ _ _ Hb) as (b' & -> & tl & -> & _); [lia|cbn [length]; lia|].
  cbn [mbind option_bind buf_destroy b_data app]. by apply cstr_app_nz.
Qed.

(** ** Lua strings *)

(** The Lua reader behind an opening quote, for the escapes that occur: the string, and what
    follows the closing quote.  A line end in the string is an error. *)
Fixpoint lua_read (s : list Z) : option (list Z * list Z) :=
  let add c r := match r with Some (t, rest) => Some (c :: t, rest) | None => None end in
  match s with
  | [] => None
  | c :: s =>
      if c =? 34 then Some ([], s)
      else if c =? 92 then
        match s with
        | e :: s => if e =? 92 then add 92 (lua_read s) else if e =? 34 then add 34 (lua_read s) else if e =? 110 then add 10 (lua_read s) else None
        | [] => None
        end
      else if (c =? 10) || (c =? 13) then None
      else add c (lua_read s)
  end.

Definition escape_out (escape_xml : bool) (c : Z) : list Z :=
  if c =? 92 then [92; 92]
  else if c =? 34 then (if escape_xml then entity 34 else [92; 34])
  else if c =? 10 then [92; 110]
  else if is_markup c && escape_xml then entity c
  else [c].

Definition escaped (escape_xml : bool) (s : list Z) : list Z := concat (escape_out escape_xml <$> s).

Lemma emits_luastr_escape can_alloc junk s x : (forall n, 0 < n < 2 ^ 31 -> can_alloc n = true) ->
  emits (luastr_escape can_alloc junk s x) () (escaped x s).
Proof.
  intros Hmem. induction s as [|c s IH]; [apply emits_ret|]. cbn [luastr_escape]. change (escaped x (c :: s)) with (escape_out x c ++ escaped x s).
  apply emits_drop; [|exact IH]. unfold escape_char, escape_out.
  destruct (c =? 92); [|destruct (c =? 34); [destruct x|destruct (c =? 10); [|destruct (is_markup c && x)]]]; eexists;
    solve [by apply emits_append | by apply emits_putchar].
Qed.

(** What the Lua string holds for a character. *)
Definition in_lua (escape_xml : bool) (c : Z) : list Z := if is_markup c && escape_xml then entity c else [c].

Lemma lua_read_escape x c out : c <> 13 ->
  lua_read (escape_out x c ++ out) = (fun r => (in_lua x c ++ r.1, r.2)) <$> lua_read out.
Proof.
  intros Hcr. unfold escape_out, in_lua. destruct (Z.eqb_spec c 92) as [->|H92].
  { cbn. by destruct (lua_read out) as [[]|]. }
  destruct (Z.eqb_spec c 34) as [->|H34].
  { destruct x; cbn; by destruct (lua_read out) as [[]|]. }
  destruct (Z.eqb_spec c 10) as [->|H10].
  { destruct x; cbn; by destruct (lua_read out) as [[]|]. }
  destruct (is_markup c && x) eqn:Hm.
  - apply andb_true_iff in Hm as [Hm ->]. unfold is_markup in Hm. rewrite !orb_true_iff, !Z.eqb_eq in Hm.
    destruct Hm as [[[[->| ->]| ->]| ->]| ->]; try done; cbn; by destruct (lua_read out) as [[]|].
  - cbn [app lua_read]. rewrite (proj2 (Z.eqb_neq c 34)), (proj2 (Z.eqb_neq c 92)), (proj2 (Z.eqb_neq c 10)), (proj2 (Z.eqb_neq c 13)) by done.
    cbn [orb]. by destruct (lua_read out) as [[]|].
Qed.

Lemma lua_read_escaped x s rest : 13 ∉ s -> lua_read (escaped x s ++ 34 :: rest) = Some (concat (in_lua x <$> s), rest).
Proof.
  induction s as [|c s IH]; intros Hn; [done|]. change (escaped x (c :: s)) with (escape_out x c ++ escaped x s).
  rewrite <- app_assoc, lua_read_escape, IH by set_solver. done.
Qed.

Lemma in_lua_read s : xml_read (concat (in_lua true <$> s)) = Some s.
Proof.
  induction s as [|c s IH]; [done|]. cbn [fmap list_fmap concat]. unfold in_lua at 1. rewrite andb_true_r. by apply read_char.
Qed.

Lemma in_lua_raw s : concat (in_lua false <$> s) = s.
Proof. induction s as [|c s IH]; [done|]. cbn [fmap list_fmap concat]. unfold in_lua at 1. rewrite andb_false_r. cbn [app]. by f_equal. Qed.

(** C12: Text put into a Lua string by [luastr_escape] cannot end the string and comes back from
    it: for text without carriage returns, what is appended to the buffer, with a quote behind
    it, is read by Lua as one string and the rest, and the string is the text, or with
    [escape_xml] XML without markup that is read as the text. *)
Theorem luastr_escape_roundtrip (can_alloc : Z -> bool) (junk : Z) (escape_xml : bool) (s : list Z) :
  (forall n, 0 < n < 2 ^ 31 -> can_alloc n = true) -> 13 ∉ s ->
  exists out t, emits (luastr_escape can_alloc junk s escape_xml) () out /\
    (forall rest, lua_read (out ++ 34 :: rest) = Some (t, rest)) /\ (if escape_xml then xml_read t = Some s else t = s).
Proof.
  intros Hmem Hn. exists (escaped escape_xml s), (concat (in_lua escape_xml <$> s)). split; [by apply emits_luastr_escape|].
  split; [intros rest; by apply lua_read_escaped|]. destruct escape_xml; [apply in_lua_read|apply in_lua_raw].
Qed.

(** ** The theorems at work *)

(** An accented letter, a lead byte alone, a surrogate, an angle bracket, a bell. *)
Definition demo_text : list Z := [195; 169; 195; 237; 160; 128; 60; 7; 97].

Lemma demo_text_ok : Forall is_byte demo_text /\ Forall (fun c => c <> 0) demo_text.
Proof. split; [eval_decide|repeat constructor; lia]. Qed.

Lemma utf8_sanitizes_witness :
  exists cps, Forall legal cps /\ utf8 (fun _ => true) 170 demo_text = Some (Some (text cps)) /\ (Forall unicode cps \/ beyond demo_text) /\
    forall cps', Forall legal cps' -> demo_text = text cps' -> text cps = demo_text.
Proof. apply (utf8_sanitizes (fun _ => true) 170 demo_text); [done|apply demo_text_ok|vm_compute; reflexivity]. Defined.


Lemma striptags_escapes_witness :
  exists out d, striptags (fun _ => true) 170 (bs "<b>x</b>  < y") = Some out /\ xml_read out = Some d /\ squeezed 32 d = true /\
    (60 ∉ bs "<b>x</b>  < y" -> d = squeeze 32 (bs "<b>x</b>  < y")).
Proof.
  apply (striptags_escapes (fun _ => true) 170 (bs "<b>x</b>  < y")); [done|eval_decide| |vm_compute; reflexivity]. vm_compute. repeat constructor; lia.
Defined.

Lemma luastr_escape_roundtrip_witness :
  exists out t, emits (luastr_escape (fun _ => true) 170 [34; 60; 92] true) () out /\
    (forall rest, lua_read (out ++ 34 :: rest) = Some (t, rest)) /\ xml_read t = Some [34; 60; 92].
Proof. apply (luastr_escape_roundtrip (fun _ => true) 170 true [34; 60; 92]); [done|]. eval_decide. Defined.

(** Runs of the code itself. *)
Example utf8_run : utf8 (fun _ => true) 170 demo_text = Some (Some [195; 169; 63; 63; 60; 7; 97]).
Proof. vm_compute. reflexivity. Qed.
Example pcdata_run : pcdata (fun _ => true) 170 demo_text = Some (Some ([195; 169; 63; 63] ++ bs "&#60;a")).
Proof. vm_compute. reflexivity. Qed.
Example striptags_run : striptags (fun _ => true) 170 (bs "<b>x</b>  < y") = Some (bs "x &#60; y").
Proof. vm_compute. reflexivity. Qed.

(** Past the last code point of Unicode: 0x1FFFFF is let through. *)
Example utf8_beyond_unicode : utf8 (fun _ => true) 170 [247; 191; 191; 191] = Some (Some [247; 191; 191; 191]).
Proof. vm_compute. reflexivity. Qed.
