(* ===== verification/LuciTemplate.v ===== *)
(** The template parser of the web interface (realtek/luci/modules/luci-base/src/
    template_parser.c): cutting a template into text and tags and turning the pieces into Lua,
    one piece for every call of the reader [lua_load] uses. *)

From stdpp Require Import gmap.
From S2P Require Import Prelude Libc LuciText.

(** ** State *)

Inductive t_type := T_TYPE_INIT | T_TYPE_TEXT | T_TYPE_COMMENT | T_TYPE_EXPR | T_TYPE_INCLUDE | T_TYPE_I18N | T_TYPE_I18N_RAW | T_TYPE_CODE | T_TYPE_EOF.

(** Pointers into the template are offsets. *)
Record template_chunk := Chunk { c_s : Z; c_e : Z; c_type : t_type; c_line : Z }.

Record template_parser := Parser {
  p_data : list Z; p_off : Z; p_line : Z; p_in_expr : bool; p_strip_before : bool; p_strip_after : bool;
  p_prv : template_chunk; p_cur : template_chunk
}.

Definition t_size (p : template_parser) : Z := zlen (p_data p).

(** The character at a place of the template; behind it is a NUL, that of the string or of the
    rest of the last page of the file. *)
Definition at_ (p : template_parser) (i : Z) : option Z := zget (p_data p ++ [0]) i.

Definition with_strip (p : template_parser) (before after : bool) : template_parser :=
  Parser (p_data p) (p_off p) (p_line p) (p_in_expr p) before after (p_prv p) (p_cur p).
Definition with_cur (p : template_parser) (c : template_chunk) : template_parser :=
  Parser (p_data p) (p_off p) (p_line p) (p_in_expr p) (p_strip_before p) (p_strip_after p) (p_prv p) c.
Definition with_prv (p : template_parser) (c : template_chunk) : template_parser :=
  Parser (p_data p) (p_off p) (p_line p) (p_in_expr p) (p_strip_before p) (p_strip_after p) c (p_cur p).
Definition with_off (p : template_parser) (off : Z) (in_expr : bool) : template_parser :=
  Parser (p_data p) off (p_line p) in_expr (p_strip_before p) (p_strip_after p) (p_prv p) (p_cur p).
Definition add_lines (p : template_parser) (n : Z) : template_parser :=
  Parser (p_data p) (p_off p) (p_line p + n) (p_in_expr p) (p_strip_before p) (p_strip_after p) (p_prv p) (p_cur p).

(** The state [template_open] and [template_string] leave. *)
Definition template_string (str : list Z) : template_parser :=
  let c := Chunk 0 0 T_TYPE_INIT 0 in Parser str 0 0 false false false (Chunk 0 0 T_TYPE_INIT 0) c.

(** ** Cutting *)

(** Where [needle] first starts. *)
Fixpoint strfind (haystack needle : list Z) : option Z :=
  match haystack with
  | [] => None
  | _ :: rest => if decide (take (length needle) haystack = needle) then Some 0 else Z.succ <$> strfind rest needle
  end.

(** Forward from [s] over characters of a kind, as far as [e]; one round per character. *)
Fixpoint skip_chars (pred : Z -> bool) (fuel : nat) (p : template_parser) (s e : Z) : option Z :=
  match fuel with
  | O => None
  | S fuel =>
      if s <=? e then c ← at_ p s; if pred c then skip_chars pred fuel p (s + 1) e else Some s
      else Some s
  end.

(** Backward from [e], as far as [s] *)
Fixpoint skip_back (pred : Z -> bool) (fuel : nat) (p : template_parser) (s e : Z) : option Z :=
  match fuel with
  | O => None
  | S fuel =>
      if s <=? e then c ← at_ p e; if pred c then skip_back pred fuel p s (e - 1) else Some e
      else Some e
  end.

Definition fuel_of (p : template_parser) : nat := S (S (length (p_data p))).

Definition is_blank (c : Z) : bool := (c =? 32) || (c =? 9).

Definition template_text (p : template_parser) (e : Z) : option template_parser :=
  let s := p_off p in
  if s <? t_size p then
    s ← (if p_strip_after p then skip_chars is_space (fuel_of p) p s e else Some s);
    Some (with_cur p (Chunk s e T_TYPE_TEXT (p_line p)))
  else Some (with_cur p (Chunk s e T_TYPE_EOF (p_line p))).

(** The first character of a tag. *)
Definition tag_type (c : Z) : t_type * Z :=
  if c =? 35 then (T_TYPE_COMMENT, 1)
  else if c =? 43 then (T_TYPE_INCLUDE, 1)
  else if c =? 58 then (T_TYPE_I18N, 1)
  else if c =? 95 then (T_TYPE_I18N_RAW, 1)
  else if c =? 61 then (T_TYPE_EXPR, 1)
  else (T_TYPE_CODE, 0).

Definition template_code (p : template_parser) (e : Z) : option template_parser :=
  let s := p_off p in
  c ← at_ p s;
  let before := c =? 45 in
  s ← (if before then skip_chars is_blank (fuel_of p) p (s + 1) e else Some s);
  l ← at_ p (e - 1);
  let after := l =? 45 in
  e ← (if after then skip_back is_blank (fuel_of p) p s (e - 1) else Some e);
  c ← at_ p s;
  let '(type, n) := tag_type c in
  Some (with_cur (with_strip p before after) (Chunk (s + n) e type (p_line p))).

(** ** Formatting *)

Definition gen_code (t : t_type) : list Z * list Z :=
  let q := [34] in
  match t with
  | T_TYPE_TEXT | T_TYPE_I18N | T_TYPE_I18N_RAW => (bs "write(" ++ q, q ++ bs ")")
  | T_TYPE_EXPR => (bs "write(tostring(", bs " or " ++ q ++ q ++ bs "))")
  | T_TYPE_INCLUDE => (bs "include(" ++ q, q ++ bs ")")
  | T_TYPE_CODE => ([], bs " ")
  | T_TYPE_INIT | T_TYPE_COMMENT | T_TYPE_EOF => ([], [])
  end.

Section format.
Context (can_alloc : Z -> bool) (junk : Z).
(** What [lmo_translate] finds. *)
Context (lookup : list Z -> option (list Z)).

(** [if ((head = ...) != NULL) buf_append (buf, head, strlen(head))] *)
Definition append_code (s : list Z) : W Z := if decide (s = []) then mret 0 else buf_append can_alloc junk s.

(** [buf_append] of a part of the template, which is not empty. *)
Definition append_body (body : list Z) : W unit := _ ← buf_append can_alloc junk body; mret ().

Definition format_body (t : t_type) (body : list Z) : W unit :=
  match t with
  | T_TYPE_TEXT | T_TYPE_INCLUDE => luastr_escape can_alloc junk body false
  | T_TYPE_EXPR | T_TYPE_CODE => append_body body
  | T_TYPE_I18N => luastr_translate can_alloc junk lookup body true
  | T_TYPE_I18N_RAW => luastr_translate can_alloc junk lookup body false
  | _ => mret ()
  end.

(** Line ends in tags that are Lua. *)
Definition lines_of (t : t_type) (body : list Z) : Z :=
  match t with
  | T_TYPE_EXPR | T_TYPE_CODE => zlen (List.filter (Z.eqb 10) body)
  | _ => 0
  end.

(** Spaces at the end of text in front of a tag that strips them. *)
Fixpoint strip_end (fuel : nat) (p : template_parser) (s e : Z) : option Z :=
  match fuel with
  | O => None
  | S fuel =>
      if s <? e then c ← at_ p (e - 1); if is_space c then strip_end fuel p s (e - 1) else Some e
      else Some e
  end.

(** [template_format_chunk]: the piece for the previous chunk; [None] is [NULL]. *)
Definition template_format_chunk (p : template_parser) : option (option (list Z) * template_parser) :=
  let c := p_prv p in
  e ← (if p_strip_before p then match c_type c with T_TYPE_TEXT => strip_end (fuel_of p) p (c_s c) (c_e c) | _ => Some (c_e c) end else Some (c_e c));
  let p := with_prv p (Chunk (c_s c) e (c_type c) (c_line c)) in
  if c_s c =? e then
    Some (match c_type c with T_TYPE_EOF => None | _ => Some [32] end, p)
  else
    body ← zslice (p_data p) (c_s c) (e - c_s c);
    match buf_init can_alloc junk (e - c_s c) with
    | None => Some (None, p)
    | Some b =>
        '(_, b) ← (_ ← append_code (gen_code (c_type c)).1; _ ← format_body (c_type c) body; append_code (gen_code (c_type c)).2) b;
        piece ← zslice (buf_destroy b) 0 (buf_length b);
        Some (Some (if decide (piece = []) then [32] else piece), add_lines p (lines_of (c_type c) body))
    end.

Definition template_reader (p : template_parser) : option (option (list Z) * template_parser) :=
  let p := with_prv p (p_cur p) in
  let off := p_off p in
  let size := t_size p in
  let rest := drop (Z.to_nat off) (p_data p) in
  if negb (p_in_expr p) then
    match strfind rest (bs "<%") with
    | Some k =>
        let tag := off + k in
        p ← template_text p tag;
        template_format_chunk (with_off p (tag + 2) true)
    | None =>
        p ← template_text p size;
        template_format_chunk (with_off p size false)
    end
  else
    match strfind rest (bs "%>") with
    | Some k =>
        let tag := off + k in
        p ← template_code p tag;
        template_format_chunk (with_off p (tag + 2) false)
    | None =>
        p ← template_code p size;
        Some (Some [27], p)
    end.

(** What [lua_load] gets: the pieces up to the first [NULL]. *)
Fixpoint read_all (fuel : nat) (p : template_parser) : option (list (list Z)) :=
  match fuel with
  | O => None
  | S fuel =>
      '(piece, p) ← template_reader p;
      match piece with
      | None => Some []
      | Some s => cons s <$> read_all fuel p
      end
  end.

(** Every call but the last few passes two characters. *)
Definition template_load (str : list Z) : option (list (list Z)) := read_all (length str + 4) (template_string str).
End format.

Example load_run :
  template_load (fun _ => true) 170 (fun _ => None) (bs "a <%- if x then -%> b" ++ [10] ++ bs "<%end%><%# c %><%= y %>") =
  Some [[32]; bs "write(" ++ [34] ++ bs "a" ++ [34] ++ bs ")"; bs "if x then  "; bs "write(" ++ [34] ++ bs "b\n" ++ [34] ++ bs ")"; bs "end ";
        [32]; [32]; [32]; bs "write(tostring( y  or " ++ [34; 34] ++ bs "))"].
Proof. vm_compute. reflexivity. Qed.

(** A tag of nothing but a hyphen ends before it starts. *)
Example hyphen_tag_overruns : template_load (fun _ => true) 170 (fun _ => None) (bs "<%-%>") = None.
Proof. vm_compute. reflexivity. Qed.
