(* ===== verification/LuciTemplateSpec.v ===== *)
(** What the template parser makes of a template: the Lua of its text and tags, in order. *)

From stdpp Require Import gmap.
From S2P Require Import Prelude Libc LuciText LuciTextSpec LuciTemplate.

(** ** Templates as data *)

Record tag := Tag { g_before : bool; g_after : bool; g_type : t_type; g_body : list Z }.

Definition tag_char (t : t_type) : list Z :=
  match t with
  | T_TYPE_COMMENT => [35] | T_TYPE_INCLUDE => [43] | T_TYPE_I18N => [58] | T_TYPE_I18N_RAW => [95] | T_TYPE_EXPR => [61]
  | _ => []
  end.

Definition tag_core (g : tag) : list Z := tag_char (g_type g) ++ g_body g.
Definition tag_inner (g : tag) : list Z := (if g_before g then [45] else []) ++ tag_core g ++ (if g_after g then [45] else []).

(** Texts each followed by a tag, and the last text. *)
Definition render (tgs : list (list Z * tag)) (last : list Z) : list Z :=
  concat ((fun tg => tg.1 ++ bs "<%" ++ tag_inner tg.2 ++ bs "%>") <$> tgs) ++ last.

(** ** What it means *)

Section meaning.
Context (lookup : list Z -> option (list Z)).

(** The Lua for a piece that is not empty. *)
Definition content (t : t_type) (body : list Z) : list Z :=
  match t with
  | T_TYPE_TEXT | T_TYPE_INCLUDE => escaped false body
  | T_TYPE_EXPR | T_TYPE_CODE => body
  | T_TYPE_I18N => escaped true (default body (lookup body))
  | T_TYPE_I18N_RAW => escaped false (default body (lookup body))
  | _ => []
  end.

Definition lua_of (t : t_type) (body : list Z) : list Z :=
  match t, body with
  | _, [] => [32]
  | T_TYPE_COMMENT, _ => [32]
  | _, _ => (gen_code t).1 ++ content t body ++ (gen_code t).2
  end.

Fixpoint lstrip (s : list Z) : list Z := match s with c :: s' => if is_space c then lstrip s' else s | [] => [] end.
Definition rstrip (s : list Z) : list Z := reverse (lstrip (reverse s)).

(** Text between two tags: the one before may strip its start, the one behind its end. *)
Definition text_lua (after before : bool) (t : list Z) : list Z :=
  let t := if after then lstrip t else t in
  let t := if before then rstrip t else t in
  lua_of T_TYPE_TEXT t.

(** [b] and [a] are the flags of the tag before.  The last text is stripped like one in front of
    the last tag. *)
Fixpoint compile (b a : bool) (tgs : list (list Z * tag)) (last : list Z) : list (list Z) :=
  match tgs with
  | [] => match last with [] => [] | _ => [text_lua a b last] end
  | (t, g) :: tgs => text_lua a (g_before g) t :: lua_of (g_type g) (g_body g) :: compile (g_before g) (g_after g) tgs last
  end.
End meaning.

(** ** Searching *)

Lemma strfind_none_tail c s pat : strfind (c :: s) pat = None -> strfind s pat = None /\ take (length pat) (c :: s) <> pat.
Proof. cbn [strfind]. destruct (decide _); [done|]. destruct (strfind s pat); [done|]. done. Qed.

Lemma strfind_app a x y rest : x <> y -> strfind a [x; y] = None -> strfind (a ++ x :: y :: rest) [x; y] = Some (zlen a).
Proof.
  intros Hxy. induction a as [|c a IH]; intros Hn.
  - cbn [app strfind length take]. by rewrite decide_True.
  - apply strfind_none_tail in Hn as [Hn Hne]. cbn [app strfind]. rewrite IH by done. rewrite decide_False; [cbn [fmap option_fmap option_map length]; f_equal; lia|].
    destruct a as [|d a]; cbn [app length take] in *; [|done]. intros [= -> E]. done.
Qed.

(** ** Stripping *)

Lemma lstrip_split s : exists sp, s = sp ++ lstrip s /\ Forall (fun c => is_space c = true) sp /\
  match lstrip s with c :: _ => is_space c = false | [] => True end.
Proof.
  induction s as [|c s (sp & E & Hsp & Hh)]; [by exists []|]. cbn [lstrip]. destruct (is_space c) eqn:Hc; [|by exists []].
  exists (c :: sp). split; [cbn [app]; by f_equal|]. split; [by constructor|done].
Qed.

Lemma rstrip_split s : exists sp, s = rstrip s ++ sp /\ Forall (fun c => is_space c = true) sp /\
  (rstrip s = [] \/ exists t c, rstrip s = t ++ [c] /\ is_space c = false).
Proof.
  destruct (lstrip_split (reverse s)) as (sp & E & Hsp & Hh). exists (reverse sp). split; [|split].
  - unfold rstrip. rewrite <- reverse_app, <- E. by rewrite reverse_involutive.
  - by apply Forall_reverse.
  - unfold rstrip. destruct (lstrip (reverse s)) as [|c t]; [by left|]. right. exists (reverse t), c. split; [|done]. apply reverse_cons.
Qed.

Lemma at_in p pre c post : p_data p = pre ++ c :: post -> at_ p (zlen pre) = Some c.
Proof. intros E. unfold at_. rewrite E, <- app_assoc. cbn [app]. rewrite zget_nat. apply list_lookup_middle. done. Qed.

Lemma at_end p : at_ p (t_size p) = Some 0.
Proof. unfold at_, t_size. rewrite zget_nat. by apply list_lookup_middle. Qed.

(** Forward over characters of a kind, up to one that is not. *)
Lemma skip_chars_spec pred p e sp : forall pre post fuel, p_data p = pre ++ sp ++ post -> Forall (fun c => pred c = true) sp ->
  zlen pre + zlen sp <= e -> (forall c, at_ p (zlen pre + zlen sp) = Some c -> pred c = false) -> is_Some (at_ p (zlen pre + zlen sp)) -> (length sp < fuel)%nat ->
  skip_chars pred fuel p (zlen pre) e = Some (zlen pre + zlen sp).
Proof.
  induction sp as [|c sp IH]; intros pre post fuel Hd Hsp He Hend Hs Hf; (destruct fuel as [|fuel]; [lia|]); cbn [skip_chars].
  - rewrite (proj2 (Z.leb_le _ _)) by lia. change (zlen []) with 0 in *. rewrite Z.add_0_r in *. destruct Hs as [c Hc].
    rewrite Hc. cbn [mbind option_bind]. by rewrite (Hend c).
  - apply Forall_cons in Hsp as [Hc Hsp]. rewrite (proj2 (Z.leb_le _ _)) by lia. rewrite (at_in p pre c (sp ++ post)) by done. cbn [mbind option_bind]. rewrite Hc.
    assert (zlen pre + 1 = zlen (pre ++ [c])) as -> by (rewrite length_app; cbn [length]; lia).
    assert (zlen pre + zlen (c :: sp) = zlen (pre ++ [c]) + zlen sp) as E by (rewrite length_app; cbn [length]; lia). rewrite E in *.
    apply (IH (pre ++ [c]) post); try done; [by rewrite <- app_assoc|cbn [length] in Hf; lia].
Qed.

Lemma strip_end_spec p sp : forall pre body post fuel, p_data p = pre ++ body ++ sp ++ post -> Forall (fun c => is_space c = true) sp ->
  (body = [] \/ exists t c, body = t ++ [c] /\ is_space c = false) -> (length sp < fuel)%nat ->
  strip_end fuel p (zlen pre) (zlen pre + zlen body + zlen sp) = Some (zlen pre + zlen body).
Proof.
  induction sp as [|c sp IH] using rev_ind; intros pre body post fuel Hd Hsp Hb Hf; (destruct fuel as [|fuel]; [lia|]); cbn [strip_end].
  - change (zlen []) with 0. rewrite Z.add_0_r. destruct Hb as [->|(t & c & -> & Hc)].
    + change (zlen []) with 0. rewrite Z.add_0_r, Z.ltb_irrefl. done.
    + rewrite (proj2 (Z.ltb_lt _ _)) by (rewrite length_app; cbn [length]; lia).
      assert (zlen pre + zlen (t ++ [c]) - 1 = zlen (pre ++ t)) as -> by (rewrite !length_app; cbn [length]; lia).
      rewrite (at_in p (pre ++ t) c post) by (rewrite Hd; by rewrite <- !app_assoc). cbn [mbind option_bind]. by rewrite Hc.
  - apply Forall_app in Hsp as [Hsp Hc]. apply Forall_cons in Hc as [Hc _]. rewrite length_app in Hf |- *. cbn [length] in *.
    rewrite (proj2 (Z.ltb_lt _ _)) by lia.
    assert (zlen pre + zlen body + Z.of_nat (length sp + 1) - 1 = zlen ((pre ++ body) ++ sp)) as E by (rewrite !length_app; lia). rewrite E.
    rewrite (at_in p ((pre ++ body) ++ sp) c post) by (rewrite Hd; by rewrite <- !app_assoc). cbn [mbind option_bind]. rewrite Hc, !length_app, !Nat2Z.inj_add.
    apply (IH pre body (c :: post)); try done; [rewrite Hd; by rewrite <- !app_assoc|lia].
Qed.

(** ** Formatting *)

(** States that differ in the line and the previous chunk only. *)
Definition same (p p' : template_parser) : Prop :=
  p_data p' = p_data p /\ p_off p' = p_off p /\ p_in_expr p' = p_in_expr p /\ p_strip_before p' = p_strip_before p /\
  p_strip_after p' = p_strip_after p /\ p_cur p' = p_cur p.

Section run.
Context (can_alloc : Z -> bool) (junk : Z) (lookup : list Z -> option (list Z)).
Context (Hmem : forall n, 0 < n < 2 ^ 31 -> can_alloc n = true).
Context (Hlook : forall s t, lookup s = Some t -> zlen t <= 2 ^ 24).
#[local] Abbreviation format_chunk := (template_format_chunk can_alloc junk lookup).
#[local] Abbreviation reader := (template_reader can_alloc junk lookup).
#[local] Abbreviation lua_of := (lua_of lookup).

Lemma emits_code s : exists a, emits (append_code can_alloc junk s) a s.
Proof. unfold append_code. destruct (decide (s = [])) as [->|Hne]; eexists; [apply emits_ret|by apply emits_append]. Qed.

Lemma emits_body t body : body <> [] -> emits (format_body can_alloc junk lookup t body) () (content lookup t body).
Proof.
  intros Hne. destruct t; cbn [format_body content]; unfold luastr_translate; try apply emits_ret; try (by apply emits_luastr_escape);
    (rewrite <- (app_nil_r body) at 2; eapply emits_bind; [by apply emits_append|apply emits_ret]).
Qed.

Lemma escaped_length x s : zlen (escaped x s) <= 5 * zlen s.
Proof.
  induction s as [|c s IH]; [done|]. change (escaped x (c :: s)) with (escape_out x c ++ escaped x s). rewrite length_app. cbn [length].
  assert (zlen (escape_out x c) <= 5) by (unfold escape_out; repeat case_match; cbn [entity length]; lia). lia.
Qed.

Lemma content_length t body : zlen body <= 2 ^ 24 -> zlen (content lookup t body) <= 5 * 2 ^ 24.
Proof.
  intros Hl. pose proof (escaped_length false body). pose proof (escaped_length true body). pose proof (escaped_length false (default body (lookup body))).
  pose proof (escaped_length true (default body (lookup body))).
  assert (zlen (default body (lookup body)) <= 2 ^ 24) by (destruct (lookup body) eqn:E; [by apply (Hlook body)|done]).
  destruct t; cbn [content]; cbn [length]; lia.
Qed.

Lemma gen_code_length t : zlen (gen_code t).1 <= 20 /\ zlen (gen_code t).2 <= 20.
Proof. destruct t; split; vm_compute; discriminate. Qed.

(** The end of the previous chunk after stripping. *)
Definition stripped_end (p : template_parser) : option Z :=
  let c := p_prv p in
  if p_strip_before p then match c_type c with T_TYPE_TEXT => strip_end (fuel_of p) p (c_s c) (c_e c) | _ => Some (c_e c) end else Some (c_e c).

Lemma format_empty p : stripped_end p = Some (c_s (p_prv p)) -> c_type (p_prv p) <> T_TYPE_EOF ->
  exists p', format_chunk p = Some (Some [32], p') /\ same p p'.
Proof.
  intros He Ht. unfold template_format_chunk. fold (stripped_end p). rewrite He. cbn [mbind option_bind]. rewrite Z.eqb_refl.
  destruct (c_type (p_prv p)) eqn:E; try done; by eexists.
Qed.

Lemma format_piece p pre body post t : p_data p = pre ++ body ++ post -> c_s (p_prv p) = zlen pre -> c_type (p_prv p) = t ->
  stripped_end p = Some (zlen pre + zlen body) -> t <> T_TYPE_EOF -> (t = T_TYPE_INIT -> body = []) -> zlen (p_data p) <= 2 ^ 24 ->
  exists p', format_chunk p = Some (Some (lua_of t body), p') /\ same p p'.
Proof.
  intros Hd Hs Ht He Hneof Hninit Hl. destruct (decide (body = [])) as [->|Hne].
  { destruct (format_empty p) as (p' & Hf & Hsame); [rewrite He, Hs; f_equal; cbn [length]; lia|by rewrite Ht|]. exists p'. rewrite Hf. split; [|done].
    by destruct t. }
  assert (0 < zlen body) as Hb by (destruct body; [done|cbn [length]; lia]).
  assert (zlen body <= 2 ^ 24) as Hb24 by (rewrite Hd, !length_app in Hl; lia).
  unfold template_format_chunk. fold (stripped_end p). rewrite He. cbn [mbind option_bind]. rewrite Hs, Ht, (proj2 (Z.eqb_neq _ _)) by lia.
  replace (zlen pre + zlen body - zlen pre) with (zlen body) by lia. cbn [with_prv p_data]. rewrite Hd, zslice_app. cbn [mbind option_bind].
  destruct (init_rep can_alloc junk Hmem (zlen body)) as (b & Hb0 & Hrep); [lia|]. rewrite s32_id in Hb0 by lia. rewrite Hb0.
  destruct (emits_code (gen_code t).1) as [a1 H1]. destruct (emits_code (gen_code t).2) as [a2 H2].
  assert (emits (_ ← append_code can_alloc junk (gen_code t).1; _ ← format_body can_alloc junk lookup t body; append_code can_alloc junk (gen_code t).2) a2
    ((gen_code t).1 ++ content lookup t body ++ (gen_code t).2)) as Hem.
  { apply emits_drop; [by exists a1|]. eapply emits_bind; [by apply emits_body|done]. }
  set (out := (gen_code t).1 ++ content lookup t body ++ (gen_code t).2) in *.
  assert (zlen out <= 5 * 2 ^ 24 + 40) as Hout by (unfold out; rewrite !length_app; pose proof (gen_code_length t); pose proof (content_length t body Hb24); lia).
  destruct (Hem _ _ _ Hrep) as (b' & -> & tl & -> & _); [lia|cbn [length]; lia|]. cbn [mbind option_bind app buf_destroy b_data buf_length b_fill].
  rewrite zslice_head. cbn [mbind option_bind].
  assert ((if decide (out = []) then [32] else out) = lua_of t body) as ->; [|by eexists].
  unfold out. destruct body; [done|]. destruct t; try done. by specialize (Hninit eq_refl).
Qed.

(** The part of the template the current chunk covers. *)
Definition pending (p : template_parser) (t : t_type) (body : list Z) : Prop :=
  exists pre post, p_data p = pre ++ body ++ post /\ p_cur p = Chunk (zlen pre) (zlen pre + zlen body) t (c_line (p_cur p)).

Definition stripped (before : bool) (t : t_type) (body : list Z) : list Z :=
  match t with T_TYPE_TEXT => if before then rstrip body else body | _ => body end.

Lemma format_pending p q t body : pending p t body -> p_data q = p_data p -> p_prv q = p_cur p -> t <> T_TYPE_EOF -> (t = T_TYPE_INIT -> body = []) ->
  zlen (p_data p) <= 2 ^ 24 ->
  exists q', format_chunk q = Some (Some (lua_of t (stripped (p_strip_before q) t body)), q') /\ same q q'.
Proof.
  intros (pre & post & Hd & Hc) Hq Hp Ht Hi Hl. rewrite <- Hq in Hd, Hl.
  assert (p_strip_before q = true /\ t = T_TYPE_TEXT \/ stripped (p_strip_before q) t body = body /\ stripped_end q = Some (zlen pre + zlen body)) as [[Hb ->]|[E1 E2]].
  { unfold stripped_end. rewrite Hp, Hc. cbn [c_type c_s c_e stripped]. destruct (p_strip_before q), t; auto. }
  - cbn [stripped]. rewrite Hb. destruct (rstrip_split body) as (sp & E & Hsp & Hr). rewrite E, <- app_assoc in Hd.
    eapply (format_piece q pre (rstrip body) (sp ++ post)); try done; [by rewrite Hp, Hc|by rewrite Hp, Hc|]. unfold stripped_end. rewrite Hb, Hp, Hc. cbn [c_type c_s c_e].
    rewrite E at 1. rewrite length_app, Nat2Z.inj_add, Z.add_assoc. apply (strip_end_spec q sp pre (rstrip body) post); try done.
    unfold fuel_of. rewrite Hd, !length_app. lia.
  - rewrite E1. eapply (format_piece q pre body post); try done; by rewrite Hp, Hc.
Qed.
End run.

(** ** Cutting *)

Lemma template_text_spec p pre t post : p_data p = pre ++ t ++ post -> p_off p = zlen pre -> t ++ post <> [] ->
  match post with c :: _ => is_space c = false | [] => True end ->
  exists c, template_text p (zlen pre + zlen t) = Some (with_cur p c) /\
    pending (with_cur p c) T_TYPE_TEXT (if p_strip_after p then lstrip t else t).
Proof.
  intros Hd Ho Hne Hpost. unfold template_text. rewrite Ho. unfold t_size. rewrite (proj2 (Z.ltb_lt _ _)).
  2: { rewrite Hd, length_app. destruct (t ++ post); [done|cbn [length]; lia]. }
  destruct (p_strip_after p); cbn [mbind option_bind].
  2: { eexists. split; [done|]. by exists pre, post. }
  destruct (lstrip_split t) as (sp & E & Hsp & Hh). assert (exists c, at_ p (zlen pre + zlen sp) = Some c /\ is_space c = false) as (c & Hc & Hcs).
  { destruct (lstrip t) as [|c t'] eqn:El; [destruct post as [|c post]|].
    - exists 0. split; [|done]. rewrite <- (at_end p). f_equal. unfold t_size. rewrite Hd, E, !length_app. cbn [length]. lia.
    - exists c. split; [|done]. rewrite <- Nat2Z.inj_add, <- length_app. apply (at_in p (pre ++ sp) c post). rewrite Hd, E. by rewrite <- !app_assoc.
    - exists c. split; [|done]. rewrite <- Nat2Z.inj_add, <- length_app. apply (at_in p (pre ++ sp) c (t' ++ post)). rewrite Hd, E. by rewrite <- !app_assoc. }
  assert (zlen t = zlen sp + zlen (lstrip t)) as Hlen by (rewrite E at 1; rewrite length_app; lia).
  rewrite (skip_chars_spec is_space p _ sp pre (lstrip t ++ post)); [|by rewrite Hd, E at 1; rewrite <- app_assoc|done|lia|intros; congruence|eauto|].
  2: { unfold fuel_of. rewrite Hd, !length_app. lia. }
  cbn [mbind option_bind]. eexists. split; [done|]. exists (pre ++ sp), post. cbn [with_cur p_data p_cur c_line]. split; [rewrite Hd, E at 1; by rewrite <- !app_assoc|].
  rewrite length_app, Nat2Z.inj_add. f_equal; lia.
Qed.

(** A tag the parser takes for what it is. *)
Definition tag_ok (g : tag) : Prop :=
  (exists c, head (tag_core g) = Some c /\ tag_type c = (g_type g, zlen (tag_char (g_type g))) /\ if g_before g then is_blank c = false else c <> 45) /\
  (g_after g = false -> last (tag_core g) <> Some 45) /\ strfind (tag_inner g) (bs "%>") = None.

Definition text_ok (t : list Z) : Prop := strfind t (bs "<%") = None.

Lemma at_last p pre s c post : p_data p = pre ++ s ++ post -> last s = Some c -> at_ p (zlen pre + zlen s - 1) = Some c.
Proof.
  intros Hd Hl. apply last_Some in Hl as [s' ->]. replace (zlen pre + zlen (s' ++ [c]) - 1) with (zlen (pre ++ s')) by (rewrite !length_app; cbn [length]; lia).
  apply (at_in p (pre ++ s') c post). rewrite Hd. by rewrite <- !app_assoc.
Qed.

(** The character behind the hyphen of a tag that strips. *)
Lemma skip_none pred p pre c post e fuel : p_data p = pre ++ c :: post -> pred c = false -> zlen pre <= e -> (0 < fuel)%nat ->
  skip_chars pred fuel p (zlen pre) e = Some (zlen pre).
Proof.
  intros Hd Hc He Hf. destruct fuel as [|fuel]; [lia|]. cbn [skip_chars]. rewrite (proj2 (Z.leb_le _ _)) by lia. rewrite (at_in p pre c post) by done.
  cbn [mbind option_bind]. by rewrite Hc.
Qed.

Lemma template_code_spec p pre g post : tag_ok g -> p_data p = pre ++ tag_inner g ++ post -> p_off p = zlen pre ->
  exists c, template_code p (zlen pre + zlen (tag_inner g)) = Some (with_cur (with_strip p (g_before g) (g_after g)) c) /\
    pending (with_cur (with_strip p (g_before g) (g_after g)) c) (g_type g) (g_body g).
Proof.
  intros ((c & Hc & Htype & Hb) & Ha & _) Hd Ho. unfold template_code. rewrite Ho.
  set (pre' := pre ++ if g_before g then [45] else []). set (post' := (if g_after g then [45] else []) ++ post).
  assert (p_data p = pre' ++ tag_core g ++ post') as Hd' by (unfold pre', post'; rewrite Hd; unfold tag_inner; by rewrite <- !app_assoc).
  apply head_Some in Hc as [core Hcore].
  assert (at_ p (zlen pre) = Some (if g_before g then 45 else c)) as ->.
  { unfold tag_inner in Hd. rewrite Hcore in Hd. destruct (g_before g); (eapply at_in; rewrite Hd; reflexivity). }
  cbn [mbind option_bind]. assert ((if g_before g then 45 else c) =? 45 = g_before g) as -> by (destruct (g_before g); [done|by apply Z.eqb_neq]).
  assert (zlen pre + zlen (tag_inner g) = zlen pre' + zlen (tag_core g) + if g_after g then 1 else 0) as ->.
  { unfold pre', tag_inner. rewrite !length_app. destruct (g_before g), (g_after g); cbn [length]; lia. }
  set (e := zlen pre' + zlen (tag_core g) + if g_after g then 1 else 0).
  assert (zlen pre' + 1 <= e) as He by (unfold e; rewrite Hcore; cbn [length]; destruct (g_after g); lia).
  assert ((if g_before g then skip_chars is_blank (fuel_of p) p (zlen pre + 1) e else Some (zlen pre)) = Some (zlen pre')) as ->.
  { unfold pre'. destruct (g_before g); [|by rewrite app_nil_r]. assert (zlen pre + 1 = zlen (pre ++ [45])) as -> by (rewrite length_app; cbn [length]; lia).
    apply (skip_none is_blank p _ c (core ++ post')); [by rewrite Hd', Hcore|done|unfold pre' in He; lia|unfold fuel_of; lia]. }
  cbn [mbind option_bind].
  assert (exists l, at_ p (e - 1) = Some l /\ (l =? 45) = g_after g) as (l & -> & Hl).
  { unfold e. destruct (g_after g) eqn:Hga.
    - exists 45. split; [|done]. rewrite Z.add_simpl_r, <- Nat2Z.inj_add, <- length_app. apply (at_in p (pre' ++ tag_core g) 45 post). rewrite Hd'. unfold post'. by rewrite <- app_assoc.
    - destruct (last (tag_core g)) as [l|] eqn:El; [|apply last_None in El; by rewrite Hcore in El]. exists l. rewrite Z.add_0_r. split; [by apply (at_last p pre' _ l post')|].
      apply Z.eqb_neq. intros ->. by apply Ha. }
  cbn [mbind option_bind]. rewrite Hl.
  assert ((if g_after g then skip_back is_blank (fuel_of p) p (zlen pre') (e - 1) else Some e) = Some (zlen pre' + zlen (tag_core g))) as ->.
  { unfold e. destruct (g_after g) eqn:Hga; [|f_equal; lia]. rewrite Z.add_simpl_r. unfold fuel_of. cbn [skip_back]. rewrite (proj2 (Z.leb_le _ _)) by lia.
    rewrite <- Nat2Z.inj_add, <- length_app. rewrite (at_in p (pre' ++ tag_core g) 45 post); [done|]. rewrite Hd'. unfold post'. by rewrite <- app_assoc. }
  cbn [mbind option_bind]. rewrite (at_in p pre' c (core ++ post')) by (by rewrite Hd', Hcore). cbn [mbind option_bind]. rewrite Htype.
  eexists. split; [done|]. exists (pre' ++ tag_char (g_type g)), post'. cbn [with_cur with_strip p_data p_cur c_line].
  split; [rewrite Hd'; unfold tag_core; by rewrite <- !app_assoc|]. unfold tag_core. rewrite !length_app, !Nat2Z.inj_add. f_equal; lia.
Qed.

(** ** The reader *)

(** The parser before a call: its template, place, mode and flags, and the chunk still to be
    formatted. *)
Record waits (p : template_parser) (data : list Z) (off : Z) (in_expr before after : bool) (t : t_type) (body : list Z) : Prop := {
  w_data : p_data p = data; w_off : p_off p = off; w_expr : p_in_expr p = in_expr;
  w_before : p_strip_before p = before; w_after : p_strip_after p = after; w_pending : pending p t body
}.

Lemma waits_same p q data off x b a t body : same p q -> waits p data off x b a t body -> waits q data off x b a t body.
Proof.
  intros (H1 & H2 & H3 & H4 & H5 & H6) [W1 W2 W3 W4 W5 (pre & post & Hd & Hc)]. split; try congruence.
  exists pre, post. rewrite H1, H6. done.
Qed.

(** A chunk that can be formatted. *)
Definition formatted (t : t_type) (body : list Z) : Prop := t <> T_TYPE_EOF /\ (t = T_TYPE_INIT -> body = []).

Lemma tag_formatted g : tag_ok g -> formatted (g_type g) (g_body g) /\ forall b, stripped b (g_type g) (g_body g) = g_body g.
Proof.
  intros ((c & _ & Ht & _) & _). unfold tag_type in Ht. repeat case_match; inversion Ht as [Et]; split; try done; split; done.
Qed.

Section reader.
Context (can_alloc : Z -> bool) (junk : Z) (lookup : list Z -> option (list Z)).
Context (Hmem : forall n, 0 < n < 2 ^ 31 -> can_alloc n = true).
Context (Hlook : forall s t, lookup s = Some t -> zlen t <= 2 ^ 24).
Context (data : list Z) (Hdata : zlen data <= 2 ^ 24).
#[local] Abbreviation reader := (template_reader can_alloc junk lookup).
#[local] Abbreviation lua_of := (lua_of lookup).

(** A call that leaves a new chunk formats the one that was waiting. *)
Lemma step_formats p q off x b a t body off' x' b' a' t' body' : waits p data off x b a t body -> formatted t body ->
  waits q data off' x' b' a' t' body' -> p_prv q = p_cur p ->
  exists q', template_format_chunk can_alloc junk lookup q = Some (Some (lua_of t (stripped b' t body)), q') /\ waits q' data off' x' b' a' t' body'.
Proof.
  intros [W1 W2 W3 W4 W5 W6] [Ht Hi] Wq Hprv. destruct (format_pending can_alloc junk lookup Hmem Hlook p q t body) as (q' & Hf & Hsame); try done.
  - by rewrite W1, (w_data _ _ _ _ _ _ _ _ Wq).
  - by rewrite W1.
  - exists q'. rewrite Hf, (w_before _ _ _ _ _ _ _ _ Wq). split; [done|]. by eapply waits_same.
Qed.

(** The call, at the place it has come to. *)
Lemma reader_at p pre rest x b a ty body : data = pre ++ rest -> waits p data (zlen pre) x b a ty body ->
  reader p = let q := with_prv p (p_cur p) in
    if x then match strfind rest [37; 62] with
      | Some k => q ← template_code q (zlen pre + k); template_format_chunk can_alloc junk lookup (with_off q (zlen pre + k + 2) false)
      | None => q ← template_code q (zlen data); Some (Some [27], q)
      end
    else match strfind rest [60; 37] with
      | Some k => q ← template_text q (zlen pre + k); template_format_chunk can_alloc junk lookup (with_off q (zlen pre + k + 2) true)
      | None => q ← template_text q (zlen data); template_format_chunk can_alloc junk lookup (with_off q (zlen data) false)
      end.
Proof.
  intros Hd [W1 W2 W3 W4 W5 W6]. unfold template_reader, t_size. cbn [with_prv p_in_expr p_off p_data]. rewrite W1, W2, W3.
  assert (drop (Z.to_nat (zlen pre)) data = rest) as -> by (rewrite Nat2Z.id, Hd; apply drop_app_length). by destruct x.
Qed.

Lemma reader_text p pre t rest b a ty body : data = pre ++ t ++ bs "<%" ++ rest -> text_ok t -> waits p data (zlen pre) false b a ty body -> formatted ty body ->
  exists p', reader p = Some (Some (lua_of ty (stripped b ty body)), p') /\
    waits p' data (zlen (pre ++ t ++ bs "<%")) true b a T_TYPE_TEXT (if a then lstrip t else t).
Proof.
  intros Hd Ht W Hf. rewrite (reader_at _ _ _ _ _ _ _ _ Hd W). cbn zeta iota. set (q := with_prv p (p_cur p)). destruct W as [W1 W2 W3 W4 W5 W6].
  change (bs "<%") with [60; 37] in *. cbn [app]. rewrite strfind_app; [|done|done].
  destruct (template_text_spec q pre t ([60; 37] ++ rest)) as (c & -> & Hp); [exact (eq_trans W1 Hd)|done|by destruct t|done|]. cbn [mbind option_bind].
  eapply (step_formats p); [by constructor| |constructor; try done|done].
  - done.
  - cbn [with_off p_off]. rewrite !length_app. cbn [length]. lia.
  - by rewrite <- W5.
Qed.

Lemma reader_tag p pre g rest b a ty body : data = pre ++ tag_inner g ++ bs "%>" ++ rest -> tag_ok g -> waits p data (zlen pre) true b a ty body -> formatted ty body ->
  exists p', reader p = Some (Some (lua_of ty (stripped (g_before g) ty body)), p') /\
    waits p' data (zlen (pre ++ tag_inner g ++ bs "%>")) false (g_before g) (g_after g) (g_type g) (g_body g).
Proof.
  intros Hd Hok W Hf. rewrite (reader_at _ _ _ _ _ _ _ _ Hd W). cbn zeta iota. set (q := with_prv p (p_cur p)). destruct W as [W1 W2 W3 W4 W5 W6].
  change (bs "%>") with [37; 62] in *. cbn [app]. rewrite strfind_app; [|done|apply Hok].
  destruct (template_code_spec q pre g ([37; 62] ++ rest)) as (c & -> & Hp); [done|exact (eq_trans W1 Hd)|done|]. cbn [mbind option_bind].
  eapply (step_formats p); [by constructor|done|constructor; try done|done].
  cbn [with_off p_off]. rewrite !length_app. cbn [length]. lia.
Qed.

(** The last text. *)
Lemma reader_last p pre t b a ty body : data = pre ++ t -> t <> [] -> text_ok t -> waits p data (zlen pre) false b a ty body -> formatted ty body ->
  exists p', reader p = Some (Some (lua_of ty (stripped b ty body)), p') /\ waits p' data (zlen data) false b a T_TYPE_TEXT (if a then lstrip t else t).
Proof.
  intros Hd Hne Ht W Hf. rewrite (reader_at _ _ _ _ _ _ _ _ Hd W). cbn zeta iota. set (q := with_prv p (p_cur p)). destruct W as [W1 W2 W3 W4 W5 W6].
  unfold text_ok in Ht. change (bs "<%") with [60; 37] in *. rewrite Ht. assert (zlen data = zlen pre + zlen t) as Hlen by (rewrite Hd, length_app; lia). rewrite Hlen.
  destruct (template_text_spec q pre t []) as (c & -> & Hp); [rewrite app_nil_r; exact (eq_trans W1 Hd)|done|by rewrite app_nil_r|done|]. cbn [mbind option_bind].
  eapply (step_formats p); [by constructor|done|constructor; try done|done]. by rewrite <- W5.
Qed.

(** At the end: the chunk that was waiting, then nothing. *)
Lemma cut_eof p b a ty body : waits p data (zlen data) false b a ty body ->
  exists q, template_text (with_prv p (p_cur p)) (zlen data) = Some q /\ waits (with_off q (zlen data) false) data (zlen data) false b a T_TYPE_EOF [] /\ p_prv q = p_cur p /\
  reader p = template_format_chunk can_alloc junk lookup (with_off q (zlen data) false).
Proof.
  intros W. rewrite (reader_at p data [] false b a ty body) by (by rewrite ?app_nil_r). cbn [strfind]. destruct W as [W1 W2 W3 W4 W5 W6].
  unfold template_text, t_size. cbn [with_prv p_data p_off]. rewrite W1, W2, Z.ltb_irrefl. eexists. split; [done|].
  cbn [mbind option_bind]. split; [|done]. constructor; try done.
  exists data, []. cbn [with_off with_cur p_data p_cur length]. rewrite app_nil_r. split; [done|]. cbn [c_line with_prv p_line]. f_equal; lia.
Qed.

Lemma reader_eof p b a ty body : waits p data (zlen data) false b a ty body -> formatted ty body ->
  exists p', reader p = Some (Some (lua_of ty (stripped b ty body)), p') /\ waits p' data (zlen data) false b a T_TYPE_EOF [].
Proof. intros W Hf. destruct (cut_eof p b a ty body W) as (q & _ & Wq & Hp & ->). by eapply (step_formats p). Qed.

Lemma reader_done p b a : waits p data (zlen data) false b a T_TYPE_EOF [] -> exists p', reader p = Some (None, p').
Proof.
  intros W. destruct (cut_eof p b a T_TYPE_EOF [] W) as (q & _ & Wq & Hp & ->). destruct (w_pending _ _ _ _ _ _ _ _ W) as (pre & post & Hd & Hc).
  unfold template_format_chunk. cbn [with_off p_prv p_strip_before]. rewrite Hp, Hc. cbn [c_type c_s c_e length]. rewrite Z.add_0_r.
  destruct (p_strip_before q); cbn [mbind option_bind]; rewrite Z.eqb_refl; by eexists.
Qed.

(** ** The whole template *)

Lemma read_last last : text_ok last -> forall p pre b a ty body fuel, data = pre ++ last -> waits p data (zlen pre) false b a ty body -> formatted ty body ->
  (3 <= fuel)%nat -> read_all can_alloc junk lookup fuel p = Some (lua_of ty (stripped b ty body) :: compile lookup b a [] last).
Proof.
  intros Ht p pre b a ty body [|[|[|fuel]]] Hd W Hf Hfuel; try lia. destruct (decide (last = [])) as [->|Hne].
  - rewrite app_nil_r in Hd. subst pre. destruct (reader_eof p b a ty body W Hf) as (p1 & H1 & W1). destruct (reader_done p1 b a W1) as (p2 & H2).
    cbn [read_all]. rewrite H1. cbn [mbind option_bind]. by rewrite H2.
  - destruct (reader_last p pre last b a ty body Hd Hne Ht W Hf) as (p1 & H1 & W1).
    destruct (reader_eof p1 _ _ _ _ W1) as (p2 & H2 & W2); [done|]. destruct (reader_done p2 b a W2) as (p3 & H3).
    cbn [read_all]. rewrite H1. cbn [mbind option_bind]. rewrite H2. cbn [mbind option_bind]. rewrite H3. destruct last; [done|]. by destruct b.
Qed.

Lemma read_tags last tgs : text_ok last -> Forall (fun tg => text_ok tg.1 /\ tag_ok tg.2) tgs -> forall p pre b a ty body fuel,
  data = pre ++ render tgs last -> waits p data (zlen pre) false b a ty body -> formatted ty body -> (2 * length tgs + 3 <= fuel)%nat ->
  read_all can_alloc junk lookup fuel p = Some (lua_of ty (stripped b ty body) :: compile lookup b a tgs last).
Proof.
  intros Hl. induction tgs as [|[t g] tgs IH]; intros Hok p pre b a ty body fuel Hd W Hf Hfuel; [by eapply read_last|].
  apply Forall_cons in Hok as [[Ht Hg] Hok]. cbn [fst snd length] in *. destruct fuel as [|[|fuel]]; try lia.
  assert (data = pre ++ t ++ bs "<%" ++ tag_inner g ++ bs "%>" ++ render tgs last) as Hd1.
  { rewrite Hd. unfold render. rewrite fmap_cons. cbn [concat fst snd]. by rewrite <- !app_assoc. }
  destruct (reader_text p pre t _ b a ty body Hd1 Ht W Hf) as (p1 & H1 & W1).
  assert (data = (pre ++ t ++ bs "<%") ++ tag_inner g ++ bs "%>" ++ render tgs last) as Hd2 by (rewrite Hd1; by rewrite <- !app_assoc).
  destruct (reader_tag p1 _ g _ b a _ _ Hd2 Hg W1) as (p2 & H2 & W2); [done|]. destruct (tag_formatted g Hg) as [Hfg Hsg].
  cbn [read_all]. rewrite H1. cbn [mbind option_bind]. rewrite H2. cbn [mbind option_bind].
  rewrite (IH Hok p2 ((pre ++ t ++ bs "<%") ++ tag_inner g ++ bs "%>") (g_before g) (g_after g) (g_type g) (g_body g) fuel); try done; [|rewrite Hd2; by rewrite <- !app_assoc|lia].
  by rewrite Hsg.
Qed.
End reader.

Lemma render_length tgs last : (4 * length tgs <= length (render tgs last))%nat.
Proof.
  unfold render. rewrite length_app. induction tgs as [|[t g] tgs IH]; [cbn [length]; lia|]. rewrite fmap_cons. cbn [concat length fst snd]. rewrite !length_app.
  change (length (bs "<%")) with 2%nat. change (length (bs "%>")) with 2%nat. lia.
Qed.


