(* ===== verification/Multipart.v ===== *)
(** The parser of uploaded forms (realtek/packages/net/cgi-io/src/multipart_parser.c): a state
    machine over the characters of a body that comes in pieces, which calls back for headers,
    data and the ends of parts. *)

From S2P Require Import Prelude Libc.

(** ** State *)

Inductive state :=
  | s_uninitialized | s_start | s_start_boundary | s_header_field_start | s_header_field | s_headers_almost_done
  | s_header_value_start | s_header_value | s_header_value_almost_done | s_part_data_start | s_part_data
  | s_part_data_almost_boundary | s_part_data_boundary | s_part_data_almost_end | s_part_data_end
  | s_part_data_final_hyphen | s_end.

#[global] Instance state_eq_dec : EqDecision state.
Proof. solve_decision. Defined.

(** The boundary is kept with its NUL; [lookbehind] is the rest of the same block. *)
Record multipart_parser := MP { mp_index : Z; mp_boundary : list Z; mp_state : state; mp_lookbehind : list Z }.

Definition boundary_length (p : multipart_parser) : Z := zlen (mp_boundary p).

Definition set_state (p : multipart_parser) (st : state) : multipart_parser := MP (mp_index p) (mp_boundary p) st (mp_lookbehind p).
Definition set_index (p : multipart_parser) (n : Z) : multipart_parser := MP n (mp_boundary p) (mp_state p) (mp_lookbehind p).
Definition set_lookbehind (p : multipart_parser) (k c : Z) : option multipart_parser :=
  l ← zset (mp_lookbehind p) k c; Some (MP (mp_index p) (mp_boundary p) (mp_state p) l).

(** The functions a client sets; each may be [NULL].  A data function gets the memory from its
    pointer on and the length it is to use; a result other than 0 stops the parser. *)
Record multipart_parser_settings (S : Type) := Settings {
  on_header_field : option (S -> list Z -> Z -> option (S * Z));
  on_header_value : option (S -> list Z -> Z -> option (S * Z));
  on_part_data : option (S -> list Z -> Z -> option (S * Z));
  on_part_data_begin : option (S -> option (S * Z));
  on_headers_complete : option (S -> option (S * Z));
  on_part_data_end : option (S -> option (S * Z));
  on_body_end : option (S -> option (S * Z))
}.
Arguments Settings {S} _ _ _ _ _ _ _.
Arguments on_header_field {S} _.
Arguments on_header_value {S} _.
Arguments on_part_data {S} _.
Arguments on_part_data_begin {S} _.
Arguments on_headers_complete {S} _.
Arguments on_part_data_end {S} _.
Arguments on_body_end {S} _.

(** The block has [sizeof(multipart_parser)] (28, the boundary starting at 24) and twice the
    boundary and 9 bytes, so that 12 and the boundary are left for [lookbehind]; [malloc] is not
    checked. *)
Definition multipart_parser_init (can_alloc : Z -> bool) (junk : Z) (boundary : list Z) : option multipart_parser :=
  if can_alloc (28 + zlen boundary + zlen boundary + 9) then Some (MP 0 boundary s_start (replicate (length boundary + 12) junk)) else None.

Definition LF : Z := 10.
Definition CR : Z := 13.

Definition tolower (c : Z) : Z := if (65 <=? c) && (c <=? 90) then c + 32 else c.

(** ** One character *)

Section execute.
Context {S : Type} (settings : multipart_parser_settings S).

(** [return i], or on to the next round with the position after [++i] and the mark. *)
Inductive round := Return (s : S) (p : multipart_parser) (i : Z) | Next (s : S) (p : multipart_parser) (i mark : Z).

Definition NOTIFY_CB (cb : option (S -> option (S * Z))) (s : S) (p : multipart_parser) (i : Z) (k : S -> option round) : option round :=
  match cb with
  | None => k s
  | Some f => '(s, r) ← f s; if r =? 0 then k s else Some (Return s p i)
  end.

Definition EMIT_DATA_CB (cb : option (S -> list Z -> Z -> option (S * Z))) (s : S) (p : multipart_parser) (i : Z) (ptr : list Z) (len : Z)
    (k : S -> option round) : option round :=
  match cb with
  | None => k s
  | Some f => '(s, r) ← f s ptr len; if r =? 0 then k s else Some (Return s p i)
  end.

Section char.
Context (buf : list Z) (i : Z) (c : Z) (is_last : bool).

(** [buf + mark] *)
Definition from (mark : Z) : list Z := drop (Z.to_nat mark) buf.

Definition start_boundary (s : S) (p : multipart_parser) (mark : Z) : option round :=
  if mp_index p =? boundary_length p then
    if negb (c =? CR) then Some (Return s p i) else Some (Next s (set_index p (mp_index p + 1)) (i + 1) mark)
  else if mp_index p =? boundary_length p + 1 then
    if negb (c =? LF) then Some (Return s p i)
    else
      let p := set_index p 0 in
      NOTIFY_CB (on_part_data_begin settings) s p i (fun s => Some (Next s (set_state p s_header_field_start) (i + 1) mark))
  else
    b ← zget (mp_boundary p ++ [0]) (mp_index p);
    if negb (c =? b) then Some (Return s p i) else Some (Next s (set_index p (mp_index p + 1)) (i + 1) mark).

Definition in_header_field (s : S) (p : multipart_parser) (mark : Z) : option round :=
  if c =? CR then Some (Next s (set_state p s_headers_almost_done) (i + 1) mark)
  else if c =? 45 then Some (Next s p (i + 1) mark)
  else if c =? 58 then
    EMIT_DATA_CB (on_header_field settings) s p i (from mark) (i - mark) (fun s => Some (Next s (set_state p s_header_value_start) (i + 1) mark))
  else
    let cl := tolower c in
    if (cl <? 97) || (122 <? cl) then Some (Return s p i)
    else if is_last then
      EMIT_DATA_CB (on_header_field settings) s p i (from mark) (i - mark + 1) (fun s => Some (Next s p (i + 1) mark))
    else Some (Next s p (i + 1) mark).

Definition header_value_last (s : S) (p : multipart_parser) (mark : Z) : option round :=
  if is_last then
    EMIT_DATA_CB (on_header_value settings) s p i (from mark) (i - mark + 1) (fun s => Some (Next s p (i + 1) mark))
  else Some (Next s p (i + 1) mark).

Definition in_header_value (s : S) (p : multipart_parser) (mark : Z) : option round :=
  if c =? CR then
    EMIT_DATA_CB (on_header_value settings) s p i (from mark) (i - mark) (fun s => header_value_last s (set_state p s_header_value_almost_done) mark)
  else header_value_last s p mark.

Definition part_data (s : S) (p : multipart_parser) (mark : Z) : option round :=
  if c =? CR then
    EMIT_DATA_CB (on_part_data settings) s p i (from mark) (i - mark) (fun s =>
      p ← set_lookbehind (set_state p s_part_data_almost_boundary) 0 CR; Some (Next s p (i + 1) i))
  else if is_last then
    EMIT_DATA_CB (on_part_data settings) s p i (from mark) (i - mark + 1) (fun s => Some (Next s p (i + 1) mark))
  else Some (Next s p (i + 1) mark).

(** The boundary goes on or the characters held back were data; [mark = i --] and [++ i] leave
    [i] where it is. *)
Definition part_data_boundary (s : S) (p : multipart_parser) (mark : Z) : option round :=
  b ← zget (mp_boundary p ++ [0]) (mp_index p);
  if negb (b =? c) then
    EMIT_DATA_CB (on_part_data settings) s p i (mp_lookbehind p) (2 + mp_index p) (fun s => Some (Next s (set_state p s_part_data) i i))
  else
    p ← set_lookbehind p (2 + mp_index p) c;
    let p := set_index p (mp_index p + 1) in
    if mp_index p =? boundary_length p then
      NOTIFY_CB (on_part_data_end settings) s p i (fun s => Some (Next s (set_state p s_part_data_almost_end) (i + 1) mark))
    else Some (Next s p (i + 1) mark).

Definition step (s : S) (p : multipart_parser) (mark : Z) : option round :=
  match mp_state p with
  | s_start => start_boundary s (set_state (set_index p 0) s_start_boundary) mark
  | s_start_boundary => start_boundary s p mark
  | s_header_field_start => in_header_field s (set_state p s_header_field) i
  | s_header_field => in_header_field s p mark
  | s_headers_almost_done => if negb (c =? LF) then Some (Return s p i) else Some (Next s (set_state p s_part_data_start) (i + 1) mark)
  | s_header_value_start => if c =? 32 then Some (Next s p (i + 1) mark) else in_header_value s (set_state p s_header_value) i
  | s_header_value => in_header_value s p mark
  | s_header_value_almost_done => if negb (c =? LF) then Some (Return s p i) else Some (Next s (set_state p s_header_field_start) (i + 1) mark)
  | s_part_data_start => NOTIFY_CB (on_headers_complete settings) s p i (fun s => part_data s (set_state p s_part_data) i)
  | s_part_data => part_data s p mark
  | s_part_data_almost_boundary =>
      if c =? LF then
        p ← set_lookbehind (set_state p s_part_data_boundary) 1 LF; Some (Next s (set_index p 0) (i + 1) mark)
      else
        EMIT_DATA_CB (on_part_data settings) s p i (mp_lookbehind p) 1 (fun s => Some (Next s (set_state p s_part_data) i i))
  | s_part_data_boundary => part_data_boundary s p mark
  | s_part_data_almost_end =>
      if c =? 45 then Some (Next s (set_state p s_part_data_final_hyphen) (i + 1) mark)
      else if c =? CR then Some (Next s (set_state p s_part_data_end) (i + 1) mark)
      else Some (Return s p i)
  | s_part_data_final_hyphen =>
      if c =? 45 then NOTIFY_CB (on_body_end settings) s p i (fun s => Some (Next s (set_state p s_end) (i + 1) mark))
      else Some (Return s p i)
  | s_part_data_end =>
      if c =? LF then
        let p := set_state p s_header_field_start in
        NOTIFY_CB (on_part_data_begin settings) s p i (fun s => Some (Next s p (i + 1) mark))
      else Some (Return s p i)
  | s_end => Some (Next s p (i + 1) mark)
  | s_uninitialized => Some (Return s p 0)
  end.
End char.

(** ** The loop *)

Fixpoint execute_loop (fuel : nat) (buf : list Z) (len : Z) (s : S) (p : multipart_parser) (i mark : Z) : option (S * multipart_parser * Z) :=
  match fuel with
  | O => None
  | Datatypes.S fuel =>
      if i <? len then
        c ← zget buf i;
        r ← step buf i c (i =? len - 1) s p mark;
        match r with
        | Return s p i => Some (s, p, i)
        | Next s p i mark => execute_loop fuel buf len s p i mark
        end
      else Some (s, p, len)
  end.

(** A character is looked at again only after leaving one of the two states that hold data
    back, so twice at most. *)
Definition multipart_parser_execute (s : S) (p : multipart_parser) (buf : list Z) (len : Z) : option (S * multipart_parser * Z) :=
  execute_loop (2 * Z.to_nat len + 1) buf len s p 0 0.
End execute.
