(* ===== verification/MultipartSpec.v ===== *)
(** What the form parser delivers: the same parts however the body is cut into pieces, and
    those that were encoded. *)

From S2P Require Import Prelude Libc Multipart.

(** ** Data and the boundary *)

Section data_phase.
Context (boundary : list Z) (Hboundary : boundary <> []).

(** The data of a part, character by character: what is known to be data, and where the search
    for the boundary stands.  [None] is the boundary. *)
Definition dchar (c : Z) : list Z * option (state * nat) :=
  if c =? CR then ([], Some (s_part_data_almost_boundary, 0%nat)) else ([c], Some (s_part_data, 0%nat)).

Definition dstep (a : state * nat) (c : Z) : list Z * option (state * nat) :=
  match a.1 with
  | s_part_data => dchar c
  | s_part_data_almost_boundary => if c =? LF then ([], Some (s_part_data_boundary, 0%nat)) else (CR :: (dchar c).1, (dchar c).2)
  | s_part_data_boundary =>
      if decide (boundary !! a.2 = Some c) then
        ([], if decide (S a.2 = length boundary) then None else Some (s_part_data_boundary, S a.2))
      else (CR :: LF :: take a.2 boundary ++ (dchar c).1, (dchar c).2)
  | _ => ([], Some a)
  end.

(** All of the data; at the boundary, what is behind it. *)
Fixpoint drun (a : state * nat) (d : list Z) : list Z * (state * nat + list Z) :=
  match d with
  | [] => ([], inl a)
  | c :: d =>
      match dstep a c with
      | (o, None) => (o, inr d)
      | (o, Some a') => let '(os, r) := drun a' d in (o ++ os, r)
      end
  end.

Lemma drun_app d d' : forall a, drun a (d ++ d') =
  match drun a d with (o, inl a') => (o ++ (drun a' d').1, (drun a' d').2) | (o, inr rest) => (o, inr (rest ++ d')) end.
Proof.
  induction d as [|c d IH]; intros a; cbn [app drun]; [by destruct (drun a d')|].
  destruct (dstep a c) as [o [a'|]]; [|done]. rewrite IH. destruct (drun a' d) as [os [a2|rest]]; [by rewrite app_assoc|done].
Qed.

(** A client that takes data as a stream, [hd] for every byte, as long as [J] holds. *)
Context {S : Type} (settings : multipart_parser_settings S) (J : S -> Prop) (hd : S -> Z -> S) (f : S -> list Z -> Z -> option (S * Z)).
Context (Hf : on_part_data settings = Some f).
Context (Hdata : forall s mem len, J s -> 0 <= len <= zlen mem -> f s mem len = Some (foldl hd s (take (Z.to_nat len) mem), 0)).
Context (HJ : forall s c, J s -> J (hd s c)).

Lemma J_foldl d : forall s, J s -> J (foldl hd s d).
Proof. induction d as [|c d IH]; intros s Hs; [done|]. apply IH. by apply HJ. Qed.

(** What has been seen of the piece and not yet handed on. *)
Definition unsent (buf : list Z) (len i mark : Z) : list Z :=
  if i <? len then take (Z.to_nat (i - mark)) (drop (Z.to_nat mark) buf) else [].

(** [v] is the state a client has that gets every byte at once. *)
Definition data_rel (buf : list Z) (len i mark : Z) (p : multipart_parser) (a : state * nat) (s v : S) : Prop :=
  J s /\ 0 <= mark <= i /\ mp_boundary p = boundary /\ length (mp_lookbehind p) = (length boundary + 12)%nat /\ mp_state p = a.1 /\
  match a.1 with
  | s_part_data => v = foldl hd s (unsent buf len i mark)
  | s_part_data_almost_boundary => v = s /\ exists free, mp_lookbehind p = CR :: free
  | s_part_data_boundary => v = s /\ mp_index p = Z.of_nat a.2 /\ (a.2 < length boundary)%nat /\
      exists free, mp_lookbehind p = (CR :: LF :: take a.2 boundary) ++ free
  | _ => False
  end.

Lemma unsent_snoc (buf : list Z) i mark c : 0 <= mark <= i -> zget buf i = Some c ->
  take (Z.to_nat (i - mark + 1)) (drop (Z.to_nat mark) buf) = take (Z.to_nat (i - mark)) (drop (Z.to_nat mark) buf) ++ [c].
Proof.
  intros Hm Hc. pose proof (zget_Some_lt _ _ _ Hc). replace (Z.to_nat (i - mark + 1)) with (Datatypes.S (Z.to_nat (i - mark))) by lia. apply take_S_r.
  rewrite lookup_drop. replace (Z.to_nat mark + Z.to_nat (i - mark))%nat with (Z.to_nat i) by lia. unfold zget in Hc. by destruct (0 <=? i).
Qed.

#[local] Abbreviation loop := (execute_loop settings).

(** A character of data. *)
Lemma part_data_round buf len i mark p c s : J s -> 0 <= mark <= i -> i < len <= zlen buf -> zget buf i = Some c ->
  mp_boundary p = boundary -> length (mp_lookbehind p) = (length boundary + 12)%nat -> mp_state p = s_part_data ->
  exists a' s' p' mark', dchar c = ((dchar c).1, Some a') /\ part_data settings buf i c (i =? len - 1) s p mark = Some (Next s' p' (i + 1) mark') /\
    data_rel buf len (i + 1) mark' p' a' s' (foldl hd (foldl hd s (take (Z.to_nat (i - mark)) (drop (Z.to_nat mark) buf))) (dchar c).1).
Proof.
  intros Hs Hm Hi Hc Hb Hlb Hst. unfold part_data, dchar, from. rewrite Hf. cbn [EMIT_DATA_CB]. destruct (Z.eqb_spec c CR) as [->|Hcr].
  - rewrite Hdata by (rewrite ?length_drop; try done; lia). cbn [mbind option_bind]. rewrite Z.eqb_refl.
    destruct (mp_lookbehind p) as [|x free] eqn:El; [cbn [length] in Hlb; lia|]. unfold set_lookbehind. cbn [set_state mp_lookbehind]. rewrite El, zset_Some by (cbn [length]; lia).
    cbn [mbind option_bind]. do 4 eexists. split; [done|]. split; [done|]. split; [by apply J_foldl|].
    cbn [mp_boundary mp_lookbehind mp_state fst set_state]. rewrite length_insert, <- El. repeat split; try done; try lia; [congruence|]. rewrite El. cbn [Z.to_nat list_insert insert]. eauto.
  - destruct (Z.eqb_spec i (len - 1)) as [E|E].
    + rewrite Hdata by (rewrite ?length_drop; try done; lia). cbn [mbind option_bind]. rewrite Z.eqb_refl. do 4 eexists. split; [done|]. split; [done|].
      split; [by apply J_foldl|]. cbn [fst]. repeat split; try done; try lia. rewrite (unsent_snoc _ _ _ c) by done. rewrite foldl_app.
      unfold unsent. by rewrite (proj2 (Z.ltb_ge _ _)) by lia.
    + do 4 eexists. split; [done|]. split; [done|]. split; [done|]. cbn [fst]. repeat split; try done; try lia.
      unfold unsent. rewrite (proj2 (Z.ltb_lt _ _)) by lia. replace (i + 1 - mark) with (i - mark + 1) by lia. rewrite (unsent_snoc _ _ _ c) by done. by rewrite foldl_app.
Qed.

Lemma loop_round fuel buf len i mark p s c r : i < len -> zget buf i = Some c -> step settings buf i c (i =? len - 1) s p mark = Some r ->
  loop (Datatypes.S fuel) buf len s p i mark = match r with Return s p i => Some (s, p, i) | Next s p i mark => loop fuel buf len s p i mark end.
Proof. intros Hi Hc Hr. cbn [execute_loop]. rewrite (proj2 (Z.ltb_lt _ _)), Hc by done. cbn [mbind option_bind]. by rewrite Hr. Qed.

Lemma loop_next fuel buf len i mark p s c s' p' i' mark' : i < len -> zget buf i = Some c ->
  step settings buf i c (i =? len - 1) s p mark = Some (Next s' p' i' mark') ->
  loop (Datatypes.S fuel) buf len s p i mark = loop fuel buf len s' p' i' mark'.
Proof. intros Hi Hc Hr. exact (loop_round _ _ _ _ _ _ _ _ _ Hi Hc Hr). Qed.

(** Handing on what was held back, then the character as data. *)
Lemma held_round fuel buf len i mark p c s d free : J s -> 0 <= i -> i < len <= zlen buf -> zget buf i = Some c -> mp_boundary p = boundary ->
  length (mp_lookbehind p) = (length boundary + 12)%nat -> mp_lookbehind p = d ++ free ->
  step settings buf i c (i =? len - 1) s p mark = EMIT_DATA_CB (on_part_data settings) s p i (mp_lookbehind p) (zlen d) (fun s => Some (Next s (set_state p s_part_data) i i)) ->
  exists a' s' p' mark', dchar c = ((dchar c).1, Some a') /\ loop (Datatypes.S (Datatypes.S fuel)) buf len s p i mark = loop fuel buf len s' p' (i + 1) mark' /\
    data_rel buf len (i + 1) mark' p' a' s' (foldl hd s (d ++ (dchar c).1)).
Proof.
  intros Hs H0 Hi Hc Hb Hlb Ed Hstep. rewrite Hf, Ed in Hstep. cbn [EMIT_DATA_CB] in Hstep. rewrite Hdata in Hstep by (rewrite ?length_app; try done; lia).
  cbn [mbind option_bind] in Hstep. rewrite Nat2Z.id, take_app_length, Z.eqb_refl in Hstep.
  destruct (part_data_round buf len i i (set_state p s_part_data) c (foldl hd s d)) as (a' & s' & p' & mark' & Ha & Hr & Hrel); try done; [by apply J_foldl|].
  exists a', s', p', mark'. split; [done|]. split.
  - etransitivity; [eapply loop_next; [lia|done|exact Hstep]|]. eapply loop_next; [lia|done|exact Hr].
  - rewrite Z.sub_diag in Hrel. cbn [Z.to_nat take foldl] in Hrel. by rewrite foldl_app.
Qed.

Lemma data_step fuel buf len i mark p a s v c : data_rel buf len i mark p a s v -> i < len <= zlen buf -> zget buf i = Some c ->
  match dstep a c with
  | (o, Some a') => exists s' p' mark' k, (fuel <= k)%nat /\ loop (Datatypes.S (Datatypes.S fuel)) buf len s p i mark = loop k buf len s' p' (i + 1) mark' /\
      data_rel buf len (i + 1) mark' p' a' s' (foldl hd v o)
  | (o, None) => exists p', o = [] /\ v = s /\ mp_boundary p' = boundary /\ length (mp_lookbehind p') = (length boundary + 12)%nat /\
      step settings buf i c (i =? len - 1) s p mark =
      NOTIFY_CB (on_part_data_end settings) s p' i (fun s => Some (Next s (set_state p' s_part_data_almost_end) (i + 1) mark))
  end.
Proof.
  intros (Hs & Hm & Hb & Hlb & Hst & Hrel) Hi Hc. destruct a as [st idx]. cbn [fst snd] in *. unfold dstep. cbn [fst snd]. destruct st; try done.
  - destruct (part_data_round buf len i mark p c s) as (a' & s' & p' & mark' & -> & Hr & Hrel'); try done. exists s', p', mark', (Datatypes.S fuel).
    split; [lia|]. split; [eapply loop_next; [lia|done|unfold step; rewrite Hst; exact Hr]|]. unfold unsent in Hrel. rewrite (proj2 (Z.ltb_lt _ _)) in Hrel by lia. by rewrite Hrel.
  - destruct Hrel as [-> [free Hfree]]. destruct (Z.eqb_spec c LF) as [->|Hlf].
    + assert (exists l, set_lookbehind (set_state p s_part_data_boundary) 1 LF = Some (MP (mp_index p) (mp_boundary p) s_part_data_boundary l) /\
        l = [CR; LF] ++ drop 1 free /\ length l = (length boundary + 12)%nat) as (l & Hl & El & Hll).
      { unfold set_lookbehind. cbn [set_state mp_lookbehind]. rewrite zset_Some by lia. eexists. split; [done|]. rewrite length_insert. split; [|done].
        rewrite Hfree. rewrite Hfree in Hlb. destruct free; [cbn [length] in Hlb; lia|done]. }
      do 3 eexists. exists (Datatypes.S fuel). split; [lia|]. split; [eapply loop_next; [lia|done|]; unfold step; rewrite Hst, Z.eqb_refl, Hl; done|].
      split; [done|]. cbn [mp_boundary mp_lookbehind mp_state mp_index set_index fst snd]. repeat split; try done; try lia; [destruct boundary; [done|cbn [length]; lia]|eauto].
    + destruct (held_round fuel buf len i mark p c s [CR] free) as (a' & s' & p' & mark' & -> & Hl & Hrel); try done; [lia| |].
      { unfold step. by rewrite Hst, (proj2 (Z.eqb_neq c LF)). }
      exists s', p', mark', fuel. done.
  - destruct Hrel as (-> & Hix & Hlt & free & Hfree). destruct (lookup_lt_is_Some_2 boundary idx Hlt) as [b Hbx].
    assert (zget (mp_boundary p ++ [0]) (mp_index p) = Some b) as Hget by (rewrite Hix, Hb, zget_nat, lookup_app_l by done; done).
    assert (zlen (CR :: LF :: take idx boundary) = 2 + mp_index p) as Hd by (cbn [length]; rewrite length_take; lia).
    rewrite Hbx. destruct (decide (Some b = Some c)) as [[= ->]|Hne].
    + assert (set_lookbehind p (2 + mp_index p) c = Some (MP (mp_index p) (mp_boundary p) (mp_state p) ((CR :: LF :: take (Datatypes.S idx) boundary) ++ drop 1 free))) as Hlbs.
      { unfold set_lookbehind. rewrite Hfree, <- Hd. rewrite zset_app_r by (rewrite Hfree, length_app in Hlb; cbn [length] in Hlb; rewrite length_take in Hlb; lia).
        cbn [mbind option_bind]. do 2 f_equal. rewrite (take_S_r _ _ c) by done. cbn [app]. by rewrite <- app_assoc. }
      assert (length ((CR :: LF :: take (Datatypes.S idx) boundary) ++ drop 1 free) = (length boundary + 12)%nat) as Hll.
      { rewrite Hfree in Hlb. rewrite !length_app in *. cbn [length] in *. rewrite length_drop, !length_take in *. lia. }
      assert (step settings buf i c (i =? len - 1) s p mark = (let p' := MP (mp_index p + 1) (mp_boundary p) (mp_state p) ((CR :: LF :: take (Datatypes.S idx) boundary) ++ drop 1 free) in
        if mp_index p + 1 =? zlen boundary then NOTIFY_CB (on_part_data_end settings) s p' i (fun s => Some (Next s (set_state p' s_part_data_almost_end) (i + 1) mark))
        else Some (Next s p' (i + 1) mark))) as Hstep.
      { unfold step, part_data_boundary. rewrite Hst, Hget. cbn [mbind option_bind]. rewrite Z.eqb_refl. cbn [negb]. rewrite Hlbs. cbn [mbind option_bind set_index mp_index boundary_length mp_boundary mp_state mp_lookbehind].
        unfold boundary_length. cbn [mp_boundary]. by rewrite Hb, Hst. }
      destruct (decide (Datatypes.S idx = length boundary)) as [E|E].
      * eexists. split; [done|]. split; [done|]. split; [|split; [|rewrite Hstep; cbv zeta; rewrite (proj2 (Z.eqb_eq _ _)) by lia; reflexivity]]; done.
      * do 3 eexists. exists (Datatypes.S fuel). split; [lia|]. split; [eapply loop_next; [lia|done|]; rewrite Hstep; cbv zeta; rewrite (proj2 (Z.eqb_neq _ _)) by lia; reflexivity|].
        split; [done|]. cbn [mp_boundary mp_lookbehind mp_state mp_index fst snd foldl]. repeat split; try done; try lia. eauto.
    + destruct (held_round fuel buf len i mark p c s (CR :: LF :: take idx boundary) free) as (a' & s' & p' & mark' & -> & Hl & Hrel); try done; [lia| |].
      { unfold step, part_data_boundary. rewrite Hst, Hget. cbn [mbind option_bind]. rewrite (proj2 (Z.eqb_neq b c)) by congruence. cbn [negb]. by rewrite Hd. }
      exists s', p', mark', fuel. done.
Qed.

(** A piece of data: all of it, or up to a client that stops at the end of the part. *)
Lemma data_piece d : forall pre tail mark p a s v fuel, let buf := pre ++ d ++ tail in let len := zlen (pre ++ d) in
  data_rel buf len (zlen pre) mark p a s v -> (2 * length d + 1 <= fuel)%nat ->
  match drun a d with
  | (o, inl a') => exists s' p' mark', loop fuel buf len s p (zlen pre) mark = Some (s', p', len) /\ data_rel buf len len mark' p' a' s' (foldl hd v o)
  | (o, inr _) => forall e s3 r, on_part_data_end settings = Some e -> e (foldl hd v o) = Some (s3, r) -> r <> 0 ->
      exists p' i, loop fuel buf len s p (zlen pre) mark = Some (s3, p', i) /\ i < len
  end.
Proof.
  induction d as [|c d IH]; intros pre tail mark p a s v fuel buf len Hrel Hfuel.
  - cbn [drun]. destruct fuel as [|fuel]; [lia|]. unfold len, buf in *. rewrite !app_nil_r in *. exists s, p, mark. split; [|done]. cbn [execute_loop]. by rewrite Z.ltb_irrefl.
  - cbn [length] in Hfuel. destruct fuel as [|[|fuel]]; try lia. cbn [drun].
    assert (zget buf (zlen pre) = Some c) as Hc by (unfold buf; rewrite zget_nat; by apply list_lookup_middle).
    assert (zlen pre < len <= zlen buf) as Hi by (unfold len, buf; rewrite !length_app; cbn [length]; lia).
    pose proof (data_step fuel buf len (zlen pre) mark p a s v c Hrel Hi Hc) as Hs. destruct (dstep a c) as [o [a'|]].
    + destruct Hs as (s1 & p1 & mark1 & k & Hk & Hl & Hr). specialize (IH (pre ++ [c]) tail mark1 p1 a' s1 (foldl hd v o) k). cbv zeta in IH.
      assert ((pre ++ [c]) ++ d ++ tail = buf) as Eb by (unfold buf; by rewrite <- app_assoc). assert (zlen ((pre ++ [c]) ++ d) = len) as El by (unfold len; by rewrite <- app_assoc).
      assert (zlen (pre ++ [c]) = zlen pre + 1) as E1 by (rewrite length_app; cbn [length]; lia). rewrite Eb, El, E1 in IH.
      specialize (IH Hr ltac:(lia)). rewrite Hl. destruct (drun a' d) as [os [a2|y]]; by rewrite foldl_app.
    + destruct Hs as (p' & -> & -> & Hb & Hlb & Hstep). intros e s3 r He Hcb Hr. rewrite He in Hstep. cbn [NOTIFY_CB foldl] in *. rewrite Hcb in Hstep. cbn [mbind option_bind] in Hstep.
      rewrite (proj2 (Z.eqb_neq r 0)) in Hstep by done. exists p', (zlen pre). split; [|lia]. exact (loop_round _ _ _ _ _ _ _ _ _ (proj1 Hi) Hc Hstep).
Qed.

(** Between two pieces nothing is unsent. *)
Lemma data_between buf len mark p a s v buf' len' : 0 <= len -> data_rel buf len len mark p a s v -> data_rel buf' len' 0 0 p a s v.
Proof.
  intros Hlen (H1 & H2 & H3 & H4 & H5 & H6). repeat (split; [done || lia|]). destruct a as [[] n]; try done. cbn [fst] in *.
  rewrite H6. unfold unsent. rewrite Z.ltb_irrefl. by destruct (0 <? len').
Qed.
End data_phase.

(** ** The whole body *)

(** What a client hears of the parts of a body: names and values of headers and data byte by
    byte, and the other calls. *)
Inductive tok := TBegin | TField (c : Z) | TValue (c : Z) | TComplete | TByte (c : Z) | TEnd | TBody.

#[global] Instance tok_eq_dec : EqDecision tok.
Proof. solve_decision. Defined.

Definition is_alpha (c : Z) : bool := (97 <=? tolower c) && (tolower c <=? 122).

Section automaton.
Context (boundary : list Z).

Definition first_boundary (n : nat) (c : Z) : option (list tok * (state * nat)) :=
  if decide (n = length boundary) then if c =? CR then Some ([], (s_start_boundary, S n)) else None
  else if decide (n = S (length boundary)) then if c =? LF then Some ([TBegin], (s_header_field_start, 0%nat)) else None
  else if decide (boundary !! n = Some c) then Some ([], (s_start_boundary, S n)) else None.

Definition go (st : state) : option (list tok * (state * nat)) := Some ([], (st, 0%nat)).

(** The body, character by character, as a whole. *)
Definition astep (a : state * nat) (c : Z) : option (list tok * (state * nat)) :=
  match a.1 with
  | s_uninitialized => None
  | s_start => first_boundary 0 c
  | s_start_boundary => first_boundary a.2 c
  | s_header_field_start | s_header_field =>
      if c =? CR then go s_headers_almost_done else if c =? 58 then go s_header_value_start
      else if (c =? 45) || is_alpha c then Some ([TField c], (s_header_field, 0%nat)) else None
  | s_headers_almost_done => if c =? LF then go s_part_data_start else None
  | s_header_value_start =>
      if c =? 32 then go s_header_value_start else if c =? CR then go s_header_value_almost_done else Some ([TValue c], (s_header_value, 0%nat))
  | s_header_value => if c =? CR then go s_header_value_almost_done else Some ([TValue c], (s_header_value, 0%nat))
  | s_header_value_almost_done => if c =? LF then go s_header_field_start else None
  | s_part_data_start | s_part_data | s_part_data_almost_boundary | s_part_data_boundary =>
      let '(start, a) := if decide (a.1 = s_part_data_start) then ([TComplete], (s_part_data, 0%nat)) else ([], a) in
      match dstep boundary a c with
      | (o, Some a') => Some (start ++ (TByte <$> o), a')
      | (_, None) => Some (start ++ [TEnd], (s_part_data_almost_end, 0%nat))
      end
  | s_part_data_almost_end => if c =? 45 then go s_part_data_final_hyphen else if c =? CR then go s_part_data_end else None
  | s_part_data_final_hyphen => if c =? 45 then Some ([TBody], (s_end, 0%nat)) else None
  | s_part_data_end => if c =? LF then Some ([TBegin], (s_header_field_start, 0%nat)) else None
  | s_end => go s_end
  end.

Fixpoint arun (a : state * nat) (d : list Z) : list tok * option (state * nat) :=
  match d with
  | [] => ([], Some a)
  | c :: d =>
      match astep a c with
      | None => ([], None)
      | Some (o, a') => let '(os, r) := arun a' d in (o ++ os, r)
      end
  end.

(** Where the header of a part may not arrive as it is: a piece that ends in a hyphen of a name
    (what was seen of the name in it is not handed on) or in the carriage return behind a value
    (the value is handed on twice), and a name that ends in a line end instead of a colon. *)
Definition clean_char (a : state * nat) (c : Z) (is_last : bool) : bool :=
  match a.1 with
  | s_header_field_start => negb ((c =? 45) && is_last)
  | s_header_field => negb (c =? CR) && negb ((c =? 45) && is_last)
  | s_header_value_start | s_header_value => negb ((c =? CR) && is_last)
  | _ => true
  end.

Fixpoint clean_piece (a : state * nat) (d : list Z) : bool :=
  match d with
  | [] => true
  | c :: d => clean_char a c (bool_decide (d = [])) && match astep a c with Some (_, a') => clean_piece a' d | None => true end
  end.

Fixpoint clean_cuts (a : state * nat) (pieces : list (list Z)) : bool :=
  match pieces with
  | [] => true
  | d :: pieces => clean_piece a d && match (arun a d).2 with Some a' => clean_cuts a' pieces | None => true end
  end.
End automaton.

(** All but the headers. *)
Definition strip (l : list tok) : list tok := omap (fun t => match t with TField _ | TValue _ => None | _ => Some t end) l.

Lemma strip_app x y : strip (x ++ y) = strip x ++ strip y.
Proof. apply omap_app. Qed.

Lemma strip_header d : strip (TField <$> d) = [] /\ strip (TValue <$> d) = [].
Proof. by induction d as [|c d [H1 H2]]. Qed.

(** [v'] is what was to be heard, exactly when [clean]. *)
Definition heard (v v' : list tok) (clean : bool) : Prop := strip v' = strip v /\ (clean = true -> v' = v).

Lemma heard_eq v v' clean : v' = v -> heard v v' clean.
Proof. by intros ->. Qed.

Lemma heard_trans v w o x c1 c2 : heard v w c1 -> heard (w ++ o) x c2 -> heard (v ++ o) x (c1 && c2).
Proof.
  intros [H1 H2] [H3 H4]. split; [by rewrite H3, !strip_app, H1|]. intros [Hc1 Hc2]%andb_prop. by rewrite H4, H2.
Qed.

(** A client that writes down what it hears. *)
Definition note (t : list tok) (log : list tok) : option (list tok * Z) := Some (log ++ t, 0).
Definition log_settings : multipart_parser_settings (list tok) :=
  Settings (Some (fun log mem len => note (TField <$> take (Z.to_nat len) mem) log)) (Some (fun log mem len => note (TValue <$> take (Z.to_nat len) mem) log))
    (Some (fun log mem len => note (TByte <$> take (Z.to_nat len) mem) log))
    (Some (note [TBegin])) (Some (note [TComplete])) (Some (note [TEnd])) (Some (note [TBody])).

(** Pieces of a body, each with what is behind it in its buffer, until one is refused. *)
Fixpoint feed {S} (settings : multipart_parser_settings S) (s : S) (p : multipart_parser) (pieces : list (list Z * list Z)) : option (S * bool) :=
  match pieces with
  | [] => Some (s, true)
  | (d, tail) :: pieces =>
      '(s, p, rem) ← multipart_parser_execute settings s p (d ++ tail) (zlen d);
      if rem <? zlen d then Some (s, false) else feed settings s p pieces
  end.

Definition is_data (st : state) : bool :=
  match st with s_part_data | s_part_data_almost_boundary | s_part_data_boundary => true | _ => false end.

Section simulation.
Context (boundary : list Z) (Hboundary : boundary <> []).

Definition take_byte (log : list tok) (c : Z) : list tok := log ++ [TByte c].
#[local] Abbreviation loop := (execute_loop log_settings).
#[local] Abbreviation drel := (data_rel boundary (fun _ => True) take_byte).

(** What has been seen of a name or a value and not yet handed on. *)
Definition pending (buf : list Z) (len i mark : Z) (st : state) : list tok :=
  match st with
  | s_header_field => TField <$> unsent buf len i mark
  | s_header_value => TValue <$> unsent buf len i mark
  | _ => []
  end.

(** [out] is what the client would have heard with every character handed on. *)
Definition rel (buf : list Z) (len i mark : Z) (p : multipart_parser) (a : state * nat) (log out : list tok) : Prop :=
  if is_data a.1 then drel buf len i mark p a log out
  else out = log ++ pending buf len i mark a.1 /\ 0 <= mark <= i /\ mp_boundary p = boundary /\
    length (mp_lookbehind p) = (length boundary + 12)%nat /\ mp_state p = a.1 /\
    a.1 <> s_uninitialized /\ (a.1 = s_start_boundary -> mp_index p = Z.of_nat a.2 /\ (a.2 <= length boundary + 1)%nat).

Lemma foldl_take_byte d : forall log, foldl take_byte log d = log ++ (TByte <$> d).
Proof. induction d as [|c d IH]; intros log; cbn [foldl]; [by rewrite app_nil_r|]. rewrite IH. unfold take_byte. rewrite fmap_cons, <- app_assoc. done. Qed.

Lemma log_data (s : list tok) mem len : True -> 0 <= len <= zlen mem ->
  (fun log mem len => note (TByte <$> take (Z.to_nat len) mem) log) s mem len = Some (foldl take_byte s (take (Z.to_nat len) mem), 0).
Proof. intros _ _. by rewrite foldl_take_byte. Qed.

(** A round outside data, when [v] was to be heard so far. *)
Section rounds.
Context (buf : list Z) (len i c : Z) (Hi : i < len) (Hc : zget buf i = Some c).
#[local] Abbreviation is_last := (i =? len - 1).

Definition round_to (s v : list tok) (p : multipart_parser) (mark : Z) (clean : bool) (r : option (list tok * (state * nat))) : Prop :=
  match r with
  | Some (o, a') => exists s' p' mark', step log_settings buf i c is_last s p mark = Some (Next s' p' (i + 1) mark') /\
      heard (v ++ o) (s' ++ pending buf len (i + 1) mark' a'.1) clean /\ 0 <= mark' <= i + 1 /\
      mp_boundary p' = boundary /\ length (mp_lookbehind p') = (length boundary + 12)%nat /\ mp_state p' = a'.1 /\ is_data a'.1 = false /\ a'.1 <> s_uninitialized /\
      (a'.1 = s_start_boundary -> mp_index p' = Z.of_nat a'.2 /\ (a'.2 <= length boundary + 1)%nat)
  | None => exists p', step log_settings buf i c is_last s p mark = Some (Return s p' i) /\ strip s = strip v
  end.

#[local] Ltac quiet := do 3 eexists; (split; [reflexivity|]); (split; [apply heard_eq; cbn [pending fst]; by rewrite ?app_nil_r|]);
  cbn [set_index set_state mp_boundary mp_lookbehind mp_state mp_index fst snd]; repeat split; try done; try lia.
#[local] Ltac refuse := eexists; (split; [reflexivity|]); done.

Lemma first_boundary_round s p0 p mark n clean : 0 <= mark <= i -> mp_boundary p = boundary -> length (mp_lookbehind p) = (length boundary + 12)%nat ->
  mp_state p = s_start_boundary -> mp_index p = Z.of_nat n -> (n <= length boundary + 1)%nat ->
  step log_settings buf i c is_last s p0 mark = start_boundary log_settings i c s p mark ->
  round_to s s p0 mark clean (first_boundary boundary n c).
Proof.
  intros Hm Hb Hl Hst Hn Hle Hstep. unfold start_boundary, boundary_length in Hstep. rewrite Hb, Hn in Hstep. unfold round_to. rewrite Hstep. unfold first_boundary.
  destruct (decide (n = length boundary)) as [->|N1].
  - rewrite Z.eqb_refl. destruct (Z.eqb_spec c CR); cbn [negb]; [quiet|refuse].
  - rewrite (proj2 (Z.eqb_neq (Z.of_nat n) (zlen boundary))) by lia. destruct (decide (n = S (length boundary))) as [->|N2].
    + rewrite (proj2 (Z.eqb_eq (Z.of_nat (S (length boundary))) (zlen boundary + 1))) by lia. destruct (Z.eqb_spec c LF); cbn [negb]; [|refuse]. cbn. quiet.
    + rewrite (proj2 (Z.eqb_neq (Z.of_nat n) (zlen boundary + 1))) by lia. destruct (lookup_lt_is_Some_2 boundary n) as [b Hbx]; [lia|].
      rewrite zget_nat, lookup_app_l, Hbx by lia. cbn [mbind option_bind]. destruct (Z.eqb_spec c b) as [->|Hne]; cbn [negb].
      * rewrite decide_True by done. quiet.
      * rewrite decide_False by congruence. refuse.
Qed.

(** What is seen behind the mark with this character. *)
#[local] Abbreviation seen mark := (take (Z.to_nat (i - mark)) (drop (Z.to_nat mark) buf)).

Lemma unsent_next mark : 0 <= mark <= i -> unsent buf len (i + 1) mark = if is_last then [] else seen mark ++ [c].
Proof.
  intros Hm. unfold unsent. destruct (Z.eqb_spec i (len - 1)) as [E|E]; [by rewrite (proj2 (Z.ltb_ge _ _)) by lia|].
  rewrite (proj2 (Z.ltb_lt _ _)) by lia. replace (i + 1 - mark) with (i - mark + 1) by lia. by apply unsent_snoc.
Qed.

Lemma header_field_round s p0 p mark mark1 clean : 0 <= mark1 <= i -> mp_boundary p = boundary -> length (mp_lookbehind p) = (length boundary + 12)%nat ->
  mp_state p = s_header_field -> step log_settings buf i c is_last s p0 mark = in_header_field log_settings buf i c is_last s p mark1 ->
  (clean = true -> (c = CR -> seen mark1 = []) /\ (c =? 45) && is_last = false) ->
  round_to s (s ++ (TField <$> seen mark1)) p0 mark clean (if c =? CR then go s_headers_almost_done else if c =? 58 then go s_header_value_start
      else if (c =? 45) || is_alpha c then Some ([TField c], (s_header_field, 0%nat)) else None).
Proof.
  intros Hm Hb Hl Hst Hstep Hclean. unfold in_header_field in Hstep. unfold round_to. rewrite Hstep. unfold go, is_alpha.
  assert (strip (s ++ (TField <$> seen mark1)) = strip s) as Hs by (rewrite strip_app, (proj1 (strip_header _)); apply app_nil_r).
  destruct (Z.eqb_spec c CR) as [E|E].
  { do 3 eexists. split; [reflexivity|]. split; [|cbn; repeat split; try done; lia]. cbn [pending fst]. rewrite !app_nil_r. split; [done|].
    intros Hcl. by rewrite (proj1 (Hclean Hcl) E), app_nil_r. }
  destruct (Z.eqb_spec c 45) as [E45|E45].
  { rewrite (proj2 (Z.eqb_neq c 58)) by lia. cbn [orb]. do 3 eexists. split; [reflexivity|]. split; [|cbn; repeat split; try done; lia].
    cbn [pending fst]. rewrite unsent_next by done. cbn [andb] in Hclean. destruct is_last.
    - split; [rewrite app_nil_r, strip_app, Hs; by cbn; rewrite app_nil_r|]. by intros [_ ?]%Hclean.
    - apply heard_eq. by rewrite fmap_app, app_assoc. }
  destruct (Z.eqb_spec c 58) as [E58|E58].
  { cbn. do 3 eexists. split; [reflexivity|]. split; [by apply heard_eq; rewrite !app_nil_r|cbn; repeat split; try done; lia]. }
  destruct (Z.ltb_spec (tolower c) 97), (Z.ltb_spec 122 (tolower c)), (Z.leb_spec 97 (tolower c)), (Z.leb_spec (tolower c) 122); try lia; cbn [orb andb]; try (by eexists).
  pose proof (unsent_next mark1 Hm) as Hn. destruct is_last.
  - cbn. do 3 eexists. split; [reflexivity|]. split; [|cbn; repeat split; try done; lia]. apply heard_eq. cbn [pending fst]. unfold from.
    by rewrite Hn, app_nil_r, (unsent_snoc _ _ _ c), fmap_app, app_assoc by done.
  - do 3 eexists. split; [reflexivity|]. split; [|cbn; repeat split; try done; lia]. apply heard_eq. cbn [pending fst]. by rewrite Hn, fmap_app, app_assoc.
Qed.

Lemma header_value_round s p0 p mark mark1 clean : 0 <= mark1 <= i -> mp_boundary p = boundary -> length (mp_lookbehind p) = (length boundary + 12)%nat ->
  mp_state p = s_header_value -> step log_settings buf i c is_last s p0 mark = in_header_value log_settings buf i c is_last s p mark1 ->
  (clean = true -> (c =? CR) && is_last = false) ->
  round_to s (s ++ (TValue <$> seen mark1)) p0 mark clean (if c =? CR then go s_header_value_almost_done else Some ([TValue c], (s_header_value, 0%nat))).
Proof.
  intros Hm Hb Hl Hst Hstep Hclean. unfold in_header_value, header_value_last in Hstep. unfold round_to. rewrite Hstep. unfold go.
  pose proof (unsent_next mark1 Hm) as Hn. destruct (c =? CR), is_last; cbn; (do 3 eexists; split; [reflexivity|]; split; [|cbn; repeat split; try done; lia]); cbn [pending fst andb] in *.
  - split; [|by intros ?%Hclean]. by rewrite !app_nil_r, !strip_app, !(proj2 (strip_header _)), !app_nil_r.
  - apply heard_eq. by rewrite !app_nil_r.
  - apply heard_eq. unfold from. by rewrite Hn, app_nil_r, (unsent_snoc _ _ _ c), fmap_app, app_assoc by done.
  - apply heard_eq. by rewrite Hn, fmap_app, app_assoc.
Qed.

(** Every state but those of data. *)
Lemma plain_round mark p a s v : rel buf len i mark p a s v -> is_data a.1 = false -> a.1 <> s_part_data_start ->
  round_to s v p mark (clean_char a c is_last) (astep boundary a c).
Proof.
  unfold rel. intros Hrel Hd Hps. rewrite Hd in Hrel. destruct Hrel as (-> & Hm & Hb & Hl & Hst & Hu & Hn). destruct a as [st n]. cbn [fst snd] in *.
  assert (unsent buf len i mark = seen mark) as Hus by (unfold unsent; by rewrite (proj2 (Z.ltb_lt _ _)) by lia).
  assert (seen i = []) as Hi0 by (by rewrite Z.sub_diag).
  unfold astep, clean_char. cbn [fst snd]. destruct st; try done; cbn [pending]; rewrite ?Hus, ?app_nil_r.
  - eapply (first_boundary_round s p (set_state (set_index p 0) s_start_boundary)); try done; [lia|]. unfold step. by rewrite Hst.
  - destruct Hn as [Hn Hle]; [done|]. eapply (first_boundary_round s p p); try done. unfold step. by rewrite Hst.
  - pose proof (header_field_round s p (set_state p s_header_field) mark i (negb ((c =? 45) && is_last))) as H. rewrite Hi0, app_nil_r in H.
    apply H; try done; [lia|unfold step; by rewrite Hst|]. intros ?%negb_true_iff. done.
  - apply (header_field_round s p p); try done; [unfold step; by rewrite Hst|]. intros [H1%negb_true_iff H2%negb_true_iff]%andb_prop. split; [|done].
    intros ->. by rewrite Z.eqb_refl in H1.
  - unfold round_to, step, go. rewrite Hst. destruct (c =? LF); [quiet|refuse].
  - destruct (c =? 32) eqn:E; [unfold round_to, step, go; rewrite Hst, E; quiet|].
    pose proof (header_value_round s p (set_state p s_header_value) mark i (negb ((c =? CR) && is_last))) as H. rewrite Hi0, app_nil_r in H.
    apply H; try done; [lia|unfold step; by rewrite Hst, E|]. by intros ?%negb_true_iff.
  - apply (header_value_round s p p mark mark); try done; [unfold step; by rewrite Hst|]. by intros ?%negb_true_iff.
  - unfold round_to, step, go. rewrite Hst. destruct (c =? LF); [quiet|refuse].
  - unfold round_to, step, go. rewrite Hst. destruct (c =? 45); [quiet|]. destruct (c =? CR); [quiet|refuse].
  - unfold round_to, step. rewrite Hst. destruct (c =? LF); [|refuse]. cbn. quiet.
  - unfold round_to, step. rewrite Hst. destruct (c =? 45); [|refuse]. cbn. quiet.
  - unfold round_to, step, go. rewrite Hst. quiet.
Qed.
End rounds.

(** One character of the whole. *)
Lemma full_step fuel buf len i mark p a s v c : rel buf len i mark p a s v -> i < len <= zlen buf -> zget buf i = Some c ->
  match astep boundary a c with
  | Some (o, a') => exists s' p' mark' k v', (fuel <= k)%nat /\ loop (S (S fuel)) buf len s p i mark = loop k buf len s' p' (i + 1) mark' /\
      rel buf len (i + 1) mark' p' a' s' v' /\ heard (v ++ o) v' (clean_char a c (i =? len - 1))
  | None => exists p', loop (S (S fuel)) buf len s p i mark = Some (s, p', i) /\ strip s = strip v
  end.
Proof.
  intros Hrel Hi Hc. destruct (is_data a.1) eqn:Hd; [|destruct (decide (a.1 = s_part_data_start)) as [Hps|Hps]].
  - unfold rel in Hrel. rewrite Hd in Hrel.
    pose proof (data_step boundary Hboundary log_settings (fun _ => True) take_byte _ eq_refl log_data (fun _ _ H => H) fuel buf len i mark p a s v c Hrel Hi Hc) as Hs.
    assert (astep boundary a c = match dstep boundary a c with (o, Some a') => Some (TByte <$> o, a') | (_, None) => Some ([TEnd], (s_part_data_almost_end, 0%nat)) end) as ->
      by (unfold astep; destruct a as [[] n]; done).
    assert (forall o a', dstep boundary a c = (o, Some a') -> is_data a'.1 = true) as Hda.
    { intros o a'. unfold dstep, dchar. destruct a as [[] n]; try done; cbn [fst snd]; repeat case_match; intros [= <- <-]; done. }
    destruct (dstep boundary a c) as [o [a'|]].
    + destruct Hs as (s' & p' & mark' & k & Hk & Hl & Hr). exists s', p', mark', k, (v ++ (TByte <$> o)). split; [done|]. split; [done|].
      split; [|by apply heard_eq]. unfold rel. rewrite (Hda o a' eq_refl). by rewrite foldl_take_byte in Hr.
    + destruct Hs as (p' & _ & -> & Hb & Hl & Hstep). destruct Hrel as (_ & Hm & _). cbn in Hstep. do 3 eexists. exists (S fuel), (s ++ [TEnd]). split; [lia|].
      split; [eapply loop_next; [lia|done|exact Hstep]|]. split; [|by apply heard_eq]. unfold rel. cbn. rewrite app_nil_r. repeat split; try done; lia.
  - destruct a as [st n]. cbn [fst] in Hps. subst st. unfold rel in Hrel. cbn [is_data fst pending] in Hrel. rewrite app_nil_r in Hrel. destruct Hrel as (-> & Hm & Hb & Hl & Hst & _).
    unfold astep. cbn [fst snd]. rewrite decide_True by done. change (dstep boundary (s_part_data, 0%nat) c) with (dchar c).
    destruct (part_data_round boundary log_settings (fun _ => True) take_byte _ eq_refl log_data (fun _ _ H => H) buf len i i (set_state p s_part_data) c (s ++ [TComplete]))
      as (a' & s' & p' & mark' & Ha & Hr & Hrel); try done; [lia|]. rewrite Ha. do 3 eexists. exists (S fuel). eexists. split; [lia|].
    split; [eapply loop_next; [lia|done|]; unfold step; rewrite Hst; cbn [log_settings on_headers_complete NOTIFY_CB note mbind option_bind]; rewrite Z.eqb_refl; exact Hr|].
    rewrite Z.sub_diag in Hrel. change (take (Z.to_nat 0) (drop (Z.to_nat i) buf)) with (@nil Z) in Hrel. rewrite !foldl_take_byte, app_nil_r, <- app_assoc in Hrel. cbn [app] in Hrel. unfold rel.
    assert (is_data a'.1 = true) as -> by (revert Ha; unfold dchar; destruct (c =? CR); intros [= <-]; done). split; [exact Hrel|by apply heard_eq].
  - pose proof (plain_round buf len i c (proj1 Hi) Hc mark p a s v Hrel Hd Hps) as Hr. unfold round_to in Hr. destruct (astep boundary a c) as [[o a']|].
    + destruct Hr as (s' & p' & mark' & Hstep & Hh & Hm & Hb & Hl & Hst & Hda & Hu & Hn). do 3 eexists. exists (S fuel). eexists. split; [lia|].
      split; [eapply loop_next; [lia|done|exact Hstep]|]. split; [|exact Hh]. unfold rel. by rewrite Hda.
    + destruct Hr as (p' & Hstep & Hs). exists p'. split; [|done]. exact (loop_round _ _ _ _ _ _ _ _ _ _ (proj1 Hi) Hc Hstep).
Qed.

Lemma loop_piece d : forall pre tail mark p a s v fuel, let buf := pre ++ d ++ tail in let len := zlen (pre ++ d) in
  rel buf len (zlen pre) mark p a s v -> (2 * length d + 1 <= fuel)%nat ->
  match arun boundary a d with
  | (o, Some a') => exists s' p' mark' v', loop fuel buf len s p (zlen pre) mark = Some (s', p', len) /\ rel buf len len mark' p' a' s' v' /\
      heard (v ++ o) v' (clean_piece boundary a d)
  | (o, None) => exists s' p' r, loop fuel buf len s p (zlen pre) mark = Some (s', p', r) /\ r < len /\ strip s' = strip (v ++ o)
  end.
Proof.
  induction d as [|c d IH]; intros pre tail mark p a s v fuel buf len Hrel Hfuel.
  - cbn [arun]. destruct fuel as [|fuel]; [lia|]. unfold len, buf in *. rewrite !app_nil_r in *. exists s, p, mark, v. split; [|by split]. cbn [execute_loop]. by rewrite Z.ltb_irrefl.
  - cbn [length] in Hfuel. destruct fuel as [|[|fuel]]; try lia. cbn [arun clean_piece].
    assert (zget buf (zlen pre) = Some c) as Hc by (unfold buf; rewrite zget_nat; by apply list_lookup_middle).
    assert (zlen pre < len <= zlen buf) as Hi by (unfold len, buf; rewrite !length_app; cbn [length]; lia).
    pose proof (full_step fuel buf len (zlen pre) mark p a s v c Hrel Hi Hc) as Hs.
    assert ((zlen pre =? len - 1) = bool_decide (d = [])) as Elast.
    { unfold len. rewrite length_app. cbn [length]. destruct d; [rewrite bool_decide_eq_true_2 by done; apply Z.eqb_eq; cbn [length]; lia|].
      rewrite bool_decide_eq_false_2 by done. apply Z.eqb_neq. cbn [length]. lia. }
    rewrite Elast in Hs. destruct (astep boundary a c) as [[o a']|].
    + destruct Hs as (s1 & p1 & mark1 & k & v1 & Hk & Hl & Hr & Hh). specialize (IH (pre ++ [c]) tail mark1 p1 a' s1 v1 k). cbv zeta in IH.
      assert ((pre ++ [c]) ++ d ++ tail = buf) as Eb by (unfold buf; by rewrite <- app_assoc). assert (zlen ((pre ++ [c]) ++ d) = len) as El by (unfold len; by rewrite <- app_assoc).
      assert (zlen (pre ++ [c]) = zlen pre + 1) as E1 by (rewrite length_app; cbn [length]; lia). rewrite Eb, El, E1 in IH.
      specialize (IH Hr ltac:(lia)). rewrite Hl. destruct (arun boundary a' d) as [os [a2|]].
      * destruct IH as (s2 & p2 & mark2 & v2 & H2 & Hr2 & Hh2). exists s2, p2, mark2, v2. split; [done|]. split; [done|]. rewrite app_assoc. by eapply heard_trans.
      * destruct IH as (s2 & p2 & r & H2 & Hlt & Hs2). exists s2, p2, r. split; [done|]. split; [done|]. rewrite Hs2, app_assoc, !strip_app. f_equal.
        rewrite <- strip_app. apply Hh.
    + destruct Hs as (p' & Hl & Hs). exists s, p', (zlen pre). rewrite app_nil_r. split; [done|]. split; [lia|done].
Qed.

Lemma rel_between buf len mark p a s out buf' len' : 0 <= len -> rel buf len len mark p a s out -> rel buf' len' 0 0 p a s out.
Proof.
  intros Hlen. unfold rel. destruct (is_data a.1) eqn:Hd.
  - by apply data_between.
  - intros (H1 & H2 & H3). split; [|split; [lia|done]]. rewrite H1. f_equal. unfold pending, unsent. rewrite Z.ltb_irrefl.
    destruct a.1; try done; by destruct (0 <? len').
Qed.

Lemma arun_app d d' : forall a, arun boundary a (d ++ d') =
  match arun boundary a d with (o, Some a') => (o ++ (arun boundary a' d').1, (arun boundary a' d').2) | (o, None) => (o, None) end.
Proof.
  induction d as [|c d IH]; intros a; cbn [app arun]; [by destruct (arun boundary a d')|].
  destruct (astep boundary a c) as [[o a']|]; [|done]. rewrite IH. destruct (arun boundary a' d) as [os [a2|]]; [by rewrite app_assoc|done].
Qed.

(** At the end of a piece nothing is pending. *)
Lemma rel_idle p a s v : rel [] 0 0 0 p a s v -> v = s.
Proof.
  unfold rel. destruct (is_data a.1) eqn:Hd.
  - intros (_ & _ & _ & _ & _ & H). destruct a as [[] n]; try done; apply H.
  - intros (-> & _). unfold pending, unsent. rewrite Z.ltb_irrefl. destruct a.1; apply app_nil_r.
Qed.

Lemma feed_log pieces : forall p a s v, rel [] 0 0 0 p a s v -> let '(o, r) := arun boundary a (concat pieces.*1) in
  exists log, feed log_settings s p pieces = Some (log, bool_decide (is_Some r)) /\ strip log = strip (v ++ o) /\
    (is_Some r -> clean_cuts boundary a pieces.*1 = true -> log = v ++ o).
Proof.
  induction pieces as [|[d tail] pieces IH]; intros p a s v Hrel.
  - cbn. exists s. rewrite app_nil_r, (rel_idle _ _ _ _ Hrel). done.
  - cbn [feed]. rewrite fmap_cons. cbn [concat fst clean_cuts].
    pose proof (loop_piece d [] tail 0 p a s v (2 * length d + 1)) as Hp. cbv zeta in Hp. cbn [app] in Hp. change (zlen []) with 0 in Hp.
    specialize (Hp ltac:(eapply (rel_between [] 0); [lia|exact Hrel]) ltac:(lia)).
    rewrite arun_app. unfold multipart_parser_execute. rewrite Nat2Z.id. destruct (arun boundary a d) as [o [a'|]].
    + destruct Hp as (s' & p' & mark' & v' & -> & Hr & Hh). cbn [mbind option_bind]. rewrite Z.ltb_irrefl.
      specialize (IH p' a' s' v' ltac:(eapply rel_between; [|exact Hr]; lia)). cbn [snd]. destruct (arun boundary a' (concat pieces.*1)) as [os r].
      destruct IH as (log & Hf & Hs & Hcl). exists log. cbn [fst snd]. split; [done|]. split.
      * by rewrite Hs, app_assoc, !strip_app, (proj1 Hh), strip_app.
      * intros Hr' [H1 H2]%andb_prop. by rewrite Hcl, (proj2 Hh H1), <- app_assoc.
    + destruct Hp as (s' & p' & r & -> & Hlt & Hs). cbn [mbind option_bind]. rewrite (proj2 (Z.ltb_lt _ _)) by lia. exists s'. split; [done|]. split; [done|]. by intros [? ?].
Qed.
End simulation.

(** C10: what the form parser tells its client does not depend on the pieces a body comes in, or
    on what is behind them in the buffer: it refuses the bodies that the automaton that reads
    the body as a whole refuses, and all it tells of parts and their data, boundaries cut by the
    pieces included, is what the automaton finds.  The names and values of headers are also
    those of the automaton, byte by byte, for a body that is not refused, when no piece ends in
    a hyphen of a name or in the carriage return behind a value and every name ends in a colon
    (see [clean_char]; the source loses or repeats header bytes at such ends).  Nothing is read
    or written outside the pieces and the parser's block. *)
Theorem multipart_pieces can_alloc junk boundary p pieces : boundary <> [] -> multipart_parser_init can_alloc junk boundary = Some p ->
  let '(toks, r) := arun boundary (s_start, 0%nat) (concat pieces.*1) in
  exists log, feed log_settings [] p pieces = Some (log, bool_decide (is_Some r)) /\ strip log = strip toks /\
    (is_Some r -> clean_cuts boundary (s_start, 0%nat) pieces.*1 = true -> log = toks).
Proof.
  intros Hb Hp. unfold multipart_parser_init in Hp. destruct (can_alloc _); [|done]. injection Hp as <-.
  apply (feed_log boundary Hb pieces _ (s_start, 0%nat) [] []). unfold rel. cbn [is_data fst mp_boundary mp_lookbehind mp_state]. rewrite length_replicate. done.
Qed.

Lemma multipart_pieces_witness :
  exists p, multipart_parser_init (fun _ => true) 170 (bs "--X") = Some p /\
  feed log_settings [] p [(bs "--X" ++ [13; 10] ++ bs "A-b: c" ++ [13; 10; 13; 10] ++ bs "a" ++ [13; 10] ++ bs "-", []); (bs "-Y" ++ [13], bs "zz"); ([10] ++ bs "--", []); (bs "X--", [])] =
    Some ([TBegin; TField 65; TField 45; TField 98; TValue 99; TComplete; TByte 97; TByte 13; TByte 10; TByte 45; TByte 45; TByte 89; TEnd; TBody], true).
Proof.
  eexists. split; [reflexivity|].
  pose proof (multipart_pieces (fun _ => true) 170 (bs "--X") _ [(bs "--X" ++ [13; 10] ++ bs "A-b: c" ++ [13; 10; 13; 10] ++ bs "a" ++ [13; 10] ++ bs "-", []); (bs "-Y" ++ [13], bs "zz"); ([10] ++ bs "--", []); (bs "X--", [])]
    ltac:(discriminate) eq_refl) as H. cbn [arun] in H.
  destruct H as (log & Hf & _ & Hl). rewrite Hf. rewrite Hl by (vm_compute; first [reflexivity|eauto]). vm_compute. reflexivity.
Defined.

(** ** Encoded bodies *)

Record part := Part { pt_headers : list (list Z * list Z); pt_data : list Z }.

Definition encode_header (h : list Z * list Z) : list Z := h.1 ++ [58] ++ h.2 ++ [CR; LF].
Definition encode_part (boundary : list Z) (pt : part) : list Z :=
  [CR; LF] ++ concat (encode_header <$> pt_headers pt) ++ [CR; LF] ++ pt_data pt ++ [CR; LF] ++ boundary.
Definition encode_body (boundary : list Z) (parts : list part) (epilogue : list Z) : list Z :=
  boundary ++ concat (encode_part boundary <$> parts) ++ [45; 45] ++ epilogue.

Definition header_ok (h : list Z * list Z) : Prop := Forall (fun c => c = 45 \/ is_alpha c = true) h.1 /\ CR ∉ h.2.
(** The delimiter does not occur in the data. *)
Definition part_ok (boundary : list Z) (pt : part) : Prop :=
  Forall header_ok (pt_headers pt) /\ forall a b, pt_data pt <> a ++ (CR :: LF :: boundary) ++ b.

(** A value without the blanks in front of it. *)
Fixpoint unpadded (v : list Z) : list Z := match v with c :: v' => if c =? 32 then unpadded v' else v | [] => [] end.

Definition header_toks (h : list Z * list Z) : list tok := (TField <$> h.1) ++ (TValue <$> unpadded h.2).
Definition part_toks (pt : part) : list tok :=
  [TBegin] ++ concat (header_toks <$> pt_headers pt) ++ [TComplete] ++ (TByte <$> pt_data pt) ++ [TEnd].

Section encoded.
Context (boundary : list Z) (Hboundary : boundary <> []) (Hcr : CR ∉ boundary).
#[local] Abbreviation arun := (arun boundary).

Lemma arun_seq a x o a' y : arun a x = (o, Some a') -> arun a (x ++ y) = (o ++ (arun a' y).1, (arun a' y).2).
Proof. intros H. by rewrite arun_app, H. Qed.

Lemma arun_first n : (n <= length boundary)%nat -> arun (s_start_boundary, n) (drop n boundary) = ([], Some (s_start_boundary, length boundary)).
Proof.
  remember (length boundary - n)%nat as k eqn:Ek. revert n Ek. induction k as [|k IH]; intros n Ek Hn.
  - replace n with (length boundary) by lia. by rewrite drop_all.
  - destruct (lookup_lt_is_Some_2 boundary n) as [c Hc]; [lia|]. rewrite (drop_S _ c) by done. cbn [MultipartSpec.arun]. unfold astep, first_boundary. cbn [fst snd].
    rewrite !decide_False by lia. rewrite decide_True by done. rewrite IH by lia. done.
Qed.

Lemma alpha_not c : is_alpha c = true -> c <> CR /\ c <> 58 /\ c <> 45.
Proof. unfold is_alpha, tolower, CR. intros H. apply andb_true_iff in H as [H1%Z.leb_le H2%Z.leb_le]. destruct ((65 <=? c) && (c <=? 90)) eqn:E; [|lia]. lia. Qed.

(** [arun] with some tokens in front. *)
Definition after (o : list tok) (r : list tok * option (state * nat)) : list tok * option (state * nat) := (o ++ r.1, r.2).

Lemma arun_step a c y o a' : astep boundary a c = Some (o, a') -> arun a (c :: y) = after o (arun a' y).
Proof. intros H. cbn [MultipartSpec.arun]. rewrite H. by destruct (arun a' y). Qed.

Lemma after_after o o' r : after o (after o' r) = after (o ++ o') r.
Proof. unfold after. cbn [fst snd]. by rewrite app_assoc. Qed.

Lemma after_nil r : after [] r = r.
Proof. by destruct r. Qed.

Lemma arun_name n : Forall (fun c => c = 45 \/ is_alpha c = true) n -> forall st y, (st = s_header_field_start \/ st = s_header_field) ->
  arun (st, 0%nat) (n ++ 58 :: y) = after (TField <$> n) (arun (s_header_value_start, 0%nat) y).
Proof.
  induction 1 as [|c n Hc Hn IH]; intros st y Hst.
  - cbn [app]. by rewrite (arun_step _ _ _ [] (s_header_value_start, 0%nat)) by (by destruct Hst as [-> | ->]).
  - cbn [app]. rewrite (arun_step _ _ _ [TField c] (s_header_field, 0%nat)), IH, after_after; [by rewrite fmap_cons|auto|].
    assert (c <> CR /\ c <> 58) as [N1 N2] by (destruct Hc as [->|Hc%alpha_not]; [done|tauto]).
    assert ((c =? 45) || is_alpha c = true) as Ho by (destruct Hc as [-> | ->]; [done|apply orb_true_r]).
    destruct Hst as [-> | ->]; unfold astep; cbn [fst]; by rewrite (proj2 (Z.eqb_neq c CR)), (proj2 (Z.eqb_neq c 58)), Ho by done.
Qed.

Lemma arun_value_rest v : CR ∉ v -> forall y, arun (s_header_value, 0%nat) (v ++ CR :: LF :: y) = after (TValue <$> v) (arun (s_header_field_start, 0%nat) y).
Proof.
  induction v as [|c v IH]; intros Hv y.
  - cbn [app]. rewrite (arun_step _ _ _ [] (s_header_value_almost_done, 0%nat)), (arun_step _ LF _ [] (s_header_field_start, 0%nat)) by done. by rewrite !after_nil.
  - apply not_elem_of_cons in Hv as [Hc Hv]. cbn [app]. rewrite (arun_step _ _ _ [TValue c] (s_header_value, 0%nat)), IH, after_after by
      (done || (unfold astep; cbn [fst]; by rewrite (proj2 (Z.eqb_neq c CR)))). by rewrite fmap_cons.
Qed.

Lemma arun_value v : CR ∉ v -> forall y, arun (s_header_value_start, 0%nat) (v ++ CR :: LF :: y) = after (TValue <$> unpadded v) (arun (s_header_field_start, 0%nat) y).
Proof.
  induction v as [|c v IH]; intros Hv y.
  - cbn [app]. rewrite (arun_step _ _ _ [] (s_header_value_almost_done, 0%nat)), (arun_step _ LF _ [] (s_header_field_start, 0%nat)) by done. by rewrite !after_nil.
  - apply not_elem_of_cons in Hv as [Hc Hv]. cbn [app unpadded]. destruct (Z.eqb_spec c 32) as [->|H32].
    + by rewrite (arun_step _ _ _ [] (s_header_value_start, 0%nat)), after_nil, IH by done.
    + rewrite (arun_step _ _ _ [TValue c] (s_header_value, 0%nat)), arun_value_rest, after_after by
        (done || (unfold astep; cbn [fst]; by rewrite (proj2 (Z.eqb_neq c CR)), (proj2 (Z.eqb_neq c 32)))). by rewrite fmap_cons.
Qed.

Lemma arun_headers hs y : Forall header_ok hs ->
  arun (s_header_field_start, 0%nat) (concat (encode_header <$> hs) ++ y) = after (concat (header_toks <$> hs)) (arun (s_header_field_start, 0%nat) y).
Proof.
  induction 1 as [|[n v] hs [Hn Hv] Hhs IH]; [by rewrite after_nil|]. rewrite !fmap_cons. cbn [concat]. unfold encode_header at 1, header_toks at 1. cbn [fst snd] in *. rewrite <- !app_assoc. cbn [app].
  rewrite arun_name by auto. by rewrite arun_value, IH, !after_after, <- app_assoc by auto.
Qed.

(** What may yet turn out to be the delimiter. *)
Definition held (a : state * nat) : list Z :=
  match a.1 with s_part_data_almost_boundary => [CR] | s_part_data_boundary => CR :: LF :: take a.2 boundary | _ => [] end.

Lemma dchar_held c o a : dchar c = (o, Some a) -> [c] = o ++ held a /\ is_data a.1 = true.
Proof. unfold dchar. destruct (Z.eqb_spec c CR) as [->|]; intros [= <- <-]; done. Qed.

Lemma dstep_held a c : is_data a.1 = true ->
  match dstep boundary a c with
  | (o, Some a') => held a ++ [c] = o ++ held a' /\ is_data a'.1 = true
  | (o, None) => held a ++ [c] = CR :: LF :: boundary
  end.
Proof.
  intros Hd. destruct (dchar c) as [o r] eqn:E. assert (exists a', r = Some a') as [a' ->] by (unfold dchar in E; destruct (c =? CR); injection E as <- <-; eauto).
  pose proof (dchar_held _ _ _ E) as [Ec Hd']. unfold dstep. rewrite E. destruct a as [[] n]; try done; unfold held at 1; cbn [fst snd app].
  - destruct (Z.eqb_spec c LF) as [->|]; [done|]. by rewrite Ec.
  - destruct (decide (boundary !! n = Some c)) as [Hc|Hc].
    + destruct (decide (S n = length boundary)) as [Hn|Hn]; unfold held; cbn [fst snd app]; rewrite <- (take_S_r _ _ _ Hc); [|done]. by rewrite Hn, firstn_all.
    + cbn [app]. rewrite <- app_assoc, Ec. done.
Qed.

Lemma astep_data a c : is_data a.1 = true ->
  astep boundary a c = match dstep boundary a c with (o, Some a') => Some (TByte <$> o, a') | (_, None) => Some ([TEnd], (s_part_data_almost_end, 0%nat)) end.
Proof. unfold astep. by destruct a as [[] n]. Qed.

(** Data without the delimiter is all handed on or held. *)
Lemma drun_data d : forall a, is_data a.1 = true -> (forall x y, held a ++ d <> x ++ (CR :: LF :: boundary) ++ y) ->
  exists o a', drun boundary a d = (o, inl a') /\ held a ++ d = o ++ held a' /\ is_data a'.1 = true.
Proof.
  induction d as [|c d IH]; intros a Hd Hno; [exists [], a; by rewrite app_nil_r|]. cbn [drun].
  pose proof (dstep_held a c Hd) as Hh. destruct (dstep boundary a c) as [o [a'|]].
  - destruct Hh as [Hh Hd']. assert (held a ++ c :: d = o ++ held a' ++ d) as E by (rewrite app_assoc, <- Hh, <- app_assoc; done).
    destruct (IH a' Hd') as (o' & a2 & -> & E2 & Hd2); [|exists (o ++ o'), a2; rewrite E, E2, <- app_assoc; done].
    intros x y E2. apply (Hno (o ++ x) y). rewrite E, E2. by rewrite <- app_assoc.
  - destruct (Hno [] d). cbn [app]. change (CR :: LF :: boundary ++ d) with ((CR :: LF :: boundary) ++ d). by rewrite <- Hh, <- app_assoc.
Qed.

(** A carriage return begins the search anew. *)
Lemma dstep_cr a : is_data a.1 = true -> dstep boundary a CR = (held a, Some (s_part_data_almost_boundary, 0%nat)).
Proof.
  intros Hd. destruct a as [[] n]; try done. unfold dstep, held. cbn [fst snd].
  rewrite decide_False; [|intros Hc; apply Hcr; by eapply list_elem_of_lookup_2]. unfold dchar. cbn. by rewrite app_nil_r.
Qed.

Lemma drun_rest n y : (n < length boundary)%nat -> drun boundary (s_part_data_boundary, n) (drop n boundary ++ y) = ([], inr y).
Proof.
  remember (length boundary - n)%nat as k eqn:Ek. revert n Ek. induction k as [|k IH]; intros n Ek Hn; [lia|].
  destruct (lookup_lt_is_Some_2 boundary n) as [c Hc]; [lia|]. rewrite (drop_S _ c) by done. cbn [app drun]. unfold dstep. cbn [fst snd].
  rewrite decide_True by done. destruct (decide (S n = length boundary)) as [E|E]; [by rewrite E, drop_all|]. by rewrite IH by lia.
Qed.

(** Data up to the delimiter, whatever comes behind it. *)
Lemma drun_delimiter d y : (forall a b, d <> a ++ (CR :: LF :: boundary) ++ b) -> drun boundary (s_part_data, 0%nat) (d ++ CR :: LF :: boundary ++ y) = (d, inr y).
Proof.
  intros Hno. destruct (drun_data d (s_part_data, 0%nat) eq_refl Hno) as (o & a & Hr & Ho & Hd). cbn [held fst app] in Ho.
  rewrite drun_app, Hr. cbn [drun]. rewrite dstep_cr by done. cbn [drun]. change (dstep boundary (s_part_data_almost_boundary, 0%nat) LF) with (@nil Z, Some (s_part_data_boundary, 0%nat)).
  cbv beta iota. pose proof (drun_rest 0 y) as Hr0. rewrite drop_0 in Hr0. rewrite Hr0 by (destruct boundary; [done|cbn [length]; lia]). cbn [fst snd app]. by rewrite app_nil_r, <- Ho.
Qed.

(** The run of the whole, in data. *)
Lemma arun_drun d : forall a, is_data a.1 = true -> arun a d =
  match drun boundary a d with
  | (o, inl a') => (TByte <$> o, Some a')
  | (o, inr y) => ((TByte <$> o) ++ TEnd :: (arun (s_part_data_almost_end, 0%nat) y).1, (arun (s_part_data_almost_end, 0%nat) y).2)
  end.
Proof.
  induction d as [|c d IH]; intros a Hd; [done|]. cbn [MultipartSpec.arun drun]. rewrite astep_data by done. pose proof (dstep_held a c Hd) as Hh.
  assert (dstep boundary a c = ((dstep boundary a c).1, None) -> (dstep boundary a c).1 = []) as Hnil.
  { unfold dstep. destruct a as [[] n]; try done; unfold dchar; cbn [fst snd]; repeat case_match; done. }
  destruct (dstep boundary a c) as [o [a'|]].
  - destruct Hh as [_ Hd']. rewrite IH by done. destruct (drun boundary a' d) as [os [a2|y]]; rewrite fmap_app; [done|]. by rewrite <- app_assoc.
  - cbn [fst] in Hnil. rewrite (Hnil eq_refl). by destruct (arun _ d).
Qed.

Lemma arun_part_data d y : (forall a b, d <> a ++ (CR :: LF :: boundary) ++ b) ->
  arun (s_part_data_start, 0%nat) (d ++ CR :: LF :: boundary ++ y) =
    (TComplete :: (TByte <$> d) ++ TEnd :: (arun (s_part_data_almost_end, 0%nat) y).1, (arun (s_part_data_almost_end, 0%nat) y).2).
Proof.
  intros Hno. assert (forall c x, arun (s_part_data_start, 0%nat) (c :: x) = let '(o, r) := arun (s_part_data, 0%nat) (c :: x) in (TComplete :: o, r)) as Hstart.
  { intros c x. cbn [MultipartSpec.arun]. rewrite (astep_data (s_part_data, 0%nat)) by done. unfold astep. cbn [fst]. rewrite decide_True by done. destruct (dstep boundary (s_part_data, 0%nat) c) as [o [a|]]; cbn [app].
    - by destruct (arun a x).
    - by destruct (arun _ x). }
  pose proof (arun_drun (d ++ CR :: LF :: boundary ++ y) (s_part_data, 0%nat) eq_refl) as Hall. rewrite drun_delimiter in Hall by done.
  destruct d as [|c d]; cbn [app] in *; by rewrite Hstart, Hall.
Qed.

(** From the line end behind one boundary to the next boundary. *)
Lemma arun_part pt y : part_ok boundary pt -> forall a, (forall z, arun a (CR :: LF :: z) = (TBegin :: (arun (s_header_field_start, 0%nat) z).1, (arun (s_header_field_start, 0%nat) z).2)) ->
  arun a (encode_part boundary pt ++ y) = (part_toks pt ++ (arun (s_part_data_almost_end, 0%nat) y).1, (arun (s_part_data_almost_end, 0%nat) y).2).
Proof.
  intros [Hh Hd] a Ha. unfold encode_part, part_toks. rewrite <- !app_assoc. cbn [app]. rewrite Ha, arun_headers by done.
  change (CR :: LF :: pt_data pt ++ CR :: LF :: boundary ++ y) with ([CR; LF] ++ pt_data pt ++ (CR :: LF :: boundary) ++ y).
  rewrite (arun_seq (s_header_field_start, 0%nat) [CR; LF] [] (s_part_data_start, 0%nat)) by done. cbn [app].
  rewrite arun_part_data by done. unfold after. cbn [fst snd app]. by rewrite <- ?app_assoc.
Qed.

Lemma arun_almost_end z : arun (s_part_data_almost_end, 0%nat) (CR :: LF :: z) = (TBegin :: (arun (s_header_field_start, 0%nat) z).1, (arun (s_header_field_start, 0%nat) z).2).
Proof. cbn. by destruct (arun _ z). Qed.

Lemma arun_end epilogue : arun (s_part_data_almost_end, 0%nat) ([45; 45] ++ epilogue) = ([TBody], Some (s_end, 0%nat)).
Proof.
  rewrite (arun_seq _ [45; 45] [TBody] (s_end, 0%nat)) by done.
  assert (arun (s_end, 0%nat) epilogue = ([], Some (s_end, 0%nat))) as ->; [|done]. induction epilogue as [|c e IH]; [done|]. cbn. by rewrite IH.
Qed.

Lemma arun_body parts epilogue : parts <> [] -> Forall (part_ok boundary) parts ->
  arun (s_start, 0%nat) (encode_body boundary parts epilogue) = (concat (part_toks <$> parts) ++ [TBody], Some (s_end, 0%nat)).
Proof.
  intros Hne Hok. unfold encode_body.
  assert (arun (s_start, 0%nat) boundary = ([], Some (s_start_boundary, length boundary))) as Hb.
  { rewrite <- (arun_first 0) by lia. rewrite drop_0. by destruct boundary. }
  rewrite (arun_seq _ _ _ _ _ Hb). cbn [app].
  assert (forall z, arun (s_start_boundary, length boundary) (CR :: LF :: z) = (TBegin :: (arun (s_header_field_start, 0%nat) z).1, (arun (s_header_field_start, 0%nat) z).2)) as Hf.
  { intros z. cbn [MultipartSpec.arun].
    assert (astep boundary (s_start_boundary, length boundary) CR = Some ([], (s_start_boundary, S (length boundary)))) as -> by (unfold astep, first_boundary; cbn [fst snd]; by rewrite decide_True).
    assert (astep boundary (s_start_boundary, S (length boundary)) LF = Some ([TBegin], (s_header_field_start, 0%nat))) as ->
      by (unfold astep, first_boundary; cbn [fst snd]; rewrite decide_False by lia; by rewrite decide_True).
    by destruct (arun _ z). }
  assert (forall parts a, Forall (part_ok boundary) parts ->
    (forall z, arun a (CR :: LF :: z) = (TBegin :: (arun (s_header_field_start, 0%nat) z).1, (arun (s_header_field_start, 0%nat) z).2)) ->
    (parts = [] -> a = (s_part_data_almost_end, 0%nat)) ->
    arun a (concat (encode_part boundary <$> parts) ++ [45; 45] ++ epilogue) = (concat (part_toks <$> parts) ++ [TBody], Some (s_end, 0%nat))) as Hall.
  { clear parts Hne Hok. induction parts as [|pt parts IH]; intros a Hok Ha Hn.
    - rewrite Hn by done. apply arun_end.
    - apply Forall_cons in Hok as [Hpt Hok]. rewrite !fmap_cons. cbn [concat]. rewrite <- app_assoc, arun_part by done.
      rewrite IH; [|done|apply arun_almost_end|done]. cbn [fst snd]. by rewrite <- app_assoc. }
  rewrite Hall; [done|done|done|by intros ->].
Qed.
End encoded.

(** C9: the parts of an encoded form arrive as they were: whatever pieces the body comes in, no
    piece is refused, and the client hears for every part its begin, the end of its headers, its
    data and its end, and then the end of the body; and in front of the data the names and the
    values (without blanks in front) of its headers, in their order, when no piece ends in a
    hyphen of a name or in the carriage return behind a value.  The boundary has no carriage
    return, and the data no line end with the boundary. *)
Theorem multipart_roundtrip can_alloc junk boundary p parts epilogue pieces :
  boundary <> [] -> CR ∉ boundary -> multipart_parser_init can_alloc junk boundary = Some p -> parts <> [] -> Forall (part_ok boundary) parts ->
  concat pieces.*1 = encode_body boundary parts epilogue ->
  let toks := concat (part_toks <$> parts) ++ [TBody] in
  exists log, feed log_settings [] p pieces = Some (log, true) /\ strip log = strip toks /\
    (clean_cuts boundary (s_start, 0%nat) pieces.*1 = true -> log = toks).
Proof.
  intros Hb Hcr Hp Hne Hok Hpieces toks. unfold multipart_parser_init in Hp. destruct (can_alloc _); [|done]. injection Hp as <-.
  pose proof (feed_log boundary Hb pieces (MP 0 boundary s_start (replicate (length boundary + 12) junk)) (s_start, 0%nat) [] []) as Hf.
  rewrite Hpieces, (arun_body boundary Hb Hcr parts epilogue Hne Hok) in Hf. destruct Hf as (log & Hf & Hs & Hl).
  - unfold rel. cbn [is_data fst mp_boundary mp_lookbehind mp_state]. rewrite length_replicate. done.
  - exists log. split; [exact Hf|]. split; [exact Hs|]. intros Hc. by apply Hl.
Qed.

Definition demo_pieces : list (list Z * list Z) :=
  [(bs "--X" ++ [13; 10] ++ bs "A-b: c" ++ [13; 10; 13], []); ([10] ++ bs "hi" ++ [13; 10], bs "zz"); (bs "--X--", [])].

Lemma multipart_roundtrip_witness :
  exists p, multipart_parser_init (fun _ => true) 170 (bs "--X") = Some p /\
  feed log_settings [] p demo_pieces =
    Some ([TBegin; TField 65; TField 45; TField 98; TValue 99; TComplete; TByte 104; TByte 105; TEnd; TBody], true).
Proof.
  exists (MP 0 (bs "--X") s_start (replicate 15 170)). split; [reflexivity|].
  destruct (multipart_roundtrip (fun _ => true) 170 (bs "--X") (MP 0 (bs "--X") s_start (replicate 15 170)) [Part [(bs "A-b", bs " c")] (bs "hi")] [] demo_pieces) as (log & Hf & _ & Hl);
    [discriminate| |reflexivity|discriminate| |reflexivity|].
  - intros H. repeat (apply elem_of_cons in H as [H|H]; [discriminate|]). by apply elem_of_nil in H.
  - apply Forall_cons. split; [|by apply Forall_nil]. split.
    + apply Forall_cons. split; [|by apply Forall_nil]. split.
      * cbn [fst]. vm_compute. repeat constructor; first [left; reflexivity|right; reflexivity].
      * intros H. repeat (apply elem_of_cons in H as [H|H]; [discriminate|]). by apply elem_of_nil in H.
    + intros [|? [|? [|? a]]] b H; discriminate H.
  - rewrite Hf, Hl by (vm_compute; reflexivity). reflexivity.
Defined.

(** ** Clients *)

(** What a client keeps true: [i_headers] between and in the headers of parts, [i_data] in data,
    [i_stopped] when it stops the parser or the body ends. *)
Class Client {S} (settings : multipart_parser_settings S) := {
  i_headers : S -> Prop;
  i_data : S -> Prop;
  i_stopped : S -> Prop;
  headers_stopped s : i_headers s -> i_stopped s;
  data_stopped s : i_data s -> i_stopped s;
  keeps_header f s mem len s' r : on_header_field settings = Some f \/ on_header_value settings = Some f -> i_headers s -> f s mem len = Some (s', r) ->
    if r =? 0 then i_headers s' else i_stopped s';
  keeps_notify f s s' r : on_part_data_begin settings = Some f \/ on_body_end settings = Some f -> i_headers s -> f s = Some (s', r) ->
    if r =? 0 then i_headers s' else i_stopped s';
  keeps_complete s s' r : i_headers s -> match on_headers_complete settings with Some f => f s | None => Some (s, 0) end = Some (s', r) ->
    if r =? 0 then i_data s' else i_stopped s';
  keeps_data f s mem len s' r : on_part_data settings = Some f -> i_data s -> f s mem len = Some (s', r) -> if r =? 0 then i_data s' else i_stopped s';
  keeps_end s s' r : i_data s -> match on_part_data_end settings with Some f => f s | None => Some (s, 0) end = Some (s', r) ->
    if r =? 0 then i_headers s' else i_stopped s'
}.

Section clients.
Context {S : Type} (settings : multipart_parser_settings S) {C : Client settings}.

Definition keeps (p : multipart_parser) (s : S) : Prop := if is_data (mp_state p) then i_data s else i_headers s.

Definition round_keeps (len : Z) (r : round) : Prop :=
  match r with Return s p i => i < len /\ i_stopped s | Next s p i mark => keeps p s /\ i <= len end.

Lemma notify_keeps cb s p i len k r (post : S -> Prop) : i < len -> 0 <= i ->
  (forall s' v, match cb with Some f => f s | None => Some (s, 0) end = Some (s', v) -> if v =? 0 then post s' else i_stopped s') ->
  (forall s' r, post s' -> k s' = Some r -> round_keeps len r) -> NOTIFY_CB cb s p i k = Some r -> round_keeps len r.
Proof.
  intros Hi H0 Hcb Hk. unfold NOTIFY_CB. destruct cb as [f|].
  - destruct (f s) as [[s' v]|]; [|done]. specialize (Hcb s' v eq_refl). cbn [mbind option_bind]. destruct (v =? 0); [by apply Hk|]. intros [= <-]. done.
  - apply Hk. exact (Hcb s 0 eq_refl).
Qed.

Lemma emit_keeps cb s p i ptr n len k r (post : S -> Prop) : i < len -> 0 <= i -> post s ->
  (forall f s' v, cb = Some f -> f s ptr n = Some (s', v) -> if v =? 0 then post s' else i_stopped s') ->
  (forall s' r, post s' -> k s' = Some r -> round_keeps len r) -> EMIT_DATA_CB cb s p i ptr n k = Some r -> round_keeps len r.
Proof.
  intros Hi H0 Hs Hcb Hk. unfold EMIT_DATA_CB. destruct cb as [f|]; [|by apply Hk].
  destruct (f s ptr n) as [[s' v]|] eqn:E; [|done]. specialize (Hcb f s' v eq_refl E). cbn [mbind option_bind]. destruct (v =? 0); [by apply Hk|]. intros [= <-]. done.
Qed.

#[local] Ltac next := intros [= <-]; cbn [round_keeps]; unfold keeps; cbn [set_state set_index mp_state is_data];
  repeat match goal with H : mp_state ?p = _ |- context [mp_state ?p] => rewrite H end; (split; [done || lia || by apply headers_stopped|lia || done || by apply headers_stopped]).

Lemma start_boundary_keeps i c len s p mark r : 0 <= i < len -> mp_state p = s_start_boundary -> i_headers s ->
  start_boundary settings i c s p mark = Some r -> round_keeps len r.
Proof.
  intros Hi Hst Hs. unfold start_boundary. destruct (_ =? _); [destruct (negb _); next|]. destruct (mp_index p =? _); [destruct (negb _); [next|]|].
  - apply notify_keeps with (post := i_headers); [lia|lia| |intros s' r'; intros Hs'; next].
    intros s' v. destruct (on_part_data_begin settings) as [f|] eqn:E; [intros; eapply (keeps_notify f); eauto|by intros [= <- <-]].
  - destruct (zget _ _); [|done]. cbn [mbind option_bind]. destruct (negb _); next.
Qed.

Lemma header_field_keeps buf i c is_last len s p mark r : 0 <= i < len -> mp_state p = s_header_field -> i_headers s ->
  in_header_field settings buf i c is_last s p mark = Some r -> round_keeps len r.
Proof.
  intros Hi Hst Hs. unfold in_header_field. destruct (c =? CR); [next|]. destruct (c =? 45); [next|].
  destruct (c =? 58); [|destruct (_ || _); [next|]; destruct is_last; [|next]];
    (apply emit_keeps with (post := i_headers); [lia|lia|done|intros f s' v Hf; apply keeps_header; auto|intros s' r' Hs'; next]).
Qed.

Lemma header_value_last_keeps buf i is_last len s p mark r : 0 <= i < len -> is_data (mp_state p) = false -> i_headers s ->
  header_value_last settings buf i is_last s p mark = Some r -> round_keeps len r.
Proof.
  intros Hi Hd Hs. assert (forall s, i_headers s -> round_keeps len (Next s p (i + 1) mark)) as Hn by (intros s' Hs'; split; [unfold keeps; by rewrite Hd|lia]).
  unfold header_value_last. destruct is_last; [|intros [= <-]; by apply Hn].
  apply emit_keeps with (post := i_headers); [lia|lia|done|intros f s' v Hf; apply keeps_header; auto|intros s' r' Hs' [= <-]; by apply Hn].
Qed.

Lemma header_value_keeps buf i c is_last len s p mark r : 0 <= i < len -> mp_state p = s_header_value -> i_headers s ->
  in_header_value settings buf i c is_last s p mark = Some r -> round_keeps len r.
Proof.
  intros Hi Hst Hs. unfold in_header_value. destruct (c =? CR); [|apply header_value_last_keeps; [done|by rewrite Hst|done]].
  apply emit_keeps with (post := i_headers); [lia|lia|done|intros f s' v Hf; apply keeps_header; auto|intros s' r' Hs'; by apply header_value_last_keeps].
Qed.

Lemma part_data_keeps buf i c is_last len s p mark r : 0 <= i < len -> mp_state p = s_part_data -> i_data s ->
  part_data settings buf i c is_last s p mark = Some r -> round_keeps len r.
Proof.
  intros Hi Hst Hs. unfold part_data. destruct (c =? CR); [|destruct is_last; [|next]];
    (apply emit_keeps with (post := i_data); [lia|lia|done|intros f s' v Hf; by apply keeps_data|intros s' r' Hs'; try next]).
  unfold set_lookbehind. destruct (zset _ _ _); [|done]. cbn [mbind option_bind]. next.
Qed.

Lemma part_data_boundary_keeps i c len s p mark r : 0 <= i < len -> mp_state p = s_part_data_boundary -> i_data s ->
  part_data_boundary settings i c s p mark = Some r -> round_keeps len r.
Proof.
  intros Hi Hst Hs. unfold part_data_boundary. destruct (zget _ _); [|done]. cbn [mbind option_bind]. destruct (negb _).
  - apply emit_keeps with (post := i_data); [lia|lia|done|intros f s' v Hf; by apply keeps_data|intros s' r' Hs'; next].
  - unfold set_lookbehind. destruct (zset _ _ _); [|done]. cbn [mbind option_bind set_index mp_index mp_state]. destruct (_ =? _); [|next].
    apply notify_keeps with (post := i_headers); [lia|lia|intros s' v; by apply keeps_end|intros s' r' Hs'; next].
Qed.

Lemma step_keeps buf i c is_last len s p mark r : 0 <= i < len -> keeps p s -> step settings buf i c is_last s p mark = Some r -> round_keeps len r.
Proof.
  intros Hi Hk. unfold step. unfold keeps in Hk. destruct (mp_state p) eqn:Hst; cbn [is_data] in Hk.
  - next.
  - by apply start_boundary_keeps.
  - by apply start_boundary_keeps.
  - by apply header_field_keeps.
  - by apply header_field_keeps.
  - destruct (negb _); next.
  - destruct (_ =? 32); [next|by apply header_value_keeps].
  - by apply header_value_keeps.
  - destruct (negb _); next.
  - apply notify_keeps with (post := i_data); [lia|lia|intros s' v; by apply keeps_complete|intros s' r' Hs'; by apply part_data_keeps].
  - by apply part_data_keeps.
  - destruct (_ =? _).
    + unfold set_lookbehind. destruct (zset _ _ _); [|done]. cbn [mbind option_bind]. next.
    + apply emit_keeps with (post := i_data); [lia|lia|done|intros f s' v Hf; by apply keeps_data|intros s' r' Hs'; next].
  - by apply part_data_boundary_keeps.
  - destruct (_ =? 45); [next|]. destruct (_ =? CR); next.
  - destruct (_ =? _); [|next]. apply notify_keeps with (post := i_headers); [lia|lia| |intros s' r' Hs'; next].
    intros s' v. destruct (on_part_data_begin settings) as [f|] eqn:E; [intros; eapply (keeps_notify f); eauto|by intros [= <- <-]].
  - destruct (_ =? _); [|next]. apply notify_keeps with (post := i_headers); [lia|lia| |intros s' r' Hs'; next].
    intros s' v. destruct (on_body_end settings) as [f|] eqn:E; [intros; eapply (keeps_notify f); eauto|by intros [= <- <-]].
  - next.
Qed.

Lemma step_next_nonneg buf i c is_last s p mark s' p' i' mark' : 0 <= i -> step settings buf i c is_last s p mark = Some (Next s' p' i' mark') -> 0 <= i'.
Proof.
  intros Hi. unfold step, start_boundary, in_header_field, in_header_value, header_value_last, part_data, part_data_boundary, NOTIFY_CB, EMIT_DATA_CB, set_lookbehind.
  intros H. repeat (case_match; simplify_option_eq; try lia).
Qed.

Lemma loop_keeps buf len s' p' rem fuel : forall s p i mark, 0 <= i <= len -> keeps p s -> execute_loop settings fuel buf len s p i mark = Some (s', p', rem) ->
  rem = len /\ keeps p' s' \/ rem < len /\ i_stopped s'.
Proof.
  induction fuel as [|fuel IH]; intros s p i mark H0 Hk; [done|]. cbn [execute_loop].
  destruct (Z.ltb_spec i len) as [Hi|Hi]; [|intros [= <- <- <-]; by left]. destruct (zget buf i) as [c|]; [|done]. cbn [mbind option_bind].
  destruct (step settings buf i c (i =? len - 1) s p mark) as [r|] eqn:E; [|done]. cbn [mbind option_bind].
  pose proof (step_keeps buf i c _ len s p mark r ltac:(lia) Hk E) as Hr. destruct r as [s1 p1 i1|s1 p1 i1 mark1]; cbn [round_keeps] in Hr.
  - intros [= <- <- <-]. right. tauto.
  - apply IH; [|tauto]. split; [|tauto]. eapply step_next_nonneg; [|exact E]. lia.
Qed.

(** A piece leaves the parser ready for the next or stopped. *)
Lemma execute_keeps s p buf len s' p' rem : 0 <= len -> keeps p s -> multipart_parser_execute settings s p buf len = Some (s', p', rem) ->
  rem = len /\ keeps p' s' \/ rem < len /\ i_stopped s'.
Proof. intros Hlen Hk. apply loop_keeps; [lia|done]. Qed.
End clients.
