(* ===== verification/CgiIo.v ===== *)
(** The upload and backup helper of the web interface (realtek/packages/net/cgi-io/src/main.c):
    the functions it gives the form parser, the temporary and the target file, the decoding of
    posted fields, and the two programs. *)

From stdpp Require Import gmap.
From S2P Require Import Prelude Libc Multipart.

(** ** Comparing memory and strings *)

(** [strncasecmp] and [strncmp] of memory with a string; reading past the memory is [None]. *)
Fixpoint str_eq (fold : Z -> Z) (mem s : list Z) (n : nat) {struct n} : option bool :=
  match n with
  | O => Some true
  | S n =>
      match mem with
      | [] => None
      | c :: mem =>
          match s with
          | [] => Some (c =? 0)
          | d :: s => if fold c =? fold d then if c =? 0 then Some true else str_eq fold mem s n else Some false
          end
      end
  end.

Definition mem_strncasecmp : list Z -> list Z -> nat -> option bool := str_eq tolower.
Definition mem_strncmp : list Z -> list Z -> nat -> option bool := str_eq id.

(** [strtoul (data, NULL, 8)] of memory: something has to end the number. *)
Definition strtoul8 (mem : list Z) : option Z :=
  let s := skip_space mem in
  let '(neg, s) := match s with 45 :: s' => (true, s') | 43 :: s' => (false, s') | _ => (false, s) end in
  if forallb (fun c => digit_val c <? 8) s then None
  else
    let m := strtoul_digits 8 0 s in
    Some (if 2 ^ 32 <=? m then 2 ^ 32 - 1 else if neg then u32 (- m) else m).

(** ** State *)

Inductive upload_part := PART_UNKNOWN | PART_SESSIONID | PART_FILENAME | PART_FILEMODE | PART_FILEDATA.

#[global] Instance upload_part_eq_dec : EqDecision upload_part.
Proof. solve_decision. Defined.

Definition parts : list (upload_part * list Z) :=
  [(PART_SESSIONID, bs "sessionid"); (PART_FILENAME, bs "filename"); (PART_FILEMODE, bs "filemode"); (PART_FILEDATA, bs "filedata")].

(** [sessionid] and [filename] are blocks that hold a string; a descriptor is -1 when closed. *)
Record upload := Upload {
  is_content_disposition : bool; parttype : upload_part; sessionid : option (list Z); filename : option (list Z);
  filedata : bool; filemode : Z; filefd : Z; tempfd : Z
}.

(** Replies on standard output: the size of the stored file, when it can be found out, or a
    message. *)
Inductive reply := Stored (size : option Z) | Failed (message : list Z).

(** Files with their permissions, what the temporary file holds, and the replies. *)
Record cgi_world := World { w_files : gmap path (list Z * Z); w_temp : list Z; w_replies : list reply }.

Record cgi := Cgi { c_st : upload; c_world : cgi_world }.

(** What the system answers: the session service (asked over ubus), whether files can be made,
    opened, rewound and changed, and what [write] returns for a number of bytes at a size. *)
Record system := System {
  session_access : list Z -> list Z -> list Z -> bool;
  can_alloc : Z -> bool; mkstemp_ok : bool; temp_write : Z -> Z -> Z; lseek_ok : bool;
  can_open : path -> bool; target_write : Z -> Z -> Z; chmod_ok : bool
}.

Definition with_st (g : cgi) (s : upload) : cgi := Cgi s (c_world g).
Definition with_world (g : cgi) (w : cgi_world) : cgi := Cgi (c_st g) w.

Definition set_disposition (s : upload) (b : bool) : upload := Upload b (parttype s) (sessionid s) (filename s) (filedata s) (filemode s) (filefd s) (tempfd s).
Definition set_parttype (s : upload) (t : upload_part) : upload := Upload (is_content_disposition s) t (sessionid s) (filename s) (filedata s) (filemode s) (filefd s) (tempfd s).
Definition set_sessionid (s : upload) (v : option (list Z)) : upload := Upload (is_content_disposition s) (parttype s) v (filename s) (filedata s) (filemode s) (filefd s) (tempfd s).
Definition set_filename (s : upload) (v : option (list Z)) : upload := Upload (is_content_disposition s) (parttype s) (sessionid s) v (filedata s) (filemode s) (filefd s) (tempfd s).
Definition set_filedata (s : upload) (b : bool) : upload := Upload (is_content_disposition s) (parttype s) (sessionid s) (filename s) b (filemode s) (filefd s) (tempfd s).
Definition set_filemode (s : upload) (m : Z) : upload := Upload (is_content_disposition s) (parttype s) (sessionid s) (filename s) (filedata s) m (filefd s) (tempfd s).
Definition set_filefd (s : upload) (fd : Z) : upload := Upload (is_content_disposition s) (parttype s) (sessionid s) (filename s) (filedata s) (filemode s) fd (tempfd s).
Definition set_tempfd (s : upload) (fd : Z) : upload := Upload (is_content_disposition s) (parttype s) (sessionid s) (filename s) (filedata s) (filemode s) (filefd s) fd.

Section program.
Context (sys : system).

Definition datadup (mem : list Z) (len : Z) : option (option (list Z)) :=
  if can_alloc sys (len + 1) then d ← zslice mem 0 len; Some (Some (d ++ [0])) else Some None.

(** ** Replies *)

(** The name a block holds. *)
Definition name_of (block : option (list Z)) : option path := b ← block; cstr b.

(** [response]: it returns -1 on success, too.  A failure removes the target once a descriptor
    for it has been kept. *)
Definition response_ok (g : cgi) : option (cgi * Z) :=
  let size := n ← name_of (filename (c_st g)); f ← w_files (c_world g) !! n; Some (zlen f.1) in
  let w := c_world g in Some (with_world g (World (w_files w) (w_temp w) (w_replies w ++ [Stored size])), -1).

Definition response_failed (message : list Z) (g : cgi) : option (cgi * Z) :=
  let w := c_world g in
  let files :=
    if -1 <? filefd (c_st g) then match name_of (filename (c_st g)) with Some n => delete n (w_files w) | None => w_files w end
    else w_files w in
  Some (with_world g (World files (w_temp w) (w_replies w ++ [Failed message])), -1).

(** ** The target file *)

(** 4096 bytes at a time; [false] is a short write. *)
Fixpoint filecopy_loop (fuel : nat) (rest done : list Z) : list Z * bool :=
  match fuel with
  | O => (done, true)
  | S fuel =>
      let chunk := take 4096 rest in
      if decide (chunk = []) then (done, true)
      else
        let r := target_write sys (zlen done) (zlen chunk) in
        let done := done ++ take (Z.to_nat r) chunk in
        if r =? zlen chunk then filecopy_loop fuel (drop 4096 rest) done else (done, false)
  end.

(** A file that exists keeps its permissions until [chmod], which keeps the low twelve bits. *)
Definition filecopy (g : cgi) : option (cgi * Z) :=
  let st := c_st g in
  if negb (filedata st) then response_failed (bs "No file data received") g
  else if negb (lseek_ok sys) then response_failed (bs "Failed to rewind temp file") g
  else
    name ← name_of (filename st);
    if negb (can_open sys name) then response_failed (bs "Failed to open target file") (with_st g (set_filefd st (-1)))
    else
      let g := with_st g (set_filefd st 4) in
      let w := c_world g in
      let mode := match w_files w !! name with Some f => f.2 | None => 384 end in
      let '(data, ok) := filecopy_loop (S (length (w_temp w))) (w_temp w) [] in
      let g := with_world g (World (<[name := (data, mode)]> (w_files w)) (w_temp w) (w_replies w)) in
      if negb ok then response_failed (bs "I/O failure while writing target file") g
      else if negb (chmod_ok sys) then response_failed (bs "Failed to chmod target file") g
      else Some (with_world g (World (<[name := (data, Z.land (filemode st) 4095)]> (w_files w)) (w_temp w) (w_replies w)), 0).

(** ** What the parser calls *)

Definition header_field (g : cgi) (data : list Z) (len : Z) : option (cgi * Z) :=
  b ← mem_strncasecmp data (bs "Content-Disposition") (Z.to_nat len);
  Some (with_st g (set_disposition (c_st g) b), 0).

(** [for (...; *data == ' ' || *data == ';'; data++, len--);] *)
Fixpoint skip_separators (data : list Z) (len : Z) : option (list Z * Z) :=
  match data with
  | [] => None
  | c :: data' => if (c =? 32) || (c =? 59) then skip_separators data' (u32 (len - 1)) else Some (data, len)
  end.

(** The position of the closing quote, looked for as far as [len]. *)
Fixpoint find_quote (data : list Z) (len : Z) (i : Z) : option (option Z) :=
  if i <=? len then
    match data with
    | [] => None
    | c :: data => if c =? 34 then Some (Some i) else find_quote data len (i + 1)
    end
  else Some None.

(** The last of the names that starts with the [i] characters. *)
Fixpoint match_parts (ps : list (upload_part * list Z)) (data : list Z) (i : Z) (t : upload_part) : option upload_part :=
  match ps with
  | [] => Some t
  | (j, name) :: ps => b ← mem_strncmp data name (Z.to_nat i); match_parts ps data i (if negb b then t else j)
  end.

Definition header_value (g : cgi) (data : list Z) (len : Z) : option (cgi * Z) :=
  if negb (is_content_disposition (c_st g)) then Some (g, 0)
  else if len <? 10 then Some (g, 0)
  else
    b ← mem_strncasecmp data (bs "form-data") 9;
    if negb b then Some (g, 0)
    else
      '(data, len) ← skip_separators (drop 9 data) (len - 9);
      if len <? 8 then Some (g, 0)
      else
        b ← mem_strncasecmp data (bs "name=" ++ [34]) 6;
        if negb b then Some (g, 0)
        else
          let data := drop 6 data in
          q ← find_quote data (len - 6) 0;
          match q with
          | None => Some (g, 0)
          | Some i => t ← match_parts parts data i (parttype (c_st g)); Some (with_st g (set_parttype (c_st g) t), 0)
          end.

Definition data_begin_cb (g : cgi) : option (cgi * Z) :=
  let st := c_st g in
  if decide (parttype st = PART_FILEDATA) then
    match sessionid st, filename st with
    | None, _ => response_failed (bs "File data without session") g
    | _, None => response_failed (bs "File data without name") g
    | _, _ =>
        if mkstemp_ok sys then Some (Cgi (set_tempfd st 3) (World (w_files (c_world g)) [] (w_replies (c_world g))), 0)
        else response_failed (bs "Failed to create temporary file") (with_st g (set_tempfd st (-1)))
    end
  else Some (g, 0).

Definition data_cb (g : cgi) (data : list Z) (len : Z) : option (cgi * Z) :=
  let st := c_st g in
  match parttype st with
  | PART_SESSIONID => d ← datadup data len; Some (with_st g (set_sessionid st d), 0)
  | PART_FILENAME => d ← datadup data len; Some (with_st g (set_filename st d), 0)
  | PART_FILEMODE => m ← strtoul8 data; Some (with_st g (set_filemode st (s32 m)), 0)
  | PART_FILEDATA =>
      d ← zslice data 0 len;
      let w := c_world g in
      let r := temp_write sys (zlen (w_temp w)) len in
      let g := with_world g (World (w_files w) (w_temp w ++ take (Z.to_nat r) d) (w_replies w)) in
      if negb (r =? len) then response_failed (bs "I/O failure while writing temporary file") g
      else Some (with_st g (set_filedata st (if filedata st then true else negb (len =? 0))), 0)
  | PART_UNKNOWN => Some (g, 0)
  end.

(** The session id is used as a string and must not be [NULL]. *)
Definition data_end_cb (g : cgi) : option (cgi * Z) :=
  let st := c_st g in
  let unknown (g : cgi) := Some (with_st g (set_parttype (c_st g) PART_UNKNOWN), 0) in
  match parttype st with
  | PART_SESSIONID =>
      sid ← name_of (sessionid st);
      if negb (session_access sys sid (bs "upload") (bs "write")) then response_failed (bs "Upload permission denied") g else unknown g
  | PART_FILEDATA =>
      if tempfd st <? 0 then response_failed (bs "Internal program failure") g
      else
        '(g, r) ← filecopy g;
        if negb (r =? 0) then Some (g, -1) else response_ok g
  | _ => unknown g
  end.

Definition upload_settings : multipart_parser_settings cgi :=
  Settings (Some header_field) (Some header_value) (Some data_cb) None (Some data_begin_cb) (Some data_end_cb) None.

(** ** The upload program *)

(** The boundary is what follows the first [=]. *)
Definition upload_boundary (content_type : option (list Z)) : option (list Z) :=
  var ← content_type;
  if decide (take 20 var = bs "multipart/form-data;") then
    '(_, b) ← split_at 61 (drop 20 var); Some ([45; 45] ++ b)
  else None.

(** [st] as the program starts. *)
Definition initial : upload := Upload false PART_UNKNOWN None None false 0 0 0.

(** [None] is an allocation the parser does not check. *)
Definition init_parser (junk : Z) (content_type : option (list Z)) (st : upload) : option (option multipart_parser * upload) :=
  match upload_boundary content_type with
  | None => Some (None, st)
  | Some b =>
      if can_alloc sys (zlen b + 1) then
        p ← multipart_parser_init (can_alloc sys) junk b;
        Some (Some p, set_filemode (set_filefd (set_tempfd st (-1)) (-1)) 384)
      else Some (None, st)
  end.

(** [read] puts a piece at the start of the buffer and leaves the rest. *)
Definition read_piece (buf piece : list Z) : list Z := piece ++ drop (length piece) buf.

(** The loop of [main_upload]; what is left of the input is read and dropped. *)
Fixpoint upload_loop (g : cgi) (p : multipart_parser) (buf : list Z) (input : list (list Z)) : option cgi :=
  match input with
  | [] => Some g
  | piece :: input =>
      let buf := read_piece buf piece in
      '(g, p, rem) ← multipart_parser_execute upload_settings g p buf (zlen piece);
      if rem <? zlen piece then Some g else upload_loop g p buf input
  end.

Definition main_upload (junk : Z) (content_type : option (list Z)) (input : list (list Z)) (w : cgi_world) : option (cgi * Z) :=
  '(p, st) ← init_parser junk content_type initial;
  match p with
  | None => response_failed (bs "Invalid request") (Cgi st w)
  | Some p => g ← upload_loop (Cgi st w) p (replicate 4096 junk) input; Some (g, 0)
  end.
End program.

(** ** Posted fields *)

Definition isxdigit (c : Z) : bool := ((48 <=? c) && (c <=? 57)) || ((65 <=? c) && (c <=? 70)) || ((97 <=? c) && (c <=? 102)).

Definition hex (x : Z) : Z := if x <=? 57 then x - 48 else if x <=? 70 then x - 65 + 10 else x - 97 + 10.

(** In place: [c] is written behind [p], which is read. *)
Fixpoint urldecode_loop (fuel : nat) (buf : list Z) (c p : Z) : option (list Z * bool) :=
  match fuel with
  | O => None
  | S fuel =>
      x ← zget buf p;
      if x =? 0 then buf ← zset buf c 0; Some (buf, true)
      else if x =? 37 then
        a ← zget buf (p + 1);
        if negb (isxdigit a) then Some (buf, false)
        else
          b ← zget buf (p + 2);
          if negb (isxdigit b) then Some (buf, false)
          else buf ← zset buf c (u8 (16 * hex a + hex b)); urldecode_loop fuel buf (c + 1) (p + 3)
      else if x =? 43 then buf ← zset buf c 32; urldecode_loop fuel buf (c + 1) (p + 1)
      else buf ← zset buf c x; urldecode_loop fuel buf (c + 1) (p + 1)
  end.

(** The string at [off]; [None] is [NULL]. *)
Definition urldecode (buf : list Z) (off : option Z) : option (list Z * bool) :=
  match off with
  | None => Some (buf, true)
  | Some off => x ← zget buf off; if x =? 0 then Some (buf, true) else urldecode_loop (S (length buf)) buf off off
  end.

(** The names looked for and where their values are. *)
Abbreviation fields := (list (list Z * option Z)).

(** A name that matches gets the place behind the equals sign. *)
Fixpoint note_field (fs : fields) (s : list Z) (at_ : Z) : fields * Z :=
  match fs with
  | [] => ([], 0)
  | (name, v) :: fs => let '(fs, n) := note_field fs s at_ in if decide (s = name) then ((name, Some at_) :: fs, n + 1) else ((name, v) :: fs, n)
  end.

Fixpoint post_loop (rounds : nat) (buf : list Z) (i p : Z) (fs : fields) (found : Z) : option (list Z * fields * Z) :=
  match rounds with
  | O => Some (buf, fs, found)
  | S rounds =>
      c ← zget buf i;
      if c =? 61 then
        buf ← zset buf i 0;
        s ← cstr_at buf p;
        let '(fs, n) := note_field fs s (i + 1) in post_loop rounds buf (i + 1) p fs (found + n)
      else if (c =? 38) || (c =? 0) then
        buf ← zset buf i 0;
        if zlen fs <=? found then Some (buf, fs, found) else post_loop rounds buf (i + 1) (i + 1) fs found
      else post_loop rounds buf (i + 1) p fs found
  end.

Fixpoint decode_fields (buf : list Z) (fs : fields) : option (list Z * bool) :=
  match fs with
  | [] => Some (buf, true)
  | (_, v) :: fs => '(buf, ok) ← urldecode buf v; if negb ok then Some (buf, false) else decode_fields buf fs
  end.

(** [postdecode]; [piece] is what the one [read] of at most 1023 bytes gets. *)
Definition postdecode (content_type : option (list Z)) (piece : list Z) (names : list (list Z)) : option (list Z * fields * bool) :=
  let fs := (fun n => (n, None)) <$> names in
  let zero := replicate 1024 0 in
  match content_type with
  | None => Some (zero, fs, false)
  | Some var =>
      if decide (take 33 var = bs "application/x-www-form-urlencoded") then
        '(buf, fs, found) ←
          (if decide (piece = []) then Some (zero, fs, 0)
           else post_loop (S (length piece)) (read_piece zero piece) 0 0 fs 0);
        '(buf, ok) ← decode_fields buf fs;
        Some (buf, fs, ok && (zlen names <=? found))
      else Some (zero, fs, false)
  end.

(** The check of [main_backup]: whether the backup is made and sent. *)
Definition backup_permitted (sys : system) (content_type : option (list Z)) (piece : list Z) : option bool :=
  '(buf, fs, ok) ← postdecode content_type piece [bs "sessionid"];
  if negb ok then Some false
  else
    off ← (f ← head fs; f.2);
    sid ← cstr_at buf off;
    Some (session_access sys sid (bs "backup") (bs "read")).

(** ** Examples *)

Definition allowed (sid : list Z) : system := System (fun s _ _ => bool_decide (s = sid)) (fun _ => true) true (fun _ n => n) true (fun _ => true) (fun _ n => n) true.

Definition disposition (name : list Z) : list Z := bs "Content-Disposition: form-data; name=" ++ [34] ++ name ++ [34] ++ [13; 10; 13; 10].
Definition example_field (name value : list Z) : list Z := bs "--X" ++ [13; 10] ++ disposition name ++ value ++ [13; 10].

Example upload_run :
  (g ← main_upload (allowed (bs "42")) 170 (Some (bs "multipart/form-data; boundary=X"))
        [example_field (bs "sessionid") (bs "42") ++ example_field (bs "filename") (bs "/t") ++ example_field (bs "filemode") (bs "0644") ++ bs "--X" ++ [13; 10] ++ disposition (bs "filedata") ++ bs "he";
         bs "llo" ++ [13; 10] ++ bs "--X--"] (World ∅ [] []);
   Some (map_to_list (w_files (c_world g.1)), w_replies (c_world g.1))) =
  Some ([(bs "/t", (bs "hello", 420))], [Stored (Some 5)]).
Proof. vm_compute. reflexivity. Qed.

(** A name that only starts like one of the fields is taken for it, the empty name for the file. *)
Example name_prefix : (g ← header_value (Cgi (set_disposition initial true) (World ∅ [] [])) (bs "form-data; name=" ++ [34] ++ bs "s" ++ [34; 13; 10]) 20; Some (parttype (c_st g.1))) = Some PART_SESSIONID.
Proof. vm_compute. reflexivity. Qed.

(** A value in two pieces loses the first. *)
Example split_value :
  (g ← main_upload (allowed (bs "42")) 170 (Some (bs "multipart/form-data; boundary=X"))
        [bs "--X" ++ [13; 10] ++ disposition (bs "sessionid") ++ bs "4"; bs "2" ++ [13; 10] ++ bs "--X--"] (World ∅ [] []);
   Some (sessionid (c_st g.1), w_replies (c_world g.1))) = Some (Some [50; 0], [Failed (bs "Upload permission denied")]).
Proof. vm_compute. reflexivity. Qed.

Example backup_run : backup_permitted (allowed (bs "a b")) (Some (bs "application/x-www-form-urlencoded")) (bs "x=1&sessionid=a%20b") = Some true.
Proof. vm_compute. reflexivity. Qed.
