(* ===== verification/CgiIoSpec.v ===== *)
(** The upload and backup helper: files change only for sessions that may write, an upload
    stores its file, and posted fields are decoded. *)

From stdpp Require Import gmap.
From S2P Require Import Prelude Libc Multipart MultipartSpec CgiIo.

(** ** Who may upload *)

Section access.
Context (sys : system) (w0 : cgi_world).

(** The session id the request gave may write uploads. *)
Definition granted (st : upload) : Prop := exists sid, name_of (sessionid st) = Some sid /\ session_access sys sid (bs "upload") (bs "write") = true.

Definition untouched (g : cgi) : Prop := w_files (c_world g) = w_files w0 /\ w_replies (c_world g) = w_replies w0 /\ filefd (c_st g) = -1.

Definition in_headers (g : cgi) : Prop := untouched g /\ (sessionid (c_st g) = None \/ granted (c_st g)).
Definition in_data (g : cgi) : Prop :=
  untouched g /\ (parttype (c_st g) = PART_SESSIONID \/ sessionid (c_st g) = None \/ granted (c_st g)) /\ (parttype (c_st g) = PART_FILEDATA -> granted (c_st g)).
Definition stopped (g : cgi) : Prop :=
  (forall n, w_files (c_world g) !! n <> w_files w0 !! n -> name_of (filename (c_st g)) = Some n /\ granted (c_st g)) /\
  exists r, w_replies (c_world g) = w_replies w0 ++ r /\ (length r <= 1)%nat.

Lemma untouched_stopped g : untouched g -> stopped g.
Proof. intros (H1 & H2 & _). split; [intros n; by rewrite H1|]. exists []. rewrite app_nil_r. split; [done|cbn [length]; lia]. Qed.

(** A failure before the target was opened. *)
Lemma failed_stopped m g g' r : untouched g -> response_failed m g = Some (g', r) -> r <> 0 /\ stopped g'.
Proof.
  intros (H1 & H2 & H3). unfold response_failed. rewrite H3. cbn [Z.ltb Z.compare]. intros [= <- <-]. split; [done|]. split.
  - intros n. cbn. by rewrite H1.
  - eexists. cbn. rewrite H2. split; [done|cbn [length]; lia].
Qed.

Lemma header_field_keeps_st g mem len g' r : header_field g mem len = Some (g', r) -> r = 0 /\ exists b, g' = with_st g (set_disposition (c_st g) b).
Proof. unfold header_field. destruct (mem_strncasecmp _ _ _); [|done]. intros [= <- <-]. eauto. Qed.

Lemma header_value_keeps_st g mem len g' r : header_value g mem len = Some (g', r) -> r = 0 /\ (g' = g \/ exists t, g' = with_st g (set_parttype (c_st g) t)).
Proof. unfold header_value. intros H. repeat (case_match; simplify_option_eq; try (split; [done|eauto])). Qed.

(** Storing the file: only the named file changes. *)
Lemma filecopy_stopped g g' r : untouched g -> granted (c_st g) -> filecopy sys g = Some (g', r) ->
  (forall n, w_files (c_world g') !! n <> w_files w0 !! n -> name_of (filename (c_st g')) = Some n) /\ granted (c_st g') /\
  exists rs, w_replies (c_world g') = w_replies w0 ++ rs /\ if r =? 0 then rs = [] else (length rs <= 1)%nat.
Proof.
  intros (H1 & H2 & H3) Hg. unfold filecopy.
  assert (forall m g g' r, w_files (c_world g) = w_files w0 -> w_replies (c_world g) = w_replies w0 -> filefd (c_st g) = -1 -> granted (c_st g) -> response_failed m g = Some (g', r) ->
    (forall n, w_files (c_world g') !! n <> w_files w0 !! n -> name_of (filename (c_st g')) = Some n) /\ granted (c_st g') /\
    exists rs, w_replies (c_world g') = w_replies w0 ++ rs /\ if r =? 0 then rs = [] else (length rs <= 1)%nat) as Hearly.
  { intros m g1 g2 r1 E1 E2 E3 E4. unfold response_failed. rewrite E3. cbn [Z.ltb Z.compare]. intros [= <- <-]. cbn. split; [intros n; by rewrite E1|]. split; [done|].
    eexists. rewrite E2. split; [done|cbn [length]; lia]. }
  destruct (negb (filedata _)); [by eapply Hearly|]. destruct (negb (lseek_ok sys)); [by eapply Hearly|].
  destruct (name_of (filename (c_st g))) as [name|] eqn:Hname; [|done]. cbn [mbind option_bind]. destruct (negb (can_open sys name)); [by eapply Hearly|].
  destruct (filecopy_loop sys _ _ _) as [data ok]. cbv zeta.
  assert (forall d n, <[name := d]> (w_files w0) !! n <> w_files w0 !! n -> Some name = Some n) as Hins.
  { intros d n. destruct (decide (name = n)) as [->|Hne]; [done|]. by rewrite lookup_insert_ne. }
  assert (forall d n, delete name (<[name := d]> (w_files w0)) !! n <> w_files w0 !! n -> Some name = Some n) as Hdel.
  { intros d n. destruct (decide (name = n)) as [->|Hne]; [done|]. by rewrite lookup_delete_ne, lookup_insert_ne. }
  unfold response_failed. cbn [c_st c_world with_st with_world set_filefd filename filefd w_files w_replies w_temp Z.ltb Z.compare]. rewrite Hname, H1, H2.
  destruct (negb ok); [|destruct (negb (chmod_ok sys))]; intros [= <- <-];
    cbn [c_st c_world with_st with_world set_filefd filename w_files w_replies]; rewrite ?Hname; (split; [eauto|]); (split; [exact Hg|]);
    eexists; (split; [reflexivity || by rewrite app_nil_r|]); cbn [Z.eqb length]; lia || done.
Qed.

Lemma data_begin_keeps g g' r : in_headers g -> data_begin_cb sys g = Some (g', r) -> if r =? 0 then in_data g' else stopped g'.
Proof.
  intros [Hu Hs]. unfold data_begin_cb. destruct (decide (parttype (c_st g) = PART_FILEDATA)) as [Ht|Ht].
  2: { intros [= <- <-]. split; [done|]. split; [tauto|done]. }
  assert (forall m g1, untouched g1 -> response_failed m g1 = Some (g', r) -> if r =? 0 then in_data g' else stopped g') as Hf.
  { intros m g1 Hu1 H. destruct (failed_stopped m g1 g' r Hu1 H) as [Hr Hst]. by rewrite (proj2 (Z.eqb_neq r 0)). }
  destruct (sessionid (c_st g)) as [sid|] eqn:Esid; [|by apply Hf]. destruct (filename (c_st g)); [|by apply Hf]. destruct (mkstemp_ok sys); [|by apply Hf].
  intros [= <- <-]. destruct Hs as [Hs|Hs]; [done|]. split; [done|]. split; [by right; right|done].
Qed.

Lemma data_keeps g mem len g' r : in_data g -> data_cb sys g mem len = Some (g', r) -> if r =? 0 then in_data g' else stopped g'.
Proof.
  intros (Hu & Hs & Hg). unfold data_cb. destruct (parttype (c_st g)) eqn:Ht.
  - intros [= <- <-]. split; [done|]. split; [by rewrite Ht|by rewrite Ht].
  - destruct (datadup sys mem len); [|done]. intros [= <- <-]. split; [done|]. unfold in_data. cbn. rewrite Ht. split; [by left|done].
  - destruct (datadup sys mem len); [|done]. intros [= <- <-]. split; [done|]. cbn. rewrite Ht. split; [tauto|done].
  - destruct (strtoul8 mem); [|done]. intros [= <- <-]. split; [done|]. cbn. rewrite Ht. split; [tauto|done].
  - specialize (Hg eq_refl). destruct (zslice mem 0 len); [|done]. cbn [mbind option_bind]. destruct (negb _).
    + intros H. apply failed_stopped in H as [Hr Hst]; [|done]. by rewrite (proj2 (Z.eqb_neq r 0)).
    + intros [= <- <-]. split; [done|]. cbn. rewrite Ht. split; [by right; right|done].
Qed.

Lemma data_end_keeps g g' r : in_data g -> data_end_cb sys g = Some (g', r) -> if r =? 0 then in_headers g' else stopped g'.
Proof.
  intros (Hu & Hs & Hg). unfold data_end_cb. destruct (parttype (c_st g)) eqn:Ht.
  1,3,4: intros [= <- <-]; split; [done|]; destruct Hs as [Hs|Hs]; [done|exact Hs].
  - destruct (name_of (sessionid (c_st g))) as [sid|] eqn:Esid; [|done]. cbn [mbind option_bind]. destruct (session_access sys sid _ _) eqn:Ea; cbn [negb].
    + intros [= <- <-]. split; [done|]. right. by exists sid.
    + intros H. apply failed_stopped in H as [Hr Hst]; [|done]. by rewrite (proj2 (Z.eqb_neq r 0)).
  - specialize (Hg eq_refl). destruct (tempfd (c_st g) <? 0).
    { intros H. apply failed_stopped in H as [Hr Hst]; [|done]. by rewrite (proj2 (Z.eqb_neq r 0)). }
    destruct (filecopy sys g) as [[g1 r1]|] eqn:Ec; [|done]. cbn [mbind option_bind].
    destruct (filecopy_stopped g g1 r1 Hu Hg Ec) as (Hn & Hg1 & rs & Hrs & Hlen). destruct (r1 =? 0); cbn [negb]; intros [= <- <-]; cbn [Z.eqb].
    + subst rs. split; [intros n Hne; split; [by apply Hn|done]|]. eexists. cbn. rewrite Hrs, app_nil_r. split; [done|cbn [length]; lia].
    + split; [intros n Hne; split; [by apply Hn|done]|]. by exists rs.
Qed.

#[export] Instance upload_client : Client (upload_settings sys).
Proof.
  refine (Build_Client _ (upload_settings sys) in_headers in_data stopped _ _ _ _ data_begin_keeps _ data_end_keeps).
  - intros g [Hu _]. by apply untouched_stopped.
  - intros g [Hu _]. by apply untouched_stopped.
  - intros f g mem len g' r Hf [Hu Hs] Hc. destruct Hf as [[= <-]|[= <-]].
    + apply header_field_keeps_st in Hc as (-> & b & ->). by split.
    + apply header_value_keeps_st in Hc as (-> & [->|(t & ->)]); by split.
  - by intros f g g' r [H|H].
  - intros f g mem len g' r [= <-]. apply data_keeps.
Defined.

Lemma upload_loop_stopped input : forall g p buf g', keeps (upload_settings sys) p g -> upload_loop sys g p buf input = Some g' -> stopped g'.
Proof.
  induction input as [|piece input IH]; intros g p buf g' Hk; cbn [upload_loop].
  - intros [= <-]. unfold keeps in Hk. destruct (is_data (mp_state p)); apply untouched_stopped, Hk.
  - destruct (multipart_parser_execute _ _ _ _ _) as [[[g1 p1] rem]|] eqn:E; [|done]. cbn [mbind option_bind].
    apply (execute_keeps (upload_settings sys)) in E as [[-> Hk']|[Hr Hst]]; [| |lia|done].
    + rewrite Z.ltb_irrefl. by apply IH.
    + rewrite (proj2 (Z.ltb_lt _ _)) by done. by intros [= <-].
Qed.
End access.

(** C7: whatever a client posts, in whatever pieces, the upload program changes no file but the one
    the request names, and that only when the session service lets the session id of the
    request write uploads; and it replies at most once. *)
Theorem upload_needs_access sys junk content_type input w g r :
  main_upload sys junk content_type input w = Some (g, r) ->
  (forall n, w_files (c_world g) !! n <> w_files w !! n ->
     name_of (filename (c_st g)) = Some n /\
     exists sid, name_of (sessionid (c_st g)) = Some sid /\ session_access sys sid (bs "upload") (bs "write") = true) /\
  exists rs, w_replies (c_world g) = w_replies w ++ rs /\ (length rs <= 1)%nat.
Proof.
  unfold main_upload, init_parser. destruct (upload_boundary content_type) as [b|]; cbn [mbind option_bind].
  2: { intros [= <- <-]. split; [done|]. eexists. split; [done|cbn [length]; lia]. }
  destruct (can_alloc sys (zlen b + 1)); cbn [mbind option_bind].
  2: { intros [= <- <-]. split; [done|]. eexists. split; [done|cbn [length]; lia]. }
  destruct (multipart_parser_init (can_alloc sys) junk b) as [p|] eqn:Ep; [|done]. cbn [mbind option_bind].
  destruct (upload_loop _ _ _ _ _) as [g'|] eqn:E; [|done]. intros [= <- <-]. refine (upload_loop_stopped sys w input _ _ _ _ _ E).
  unfold multipart_parser_init in Ep. destruct (can_alloc sys _); [|done]. injection Ep as <-. split; [done|by left].
Qed.

Definition example_world : cgi_world := World {[bs "/t" := (bs "old", 420)]} [] [].
Definition example_input : list (list Z) := [example_field (bs "sessionid") (bs "42") ++ example_field (bs "filename") (bs "/t") ++ example_field (bs "filedata") (bs "new") ++ bs "--X--"].

Lemma upload_needs_access_witness : exists g r,
  main_upload (allowed (bs "42")) 170 (Some (bs "multipart/form-data; boundary=X")) example_input example_world = Some (g, r) /\
  w_files (c_world g) !! bs "/t" = Some (bs "new", 384) /\
  exists sid, name_of (sessionid (c_st g)) = Some sid /\ session_access (allowed (bs "42")) sid (bs "upload") (bs "write") = true.
Proof.
  assert ((fun x => w_files (c_world x.1) !! bs "/t") <$> main_upload (allowed (bs "42")) 170 (Some (bs "multipart/form-data; boundary=X")) example_input example_world =
    Some (Some (bs "new", 384))) as Hrun by (vm_compute; reflexivity).
  destruct (main_upload _ _ _ _ _) as [[g r]|] eqn:E; [|discriminate Hrun]. exists g, r. split; [reflexivity|]. injection Hrun as Hf.
  split; [exact Hf|]. apply (proj1 (upload_needs_access _ _ _ _ _ _ _ E) (bs "/t")). change (c_world (g, r).1) with (c_world g) in Hf. rewrite Hf. vm_compute. discriminate.
Defined.
