(* ===== verification/CgiPost.v ===== *)
(** Posted fields of the backup program: decoding in place is decoding, and the session id the
    service is asked about is the one the form carries. *)

From stdpp Require Import gmap.
From S2P Require Import Prelude Libc Multipart CgiIo.

(** ** Decoding *)

Fixpoint url_decode (s : list Z) : option (list Z) :=
  match s with
  | [] => Some []
  | c :: s =>
      if c =? 37 then
        match s with
        | a :: b :: s => if isxdigit a && isxdigit b then cons (u8 (16 * hex a + hex b)) <$> url_decode s else None
        | _ => None
        end
      else cons (if c =? 43 then 32 else c) <$> url_decode s
  end.

Definition unreserved (c : Z) : bool :=
  ((48 <=? c) && (c <=? 57)) || ((65 <=? c) && (c <=? 90)) || ((97 <=? c) && (c <=? 122)) || (c =? 45) || (c =? 46) || (c =? 95) || (c =? 126).

Definition url_encode_char (c : Z) : list Z := if unreserved c then [c] else [37; hex_digit (c / 16); hex_digit (c mod 16)].
Definition url_encode (s : list Z) : list Z := concat (url_encode_char <$> s).

Lemma url_decode_char c s : is_byte c -> url_decode (url_encode_char c ++ s) = cons c <$> url_decode s.
Proof.
  intros Hc. unfold url_encode_char. destruct (unreserved c) eqn:Hu; cbn [app url_decode].
  - pose proof (byte_forall (fun c => negb (unreserved c) || (negb (c =? 37) && negb (c =? 43))) eq_refl c Hc) as H. cbv beta in H. rewrite Hu in H. cbn [negb orb] in H. apply andb_true_iff in H as [H1%negb_true_iff H2%negb_true_iff]. by rewrite H1, H2.
  - cbn [Z.eqb Pos.eqb].
    assert (isxdigit (hex_digit (c / 16)) && isxdigit (hex_digit (c mod 16)) && (u8 (16 * hex (hex_digit (c / 16)) + hex (hex_digit (c mod 16))) =? c) = true) as H
      by (by apply (byte_forall (fun c => isxdigit (hex_digit (c / 16)) && isxdigit (hex_digit (c mod 16)) && (u8 (16 * hex (hex_digit (c / 16)) + hex (hex_digit (c mod 16))) =? c)))).
    apply andb_true_iff in H as [-> H%Z.eqb_eq]. by rewrite H.
Qed.

Lemma url_decode_encode s : Forall is_byte s -> url_decode (url_encode s) = Some s.
Proof.
  induction 1 as [|c s Hc Hs IH]; [done|]. change (url_encode (c :: s)) with (url_encode_char c ++ url_encode s). rewrite url_decode_char by done. by rewrite IH.
Qed.

(** Characters that mean something in a form. *)
Definition plain (c : Z) : bool := negb ((c =? 61) || (c =? 38) || (c =? 0)).

Lemma url_encode_forall (P : Z -> bool) s : forallb (fun c => (c =? 0) || forallb P (url_encode_char c)) (seqZ 0 256) = true -> is_cstr s ->
  Forall (fun c => P c = true) (url_encode s).
Proof.
  intros HP Hs. apply Forall_concat, Forall_fmap. eapply Forall_impl; [exact Hs|]. intros c Hc. unfold is_char in Hc. cbn.
  pose proof (byte_forall _ HP c ltac:(unfold is_byte; lia)) as H. cbv beta in H. rewrite (proj2 (Z.eqb_neq c 0)) in H by lia. cbn [orb] in H.
  apply Forall_forall. intros x Hx. rewrite forallb_forall in H. by apply H, list_elem_of_In.
Qed.

Lemma url_encode_plain s : is_cstr s -> Forall (fun c => plain c = true) (url_encode s).
Proof. by apply url_encode_forall. Qed.

Lemma url_encode_cstr s : is_cstr s -> is_cstr (url_encode s).
Proof.
  intros Hs. eapply Forall_impl; [exact (url_encode_forall (fun c => (0 <? c) && (c <? 256)) s eq_refl Hs)|]. unfold is_char. intros c H. lia.
Qed.

(** ** In place *)

Lemma get_at (l r : list Z) (k : nat) i : i = zlen l + Z.of_nat k -> zget (l ++ r) i = r !! k.
Proof. intros ->. rewrite zget_app_r by lia. replace (zlen l + Z.of_nat k - zlen l) with (Z.of_nat k) by lia. apply zget_nat. Qed.

(** The next byte goes behind those written; what was read joins the bytes between. *)
Lemma write_at (out gap used rest : list Z) v : used <> [] -> exists gap',
  zset (out ++ gap ++ used ++ rest) (zlen out) v = Some ((out ++ [v]) ++ gap' ++ rest) /\ zlen ((out ++ [v]) ++ gap') = zlen (out ++ gap) + zlen used.
Proof.
  intros Hu. assert (0 < length used)%nat by (destruct used; [done|cbn [length]; lia]). exists (drop 1 (gap ++ used)). rewrite zset_app_r by (rewrite !length_app; lia).
  split; [|rewrite !length_app, length_drop, length_app; cbn [length]; lia]. f_equal. rewrite <- app_assoc. cbn [app]. f_equal. f_equal.
  rewrite app_assoc. by rewrite drop_app_le by (rewrite length_app; lia).
Qed.

(** What has been written, the bytes between, what is still to be read. *)
Lemma urldecode_loop_spec n : forall s out gap post fuel, (length s <= n)%nat -> is_cstr s -> (length s < fuel)%nat ->
  exists buf, urldecode_loop fuel (out ++ gap ++ s ++ 0 :: post) (zlen out) (zlen (out ++ gap)) = Some (buf, bool_decide (is_Some (url_decode s))) /\
    forall d, url_decode s = Some d -> exists tl, buf = out ++ d ++ 0 :: tl.
Proof.
  induction n as [|n IH]; intros s out gap post fuel Hn Hs Hfuel; (destruct fuel as [|fuel]; [lia|]); cbn [urldecode_loop].
  1,2: destruct s as [|c s]; [|try (cbn [length] in Hn; lia)].
  1,2: rewrite (app_assoc out gap), (get_at (out ++ gap) _ 0 (zlen (out ++ gap))) by lia; cbn [app lookup list_lookup mbind option_bind Z.eqb];
    rewrite <- app_assoc, zset_app_r by (rewrite length_app; cbn [length]; lia); eexists; (split; [done|]); intros d [= <-]; by eexists.
  apply Forall_cons in Hs as [Hc Hs]. unfold is_char in Hc. cbn [length] in *.
  assert (forall k z x, ((c :: s) ++ 0 :: post) !! k = Some x -> z = Z.of_nat k -> zget (out ++ gap ++ (c :: s) ++ 0 :: post) (zlen (out ++ gap) + z) = Some x) as Hget
    by (intros k z x Hk ->; rewrite (app_assoc out gap), (get_at (out ++ gap) _ k) by lia; done).
  pose proof (Hget 0%nat 0 c eq_refl eq_refl) as H0. rewrite Z.add_0_r in H0. rewrite H0. cbn [mbind option_bind url_decode]. rewrite (proj2 (Z.eqb_neq c 0)) by lia.
  assert (forall used s' v, used <> [] -> c :: s = used ++ s' -> exists buf,
    (buf ← zset (out ++ gap ++ (c :: s) ++ 0 :: post) (zlen out) v; urldecode_loop fuel buf (zlen out + 1) (zlen (out ++ gap) + zlen used)) =
      Some (buf, bool_decide (is_Some (cons v <$> url_decode s'))) /\ forall d, cons v <$> url_decode s' = Some d -> exists tl, buf = out ++ d ++ 0 :: tl) as Hgo.
  { intros used s' v Hu E. rewrite E, <- (app_assoc used). destruct (write_at out gap used (s' ++ 0 :: post) v Hu) as (gap' & -> & Hlen). cbn [mbind option_bind].
    assert (length (c :: s) = length used + length s')%nat as El by (by rewrite E, length_app). cbn [length] in El. assert (0 < length used)%nat by (destruct used; [done|cbn [length]; lia]).
    assert (zlen out + 1 = zlen (out ++ [v])) as -> by (rewrite length_app; cbn [length]; lia). rewrite <- Hlen.
    destruct (IH s' (out ++ [v]) gap' post fuel) as (buf & -> & Hd); [lia| |lia|].
    { assert (is_cstr (c :: s)) as Hall by (by constructor). rewrite E in Hall. by apply Forall_app in Hall as [_ ?]. }
    exists buf. destruct (url_decode s') as [d'|]; (split; [done|]); intros d [= <-]. destruct (Hd d' eq_refl) as [tl ->]. exists tl. by rewrite <- app_assoc. }
  destruct (Z.eqb_spec c 37) as [->|N37].
  - destruct s as [|a s]; [rewrite (Hget 1%nat 1 0 eq_refl eq_refl); eexists; done|]. rewrite (Hget 1%nat 1 a eq_refl eq_refl). cbn [mbind option_bind].
    destruct (isxdigit a) eqn:Ha; cbn [negb andb]; [|eexists; split; [by destruct s|by destruct s]].
    destruct s as [|b s]; [rewrite (Hget 2%nat 2 0 eq_refl eq_refl); eexists; done|]. rewrite (Hget 2%nat 2 b eq_refl eq_refl). cbn [mbind option_bind].
    destruct (isxdigit b); cbn [negb]; [|by eexists]. by apply (Hgo [37; a; b] s).
  - destruct (Z.eqb_spec c 43) as [->|N43]; [by apply (Hgo [43] s)|by apply (Hgo [c] s)].
Qed.

(** The string at a place of the buffer. *)
Lemma urldecode_spec out s post : is_cstr s ->
  exists buf, urldecode (out ++ s ++ 0 :: post) (Some (zlen out)) = Some (buf, bool_decide (is_Some (url_decode s))) /\
    forall d, url_decode s = Some d -> exists tl, buf = out ++ d ++ 0 :: tl.
Proof.
  intros Hs. unfold urldecode. destruct s as [|c s].
  - rewrite (get_at out _ 0 (zlen out)) by lia. cbn. eexists. split; [done|]. intros d [= <-]. by eexists.
  - rewrite (get_at out _ 0 (zlen out)) by lia. cbn [app lookup list_lookup mbind option_bind]. inversion Hs as [|? ? Hc _]. unfold is_char in Hc. rewrite (proj2 (Z.eqb_neq c 0)) by lia.
    pose proof (urldecode_loop_spec (length (c :: s)) (c :: s) out [] post (S (length (out ++ c :: s ++ 0 :: post)))) as Hl. cbn [app] in Hl. rewrite app_nil_r in Hl.
    apply Hl; [lia|done|]. rewrite length_app. cbn [length]. rewrite length_app. lia.
Qed.

(** ** Finding a field *)

Abbreviation plains s := (Forall (fun c => plain c = true) s).

Lemma plain_not c : plain c = true -> (c =? 61) = false /\ (c =? 38) || (c =? 0) = false.
Proof. unfold plain. destruct (c =? 61), (c =? 38), (c =? 0); done. Qed.

Lemma post_skip x : plains x -> forall n pre rest p fs found,
  post_loop (length x + n) (pre ++ x ++ rest) (zlen pre) p fs found = post_loop n (pre ++ x ++ rest) (zlen (pre ++ x)) p fs found.
Proof.
  induction 1 as [|c x Hc Hx IH]; intros n pre rest p fs found; [by rewrite app_nil_r|]. destruct (plain_not c Hc) as [E1 E2]. cbn [length Nat.add post_loop].
  rewrite (get_at pre _ 0 (zlen pre)) by lia. cbn [app lookup list_lookup mbind option_bind]. rewrite E1, E2.
  specialize (IH n (pre ++ [c]) rest p fs found). rewrite <- !app_assoc in IH. cbn [app] in IH. rewrite <- IH. f_equal. rewrite length_app. cbn [length]. lia.
Qed.

Section form.
Context (name : list Z) (Hname : is_cstr name).

Lemma zset_byte (l r : list Z) x y i : i = zlen l -> zset (l ++ x :: r) i y = Some (l ++ y :: r).
Proof. intros ->. rewrite zset_app_r by (cbn [length]; lia). done. Qed.

(** A name and its equals sign. *)
Lemma post_name k : is_cstr k -> plains k -> forall n pre rest v,
  post_loop (length k + S n) (pre ++ k ++ 61 :: rest) (zlen pre) (zlen pre) [(name, v)] 0 =
  let at_ := zlen pre + zlen k + 1 in
  post_loop n (pre ++ k ++ 0 :: rest) at_ (zlen pre) [(name, if decide (k = name) then Some at_ else v)] (if decide (k = name) then 1 else 0).
Proof.
  intros Hk Hp n pre rest v. rewrite post_skip by done. cbn [post_loop]. rewrite app_assoc, (get_at (pre ++ k) _ 0 (zlen (pre ++ k))) by lia.
  cbn [lookup list_lookup mbind option_bind Z.eqb Pos.eqb]. rewrite zset_byte by done. cbn [mbind option_bind]. rewrite <- app_assoc, cstr_at_app by done. cbn [mbind option_bind note_field].
  assert (zlen (pre ++ k) + 1 = zlen pre + zlen k + 1) as -> by (rewrite length_app; lia). destruct (decide (k = name)); done.
Qed.

(** A field of another name. *)
Lemma post_other k x : is_cstr k -> plains k -> plains x -> k <> name -> forall n pre rest,
  post_loop (length (k ++ [61] ++ x ++ [38]) + n) (pre ++ k ++ [61] ++ x ++ [38] ++ rest) (zlen pre) (zlen pre) [(name, None)] 0 =
  post_loop n ((pre ++ k ++ [0] ++ x ++ [0]) ++ rest) (zlen (pre ++ k ++ [0] ++ x ++ [0])) (zlen (pre ++ k ++ [0] ++ x ++ [0])) [(name, None)] 0.
Proof.
  intros Hk Hp Hx Hne n pre rest. cbn [app]. rewrite !length_app. cbn [length]. rewrite length_app. cbn [length].
  replace (length k + S (length x + 1) + n)%nat with (length k + S (length x + S n))%nat by lia. rewrite post_name by done. destruct (decide (k = name)) as [?|_]; [done|]. cbv zeta.
  assert (forall y, pre ++ k ++ 0 :: x ++ y = (pre ++ k ++ [0]) ++ x ++ y) as E by (intros y; by rewrite <- !app_assoc).
  assert (zlen pre + zlen k + 1 = zlen (pre ++ k ++ [0])) as -> by (rewrite !length_app; cbn [length]; lia). rewrite E, post_skip by done. cbn [post_loop].
  rewrite (app_assoc _ x), (get_at ((pre ++ k ++ [0]) ++ x) _ 0 (zlen ((pre ++ k ++ [0]) ++ x))) by lia. cbn [lookup list_lookup mbind option_bind Z.eqb Pos.eqb orb].
  rewrite zset_byte by done. cbn [mbind option_bind length Z.leb Z.compare]. f_equal; rewrite <- ?app_assoc; cbn [app]; rewrite <- ?app_assoc; try done; repeat (rewrite ?length_app; cbn [length app]); lia.
Qed.

(** The field itself, ended by another or by the end. *)
Lemma post_found x t : plains name -> plains x -> t = 38 \/ t = 0 -> forall n pre rest,
  post_loop (length name + S (length x + S n)) (pre ++ name ++ [61] ++ x ++ [t] ++ rest) (zlen pre) (zlen pre) [(name, None)] 0 =
  Some ((pre ++ name ++ [0]) ++ x ++ 0 :: rest, [(name, Some (zlen (pre ++ name ++ [0])))], 1).
Proof.
  intros Hp Hx Ht n pre rest. cbn [app]. rewrite post_name by done. destruct (decide (name = name)) as [_|?]; [|done]. cbv zeta.
  assert (forall y, pre ++ name ++ 0 :: x ++ y = (pre ++ name ++ [0]) ++ x ++ y) as E by (intros y; by rewrite <- !app_assoc).
  assert (zlen pre + zlen name + 1 = zlen (pre ++ name ++ [0])) as -> by (rewrite !length_app; cbn [length]; lia). rewrite E, post_skip by done. cbn [post_loop].
  rewrite (app_assoc _ x), (get_at ((pre ++ name ++ [0]) ++ x) _ 0 (zlen ((pre ++ name ++ [0]) ++ x))) by lia. cbn [lookup list_lookup mbind option_bind].
  assert ((t =? 61) = false /\ (t =? 38) || (t =? 0) = true) as [-> ->] by (by destruct Ht as [-> | ->]). rewrite zset_byte by done. cbn [mbind option_bind length Z.leb Z.compare].
  by rewrite <- (app_assoc (pre ++ name ++ [0])).
Qed.

Definition encode_field (kv : list Z * list Z) : list Z := kv.1 ++ [61] ++ kv.2 ++ [38].
Definition other_ok (kv : list Z * list Z) : Prop := is_cstr kv.1 /\ plains kv.1 /\ plains kv.2 /\ kv.1 <> name.

Lemma post_others before : Forall other_ok before -> forall n pre rest, exists pre',
  post_loop (length (concat (encode_field <$> before)) + n) (pre ++ concat (encode_field <$> before) ++ rest) (zlen pre) (zlen pre) [(name, None)] 0 =
  post_loop n (pre' ++ rest) (zlen pre') (zlen pre') [(name, None)] 0.
Proof.
  induction 1 as [|[k x] before (Hk & Hp & Hx & Hne) Hb IH]; intros n pre rest; [by exists pre|]. rewrite fmap_cons. cbn [concat]. unfold encode_field at 1 3. cbn [fst snd] in *.
  rewrite length_app, <- Nat.add_assoc, <- !app_assoc. rewrite post_other by done. apply IH.
Qed.
End form.

Lemma decode_found pre sid rest : is_cstr sid ->
  exists tl, decode_fields (pre ++ url_encode sid ++ 0 :: rest) [(bs "sessionid", Some (zlen pre))] = Some (pre ++ sid ++ 0 :: tl, true).
Proof.
  intros Hsid. assert (url_decode (url_encode sid) = Some sid) as Hd by (apply url_decode_encode; eapply Forall_impl; [exact Hsid|]; unfold is_char, is_byte; intros; lia).
  cbn [decode_fields]. destruct (urldecode_spec pre (url_encode sid) rest (url_encode_cstr _ Hsid)) as (buf & -> & Hbuf). destruct (Hbuf sid Hd) as [tl ->]. rewrite Hd. by exists tl.
Qed.

(** C27: the backup program asks the session service about the session id the posted form carries,
    decoded, whatever fields stand before and behind it, and makes the backup when the service
    allows it; for forms of at most 1023 bytes that are read at once. *)
Theorem backup_asks_session sys var before sid after :
  take 33 var = bs "application/x-www-form-urlencoded" -> Forall (other_ok (bs "sessionid")) before -> is_cstr sid -> (after = [] \/ exists rest, after = 38 :: rest) ->
  zlen (concat (encode_field <$> before) ++ bs "sessionid" ++ [61] ++ url_encode sid ++ after) <= 1023 ->
  backup_permitted sys (Some var) (concat (encode_field <$> before) ++ bs "sessionid" ++ [61] ++ url_encode sid ++ after) =
    Some (session_access sys sid (bs "backup") (bs "read")).
Proof.
  intros Hvar Hb Hsid Ha Hlen. unfold backup_permitted, postdecode. rewrite decide_True by done. set (piece := concat _ ++ _) in *.
  rewrite decide_False by (unfold piece; intros E; apply app_eq_nil in E as [_ E]; discriminate E). unfold read_piece.
  assert (exists t pad, drop (length piece) (replicate 1024 0) = 0 :: pad /\ (after ++ 0 :: pad = t :: (drop 1 (after ++ 0 :: pad))) /\ (t = 38 \/ t = 0)) as (t & pad & -> & Et & Ht).
  { rewrite drop_replicate. destruct (1024 - length piece)%nat as [|k] eqn:E; [lia|]. destruct Ha as [->|[rest ->]]; [exists 0|exists 38]; eexists; split; [reflexivity|auto|reflexivity|auto]. }
  set (rest := drop 1 _) in Et. clearbody rest.
  assert (piece ++ 0 :: pad = [] ++ concat (encode_field <$> before) ++ bs "sessionid" ++ [61] ++ url_encode sid ++ [t] ++ rest) as ->
    by (unfold piece; rewrite <- !app_assoc; cbn [app]; by rewrite <- Et).
  assert (exists n, S (length piece) = length (concat (encode_field <$> before)) + (length (bs "sessionid") + S (length (url_encode sid) + S n)))%nat as [n ->].
  { exists (length after). unfold piece. rewrite !length_app. cbn [length]. lia. }
  destruct (post_others (bs "sessionid") before Hb (length (bs "sessionid") + S (length (url_encode sid) + S n)) [] (bs "sessionid" ++ [61] ++ url_encode sid ++ [t] ++ rest)) as [pre' Hp].
  cbn [fmap list_fmap]. change (zlen []) with 0 in Hp. rewrite Hp.
  rewrite post_found; [|apply Forall_forall; intros c; revert c; apply Forall_forall; repeat constructor; reflexivity|by repeat constructor|by apply url_encode_plain|done].
  cbn [mbind option_bind]. destruct (decode_found (pre' ++ bs "sessionid" ++ [0]) sid rest Hsid) as [tl ->]. cbn [mbind option_bind length head snd andb negb Z.leb Z.compare].
  cbn. rewrite cstr_at_app by done. done.
Qed.

Lemma backup_asks_session_witness :
  backup_permitted (allowed (bs "a b")) (Some (bs "application/x-www-form-urlencoded; charset=x")) (bs "x=1&sessionid=a%20b&y=") = Some true.
Proof.
  refine (backup_asks_session (allowed (bs "a b")) (bs "application/x-www-form-urlencoded; charset=x") [(bs "x", bs "1")] (bs "a b") (bs "&y=") _ _ _ _ _).
  - reflexivity.
  - repeat constructor; discriminate.
  - repeat constructor.
  - right. eexists. reflexivity.
  - vm_compute. discriminate.
Defined.
