(* ===== verification/CgiUpload.v ===== *)
(** An upload from the request to the stored file. *)

From stdpp Require Import gmap.
From S2P Require Import Prelude Libc Multipart MultipartSpec CgiIo.

(** ** Parts of a piece *)

(** Rounds of the parser over a part [x] of one piece, [buf = pre ++ x ++ post]. *)
Section run.
Context {S : Type} (settings : multipart_parser_settings S) (buf : list Z) (len : Z).

Definition runs (k : nat) (s : S) (p : multipart_parser) (i mark : Z) (s' : S) (p' : multipart_parser) (i' mark' : Z) : Prop :=
  forall fuel, execute_loop settings (k + fuel) buf len s p i mark = execute_loop settings fuel buf len s' p' i' mark'.

Lemma runs_refl s p i mark : runs 0 s p i mark s p i mark.
Proof. done. Qed.

Lemma runs_trans k1 k2 s p i mark s1 p1 i1 mark1 s2 p2 i2 mark2 : runs k1 s p i mark s1 p1 i1 mark1 -> runs k2 s1 p1 i1 mark1 s2 p2 i2 mark2 ->
  runs (k1 + k2) s p i mark s2 p2 i2 mark2.
Proof. intros H1 H2 fuel. by rewrite <- Nat.add_assoc, H1, H2. Qed.

Lemma runs_step s p i mark c s' p' i' mark' : i < len -> zget buf i = Some c -> step settings buf i c (i =? len - 1) s p mark = Some (Next s' p' i' mark') ->
  runs 1 s p i mark s' p' i' mark'.
Proof. intros Hi Hc Hs fuel. by eapply loop_next. Qed.

(** The character at the start of a part. *)
Lemma char_at pre c post : buf = pre ++ c :: post -> zget buf (zlen pre) = Some c.
Proof. intros ->. rewrite zget_nat. by apply list_lookup_middle. Qed.

Lemma not_last pre c d post : buf = pre ++ c :: d :: post -> zlen (pre ++ [c; d]) <= len -> zlen pre < len /\ (zlen pre =? len - 1) = false.
Proof. intros _ H. rewrite length_app in H. cbn [length] in H. split; [lia|apply Z.eqb_neq; lia]. Qed.

Lemma next_char (pre : list Z) c : zlen pre + 1 = zlen (pre ++ [c]).
Proof. rewrite length_app. cbn [length]. lia. Qed.

(** The first boundary. *)
Lemma runs_first_boundary s B lb mark x : forall n pre post, x = drop n B -> (n <= length B)%nat -> buf = pre ++ x ++ post -> zlen (pre ++ x) <= len ->
  runs (length x) s (MP (Z.of_nat n) B s_start_boundary lb) (zlen pre) mark s (MP (zlen B) B s_start_boundary lb) (zlen (pre ++ x)) mark.
Proof.
  induction x as [|c x IH]; intros n pre post Ex Hn Hb Hl.
  - rewrite app_nil_r. replace n with (length B); [done|]. apply (f_equal length) in Ex. rewrite length_drop in Ex. cbn [length] in Ex. lia.
  - assert (B !! n = Some c) as Hc by (rewrite <- (Nat.add_0_r n), <- lookup_drop, <- Ex; done).
    assert (x = drop (Datatypes.S n) B) as Ex' by (rewrite (drop_S _ _ _ Hc) in Ex; congruence). apply lookup_lt_Some in Hc as Hlt. rewrite length_app in Hl. cbn [length] in Hl.
    change (length (c :: x)) with (1 + length x)%nat. eapply runs_trans.
    + eapply runs_step; [lia|eapply char_at, Hb|]. unfold step, start_boundary, boundary_length. cbn [mp_state mp_index mp_boundary].
      rewrite !(proj2 (Z.eqb_neq _ _)) by lia. rewrite zget_nat, lookup_app_l, Hc by done. cbn [mbind option_bind]. rewrite Z.eqb_refl. cbn [negb]. reflexivity.
    + unfold set_index. cbn [mp_index mp_boundary mp_state mp_lookbehind]. rewrite (next_char pre c). replace (Z.of_nat n + 1) with (Z.of_nat (Datatypes.S n)) by lia.
      replace (pre ++ c :: x) with ((pre ++ [c]) ++ x) by (by rewrite <- app_assoc). apply (IH _ _ post); [done|lia|by rewrite Hb, <- app_assoc|rewrite !length_app; cbn [length]; lia].
Qed.

(** A header name and its colon; the state at the start of a header is the one inside with the mark here. *)
Lemma runs_name s B lb n0 f s' x : on_header_field settings = Some f -> Forall (fun c => c = 45 \/ is_alpha c = true) x -> forall mark pre post,
  buf = pre ++ x ++ 58 :: post -> zlen (pre ++ x ++ [58]) <= len -> f s (from buf mark) (zlen (pre ++ x) - mark) = Some (s', 0) ->
  runs (length x + 1) s (MP n0 B s_header_field lb) (zlen pre) mark s' (MP n0 B s_header_value_start lb) (zlen (pre ++ x ++ [58])) mark.
Proof.
  intros Hf. induction 1 as [|c x Hc Hx IH]; intros mark pre post Hb Hl Hcb; cbn [app] in *.
  - rewrite length_app in Hl. cbn [length] in Hl. rewrite app_nil_r in Hcb. rewrite <- next_char. eapply runs_step; [lia|eapply char_at, Hb|].
    unfold step, in_header_field. cbn [mp_state]. rewrite Hf. cbn [Z.eqb Pos.eqb CR EMIT_DATA_CB]. rewrite Hcb. reflexivity.
  - assert (c <> CR /\ c <> 58) as [N1 N2] by (destruct Hc as [->|Hc%alpha_not]; [done|tauto]). rewrite !length_app in Hl. cbn [length] in Hl. rewrite length_app in Hl. cbn [length] in Hl.
    change (length (c :: x) + 1)%nat with (1 + (length x + 1))%nat. eapply runs_trans.
    + eapply runs_step; [lia|eapply char_at, Hb|]. unfold step, in_header_field. cbn [mp_state].
      rewrite (proj2 (Z.eqb_neq c CR)), (proj2 (Z.eqb_neq c 58)) by done. rewrite (proj2 (Z.eqb_neq (zlen pre) (len - 1))) by lia.
      destruct (Z.eqb_spec c 45) as [_|N45]; [reflexivity|]. destruct Hc as [?|Hc]; [done|]. unfold is_alpha in Hc. apply andb_true_iff in Hc as [H1%Z.leb_le H2%Z.leb_le].
      rewrite (proj2 (Z.ltb_ge (tolower c) 97)), (proj2 (Z.ltb_ge 122 (tolower c))) by lia. reflexivity.
    + rewrite (next_char pre c). replace (pre ++ c :: x ++ [58]) with ((pre ++ [c]) ++ x ++ [58]) by (by rewrite <- app_assoc). apply (IH mark (pre ++ [c]) post).
      * by rewrite Hb, <- app_assoc.
      * rewrite !length_app. cbn [length]. lia.
      * by rewrite <- app_assoc.
Qed.

(** A header value up to its line end. *)
Lemma runs_value s B lb n0 f s' x : on_header_value settings = Some f -> CR ∉ x -> forall mark pre post,
  buf = pre ++ x ++ CR :: LF :: post -> zlen (pre ++ x ++ [CR; LF]) <= len -> f s (from buf mark) (zlen (pre ++ x) - mark) = Some (s', 0) ->
  runs (length x + 2) s (MP n0 B s_header_value lb) (zlen pre) mark s' (MP n0 B s_header_field_start lb) (zlen (pre ++ x ++ [CR; LF])) mark.
Proof.
  intros Hf. induction x as [|c x IH]; intros Hx mark pre post Hb Hl Hcb; cbn [app] in *.
  - rewrite length_app in Hl. cbn [length] in Hl. rewrite app_nil_r in Hcb. apply (runs_trans 1 1 _ _ _ _ s' (MP n0 B s_header_value_almost_done lb) (zlen pre + 1) mark).
    + eapply runs_step; [lia|eapply char_at, Hb|]. unfold step, in_header_value, header_value_last. cbn [mp_state]. rewrite Hf. cbn [Z.eqb Pos.eqb CR EMIT_DATA_CB]. rewrite Hcb.
      cbn [mbind option_bind]. rewrite Z.eqb_refl, (proj2 (Z.eqb_neq (zlen pre) (len - 1))) by lia. reflexivity.
    + replace (zlen (pre ++ [CR; LF])) with (zlen (pre ++ [CR]) + 1) by (rewrite !length_app; cbn [length]; lia). rewrite (next_char pre CR). eapply runs_step; [rewrite length_app; cbn [length]; lia| |].
      * apply (char_at (pre ++ [CR]) LF post). by rewrite Hb, <- app_assoc.
      * reflexivity.
  - apply not_elem_of_cons in Hx as [Hc Hx]. rewrite !length_app in Hl. cbn [length] in Hl. rewrite length_app in Hl. cbn [length] in Hl.
    change (length (c :: x) + 2)%nat with (1 + (length x + 2))%nat. eapply runs_trans.
    + eapply runs_step; [lia|eapply char_at, Hb|]. unfold step, in_header_value, header_value_last. cbn [mp_state].
      rewrite (proj2 (Z.eqb_neq c CR)), (proj2 (Z.eqb_neq (zlen pre) (len - 1))) by (done || lia). reflexivity.
    + rewrite (next_char pre c). replace (pre ++ c :: x ++ [CR; LF]) with ((pre ++ [c]) ++ x ++ [CR; LF]) by (by rewrite <- app_assoc). apply (IH Hx mark (pre ++ [c]) post).
      * by rewrite Hb, <- app_assoc.
      * rewrite !length_app. cbn [length]. lia.
      * by rewrite <- app_assoc.
Qed.

(** Two states that treat the next character alike. *)
Lemma runs_same k s p i mark s1 p1 mark1 s' p' i' mark' : (0 < k)%nat -> (forall c l, zget buf i = Some c -> step settings buf i c l s p mark = step settings buf i c l s1 p1 mark1) -> i < len ->
  runs k s1 p1 i mark1 s' p' i' mark' -> runs k s p i mark s' p' i' mark'.
Proof.
  intros Hk Hs Hi H fuel. rewrite <- H. destruct k as [|k]; [lia|]. cbn [Nat.add execute_loop]. rewrite (proj2 (Z.ltb_lt i len)) by done. destruct (zget buf i) as [c|]; [|done].
  cbn [mbind option_bind]. by rewrite (Hs c).
Qed.

(** A line end between parts. *)
Lemma runs_crlf s p1 p2 p3 pre post mark mark1 : buf = pre ++ CR :: LF :: post -> zlen (pre ++ [CR; LF]) <= len ->
  (forall l, step settings buf (zlen pre) CR l s p1 mark = Some (Next s p2 (zlen pre + 1) mark1)) ->
  (forall i l, step settings buf i LF l s p2 mark1 = Some (Next s p3 (i + 1) mark1)) ->
  runs 2 s p1 (zlen pre) mark s p3 (zlen (pre ++ [CR; LF])) mark1.
Proof.
  intros Hb Hl H1 H2. rewrite length_app in Hl. cbn [length] in Hl. apply (runs_trans 1 1 _ _ _ _ s p2 (zlen pre + 1) mark1).
  - eapply runs_step; [lia|eapply char_at, Hb|apply H1].
  - replace (zlen (pre ++ [CR; LF])) with (zlen (pre ++ [CR]) + 1) by (rewrite !length_app; cbn [length]; lia). rewrite (next_char pre CR).
    eapply runs_step; [rewrite length_app; cbn [length]; lia| |apply H2]. apply (char_at (pre ++ [CR]) LF post). by rewrite Hb, <- app_assoc.
Qed.

(** The rest of a boundary behind data. *)
Lemma runs_delim s s' B e mark x : on_part_data_end settings = Some e -> e s = Some (s', 0) -> forall n lb pre post,
  x = drop n B -> (n < length B)%nat -> length lb = (length B + 12)%nat -> buf = pre ++ x ++ post -> zlen (pre ++ x) <= len ->
  exists lb', length lb' = (length B + 12)%nat /\
    runs (length x) s (MP (Z.of_nat n) B s_part_data_boundary lb) (zlen pre) mark s' (MP (zlen B) B s_part_data_almost_end lb') (zlen (pre ++ x)) mark.
Proof.
  intros He Hs. induction x as [|c x IH]; intros n lb pre post Ex Hn Hlb Hb Hl.
  { apply (f_equal length) in Ex. rewrite length_drop in Ex. cbn [length] in Ex. lia. }
  assert (B !! n = Some c) as Hc by (rewrite <- (Nat.add_0_r n), <- lookup_drop, <- Ex; done).
  assert (x = drop (Datatypes.S n) B) as Ex' by (rewrite (drop_S _ _ _ Hc) in Ex; congruence). rewrite length_app in Hl. cbn [length] in Hl.
  set (lb1 := <[Z.to_nat (2 + Z.of_nat n) := c]> lb). assert (length lb1 = (length B + 12)%nat) as Hlb1 by (unfold lb1; by rewrite length_insert).
  assert (forall i l, step settings buf i c l s (MP (Z.of_nat n) B s_part_data_boundary lb) mark = let p' := MP (Z.of_nat n + 1) B s_part_data_boundary lb1 in
    if Z.of_nat n + 1 =? zlen B then Some (Next s' (set_state p' s_part_data_almost_end) (i + 1) mark) else Some (Next s p' (i + 1) mark)) as Hstep.
  { intros i l. unfold step, part_data_boundary. cbn [mp_state mp_boundary mp_index]. rewrite zget_nat, lookup_app_l, Hc by done. cbn [mbind option_bind]. rewrite Z.eqb_refl. cbn [negb].
    unfold set_lookbehind. cbn [mp_lookbehind mp_index mp_boundary mp_state]. rewrite zset_Some by lia. fold lb1. cbn [mbind option_bind set_index mp_index mp_boundary mp_state mp_lookbehind].
    unfold boundary_length. cbn [mp_boundary]. destruct (_ =? _); [|done]. rewrite He. cbn [NOTIFY_CB]. rewrite Hs. done. }
  destruct (decide (Datatypes.S n = length B)) as [E|E].
  - assert (x = []) as -> by (apply nil_length_inv; rewrite Ex', length_drop; lia). exists lb1. split; [done|]. cbn [length]. rewrite <- next_char.
    eapply runs_step; [lia|eapply char_at, Hb|]. rewrite Hstep. cbv zeta. rewrite (proj2 (Z.eqb_eq _ _)) by lia. unfold set_state. cbn [mp_index mp_boundary mp_lookbehind].
    by replace (Z.of_nat n + 1) with (zlen B) by lia.
  - destruct (IH (Datatypes.S n) lb1 (pre ++ [c]) post) as (lb' & Hl' & Hr); try done; [lia|by rewrite Hb, <- app_assoc|rewrite !length_app; cbn [length]; lia|].
    exists lb'. split; [done|]. change (length (c :: x)) with (1 + length x)%nat. eapply runs_trans.
    + eapply runs_step; [lia|eapply char_at, Hb|]. rewrite Hstep. cbv zeta. rewrite (proj2 (Z.eqb_neq _ _)) by lia. reflexivity.
    + rewrite (next_char pre c). replace (Z.of_nat n + 1) with (Z.of_nat (Datatypes.S n)) by lia. rewrite <- app_assoc in Hr. exact Hr.
Qed.

(** Data without a carriage return, and the boundary behind it. *)
Lemma runs_text s1 s2 s3 B f e x : on_part_data settings = Some f -> on_part_data_end settings = Some e -> CR ∉ x -> B <> [] -> forall n lb mark pre post,
  length lb = (length B + 12)%nat -> buf = pre ++ x ++ CR :: LF :: B ++ post -> zlen (pre ++ x ++ CR :: LF :: B) <= len ->
  f s1 (from buf mark) (zlen (pre ++ x) - mark) = Some (s2, 0) -> e s2 = Some (s3, 0) ->
  exists lb' mark', length lb' = (length B + 12)%nat /\
    runs (length x + 2 + length B) s1 (MP n B s_part_data lb) (zlen pre) mark s3 (MP (zlen B) B s_part_data_almost_end lb') (zlen (pre ++ x ++ CR :: LF :: B)) mark'.
Proof.
  intros Hf He. induction x as [|c x IH]; intros Hx HB n lb mark pre post Hlb Hb Hl Hcb Hend; cbn [app] in *.
  - rewrite app_nil_r in Hcb. rewrite length_app in Hl. cbn [length] in Hl. assert (0 < length B)%nat by (destruct B; [done|cbn [length]; lia]).
    set (lb1 := <[0%nat := CR]> lb). set (lb2 := <[1%nat := LF]> lb1). assert (length lb1 = (length B + 12)%nat /\ length lb2 = (length B + 12)%nat) as [H1 H2] by (unfold lb2, lb1; by rewrite !length_insert).
    destruct (runs_delim s2 s3 B e (zlen pre) B He Hend 0%nat lb2 (pre ++ [CR; LF]) post) as (lb' & Hlb' & Hr); try done; [by rewrite Hb, <- app_assoc|rewrite !length_app; cbn [length]; lia|].
    exists lb', (zlen pre). split; [done|]. rewrite <- app_assoc in Hr. cbn [app] in Hr. change (length [] + 2 + length B)%nat with (1 + (1 + length B))%nat.
    apply (runs_trans 1 (1 + length B) _ _ _ _ s2 (MP n B s_part_data_almost_boundary lb1) (zlen pre + 1) (zlen pre)).
    + eapply runs_step; [lia|eapply char_at, Hb|]. unfold step, part_data. cbn [mp_state]. rewrite Hf. cbn [Z.eqb Pos.eqb CR EMIT_DATA_CB]. rewrite Hcb. cbn [mbind option_bind]. rewrite Z.eqb_refl.
      unfold set_lookbehind. cbn [set_state mp_lookbehind mp_index mp_boundary mp_state]. rewrite zset_Some by lia. reflexivity.
    + rewrite (next_char pre CR). apply (runs_trans 1 (length B) _ _ _ _ s2 (MP 0 B s_part_data_boundary lb2) (zlen (pre ++ [CR; LF])) (zlen pre)); [|exact Hr].
      replace (zlen (pre ++ [CR; LF])) with (zlen (pre ++ [CR]) + 1) by (rewrite !length_app; cbn [length]; lia). eapply runs_step; [rewrite length_app; cbn [length]; lia| |].
      * apply (char_at (pre ++ [CR]) LF (B ++ post)). by rewrite Hb, <- app_assoc.
      * unfold step. cbn [mp_state Z.eqb Pos.eqb LF]. unfold set_lookbehind. cbn [set_state mp_lookbehind mp_index mp_boundary mp_state]. rewrite zset_Some by lia. reflexivity.
  - apply not_elem_of_cons in Hx as [Hc Hx]. rewrite !length_app in Hl. cbn [length] in Hl. rewrite length_app in Hl. cbn [length] in Hl.
    destruct (IH Hx HB n lb mark (pre ++ [c]) post) as (lb' & mark' & Hlb' & Hr); try done.
    { by rewrite Hb, <- app_assoc. }
    { rewrite !length_app. cbn [length]. lia. }
    { by rewrite <- app_assoc. }
    exists lb', mark'. split; [done|]. change (length (c :: x) + 2 + length B)%nat with (1 + (length x + 2 + length B))%nat. eapply runs_trans.
    + eapply runs_step; [lia|eapply char_at, Hb|]. unfold step, part_data. cbn [mp_state]. rewrite (proj2 (Z.eqb_neq c CR)), (proj2 (Z.eqb_neq (zlen pre) (len - 1))) by (done || lia). reflexivity.
    + rewrite (next_char pre c). rewrite <- app_assoc in Hr. exact Hr.
Qed.

Lemma from_at pre r : buf = pre ++ r -> from buf (zlen pre) = r.
Proof. intros ->. unfold from. rewrite Nat2Z.id. apply drop_app_length. Qed.

(** A whole header line. *)
Definition header_line (h : list Z * list Z) : list Z := h.1 ++ [58; 32] ++ h.2 ++ [CR; LF].
Definition line_ok (h : list Z * list Z) : Prop := header_ok h /\ exists c v, h.2 = c :: v /\ c <> 32.

Lemma runs_header s1 s2 s3 B n0 lb mark f1 f2 h pre post : on_header_field settings = Some f1 -> on_header_value settings = Some f2 -> line_ok h ->
  buf = pre ++ header_line h ++ post -> zlen (pre ++ header_line h) <= len ->
  f1 s1 (header_line h ++ post) (zlen h.1) = Some (s2, 0) -> f2 s2 (h.2 ++ CR :: LF :: post) (zlen h.2) = Some (s3, 0) ->
  exists mark', runs (length (header_line h)) s1 (MP n0 B s_header_field_start lb) (zlen pre) mark s3 (MP n0 B s_header_field_start lb) (zlen (pre ++ header_line h)) mark'.
Proof.
  intros Hf1 Hf2 [[Hn Hv] (c & v & Ev & Hc)] Hb Hl H1 H2. destruct h as [n w]. unfold header_line in *. cbn [fst snd] in *.
  pose proof (from_at pre _ Hb) as Hfrom. set (pre1 := pre ++ n ++ [58]). set (pre2 := pre1 ++ [32]).
  assert (buf = pre1 ++ 32 :: w ++ CR :: LF :: post) as Hb1 by (rewrite Hb; unfold pre1; rewrite <- !app_assoc; cbn [app]; by rewrite <- ?app_assoc).
  assert (buf = pre2 ++ w ++ CR :: LF :: post) as Hb2 by (unfold pre2; by rewrite Hb1, <- app_assoc).
  assert (pre ++ n ++ [58; 32] ++ w ++ [CR; LF] = pre2 ++ w ++ [CR; LF]) as Ep by (unfold pre2, pre1; rewrite <- !app_assoc; cbn [app]; by rewrite <- ?app_assoc). rewrite Ep in Hl |- *.
  assert (zlen pre1 = zlen pre + zlen n + 1) as L1 by (unfold pre1; rewrite !length_app; cbn [length]; lia).
  assert (zlen pre2 = zlen pre + zlen n + 2) as L2 by (unfold pre2, pre1; rewrite !length_app; cbn [length]; lia).
  assert (zlen (pre2 ++ w ++ [CR; LF]) = zlen pre2 + zlen w + 2) as Lw by (rewrite !length_app; cbn [length]; lia).
  exists (zlen pre2). replace (length (n ++ [58; 32] ++ w ++ [CR; LF])) with ((length n + 1) + (1 + (length w + 2)))%nat by (rewrite !length_app; cbn [length]; lia).
  eapply runs_trans; [|eapply runs_trans].
  - eapply (runs_same _ _ _ _ _ s1 (MP n0 B s_header_field lb) (zlen pre)); [lia|done|lia|]. eapply (runs_name s1 B lb n0 f1 s2 n Hf1 Hn (zlen pre) pre (32 :: w ++ CR :: LF :: post)).
    + rewrite Hb1. unfold pre1. by rewrite <- !app_assoc.
    + fold pre1. lia.
    + rewrite Hfrom. replace (zlen (pre ++ n) - zlen pre) with (zlen n) by (rewrite length_app; lia). exact H1.
  - eapply runs_step; [|eapply (char_at pre1), Hb1|reflexivity]. fold pre1. lia.
  - fold pre1. rewrite (next_char pre1 32). fold pre2. eapply (runs_same _ _ _ _ _ s2 (MP n0 B s_header_value lb) (zlen pre2)); [lia| |lia|].
    + intros c' l Hc'. rewrite Ev in Hb2. rewrite (char_at pre2 c (v ++ CR :: LF :: post) Hb2) in Hc'. injection Hc' as <-. unfold step. cbn [mp_state]. by rewrite (proj2 (Z.eqb_neq c 32)).
    + apply (runs_value s2 B lb n0 f2 s3 w Hf2 Hv (zlen pre2) pre2 post Hb2); [lia|]. rewrite (from_at pre2 _ Hb2).
      replace (zlen (pre2 ++ w) - zlen pre2) with (zlen w) by (rewrite length_app; lia). exact H2.
Qed.
End run.

(** ** The functions of the program on a well-formed request *)

Lemma str_eq_prefix f n r : Forall (fun c => c <> 0) n -> forall s, str_eq f (n ++ r) s (length n) = Some (bool_decide (f <$> n = f <$> take (length n) s)).
Proof.
  induction 1 as [|c n Hc Hn IH]; intros s; [cbn; by rewrite bool_decide_true|]. cbn [app length str_eq]. destruct s as [|d s].
  - rewrite (proj2 (Z.eqb_neq c 0)) by done. by rewrite bool_decide_false.
  - rewrite (proj2 (Z.eqb_neq c 0)) by done. cbn [take]. rewrite !fmap_cons. destruct (Z.eqb_spec (f c) (f d)) as [->|Hne].
    + rewrite IH. f_equal. apply bool_decide_ext. split; congruence.
    + rewrite bool_decide_false by congruence. done.
Qed.

Definition part_name (t : upload_part) : list Z :=
  match t with PART_SESSIONID => bs "sessionid" | PART_FILENAME => bs "filename" | PART_FILEMODE => bs "filemode" | PART_FILEDATA => bs "filedata" | PART_UNKNOWN => [] end.

(** [extra] is what browsers put behind the name, such as the name of the file. *)
Definition disposition_of (t : upload_part) (extra : list Z) : list Z * list Z :=
  (bs "Content-Disposition", bs "form-data; name=" ++ [34] ++ part_name t ++ [34] ++ extra).

(** Another header. *)
Definition other_line (h : list Z * list Z) : Prop :=
  line_ok h /\ tolower <$> h.1 <> tolower <$> take (length h.1) (bs "Content-Disposition").

Lemma header_field_disposition g r : header_field g (bs "Content-Disposition" ++ r) (zlen (bs "Content-Disposition")) = Some (with_st g (set_disposition (c_st g) true), 0).
Proof. reflexivity. Qed.

Lemma header_field_other g h r : other_line h -> header_field g (h.1 ++ r) (zlen h.1) = Some (with_st g (set_disposition (c_st g) false), 0).
Proof.
  intros [[[Hn _] _] Hne]. unfold header_field, mem_strncasecmp. rewrite Nat2Z.id, str_eq_prefix.
  - by rewrite bool_decide_false.
  - eapply Forall_impl; [exact Hn|]. intros c [->|Hc]; [done|]. intros ->. done.
Qed.

Lemma find_quote_at x r len : 34 ∉ x -> forall i, i + zlen x <= len -> find_quote (x ++ 34 :: r) len i = Some (Some (i + zlen x)).
Proof.
  induction x as [|c x IH]; intros Hx i Hi; cbn [app find_quote length] in *; rewrite (proj2 (Z.leb_le _ _)) by lia.
  - do 2 f_equal. lia.
  - apply not_elem_of_cons in Hx as [Hc Hx]. rewrite (proj2 (Z.eqb_neq c 34)) by done. rewrite IH by (done || lia). do 2 f_equal. lia.
Qed.

Lemma part_name_quote t : 34 ∉ part_name t.
Proof. apply (bool_decide_eq_true_1 (34 ∉ part_name t)). by destruct t. Qed.

Lemma header_value_disposition g t r n : is_content_disposition (c_st g) = true -> t <> PART_UNKNOWN -> 0 <= n < 2 ^ 20 ->
  header_value g (bs "form-data; name=" ++ [34] ++ part_name t ++ [34] ++ r) (zlen (bs "form-data; name=") + 2 + zlen (part_name t) + n) = Some (with_st g (set_parttype (c_st g) t), 0).
Proof.
  intros Hd Ht Hn. unfold header_value. rewrite Hd. cbn [negb]. change (zlen (bs "form-data; name=")) with 16.
  assert (8 <= zlen (part_name t) <= 9) as Hp by (destruct t; [done|split; vm_compute; discriminate..]).
  rewrite (proj2 (Z.ltb_ge _ 10)) by lia.
  change (mem_strncasecmp (bs "form-data; name=" ++ [34] ++ part_name t ++ [34] ++ r) (bs "form-data") 9) with (Some true). cbn [mbind option_bind negb].
  change (drop 9 (bs "form-data; name=" ++ [34] ++ part_name t ++ [34] ++ r)) with (59 :: 32 :: bs "name=" ++ [34] ++ part_name t ++ [34] ++ r).
  set (len := 16 + 2 + zlen (part_name t) + n).
  change (skip_separators (59 :: 32 :: bs "name=" ++ [34] ++ part_name t ++ [34] ++ r) (len - 9)) with
    (Some (bs "name=" ++ [34] ++ part_name t ++ [34] ++ r, u32 (u32 (len - 9 - 1) - 1))).
  cbn [mbind option_bind]. rewrite !u32_id by (rewrite ?u32_id; unfold len; width). rewrite (proj2 (Z.ltb_ge _ 8)) by (unfold len; lia).
  change (mem_strncasecmp (bs "name=" ++ [34] ++ part_name t ++ [34] ++ r) (bs "name=" ++ [34]) 6) with (Some true). cbn [mbind option_bind negb].
  change (drop 6 (bs "name=" ++ [34] ++ part_name t ++ [34] ++ r)) with (part_name t ++ 34 :: r). rewrite find_quote_at; [|apply part_name_quote|unfold len; lia].
  cbn [mbind option_bind]. rewrite Z.add_0_l. by destruct t.
Qed.

(** ** Parts of a request *)

Record field_part := FieldPart { f_type : upload_part; f_extra : list Z; f_more : list (list Z * list Z); f_value : list Z }.

Definition encode_headers (t : upload_part) (extra : list Z) (more : list (list Z * list Z)) : list Z :=
  header_line (disposition_of t extra) ++ concat (header_line <$> more) ++ [CR; LF].

(** The headers and the value of a field and the boundary line behind it. *)
Definition encode_field_part (B : list Z) (f : field_part) : list Z :=
  encode_headers (f_type f) (f_extra f) (f_more f) ++ f_value f ++ CR :: LF :: B ++ [CR; LF].

Definition field_effect (f : field_part) (st : upload) : upload :=
  set_parttype
    match f_type f with
    | PART_SESSIONID => set_sessionid st (Some (f_value f ++ [0]))
    | PART_FILENAME => set_filename st (Some (f_value f ++ [0]))
    | PART_FILEMODE => set_filemode st (s32 (strtoul_digits 8 0 (f_value f)))
    | _ => st
    end PART_UNKNOWN.

Definition headers_ok (extra : list Z) (more : list (list Z * list Z)) : Prop := CR ∉ extra /\ zlen extra < 2 ^ 20 /\ Forall other_line more.

Definition field_ok (sys : system) (f : field_part) : Prop :=
  headers_ok (f_extra f) (f_more f) /\ CR ∉ f_value f /\
  match f_type f with
  | PART_SESSIONID => is_cstr (f_value f) /\ session_access sys (f_value f) (bs "upload") (bs "write") = true
  | PART_FILENAME => is_cstr (f_value f)
  | PART_FILEMODE => f_value f <> [] /\ Forall (fun c => 48 <= c <= 55) (f_value f) /\ strtoul_digits 8 0 (f_value f) < 2 ^ 32
  | _ => False
  end.

Section request.
Context (sys : system) (Halloc : forall n, can_alloc sys n = true) (buf : list Z) (len : Z).
Context (B : list Z) (HB : B <> []).
#[local] Abbreviation U := (upload_settings sys).
#[local] Abbreviation runs := (runs U buf len).
#[local] Abbreviation at_headers n lb := (MP n B s_header_field_start lb).

Lemma runs_more more : Forall other_line more -> forall st w n lb mark pre post, buf = pre ++ concat (header_line <$> more) ++ post -> zlen (pre ++ concat (header_line <$> more)) <= len ->
  exists b mark', runs (length (concat (header_line <$> more))) (Cgi st w) (at_headers n lb) (zlen pre) mark (Cgi (set_disposition st b) w) (at_headers n lb) (zlen (pre ++ concat (header_line <$> more))) mark'.
Proof.
  induction 1 as [|h more Hh Hm IH]; intros st w n lb mark pre post Hb Hl.
  - exists (is_content_disposition st), mark. cbn. rewrite app_nil_r. by destruct st.
  - rewrite fmap_cons in *. cbn [concat] in *. rewrite <- app_assoc in Hb. rewrite app_assoc in Hl |- *.
    assert (zlen (pre ++ header_line h) <= len) as Hl1 by (rewrite length_app in Hl; lia).
    destruct (runs_header U buf len (Cgi st w) (Cgi (set_disposition st false) w) (Cgi (set_disposition st false) w) B n lb mark header_field header_value h pre (concat (header_line <$> more) ++ post))
      as (mark1 & H1); try done; [apply Hh| |].
    { unfold header_line. rewrite <- app_assoc. by apply (header_field_other (Cgi st w)). }
    destruct (IH (set_disposition st false) w n lb mark1 (pre ++ header_line h) post) as (b & mark2 & H2); [by rewrite Hb, <- app_assoc|done|].
    exists b, mark2. rewrite length_app. eapply runs_trans; [exact H1|exact H2].
Qed.

(** All headers of a part, to the start of its data. *)
Lemma runs_headers t extra more st w n lb mark pre post : t <> PART_UNKNOWN -> headers_ok extra more ->
  buf = pre ++ encode_headers t extra more ++ post -> zlen (pre ++ encode_headers t extra more) <= len ->
  exists b mark', runs (length (encode_headers t extra more)) (Cgi st w) (at_headers n lb) (zlen pre) mark
    (Cgi (set_disposition (set_parttype st t) b) w) (MP n B s_part_data_start lb) (zlen (pre ++ encode_headers t extra more)) mark'.
Proof.
  intros Ht (He & Hel & Hm) Hb Hl. unfold encode_headers in *. set (d := disposition_of t extra) in *.
  assert (line_ok d) as Hd.
  { split; [split|].
    - cbn [d disposition_of fst]. apply Forall_forall. intros c Hc. apply (Forall_forall (fun c => c = 45 \/ is_alpha c = true) (bs "Content-Disposition")); [|exact Hc].
      apply (bool_decide_eq_true_1 (Forall _ _)). reflexivity.
    - cbn [d disposition_of snd]. rewrite !not_elem_of_app. split; [|split; [|split; [|split]]]; try done; apply (bool_decide_eq_true_1 (_ ∉ _)); by destruct t.
    - by do 2 eexists. }
  rewrite <- !app_assoc in Hb.
  assert (pre ++ header_line d ++ concat (header_line <$> more) ++ [CR; LF] = ((pre ++ header_line d) ++ concat (header_line <$> more)) ++ [CR; LF]) as E by (by rewrite <- !app_assoc).
  rewrite E in Hl |- *. rewrite !length_app in Hl. cbn [length] in Hl.
  destruct (runs_header U buf len (Cgi st w) (Cgi (set_disposition st true) w) (Cgi (set_disposition (set_parttype st t) true) w) B n lb mark header_field header_value d pre
    (concat (header_line <$> more) ++ [CR; LF] ++ post)) as (mark1 & H1); try done; [rewrite length_app; lia| |].
  { change (zlen d.2) with (zlen (bs "form-data; name=" ++ [34] ++ part_name t ++ [34] ++ extra)). cbn [d disposition_of snd].
    replace (zlen (bs "form-data; name=" ++ [34] ++ part_name t ++ [34] ++ extra)) with (zlen (bs "form-data; name=") + 2 + zlen (part_name t) + zlen extra) by (rewrite !length_app; cbn [length]; lia).
    rewrite <- !app_assoc. rewrite (header_value_disposition (Cgi (set_disposition st true) w)) by (done || lia). done. }
  destruct (runs_more more Hm (set_disposition (set_parttype st t) true) w n lb mark1 (pre ++ header_line d) ([CR; LF] ++ post)) as (b & mark2 & H2);
    [by rewrite Hb, <- !app_assoc|rewrite !length_app; lia|].
  eexists b, _. rewrite app_assoc, length_app. eapply runs_trans; [rewrite length_app; eapply runs_trans; [exact H1|exact H2]|].
  apply (runs_crlf U buf len _ (at_headers n lb) (MP n B s_headers_almost_done lb) (MP n B s_part_data_start lb) ((pre ++ header_line d) ++ concat (header_line <$> more)) post);
    [by rewrite Hb, <- !app_assoc|rewrite !length_app; cbn [length]; lia|reflexivity|reflexivity].
Qed.

Lemma octal_digits v r : Forall (fun c => 48 <= c <= 55) v -> forall acc, strtoul_digits 8 acc (v ++ CR :: r) = strtoul_digits 8 acc v.
Proof.
  induction 1 as [|c v Hc Hv IH]; intros acc; [done|]. cbn [app strtoul_digits].
  assert (digit_val c <? 8 = true) as -> by (unfold digit_val; rewrite (proj2 (Z.leb_le 48 c)), (proj2 (Z.leb_le c 57)) by lia; apply Z.ltb_lt; cbn [andb]; lia). apply IH.
Qed.

Lemma strtoul8_octal v r : v <> [] -> Forall (fun c => 48 <= c <= 55) v -> strtoul_digits 8 0 v < 2 ^ 32 -> strtoul8 (v ++ CR :: r) = Some (strtoul_digits 8 0 v).
Proof.
  intros Hne Hv Hlt. unfold strtoul8. destruct v as [|c v]; [done|]. inversion Hv as [|? ? Hc _]. subst.
  assert (skip_space ((c :: v) ++ CR :: r) = (c :: v) ++ CR :: r) as ->.
  { cbn [app skip_space]. unfold is_space. by rewrite (proj2 (Z.eqb_neq c 32)), (proj2 (Z.leb_gt c 13)), andb_false_r by lia. }
  assert (match (c :: v) ++ CR :: r with 45 :: s' => (true, s') | 43 :: s' => (false, s') | _ => (false, (c :: v) ++ CR :: r) end = (false, (c :: v) ++ CR :: r)) as ->.
  { cbn [app]. repeat case_match; try done; lia. }
  rewrite forallb_app. cbn [forallb]. change (digit_val CR <? 8) with false. rewrite andb_false_l, andb_false_r, octal_digits by done.
  rewrite (proj2 (Z.leb_gt _ _)) by lia. done.
Qed.

(** What a field does when its value arrives and ends. *)
Lemma field_callbacks f st w b r : field_ok sys f -> let g := Cgi (set_disposition (set_parttype st (f_type f)) b) w in
  data_begin_cb sys g = Some (g, 0) /\
  exists g', data_cb sys g (f_value f ++ CR :: r) (zlen (f_value f)) = Some (g', 0) /\ data_end_cb sys g' = Some (Cgi (set_disposition (field_effect f st) b) w, 0).
Proof.
  destruct f as [t extra more v]. unfold field_ok, data_begin_cb, data_cb, data_end_cb, datadup, field_effect. cbn [f_type f_value f_extra f_more]. rewrite Halloc, zslice_head.
  intros (_ & _ & H). destruct t; try done; (split; [done|]); cbn [c_st parttype set_disposition set_parttype mbind option_bind].
  - destruct H as [Hv Ha]. eexists. split; [reflexivity|]. cbn [with_st c_st parttype set_sessionid sessionid name_of mbind option_bind].
    unfold name_of. cbn [mbind option_bind]. rewrite cstr_app by done. cbn [mbind option_bind]. by rewrite Ha.
  - eexists. split; reflexivity.
  - destruct H as (Hne & Hv & Hlt). rewrite strtoul8_octal by done. eexists. split; reflexivity.
Qed.

Lemma runs_field f st w n lb mark pre post : field_ok sys f -> length lb = (length B + 12)%nat ->
  buf = pre ++ encode_field_part B f ++ post -> zlen (pre ++ encode_field_part B f) <= len ->
  exists b n' lb' mark', length lb' = (length B + 12)%nat /\
    runs (length (encode_field_part B f)) (Cgi st w) (at_headers n lb) (zlen pre) mark
      (Cgi (set_disposition (field_effect f st) b) w) (at_headers n' lb') (zlen (pre ++ encode_field_part B f)) mark'.
Proof.
  intros Hok Hlb Hb Hl. unfold encode_field_part in *. set (hs := encode_headers _ _ _) in *. set (v := f_value f) in *.
  assert (f_type f <> PART_UNKNOWN) as Ht by (destruct Hok as (_ & _ & H); by destruct (f_type f)).
  assert (buf = pre ++ hs ++ v ++ CR :: LF :: B ++ [CR; LF] ++ post) as Hb1 by (rewrite Hb; rewrite <- !app_assoc; cbn [app]; by rewrite <- !app_assoc).
  assert (zlen (pre ++ hs ++ v ++ CR :: LF :: B ++ [CR; LF]) = zlen pre + zlen hs + zlen v + zlen B + 4) as El by (rewrite !length_app; cbn [length]; rewrite length_app; cbn [length]; lia).
  destruct (runs_headers (f_type f) (f_extra f) (f_more f) st w n lb mark pre (v ++ CR :: LF :: B ++ [CR; LF] ++ post)) as (b & mark1 & H1); [done|apply Hok|done|fold hs; rewrite length_app; lia|].
  fold hs in H1. destruct (field_callbacks f st w b (LF :: B ++ [CR; LF] ++ post) Hok) as (Hbeg & g2 & Hdata & Hend). fold v in Hdata. set (g1 := Cgi (set_disposition (set_parttype st (f_type f)) b) w) in *. set (g3 := Cgi (set_disposition (field_effect f st) b) w) in *.
  assert (buf = (pre ++ hs) ++ v ++ CR :: LF :: B ++ [CR; LF] ++ post) as Hb2 by (by rewrite Hb1, <- app_assoc).
  destruct (runs_text U buf len g1 g2 g3 B (data_cb sys) (data_end_cb sys) v eq_refl eq_refl (proj1 (proj2 Hok)) HB n lb (zlen (pre ++ hs)) (pre ++ hs) ([CR; LF] ++ post) Hlb Hb2)
    as (lb' & mark2 & Hlb' & H2).
  { rewrite !length_app. cbn [length]. lia. }
  { rewrite (from_at buf _ _ Hb2). replace (zlen ((pre ++ hs) ++ v) - zlen (pre ++ hs)) with (zlen v) by (rewrite length_app; lia). exact Hdata. }
  { exact Hend. }
  eexists b, _, lb', _. split; [done|].
  replace (length (hs ++ v ++ CR :: LF :: B ++ [CR; LF])) with (length hs + ((length v + 2 + length B) + 2))%nat by (rewrite !length_app; cbn [length]; rewrite length_app; cbn [length]; lia).
  eapply runs_trans; [exact H1|]. eapply runs_trans.
  - eapply (runs_same U buf len _ _ _ _ _ g1 (MP n B s_part_data lb) (zlen (pre ++ hs))); [lia| |rewrite length_app; lia|exact H2].
    intros c l _. unfold step. cbn [mp_state U upload_settings on_headers_complete NOTIFY_CB]. rewrite Hbeg. done.
  - replace (pre ++ hs ++ v ++ CR :: LF :: B ++ [CR; LF]) with (((pre ++ hs) ++ v ++ CR :: LF :: B) ++ [CR; LF]) by (rewrite <- !app_assoc; cbn [app]; by rewrite <- ?app_assoc).
    apply (runs_crlf U buf len _ (MP (zlen B) B s_part_data_almost_end lb') (MP (zlen B) B s_part_data_end lb') (at_headers (zlen B) lb') _ post); try reflexivity.
    + rewrite Hb1. rewrite <- !app_assoc. cbn [app]. by rewrite <- ?app_assoc.
    + rewrite !length_app. cbn [length]. lia.
Qed.

(** All fields, in order. *)
Lemma runs_fields fs : Forall (field_ok sys) fs -> forall st w n lb mark pre post, length lb = (length B + 12)%nat ->
  buf = pre ++ concat (encode_field_part B <$> fs) ++ post -> zlen (pre ++ concat (encode_field_part B <$> fs)) <= len ->
  exists b n' lb' mark', length lb' = (length B + 12)%nat /\
    runs (length (concat (encode_field_part B <$> fs))) (Cgi st w) (at_headers n lb) (zlen pre) mark
      (Cgi (set_disposition (foldl (fun st f => field_effect f st) st fs) b) w) (at_headers n' lb') (zlen (pre ++ concat (encode_field_part B <$> fs))) mark'.
Proof.
  induction 1 as [|f fs Hf Hfs IH]; intros st w n lb mark pre post Hlb Hb Hl.
  - exists (is_content_disposition st), n, lb, mark. split; [done|]. cbn. rewrite app_nil_r. by destruct st.
  - rewrite fmap_cons in *. cbn [concat foldl] in *. rewrite <- app_assoc in Hb. rewrite app_assoc in Hl |- *.
    destruct (runs_field f st w n lb mark pre (concat (encode_field_part B <$> fs) ++ post) Hf Hlb Hb) as (b1 & n1 & lb1 & mark1 & Hlb1 & H1); [rewrite length_app in Hl; lia|].
    destruct (IH (set_disposition (field_effect f st) b1) w n1 lb1 mark1 (pre ++ encode_field_part B f) post Hlb1) as (b2 & n2 & lb2 & mark2 & Hlb2 & H2); [by rewrite Hb, <- app_assoc|done|].
    exists b2, n2, lb2, mark2. split; [done|]. rewrite length_app. eapply runs_trans; [exact H1|].
    assert (forall fs st b, set_disposition (foldl (fun st f => field_effect f st) (set_disposition st b) fs) b2 = set_disposition (foldl (fun st f => field_effect f st) st fs) b2) as E.
    { clear. induction fs as [|f fs IH]; intros st b; [done|]. cbn [foldl]. rewrite <- (IH (field_effect f st) b). f_equal. f_equal. unfold field_effect. by destruct (f_type f). }
    rewrite E in H2. exact H2.
Qed.
End request.

(** ** The file *)

Section file.
Context (sys : system) (Htemp : forall m n, 0 <= n -> temp_write sys m n = n).
Context (B : list Z) (HB : B <> []).
#[local] Abbreviation U := (upload_settings sys).

Definition in_file (g : cgi) : Prop := parttype (c_st g) = PART_FILEDATA.
Definition take_file (g : cgi) (c : Z) : cgi :=
  Cgi (set_filedata (c_st g) true) (World (w_files (c_world g)) (w_temp (c_world g) ++ [c]) (w_replies (c_world g))).
#[local] Abbreviation drel := (data_rel B in_file take_file).

Lemma foldl_take_file d : forall g, d <> [] -> foldl take_file g d =
  Cgi (set_filedata (c_st g) true) (World (w_files (c_world g)) (w_temp (c_world g) ++ d) (w_replies (c_world g))).
Proof.
  induction d as [|c d IH]; intros g Hd; [done|]. cbn [foldl]. destruct d as [|c' d]; [done|]. rewrite IH by done. cbn. by rewrite <- app_assoc.
Qed.

Lemma data_cb_file g mem len : in_file g -> 0 <= len <= zlen mem -> data_cb sys g mem len = Some (foldl take_file g (take (Z.to_nat len) mem), 0).
Proof.
  intros Hg Hl. unfold data_cb. rewrite Hg, zslice_Some by lia. change (Z.to_nat 0) with 0%nat. rewrite drop_0. cbn [mbind option_bind]. rewrite Htemp, Z.eqb_refl by lia. cbn [negb].
  rewrite take_ge by (rewrite length_take; lia). destruct g as [st [files temp replies]]. cbn [with_st with_world c_st c_world w_files w_temp w_replies].
  destruct (Z.eqb_spec len 0) as [->|Hne]; cbn [negb].
  - change (take (Z.to_nat 0) mem) with (@nil Z). rewrite app_nil_r. destruct st as [? ? ? ? [] ? ? ?]; done.
  - rewrite foldl_take_file by (intros E; apply (f_equal length) in E; rewrite length_take in E; cbn [length] in E; lia). by destruct (filedata st).
Qed.

Lemma upload_data input g' r : r <> 0 -> forall g p a v buf o y, drel [] 0 0 0 p a g v -> drun B a (concat input) = (o, inr y) -> data_end_cb sys (foldl take_file v o) = Some (g', r) ->
  upload_loop sys g p buf input = Some g'.
Proof.
  intros Hr. induction input as [|piece input IH]; intros g p a v buf o y Hrel Hd Hend; [done|]. cbn [concat upload_loop] in *. unfold read_piece, multipart_parser_execute. rewrite Nat2Z.id.
  pose proof (data_piece B HB U in_file take_file (data_cb sys) eq_refl data_cb_file (fun g _ H => H) piece [] (drop (length piece) buf) 0 p a g v (2 * length piece + 1)) as Hp.
  cbv zeta in Hp. cbn [app] in Hp. change (zlen []) with 0 in Hp. specialize (Hp ltac:(eapply data_between; [|exact Hrel]; lia) ltac:(lia)). rewrite drun_app in Hd.
  destruct (drun B a piece) as [o1 [a1|y1]].
  - destruct Hp as (g1 & p1 & mark1 & -> & Hrel1). cbn [mbind option_bind]. rewrite Z.ltb_irrefl. injection Hd as <- Hd2.
    eapply (IH g1 p1 a1 (foldl take_file v o1)); [eapply data_between; [|exact Hrel1]; lia| |]; [|by rewrite <- foldl_app]. rewrite <- Hd2. by destruct (drun B a1 (concat input)).
  - injection Hd as <- <-. destruct (Hp (data_end_cb sys) g' r eq_refl Hend Hr) as (p' & i & -> & Hi). cbn [mbind option_bind]. by rewrite (proj2 (Z.ltb_lt _ _)).
Qed.

(** The first character of the data opens the temporary file. *)
Lemma start_piece g1 g2 n lb mark pre d tail fuel : data_begin_cb sys g1 = Some (g2, 0) -> in_file g2 -> length lb = (length B + 12)%nat -> d <> [] -> (0 < fuel)%nat ->
  execute_loop U fuel (pre ++ d ++ tail) (zlen (pre ++ d)) g1 (MP n B s_part_data_start lb) (zlen pre) mark =
  execute_loop U fuel (pre ++ d ++ tail) (zlen (pre ++ d)) g2 (MP n B s_part_data lb) (zlen pre) (zlen pre) /\
  drel (pre ++ d ++ tail) (zlen (pre ++ d)) (zlen pre) (zlen pre) (MP n B s_part_data lb) (s_part_data, 0%nat) g2 g2.
Proof.
  intros Hbeg Hg Hlb Hd Hf. assert (zlen pre < zlen (pre ++ d)) as Hi by (rewrite length_app; destruct d; [done|cbn [length]; lia]). split.
  - destruct fuel as [|fuel]; [lia|]. cbn [execute_loop]. rewrite (proj2 (Z.ltb_lt _ _)) by done. destruct (zget _ _); [|done]. cbn [mbind option_bind]. unfold step.
    cbn [mp_state upload_settings on_headers_complete NOTIFY_CB]. rewrite Hbeg. done.
  - split; [done|]. split; [lia|]. do 3 (split; [done|]). cbn [fst]. unfold unsent. rewrite (proj2 (Z.ltb_lt _ _)), Z.sub_diag by done. done.
Qed.

Lemma upload_start input g1 g2 g' r n lb : data_begin_cb sys g1 = Some (g2, 0) -> in_file g2 -> length lb = (length B + 12)%nat -> r <> 0 -> forall buf o y,
  drun B (s_part_data, 0%nat) (concat input) = (o, inr y) -> data_end_cb sys (foldl take_file g2 o) = Some (g', r) ->
  upload_loop sys g1 (MP n B s_part_data_start lb) buf input = Some g'.
Proof.
  intros Hbeg Hg Hlb Hr. induction input as [|piece input IH]; intros buf o y Hd Hend; [done|]. destruct (decide (piece = [])) as [->|Hne].
  - cbn [concat app] in Hd. exact (IH buf o y Hd Hend).
  - rewrite <- (upload_data (piece :: input) g' r Hr g2 (MP n B s_part_data lb) (s_part_data, 0%nat) g2 buf o y); [|split; [done|]; by repeat (split; [done|])|done|done].
    cbn [upload_loop]. unfold read_piece, multipart_parser_execute.
    destruct (start_piece g1 g2 n lb 0 [] piece (drop (length piece) buf) (2 * Z.to_nat (zlen piece) + 1) Hbeg Hg Hlb Hne ltac:(lia)) as [E _]. cbn [app] in E.
    change (zlen []) with 0 in E. by rewrite E.
Qed.
End file.

(** ** The whole request *)

(** A system in which nothing fails. *)
Record fine (sys : system) : Prop := {
  fine_alloc n : can_alloc sys n = true; fine_mkstemp : mkstemp_ok sys = true; fine_lseek : lseek_ok sys = true; fine_chmod : chmod_ok sys = true;
  fine_open n : can_open sys n = true; fine_temp m n : 0 <= n -> temp_write sys m n = n; fine_target m n : 0 <= n -> target_write sys m n = n
}.

Lemma filecopy_loop_all sys : fine sys -> forall fuel rest done, (length rest < fuel)%nat -> filecopy_loop sys fuel rest done = (done ++ rest, true).
Proof.
  intros Hs. induction fuel as [|fuel IH]; intros rest done Hf; [lia|]. cbn [filecopy_loop]. destruct (decide (take 4096 rest = [])) as [E|E].
  - assert (rest = []) as -> by (destruct rest; [done|discriminate E]). by rewrite app_nil_r.
  - assert (0 < length rest)%nat by (destruct rest; [by rewrite take_nil in E|cbn [length]; lia]). rewrite (fine_target sys Hs), Z.eqb_refl, Nat2Z.id by lia.
    rewrite (take_ge (take 4096 rest)) by lia. rewrite IH by (rewrite length_drop; lia). by rewrite <- app_assoc, take_drop.
Qed.

Lemma data_end_stores sys st files temp replies name : fine sys -> parttype st = PART_FILEDATA -> tempfd st = 3 -> filedata st = true -> name_of (filename st) = Some name ->
  exists g, data_end_cb sys (Cgi st (World files temp replies)) = Some (g, -1) /\
    w_files (c_world g) = <[name := (temp, Z.land (filemode st) 4095)]> files /\ w_replies (c_world g) = replies ++ [Stored (Some (zlen temp))].
Proof.
  intros Hs Ht Hfd Hd Hn. unfold data_end_cb, filecopy. cbn [c_st c_world w_files w_temp w_replies]. rewrite Ht, Hfd, Hd, (fine_lseek sys Hs). cbn [negb Z.ltb Z.compare].
  rewrite Hn. cbn [mbind option_bind]. rewrite (fine_open sys Hs). cbn [negb with_st c_world w_temp]. rewrite filecopy_loop_all by (done || lia). cbn [app negb]. rewrite (fine_chmod sys Hs). cbn [negb mbind option_bind Z.eqb].
  unfold response_ok. cbn [with_world with_st c_st c_world w_files w_temp w_replies set_filefd filename]. eexists. split; [reflexivity|]. cbn [with_world c_world w_files w_replies].
  rewrite Hn. cbn [mbind option_bind]. rewrite lookup_insert_eq. split; [by rewrite ?insert_insert_eq|done].
Qed.

(** The request up to the data of the file. *)
Definition request_head (B : list Z) (fs : list field_part) (extra : list Z) (more : list (list Z * list Z)) : list Z :=
  B ++ [CR; LF] ++ concat (encode_field_part B <$> fs) ++ encode_headers PART_FILEDATA extra more.

(** The state the fields leave. *)
Definition fields_state (fs : list field_part) : upload :=
  foldl (fun st f => field_effect f st) (set_filemode (set_filefd (set_tempfd initial (-1)) (-1)) 384) fs.

Lemma runs_head sys B fs extra more st w lb buf len post : (forall n, can_alloc sys n = true) -> B <> [] -> length lb = (length B + 12)%nat ->
  Forall (field_ok sys) fs -> headers_ok extra more -> buf = request_head B fs extra more ++ post -> zlen (request_head B fs extra more) <= len ->
  exists b n lb' mark, length lb' = (length B + 12)%nat /\
    runs (upload_settings sys) buf len (length (request_head B fs extra more)) (Cgi st w) (MP 0 B s_start lb) 0 0
      (Cgi (set_disposition (set_parttype (foldl (fun st f => field_effect f st) st fs) PART_FILEDATA) b) w) (MP n B s_part_data_start lb') (zlen (request_head B fs extra more)) mark.
Proof.
  intros Ha HB Hlb Hfs Hh Hb Hl. unfold request_head in *. set (cf := concat _) in *. set (eh := encode_headers _ _ _) in *.
  assert (zlen (B ++ [CR; LF] ++ cf ++ eh) = zlen B + 2 + zlen cf + zlen eh) as El by (rewrite !length_app; cbn [length]; lia).
  assert (0 < length B)%nat as HB0 by (destruct B; [done|cbn [length]; lia]).
  assert (buf = [] ++ B ++ [CR; LF] ++ cf ++ eh ++ post) as Hb0 by (rewrite Hb; by rewrite <- !app_assoc).
  pose proof (runs_first_boundary (upload_settings sys) buf len (Cgi st w) B lb 0 B 0 [] ([CR; LF] ++ cf ++ eh ++ post) eq_refl ltac:(lia) Hb0 ltac:(cbn [app]; lia)) as H1.
  cbn [app] in H1. change (zlen []) with 0 in H1. change (Z.of_nat 0) with 0 in H1.
  assert (runs (upload_settings sys) buf len 2 (Cgi st w) (MP (zlen B) B s_start_boundary lb) (zlen B) 0 (Cgi st w) (MP 0 B s_header_field_start lb) (zlen (B ++ [CR; LF])) 0) as H2.
  { apply (runs_crlf (upload_settings sys) buf len _ _ (MP (zlen B + 1) B s_start_boundary lb) _ B (cf ++ eh ++ post)); [exact Hb0|rewrite length_app; cbn [length]; lia| |].
    - intros l. unfold step, start_boundary, boundary_length. cbn [mp_state mp_index mp_boundary]. rewrite Z.eqb_refl. reflexivity.
    - intros i l. unfold step, start_boundary, boundary_length. cbn [mp_state mp_index mp_boundary]. rewrite (proj2 (Z.eqb_neq _ _)), Z.eqb_refl by lia. reflexivity. }
  destruct (runs_fields sys Ha buf len B HB fs Hfs st w 0 lb 0 (B ++ [CR; LF]) (eh ++ post) Hlb) as (b1 & n1 & lb1 & mark1 & Hlb1 & H3).
  { rewrite Hb0. by rewrite <- app_assoc. }
  { fold cf. rewrite !length_app. cbn [length]. lia. }
  fold cf in H3. destruct (runs_headers sys buf len B PART_FILEDATA extra more (set_disposition (foldl (fun st f => field_effect f st) st fs) b1) w n1 lb1 mark1 ((B ++ [CR; LF]) ++ cf) post) as (b2 & mark2 & H4); try done.
  { fold eh. rewrite Hb0. by rewrite <- !app_assoc. }
  { fold eh. rewrite !length_app. cbn [length]. lia. }
  fold eh in H4. exists b2, n1, lb1, mark2. split; [done|].
  replace (zlen (B ++ [CR; LF] ++ cf ++ eh)) with (zlen (((B ++ [CR; LF]) ++ cf) ++ eh)) by (by rewrite <- !app_assoc).
  replace (length (B ++ [CR; LF] ++ cf ++ eh)) with (length B + (2 + (length cf + length eh)))%nat by (rewrite !length_app; cbn [length]; lia).
  eapply runs_trans; [|eapply runs_trans; [exact H2|eapply runs_trans; [exact H3|exact H4]]].
  eapply (runs_same (upload_settings sys) buf len _ _ _ _ _ (Cgi st w) (MP 0 B s_start_boundary lb) 0); [lia|done|lia|exact H1].
Qed.

(** C8: an upload is stored: a request with fields for the session, the name and the mode, in any
    order and number as long as every session id may write uploads, and then the file, whose
    data may come in any pieces, leaves the file under the last name given with exactly that
    data and the last mode, and is answered with its size.  The fields and the headers of the
    file have to be in the first piece, and the file must not be empty. *)
Theorem upload_stores_file sys junk b fs extra more name data trail first rest w :
  let B := [45; 45] ++ b in
  fine sys -> CR ∉ b -> Forall (field_ok sys) fs -> headers_ok extra more ->
  is_Some (sessionid (fields_state fs)) -> name_of (filename (fields_state fs)) = Some name ->
  data <> [] -> (forall x y, data <> x ++ (CR :: LF :: B) ++ y) -> first ++ concat rest = data ++ CR :: LF :: B ++ trail ->
  exists g, main_upload sys junk (Some (bs "multipart/form-data; boundary=" ++ b)) ((request_head B fs extra more ++ first) :: rest) w = Some (g, 0) /\
    w_files (c_world g) = <[name := (data, Z.land (filemode (fields_state fs)) 4095)]> (w_files w) /\
    w_replies (c_world g) = w_replies w ++ [Stored (Some (zlen data))].
Proof.
  intros B Hs Hb Hfs Hh Hsid Hname Hdata Hno Hpieces. assert (B <> []) as HB by done. assert (CR ∉ B) as HcrB by (unfold B; set_solver by lia).
  unfold main_upload, init_parser. change (upload_boundary (Some (bs "multipart/form-data; boundary=" ++ b))) with (Some B). cbv beta iota. rewrite (fine_alloc sys Hs).
  unfold multipart_parser_init. rewrite (fine_alloc sys Hs). cbn [mbind option_bind]. set (st0 := set_filemode _ 384). set (head := request_head B fs extra more).
  set (buf0 := replicate 4096 junk). cbn [upload_loop]. set (buf := read_piece buf0 (head ++ first)). assert (buf = head ++ first ++ drop (length (head ++ first)) buf0) as Hbuf by (unfold buf, read_piece; by rewrite <- app_assoc).
  set (lb0 := replicate (length B + 12) junk). assert (length lb0 = (length B + 12)%nat) as Hlb0 by apply length_replicate.
  destruct (runs_head sys B fs extra more st0 w lb0 buf (zlen (head ++ first)) (first ++ drop (length (head ++ first)) buf0) (fine_alloc sys Hs) HB Hlb0 Hfs Hh Hbuf) as (bf & n & lb & mark & Hlb & Hrun).
  { fold head. rewrite length_app. lia. }
  fold head in Hrun. change (foldl (fun st f => field_effect f st) st0 fs) with (fields_state fs) in Hrun. set (st1 := set_disposition (set_parttype (fields_state fs) PART_FILEDATA) bf) in *.
  set (g2 := Cgi (set_tempfd st1 3) (World (w_files w) [] (w_replies w))).
  assert (data_begin_cb sys (Cgi st1 w) = Some (g2, 0)) as Hbeg.
  { unfold data_begin_cb. cbn [c_st c_world st1 parttype set_disposition set_parttype sessionid filename]. rewrite decide_True by done. destruct Hsid as [sid ->].
    destruct (filename (fields_state fs)) as [fn|] eqn:E; [|done]. by rewrite (fine_mkstemp sys Hs). }
  destruct (data_end_stores sys (set_filedata (set_tempfd st1 3) true) (w_files w) data (w_replies w) name Hs) as (g & Hend & Hfiles & Hreplies); try done.
  pose proof (drun_delimiter B HB HcrB data trail Hno) as Hd. rewrite <- Hpieces in Hd.
  assert (data_end_cb sys (foldl take_file g2 data) = Some (g, -1)) as Hend' by (rewrite foldl_take_file by done; exact Hend).
  assert (upload_loop sys (Cgi st0 w) (MP 0 B s_start lb0) buf0 ((head ++ first) :: rest) = Some g) as Hloop; [|exists g; cbn [upload_loop] in Hloop; fold buf in Hloop; by rewrite Hloop].
  cbn [upload_loop]. fold buf. unfold multipart_parser_execute. rewrite Nat2Z.id.
  assert (exists k, 2 * length (head ++ first) + 1 = length head + k /\ 2 * length first + 1 <= k)%nat as (k & -> & Hk) by (exists (length head + 2 * length first + 1)%nat; rewrite length_app; lia).
  rewrite Hrun. destruct (decide (first = [])) as [->|Hne].
  - rewrite app_nil_r in *. destruct k as [|k]; [lia|]. cbn [execute_loop]. rewrite Z.ltb_irrefl. cbn [mbind option_bind]. rewrite Z.ltb_irrefl.
    by eapply (upload_start sys (fine_temp sys Hs) B HB rest (Cgi st1 w) g2 g (-1) n lb).
  - rewrite Hbuf. destruct (start_piece sys B (Cgi st1 w) g2 n lb mark head first (drop (length (head ++ first)) buf0) k Hbeg eq_refl Hlb Hne ltac:(lia)) as [-> Hrel].
    pose proof (data_piece B HB (upload_settings sys) in_file take_file (data_cb sys) eq_refl (data_cb_file sys (fine_temp sys Hs)) (fun g _ H => H) first head _ _ _ _ _ _ k Hrel Hk) as Hp.
    rewrite drun_app in Hd. destruct (drun B (s_part_data, 0%nat) first) as [o1 [a1|y1]].
    + destruct Hp as (g3 & p3 & mark3 & -> & Hrel3). cbn [mbind option_bind]. rewrite Z.ltb_irrefl. injection Hd as Ho Hy.
      eapply (upload_data sys (fine_temp sys Hs) B HB rest g (-1) ltac:(done) g3 p3 a1 (foldl take_file g2 o1)); [eapply data_between; [|exact Hrel3]; lia| |].
      * rewrite (surjective_pairing (drun B a1 (concat rest))), Hy. reflexivity.
      * by rewrite <- foldl_app, Ho.
    + injection Hd as -> _. destruct (Hp (data_end_cb sys) g (-1) eq_refl Hend' ltac:(done)) as (p' & i & -> & Hi). cbn [mbind option_bind]. by rewrite (proj2 (Z.ltb_lt _ _)).
Qed.

Lemma upload_stores_file_witness :
  let fs := [FieldPart PART_SESSIONID [] [] (bs "42"); FieldPart PART_FILENAME [] [] (bs "/t"); FieldPart PART_FILEMODE [] [] (bs "0644")] in
  let extra := bs "; filename=" ++ [34] ++ bs "x" ++ [34] in
  let more := [(bs "Content-Type", bs "text/plain")] in
  exists g, main_upload (allowed (bs "42")) 170 (Some (bs "multipart/form-data; boundary=X"))
      ((request_head (bs "--X") fs extra more ++ bs "h") :: [[105; 13]; [10] ++ bs "--X--"]) (World ∅ [] []) = Some (g, 0) /\
    w_files (c_world g) = <[bs "/t" := (bs "hi", 420)]> ∅ /\ w_replies (c_world g) = [Stored (Some 2)].
Proof.
  intros fs extra more.
  apply (upload_stores_file (allowed (bs "42")) 170 (bs "X") fs extra more (bs "/t") (bs "hi") (bs "--") (bs "h") [[105; 13]; [10] ++ bs "--X--"] (World ∅ [] [])).
  - by constructor.
  - by apply (bool_decide_eq_true_1 (CR ∉ bs "X")).
  - assert (headers_ok [] []) as Hh by (split; [by apply (bool_decide_eq_true_1 (CR ∉ []))|split; [reflexivity|constructor]]).
    constructor; [|constructor; [|constructor; [|constructor]]]; (split; [exact Hh|]); (split; [by apply (bool_decide_eq_true_1 (CR ∉ _))|]); cbn [f_type f_value].
    + split; [repeat constructor|reflexivity].
    + repeat constructor.
    + split; [discriminate|]. split; [|reflexivity]. by apply (bool_decide_eq_true_1 (Forall (fun c => 48 <= c <= 55) (bs "0644"))).
  - split; [by apply (bool_decide_eq_true_1 (CR ∉ extra))|]. split; [reflexivity|]. constructor; [|constructor]. split; [|vm_compute; discriminate]. split; [split|].
    + by apply (bool_decide_eq_true_1 (Forall (fun c => c = 45 \/ is_alpha c = true) (bs "Content-Type"))).
    + by apply (bool_decide_eq_true_1 (CR ∉ bs "text/plain")).
    + by do 2 eexists.
  - by eexists.
  - reflexivity.
  - discriminate.
  - intros x y E. apply (f_equal length) in E. rewrite !length_app in E. cbn in E. lia.
  - reflexivity.
Defined.
