(* ===== verification/Owip.v ===== *)
(** The address calculator (package/network/utils/owipcalc/src/owipcalc.c): a stack of addresses
    with prefixes, operations on its top, and the command line that runs them. *)

From S2P Require Import Prelude Libc.

(** ** Numbers and addresses as text *)

(** The longest start of [s] of characters of a kind. *)
Fixpoint span (pred : Z -> bool) (s : list Z) : list Z * list Z :=
  match s with
  | c :: s' => if pred c then let '(a, b) := span pred s' in (c :: a, b) else ([], s)
  | [] => ([], [])
  end.

(** [strtoul (s, &r, base)] for base 0 and 10, with a 32-bit [unsigned long]: the value and what
    is behind the number; [None] when there is no number and [r == s]. *)
Definition strtoul_end (base : Z) (s : list Z) : option (Z * list Z) :=
  let s := skip_space s in
  let '(neg, s) := match s with 45 :: s' => (true, s') | 43 :: s' => (false, s') | _ => (false, s) end in
  let '(base, s) :=
    if base =? 0 then
      match s with
      | 48 :: x :: d :: s' => if ((x =? 120) || (x =? 88)) && (digit_val d <? 16) then (16, d :: s') else (8, s)
      | 48 :: _ => (8, s)
      | _ => (10, s)
      end
    else (base, s) in
  let '(ds, r) := span (fun c => digit_val c <? base) s in
  if decide (ds = []) then None
  else
    let m := strtoul_digits base 0 ds in
    Some (if 2 ^ 32 <=? m then 2 ^ 32 - 1 else if neg then u32 (- m) else m, r).

(** [%u] *)
Fixpoint dec_loop (fuel : nat) (z : Z) (acc : list Z) : list Z :=
  match fuel with
  | O => acc
  | S fuel => let acc := (48 + z mod 10) :: acc in if z <? 10 then acc else dec_loop fuel (z / 10) acc
  end.
Definition dec (z : Z) : list Z := dec_loop 10 z [].

Definition isdigit (c : Z) : bool := (48 <=? c) && (c <=? 57).

(** An octet: up to three digits, no zero in front, at most 255. *)
Definition octet (s : list Z) : option (Z * list Z) :=
  let '(ds, r) := span isdigit s in
  let v := strtoul_digits 10 0 ds in
  if decide (ds = []) then None
  else if (3 <? zlen ds) || ((1 <? zlen ds) && match ds with 48 :: _ => true | _ => false end) || (255 <? v) then None
  else Some (v, r).

(** [inet_pton (AF_INET, ...)] and [inet_ntop (AF_INET, ...)]; addresses in memory order. *)
Definition dot (s : list Z) : option (list Z) := match s with 46 :: s => Some s | _ => None end.
Definition inet_pton4 (s : list Z) : option (list Z) :=
  '(a, s) ← octet s; s ← dot s; '(b, s) ← octet s; s ← dot s; '(c, s) ← octet s; s ← dot s; '(d, s) ← octet s;
  if decide (s = []) then Some [a; b; c; d] else None.
Definition inet_ntop4 (addr : list Z) : option (list Z) :=
  match addr with a :: b :: c :: d :: _ => Some (dec a ++ [46] ++ dec b ++ [46] ++ dec c ++ [46] ++ dec d) | _ => None end.

(** IPv6 addresses have several texts, and C libraries print different ones. *)
Record inet6 := Inet6 { inet_pton6 : list Z -> option (list Z); inet_ntop6 : list Z -> list Z }.

(** ** State *)

Definition AF_INET : Z := 2.
Definition AF_INET6 : Z := 10.

(** The union of addresses is 16 bytes, an IPv4 address the first four. *)
Record cidr := Cidr { c_family : Z; c_prefix : Z; c_addr : list Z }.

Record calc := Calc { c_stack : list cidr; c_quiet : bool; c_printed : bool; c_out : list Z }.

Definition with_stack (s : calc) (st : list cidr) : calc := Calc st (c_quiet s) (c_printed s) (c_out s).

Definition qprintf (text : list Z) (s : calc) : calc := Calc (c_stack s) (c_quiet s) true (if c_quiet s then c_out s else c_out s ++ text).
(** [if (printed) qprintf(" ")] *)
Definition qspace (s : calc) : calc := if c_printed s then qprintf [32] s else s.

Definition s_addr (a : cidr) : Z := le_val (take 4 (c_addr a)).
Definition set_s_addr (a : cidr) (x : Z) : cidr := Cidr (c_family a) (c_prefix a) (le_bytes 4 x ++ drop 4 (c_addr a)).
Definition set_prefix (a : cidr) (p : Z) : cidr := Cidr (c_family a) p (c_addr a).
Definition set_addr (a : cidr) (x : list Z) : cidr := Cidr (c_family a) (c_prefix a) x.

(** Little endian. *)
Definition ntohl (x : Z) : Z := be_val (le_bytes 4 x).
Definition htonl (x : Z) : Z := ntohl x.

(** [1 << n] is undefined for other [n]; [1 << 31] wraps. *)
Definition one_shl (n : Z) : option Z := if (0 <=? n) && (n <? 32) then Some (u32 (Z.shiftl 1 n)) else None.

(** [(1 << (32 - prefix)) - 1], [prefix] unsigned. *)
Definition hostmask (prefix : Z) : option Z := x ← one_shl (u32 (32 - prefix)); Some (u32 (x - 1)).
Definition not32 (x : Z) : Z := u32 (Z.lnot x).

(** An operation goes on with a result or ends the program. *)
Inductive outcome := Done (s : calc) (ok : bool) | Exit (s : calc) (code : Z).

Section calculator.
(** Whether there is memory, what fresh memory holds, and IPv6 texts. *)
Context (mem : bool) (junk : list Z) (v6 : inet6).

Definition cidr_push (a : cidr) (s : calc) : calc := with_stack s (a :: c_stack s).

Definition cidr_pop (s : calc) : outcome :=
  match c_stack s with
  | [] => Done s false
  | _ :: st => Done (with_stack s st) true
  end.

(** [cidr_clone] and what is done with the clone, which is the new top. *)
Definition cidr_clone (a : cidr) (s : calc) (k : cidr -> option (cidr * bool)) : option outcome :=
  if mem then '(n, ok) ← k a; Some (Done (cidr_push n s) ok) else Some (Exit s 255).

(** ** IPv4 *)

(** [for (prefix = 0; mask.s_addr; mask.s_addr >>= 1) prefix += (mask.s_addr & 1);] *)
Fixpoint popcount (fuel : nat) (m : Z) (p : Z) : Z :=
  match fuel with
  | O => p
  | S fuel => if m =? 0 then p else popcount fuel (Z.shiftr m 1) (p + Z.land m 1)
  end.

Definition cidr_parse4 (s : list Z) : option cidr :=
  if negb mem || (33 <=? zlen s) then None
  else
    '(text, prefix) ←
      match split_at 47 s with
      | Some (text, p) =>
          if decide (46 ∈ p) then m ← inet_pton4 p; Some (text, popcount 32 (le_val m) 0)
          else
            '(v, r) ← strtoul_end 10 p;
            if negb (bool_decide (r = [])) || (32 <? v) then None else Some (text, v)
      | None => Some (s, 32)
      end;
    if bool_decide (text = []) && bool_decide (47 ∈ s) then Some (Cidr AF_INET prefix ([0; 0; 0; 0] ++ drop 4 junk))
    else a ← inet_pton4 text; Some (Cidr AF_INET prefix (a ++ drop 4 junk)).

Definition cidr_add4 (a b : cidr) (s : calc) : option outcome :=
  let x := ntohl (s_addr a) in
  let y := ntohl (s_addr b) in
  cidr_clone a s (fun n =>
    Some (if negb (c_family n =? AF_INET) || negb (c_family b =? AF_INET) then (n, false)
          else if u32 (x + y) <? x then (n, false)
          else (set_s_addr n (htonl (u32 (x + y))), true))).

Definition cidr_sub4 (a b : cidr) (s : calc) : option outcome :=
  let x := ntohl (s_addr a) in
  let y := ntohl (s_addr b) in
  cidr_clone a s (fun n =>
    Some (if negb (c_family n =? AF_INET) || negb (c_family b =? AF_INET) then (n, false)
          else if x <? u32 (x - y) then (n, false)
          else (set_s_addr n (htonl (u32 (x - y))), true))).

Definition cidr_network4 (a : cidr) (s : calc) : option outcome :=
  cidr_clone a s (fun n => h ← hostmask (c_prefix n); Some (set_prefix (set_s_addr n (Z.land (s_addr n) (htonl (not32 h)))) 32, true)).

Definition cidr_broadcast4 (a : cidr) (s : calc) : option outcome :=
  cidr_clone a s (fun n => h ← hostmask (c_prefix n); Some (set_prefix (set_s_addr n (Z.lor (s_addr n) (htonl h))) 32, true)).

Definition answer (b : bool) (s : calc) : outcome := Done (qprintf (if b then [49] else [48]) (qspace s)) b.

Definition cidr_contains4 (a b : cidr) (s : calc) : option outcome :=
  h ← hostmask (c_prefix a);
  let net1 := Z.land (s_addr a) (htonl (not32 h)) in
  let net2 := Z.land (s_addr b) (htonl (not32 h)) in
  Some (answer ((c_prefix a <=? c_prefix b) && (net1 =? net2)) s).

Definition cidr_netmask4 (a : cidr) (s : calc) : option outcome :=
  cidr_clone a s (fun n => h ← hostmask (c_prefix n); Some (set_prefix (set_s_addr n (htonl (not32 h))) 32, true)).

Definition between (lo x hi : Z) : bool := (lo <=? x) && (x <=? hi).

Definition cidr_private4 (a : cidr) (s : calc) : option outcome :=
  let x := ntohl (s_addr a) in
  Some (answer (between 0x0A000000 x 0x0AFFFFFF || between 0xAC100000 x 0xAC1FFFFF || between 0xC0A80000 x 0xC0A8FFFF) s).

Definition cidr_linklocal4 (a : cidr) (s : calc) : option outcome := Some (answer (between 0xA9FE0000 (ntohl (s_addr a)) 0xA9FEFFFF) s).

Definition cidr_prev4 (a b : cidr) (s : calc) : option outcome :=
  cidr_clone a s (fun n => x ← one_shl (u32 (32 - c_prefix b)); let n := set_prefix n (c_prefix b) in Some (set_s_addr n (u32 (s_addr n - htonl x)), true)).

Definition cidr_next4 (a b : cidr) (s : calc) : option outcome :=
  cidr_clone a s (fun n => x ← one_shl (u32 (32 - c_prefix b)); let n := set_prefix n (c_prefix b) in Some (set_s_addr n (u32 (s_addr n + htonl x)), true)).

Definition cidr_6to4 (a : cidr) (s : calc) : option outcome :=
  let x := s_addr a in
  cidr_clone a s (fun _ =>
    Some (Cidr AF_INET6 48 ([0x20; 0x02; u8 (Z.shiftr x 24); Z.land (Z.shiftr x 16) 255; Z.land (Z.shiftr x 8) 255; Z.land x 255] ++ replicate 10 0), true)).

Definition print_prefix (a : cidr) (full : Z) (s : calc) : calc := if c_prefix a <? full then qprintf ([47] ++ dec (c_prefix a)) s else s.

Definition cidr_print4 (a : cidr) (s : calc) : option outcome :=
  if negb (c_family a =? AF_INET) then Some (Done s false)
  else text ← inet_ntop4 (c_addr a); match cidr_pop (print_prefix a 32 (qprintf text (qspace s))) with Done s _ => Some (Done s true) | r => Some r end.

(** ** IPv6 *)

Definition cidr_parse6 (s : list Z) : option cidr :=
  if negb mem || (51 <=? zlen s) then None
  else
    '(text, prefix) ←
      match split_at 47 s with
      | Some (text, p) =>
          '(v, r) ← strtoul_end 10 p;
          if negb (bool_decide (r = [])) || (128 <? v) then None else Some (text, v)
      | None => Some (s, 128)
      end;
    if bool_decide (text = []) && bool_decide (47 ∈ s) then Some (Cidr AF_INET6 prefix (replicate 16 0))
    else a ← inet_pton6 v6 text; Some (Cidr AF_INET6 prefix a).

(** The loops from byte [n - 1] down to byte 0. *)
Fixpoint add6_loop (n : nat) (x y : list Z) (carry : Z) : option (list Z * Z) :=
  match n with
  | O => Some (x, carry)
  | S idx => a ← x !! idx; b ← y !! idx; add6_loop idx (<[idx := u8 (a + b + carry)]> x) y (if 256 <=? a + b + carry then 1 else 0)
  end.

Fixpoint sub6_loop (n : nat) (x y : list Z) (carry : Z) : option (list Z * Z) :=
  match n with
  | O => Some (x, carry)
  | S idx => a ← x !! idx; b ← y !! idx; sub6_loop idx (<[idx := u8 (a - (b + carry))]> x) y (if a - b - carry <? 0 then 1 else 0)
  end.

Fixpoint next6_loop (n : nat) (x : list Z) (carry : Z) : option (list Z * Z) :=
  match n with
  | O => Some (x, carry)
  | S idx => a ← x !! idx; next6_loop idx (<[idx := u8 (a + carry)]> x) (if 256 <=? a + carry then 1 else 0)
  end.

Fixpoint prev6_loop (n : nat) (x : list Z) (carry : Z) : option (list Z * Z) :=
  match n with
  | O => Some (x, carry)
  | S idx => a ← x !! idx; prev6_loop idx (<[idx := u8 (a - carry)]> x) (if a - carry <? 0 then 1 else 0)
  end.

Definition cidr_add6 (a b : cidr) (s : calc) : option outcome :=
  cidr_clone a s (fun n =>
    if negb (c_family a =? AF_INET6) || negb (c_family b =? AF_INET6) then Some (n, false)
    else '(x, carry) ← add6_loop 16 (c_addr n) (c_addr b) 0; Some (set_addr n x, carry =? 0)).

Definition cidr_sub6 (a b : cidr) (s : calc) : option outcome :=
  cidr_clone a s (fun n =>
    if negb (c_family n =? AF_INET6) || negb (c_family b =? AF_INET6) then Some (n, false)
    else '(x, carry) ← sub6_loop 16 (c_addr n) (c_addr b) 0; Some (set_addr n x, carry =? 0)).

(** The byte the prefix ends in, in a [uint8_t]. *)
Definition last_byte (prefix : Z) : nat := Z.to_nat (u8 ((prefix - 1) / 8)).

Definition cidr_prev6 (a b : cidr) (s : calc) : option outcome :=
  cidr_clone a s (fun n =>
    if c_prefix b =? 0 then Some (n, false)
    else
      '(x, carry) ← prev6_loop (S (last_byte (c_prefix b))) (c_addr n) 1;
      Some (if negb (carry =? 0) then (set_addr n x, false) else (set_prefix (set_addr n x) (c_prefix b), true))).

Definition cidr_next6 (a b : cidr) (s : calc) : option outcome :=
  cidr_clone a s (fun n =>
    if c_prefix b =? 0 then Some (n, false)
    else
      '(x, carry) ← next6_loop (S (last_byte (c_prefix b))) (c_addr n) 1;
      Some (if negb (carry =? 0) then (set_addr n x, false) else (set_prefix (set_addr n x) (c_prefix b), true))).

(** [for (i = 0; i < k; i++) s6_addr[15-i] = 0;] *)
Fixpoint clear_bytes (k : nat) (i : Z) (x : list Z) : option (list Z) :=
  match k with
  | O => Some x
  | S k => x ← zset x (15 - i) 0; clear_bytes k (i + 1) x
  end.

(** The bits behind the prefix, unsigned. *)
Definition host_bits (prefix : Z) : Z := u32 (128 - prefix).
(** [~((1 << n) - 1)] in a byte. *)
Definition low_mask (n : Z) : Z := u8 (Z.lnot (Z.shiftl 1 n - 1)).

Definition cidr_network6 (a : cidr) (s : calc) : option outcome :=
  cidr_clone a s (fun n =>
    let i := host_bits (c_prefix n) / 8 in
    let r := host_bits (c_prefix n) mod 8 in
    x ← clear_bytes (Z.to_nat i) 0 (c_addr n);
    x ← (if negb (r =? 0) then b ← zget x (15 - i); zset x (15 - i) (Z.land b (low_mask r)) else Some x);
    Some (set_addr n x, true)).

(** The clone stays on the stack; [memcmp] of a negative length is undefined. *)
Definition cidr_contains6 (a b : cidr) (s : calc) : option outcome :=
  if mem then
    let i := u8 (host_bits (c_prefix a) / 8) in
    let m := low_mask (host_bits (c_prefix a) mod 8) in
    x ← zget (c_addr a) (15 - i);
    y ← zget (c_addr b) (15 - i);
    same ← (if negb (c_prefix a <=? c_prefix b) || negb (Z.land x m =? Z.land y m) then Some false
            else if i =? 15 then Some true
            else u ← zslice (c_addr a) 0 (15 - i); v ← zslice (c_addr b) 0 (15 - i); Some (bool_decide (u = v)));
    Some (answer same (cidr_push a s))
  else Some (Exit s 255).

Definition cidr_linklocal6 (a : cidr) (s : calc) : option outcome :=
  x ← c_addr a !! 0%nat; y ← c_addr a !! 1%nat; Some (answer ((x =? 0xFE) && between 0x80 y 0xBF) s).

Definition cidr_ula6 (a : cidr) (s : calc) : option outcome := x ← c_addr a !! 0%nat; Some (answer (between 0xFC x 0xFD) s).

Definition cidr_print6 (a : cidr) (s : calc) : option outcome :=
  if negb (c_family a =? AF_INET6) then Some (Done s false)
  else match cidr_pop (print_prefix a 128 (qprintf (inet_ntop6 v6 (c_addr a)) (qspace s))) with Done s _ => Some (Done s true) | r => Some r end.

(** ** Arguments *)

Inductive parsed := Parsed (a : cidr) | NoAddress | WrongFamily.

(** A number is an address, and a prefix, of the family at hand. *)
Definition cidr_parse (s : list Z) (af_hint : Z) : parsed :=
  match strtoul_end 0 s with
  | Some (sum, []) =>
      if negb mem then NoAddress
      else if af_hint =? AF_INET then Parsed (Cidr AF_INET sum (be_bytes 4 sum ++ drop 4 junk))
      else Parsed (Cidr AF_INET6 sum (be_bytes 16 sum))
  | _ =>
      match (if decide (58 ∈ s) then cidr_parse6 s else cidr_parse4 s) with
      | None => NoAddress
      | Some a => if c_family a =? af_hint then Parsed a else WrongFamily
      end
  end.

(** [1 << n] printed as unsigned. *)
Definition cidr_howmany (a b : cidr) (s : calc) : option outcome :=
  let s := qspace s in
  if c_prefix b <? c_prefix a then Some (Done (qprintf [48] s) true)
  else x ← one_shl (c_prefix b - c_prefix a); Some (Done (qprintf (dec x) s) true).

(** The top itself gets the prefix. *)
Definition cidr_prefix (a b : cidr) (s : calc) : option outcome :=
  match c_stack s with
  | [] => None
  | a :: st => Some (Done (with_stack s (set_prefix a (c_prefix b) :: st)) true)
  end.

Definition cidr_quiet (a : cidr) (s : calc) : option outcome := Some (Done (Calc (c_stack s) true (c_printed s) (c_out s)) true).

Record op := Op { op_name : list Z; f4_a1 : option (cidr -> calc -> option outcome); f4_a2 : option (cidr -> cidr -> calc -> option outcome);
  f6_a1 : option (cidr -> calc -> option outcome); f6_a2 : option (cidr -> cidr -> calc -> option outcome) }.

Definition pop_op (a : cidr) (s : calc) : option outcome := Some (cidr_pop s).

Definition ops : list op := [
  Op (bs "add") None (Some cidr_add4) None (Some cidr_add6);
  Op (bs "sub") None (Some cidr_sub4) None (Some cidr_sub6);
  Op (bs "next") None (Some cidr_next4) None (Some cidr_next6);
  Op (bs "prev") None (Some cidr_prev4) None (Some cidr_prev6);
  Op (bs "network") (Some cidr_network4) None (Some cidr_network6) None;
  Op (bs "broadcast") (Some cidr_broadcast4) None None None;
  Op (bs "prefix") None (Some cidr_prefix) None (Some cidr_prefix);
  Op (bs "netmask") (Some cidr_netmask4) None None None;
  Op (bs "6to4") (Some cidr_6to4) None None None;
  Op (bs "howmany") None (Some cidr_howmany) None (Some cidr_howmany);
  Op (bs "contains") None (Some cidr_contains4) None (Some cidr_contains6);
  Op (bs "private") (Some cidr_private4) None None None;
  Op (bs "linklocal") (Some cidr_linklocal4) None (Some cidr_linklocal6) None;
  Op (bs "ula") None None (Some cidr_ula6) None;
  Op (bs "quiet") (Some cidr_quiet) None (Some cidr_quiet) None;
  Op (bs "pop") (Some pop_op) None (Some pop_op) None;
  Op (bs "print") (Some cidr_print4) None (Some cidr_print6) None].

(** ** The command line *)

(** [runop]: on to the rest of the arguments, [false] with the arguments where it stopped, or the
    end of the program. *)
Inductive ran := Ran (s : calc) (args : list (list Z)) (status : Z) | Stopped (s : calc) (args : list (list Z)) (status : Z) | Exited (s : calc) (code : Z).

Definition finish (r : option outcome) (args : list (list Z)) : option ran :=
  r ← r; Some (match r with Done s ok => Ran s args (if ok then 0 else 1) | Exit s code => Exited s code end).

Definition run_a2 (o : op) (arg2 : option (list Z)) (args rest : list (list Z)) (s : calc) (status : Z) : option ran :=
  match arg2 with
  | None => Some (Stopped s args 2)
  | Some arg2 =>
      a ← head (c_stack s);
      match cidr_parse arg2 (c_family a) with
      | NoAddress => Some (Stopped s args 3)
      | WrongFamily => Some (Exited s 4)
      | Parsed b =>
          match (if c_family a =? AF_INET then f4_a2 o else f6_a2 o) with
          | None => Some (Stopped s (drop 1 rest) 5)
          | Some f => finish (f a b s) (drop 1 rest)
          end
      end
  end.

Definition run_a1 (o : op) (rest : list (list Z)) (s : calc) : option ran :=
  a ← head (c_stack s);
  match (if c_family a =? AF_INET then f4_a1 o else f6_a1 o) with
  | None => Some (Stopped s rest 5)
  | Some f => finish (f a s) rest
  end.

Definition runop (args : list (list Z)) (s : calc) (status : Z) : option ran :=
  match args with
  | [] => Some (Stopped s args status)
  | arg1 :: rest =>
      match List.find (fun o => bool_decide (op_name o = arg1)) ops with
      | None => Some (Stopped s args status)
      | Some o => if bool_decide (is_Some (f4_a2 o)) || bool_decide (is_Some (f6_a2 o)) then run_a2 o (head rest) args rest s status else run_a1 o rest s
      end
  end.

Fixpoint run_loop (fuel : nat) (args : list (list Z)) (s : calc) (status : Z) : option ran :=
  match fuel with
  | O => None
  | S fuel => r ← runop args s status; match r with Ran s args status => run_loop fuel args s status | r => Some r end
  end.

(** What is printed and the exit status; [usage] is exit status 1. *)
Definition owipcalc_main (argv : list (list Z)) : option (list Z * Z) :=
  match argv with
  | base :: (_ :: _) as args =>
      match (if decide (58 ∈ base) then cidr_parse6 base else cidr_parse4 base) with
      | None => Some ([], 1)
      | Some a =>
          r ← run_loop (S (length args)) (drop 1 argv) (Calc [a] false false []) 0;
          match r with
          | Exited s code => Some (c_out s, code)
          | Ran s _ status => None
          | Stopped s (_ :: _) status => Some (c_out s, 6)
          | Stopped s [] status =>
              s ← (if negb (c_printed s) && (status <? 2) then
                     a ← head (c_stack s);
                     r ← (if c_family a =? AF_INET then cidr_print4 a s else cidr_print6 a s);
                     Some (match r with Done s _ => s | Exit s _ => s end)
                   else Some s);
              Some (c_out (qprintf [10] s), status)
          end
      end
  | _ => Some ([], 1)
  end.
End calculator.

(** ** Examples *)

Definition no6 : inet6 := Inet6 (fun s => if decide (s = bs "::") then Some (replicate 16 0) else None) (fun a => concat (dec <$> a)).
Definition owip (argv : list (list Z)) : option (list Z * Z) := owipcalc_main true (replicate 16 170) no6 argv.

(** The example of the program's usage. *)
Example owip_run : owip [bs "192.168.1.1/255.255.255.0"; bs "network"; bs "add"; bs "100"; bs "print"; bs "add"; bs "150"; bs "print"] =
  Some (bs "192.168.1.100 192.168.1.150" ++ [10], 0).
Proof. vm_compute. reflexivity. Qed.

Example howmany_run : owip [bs "::/48"; bs "howmany"; bs "::/64"] = Some (bs "65536" ++ [10], 0).
Proof. vm_compute. reflexivity. Qed.
