(* ===== verification/OwipSpec.v ===== *)
(** The address calculator as a machine on numbers: IPv4 sessions of the command line, and 128-bit
    arithmetic on IPv6 addresses. *)

From S2P Require Import Prelude Libc Owip.

(** ** Byte order *)

Lemma le_val_cons b l : le_val (b :: l) = b + 256 * le_val l.
Proof. reflexivity. Qed.

Lemma length_zip {A B C} (f : A -> B -> C) x y : length x = length y -> length (zip_with f x y) = length x.
Proof. rewrite length_zip_with. lia. Qed.

Lemma zip_with_rev {A B C} (f : A -> B -> C) x y : length x = length y -> zip_with f (rev x) (rev y) = rev (zip_with f x y).
Proof.
  revert y. induction x as [|a x IH]; intros [|b y] H; try done. injection H as H. cbn [rev zip_with].
  rewrite zip_with_app by (rewrite !length_rev; lia). by rewrite IH.
Qed.

(** An operation on bits works byte by byte. *)
Section bitwise.
Context (f : Z -> Z -> Z) (g : bool -> bool -> bool) (Hf : forall x y i, Z.testbit (f x y) i = g (Z.testbit x i) (Z.testbit y i)).
Context (H0 : g false false = false) (Hbyte : forall x y, is_byte x -> is_byte y -> is_byte (f x y)).

Lemma bitwise_digit a b x y : is_byte a -> is_byte b -> f (a + 256 * x) (b + 256 * y) = f a b + 256 * f x y.
Proof.
  intros Ha Hb. pose proof (Hbyte a b Ha Hb) as Hc.
  assert (forall u v, is_byte u -> u + 256 * v = Z.lor (Z.shiftl v 8) u) as E by (intros u v Hu; rewrite lor_shiftl_add by width; lia).
  rewrite !E by done. apply Z.bits_inj'. intros i Hi. rewrite Hf, !Z.lor_spec, Hf.
  destruct (Z.lt_ge_cases i 8).
  - by rewrite !Z.shiftl_spec_low.
  - rewrite !Z.shiftl_spec, Hf by lia. rewrite (testbit_small 8 a i), (testbit_small 8 b i) by width. by rewrite H0, !orb_false_r.
Qed.

Lemma bitwise_le_val x y : Forall is_byte x -> Forall is_byte y -> length x = length y -> le_val (zip_with f x y) = f (le_val x) (le_val y).
Proof.
  intros Hx. revert y. induction Hx as [|a x Ha Hx IH]; intros y Hy H; destruct y as [|b y]; try done.
  - change (le_val []) with 0. cbn [zip_with]. change (le_val []) with 0. apply Z.bits_inj'. intros i _. by rewrite Hf, Z.bits_0, H0.
  - inv Hy. cbn [zip_with]. rewrite !le_val_cons, bitwise_digit by done. rewrite IH; [done..|]. cbn in H. lia.
Qed.

(** It commutes with the change of the byte order. *)
Lemma bitwise_htonl x y : is_u32 x -> is_u32 y -> f (htonl x) (htonl y) = htonl (f x y).
Proof.
  intros Hx Hy. unfold htonl, ntohl, be_val.
  rewrite <- bitwise_le_val by (rewrite ?length_rev; done || apply Forall_rev, le_bytes_ok).
  rewrite zip_with_rev by done. do 2 f_equal.
  assert (Forall is_byte (zip_with f (le_bytes 4 x) (le_bytes 4 y))) as Hb.
  { pose proof (le_bytes_ok 4 x) as Hx4. pose proof (le_bytes_ok 4 y) as Hy4. generalize dependent (le_bytes 4 y).
    induction Hx4; intros y4 Hy4; destruct Hy4; cbn [zip_with]; auto. }
  rewrite <- (le_bytes_val _ Hb), length_zip by done. rewrite bitwise_le_val by (done || apply le_bytes_ok). by rewrite !le_val_bytes32.
Qed.
End bitwise.

Lemma le_bytes_htonl x : le_bytes 4 (htonl x) = be_bytes 4 x.
Proof. unfold htonl, ntohl, be_val, be_bytes. apply (le_bytes_val (rev (le_bytes 4 x))), Forall_rev, le_bytes_ok. Qed.

Lemma ntohl_htonl x : is_u32 x -> ntohl (htonl x) = x.
Proof. intros Hx. unfold ntohl. rewrite le_bytes_htonl. by apply be_val_bytes32. Qed.

Lemma htonl_inj x y : is_u32 x -> is_u32 y -> htonl x = htonl y -> x = y.
Proof. intros Hx Hy E. by rewrite <- (ntohl_htonl x), E, ntohl_htonl. Qed.

Lemma htonl_u32 x : is_u32 (htonl x).
Proof. unfold htonl, ntohl, be_val. pose proof (le_val_range (rev (le_bytes 4 x))) as H. rewrite length_rev in H. apply H, Forall_rev, le_bytes_ok. Qed.

Lemma land_htonl x y : is_u32 x -> is_u32 y -> Z.land (htonl x) (htonl y) = htonl (Z.land x y).
Proof.
  apply (bitwise_htonl Z.land andb); [apply Z.land_spec|done|]. intros a b Ha Hb. assert (0 <= Z.land a b) by (apply Z.land_nonneg; width).
  split; [done|]. apply (bits_small 8); [lia..|]. intros i Hi. by rewrite Z.land_spec, (testbit_small 8 a i) by width.
Qed.

Lemma lor_htonl x y : is_u32 x -> is_u32 y -> Z.lor (htonl x) (htonl y) = htonl (Z.lor x y).
Proof. apply (bitwise_htonl Z.lor orb); [apply Z.lor_spec|done|]. intros a b Ha Hb. by apply (lor_width 8). Qed.

(** ** Masks *)

(** The first address of the block of [2 ^ k] addresses [x] is in. *)
Definition block (k x : Z) : Z := x / 2 ^ k * 2 ^ k.

Lemma block_range k n x : 0 <= k -> 0 <= x < 2 ^ n -> 0 <= block k x <= x.
Proof. intros Hk Hx. unfold block. assert (0 < 2 ^ k) by lia. pose proof (Z.div_pos x (2 ^ k)). pose proof (Z.mul_div_le x (2 ^ k)). lia. Qed.

Lemma land_lnot_ones k x : 0 <= k -> Z.land x (Z.lnot (Z.ones k)) = block k x.
Proof. intros Hk. rewrite <- Z.ldiff_land, Z.ldiff_ones_r, Z.shiftr_div_pow2, Z.shiftl_mul_pow2 by lia. reflexivity. Qed.

Lemma lor_ones k x : 0 <= k -> Z.lor x (Z.ones k) = block k x + (2 ^ k - 1).
Proof.
  intros Hk. assert (0 < 2 ^ k) by lia. assert (Z.ones k = 2 ^ k - 1) as E by (rewrite Z.ones_equiv; lia).
  unfold block. rewrite <- lor_shiftl_add by lia. rewrite <- E, <- Z.shiftr_div_pow2, <- Z.ldiff_ones_r by lia. apply Z.bits_inj'. intros i _.
  rewrite !Z.lor_spec, Z.ldiff_spec. by destruct (Z.testbit x i), (Z.testbit (Z.ones k) i).
Qed.

Lemma not32_ones k : 0 <= k <= 32 -> not32 (2 ^ k - 1) = 2 ^ 32 - 2 ^ k.
Proof.
  intros Hk. unfold not32, u32. assert (0 < 2 ^ k <= 2 ^ 32) by (split; [lia|]; apply Z.pow_le_mono_r; lia).
  symmetry. apply Z.mod_unique with (-1); [lia|]. unfold Z.lnot. lia.
Qed.

Lemma land_netmask k x : 0 <= k <= 32 -> is_u32 x -> Z.land x (not32 (2 ^ k - 1)) = block k x.
Proof.
  intros Hk Hx. rewrite <- land_lnot_ones by lia. unfold not32, u32. rewrite <- (Z.land_ones _ 32) by lia.
  replace (2 ^ k - 1) with (Z.ones k) by (rewrite Z.ones_equiv; lia).
  rewrite Z.land_comm, <- Z.land_assoc, (Z.land_comm (Z.ones 32)), Z.land_ones by lia. rewrite (Z.mod_small x) by exact Hx. apply Z.land_comm.
Qed.

Lemma lor_hostmask k x : 0 <= k -> Z.lor x (2 ^ k - 1) = block k x + (2 ^ k - 1).
Proof. intros Hk. rewrite <- lor_ones by lia. f_equal. rewrite Z.ones_equiv. lia. Qed.

Lemma one_shl_pow n : 0 <= n < 32 -> one_shl n = Some (2 ^ n).
Proof.
  intros Hn. unfold one_shl. rewrite (proj2 (Z.leb_le 0 n)), (proj2 (Z.ltb_lt n 32)) by lia. cbn [andb]. rewrite Z.shiftl_1_l.
  rewrite u32_id; [done|]. split; [lia|]. apply Z.pow_lt_mono_r; lia.
Qed.

Lemma one_shl_prefix p : 1 <= p <= 32 -> one_shl (u32 (32 - p)) = Some (2 ^ (32 - p)).
Proof. intros Hp. rewrite u32_id by width. apply one_shl_pow. lia. Qed.

Lemma hostmask_prefix p : 1 <= p <= 32 -> hostmask p = Some (2 ^ (32 - p) - 1).
Proof.
  intros Hp. unfold hostmask. rewrite one_shl_prefix by done. cbn. f_equal. apply u32_id.
  assert (0 < 2 ^ (32 - p) < 2 ^ 32) by (split; [lia|]; apply Z.pow_lt_mono_r; lia). width.
Qed.

(** ** Numbers as text *)

Definition all_digits (s : list Z) : Prop := Forall (fun c => isdigit c = true) s.

Lemma isdigit_val c : isdigit c = true -> 48 <= c <= 57 /\ digit_val c = c - 48.
Proof. unfold isdigit, digit_val. intros H. apply andb_true_iff in H as [H1%Z.leb_le H2%Z.leb_le]. split; [lia|]. repeat case_match; lia. Qed.

Lemma span_app pred a r : Forall (fun c => pred c = true) a -> (forall c, head r = Some c -> pred c = false) -> span pred (a ++ r) = (a, r).
Proof.
  intros Ha Hr. induction Ha as [|c a Hc Ha IH]; cbn [app span].
  - destruct r as [|c r]; [done|]. cbn [span]. by rewrite (Hr c).
  - by rewrite Hc, IH.
Qed.

Lemma span_all pred s a : span pred s = (a, []) -> a = s /\ Forall (fun c => pred c = true) s.
Proof.
  revert a. induction s as [|c s IH]; intros a; cbn [span]; [by intros [= <-]|].
  destruct (pred c) eqn:Hc; [|done]. destruct (span pred s) as [a' b']. intros [= <- ->]. destruct (IH a' eq_refl) as [-> Hs]. auto.
Qed.

Lemma strtoul_digits_snoc acc ds c : all_digits ds -> isdigit c = true -> strtoul_digits 10 acc (ds ++ [c]) = strtoul_digits 10 acc ds * 10 + (c - 48).
Proof.
  intros Hds Hc. revert acc. induction Hds as [|d ds Hd Hds IH]; intros acc; cbn [app strtoul_digits].
  - destruct (isdigit_val _ Hc) as [Hr ->]. by destruct (Z.ltb_spec (c - 48) 10); [|lia].
  - destruct (isdigit_val _ Hd) as [Hr ->]. destruct (Z.ltb_spec (d - 48) 10); [|lia]. apply IH.
Qed.

Lemma digit_of z : isdigit (48 + z mod 10) = true.
Proof. unfold isdigit. pose proof (Z.mod_pos_bound z 10). apply andb_true_iff. rewrite !Z.leb_le. lia. Qed.

(** Decimal digits with no zero in front. *)
Definition numeral (s : list Z) (z : Z) : Prop :=
  all_digits s /\ strtoul_digits 10 0 s = z /\ exists d ds, s = d :: ds /\ (d = 48 -> z = 0 /\ ds = []).

Lemma dec_loop_numeral fuel z acc : 0 <= z < 10 ^ Z.of_nat (S fuel) -> exists s, dec_loop (S fuel) z acc = s ++ acc /\ numeral s z.
Proof.
  revert z acc. induction fuel as [|fuel IH]; intros z acc Hz; cbn [dec_loop]; destruct (Z.ltb_spec z 10) as [Hs|Hl].
  2: cbn in Hz; lia.
  1, 2: exists [48 + z mod 10]; split; [done|]; pose proof (digit_of z) as Hd; destruct (isdigit_val _ Hd) as [_ Ev]; rewrite (Z.mod_small z 10) in * by lia;
    (split; [by repeat constructor|]); (split; [cbn [strtoul_digits]; rewrite Ev; by destruct (Z.ltb_spec (48 + z - 48) 10); [|lia]; lia|]);
    eexists _, _; split; [done|]; intros; split; [lia|done].
  destruct (IH (z / 10) ((48 + z mod 10) :: acc)) as (s & E & Hds & Ev & d & ds & -> & H0).
  { rewrite Nat2Z.inj_succ, Z.pow_succ_r in Hz by lia. split; [apply Z.div_pos; lia|]. apply Z.div_lt_upper_bound; lia. }
  cbn [dec_loop] in E. exists ((d :: ds) ++ [48 + z mod 10]). rewrite E, <- app_assoc. split; [done|]. split; [|split].
  - apply Forall_app. split; [done|]. repeat constructor. apply digit_of.
  - rewrite strtoul_digits_snoc by (done || apply digit_of). rewrite Ev. pose proof (Z.div_mod z 10). lia.
  - eexists _, _. split; [done|]. intros ->. destruct (H0 eq_refl) as [H _]. pose proof (Z.div_mod z 10). pose proof (Z.mod_pos_bound z 10). lia.
Qed.

Lemma dec_numeral z : is_u32 z -> numeral (dec z) z.
Proof. intros Hz. destruct (dec_loop_numeral 9 z []) as (s & E & H); [width|]. unfold dec. by rewrite E, app_nil_r. Qed.

Lemma strtoul_end_numeral base s z : base = 0 \/ base = 10 -> is_u32 z -> numeral s z -> strtoul_end base s = Some (z, []).
Proof.
  intros Hb Hz (Hds & Ev & d & ds & -> & H0). inversion_clear Hds as [|? ? Hd Hrest]. destruct (isdigit_val _ Hd) as [Hr Hv].
  assert (Forall (fun c => (digit_val c <? 10) = true) (d :: ds)) as Hall.
  { constructor; [apply Z.ltb_lt; lia|]. eapply Forall_impl; [exact Hrest|]. intros c Hc. apply isdigit_val in Hc. apply Z.ltb_lt. lia. }
  pose proof (span_app _ _ [] Hall ltac:(done)) as Espan. rewrite app_nil_r in Espan.
  assert (skip_space (d :: ds) = d :: ds) as Esp.
  { cbn [skip_space]. unfold is_space. by destruct (Z.eqb_spec d 32), (Z.leb_spec 9 d), (Z.leb_spec d 13); try lia. }
  destruct (decide (d = 48)) as [->|Hne].
  - destruct (H0 eq_refl) as [-> ->]. destruct Hb as [-> | ->]; reflexivity.
  - unfold strtoul_end. rewrite Esp.
    assert (d = 49 \/ d = 50 \/ d = 51 \/ d = 52 \/ d = 53 \/ d = 54 \/ d = 55 \/ d = 56 \/ d = 57) as Hd9 by lia.
    destruct Hb as [-> | ->]; cbn [Z.eqb]; destruct Hd9 as [->|[->|[->|[->|[->|[->|[->|[->| ->]]]]]]]]; cbn [Z.eqb]; rewrite Espan, Ev;
      by (destruct (Z.leb_spec (2 ^ 32) z); [width|]).
Qed.

(** A text with a dot is not a number. *)
Lemma strtoul_end_dot s v r : 46 ∈ s -> strtoul_end 0 s = Some (v, r) -> r <> [].
Proof.
  intros Hs E ->. unfold strtoul_end in E.
  assert (forall s, 46 ∈ s -> 46 ∈ skip_space s) as Hsp.
  { clear. induction s as [|c s IH]; [done|]. intros H. cbn [skip_space]. destruct (is_space c) eqn:Hc; [|done].
    apply elem_of_cons in H as [<-|H]; [done|by apply IH]. }
  apply Hsp in Hs. destruct (match skip_space s with 45 :: _ => _ | _ => _ end) as [neg t] eqn:E1.
  assert (46 ∈ t) as Ht.
  { clear -E1 Hs. repeat case_match; simplify_eq; try done; by apply elem_of_cons in Hs as [|]. }
  cbn [Z.eqb] in E. destruct (match t with 48 :: _ => _ | _ => _ end) as [base u] eqn:E2.
  assert (46 ∈ u /\ base <= 16) as [Hu Hb].
  { clear -E2 Ht. repeat case_match; simplify_eq; (split; [|lia]); try done.
    apply elem_of_cons in Ht as [|Ht]; [done|]. apply elem_of_cons in Ht as [<-|Ht]; [done|done]. }
  destruct (span _ u) as [ds r] eqn:E3. destruct (decide (ds = [])); [done|]. injection E as _ ->.
  apply span_all in E3 as [_ HF]. rewrite Forall_forall in HF. specialize (HF _ Hu). apply Z.ltb_lt in HF. change (digit_val 46) with 36 in HF. lia.
Qed.

(** ** Addresses as text *)

(** An address with the length of its prefix, and its text as the calculator prints it. *)
Record net := Net { n_addr : Z; n_len : Z }.

Definition quad (x : Z) : list Z := dec (x / 2 ^ 24) ++ [46] ++ dec (x / 2 ^ 16 mod 256) ++ [46] ++ dec (x / 2 ^ 8 mod 256) ++ [46] ++ dec (x mod 256).
Definition show_net (n : net) : list Z := quad (n_addr n) ++ (if n_len n <? 32 then [47] ++ dec (n_len n) else []).

Definition is_net (n : net) : Prop := is_u32 (n_addr n) /\ 0 <= n_len n <= 32.

Lemma byte_u32 z : is_byte z -> is_u32 z.
Proof. width. Qed.

Lemma dec_byte v : is_byte v -> (0 < length (dec v) <= 3)%nat.
Proof.
  intros Hv. pose proof (byte_forall (fun v => Nat.ltb 0 (length (dec v)) && Nat.leb (length (dec v)) 3) ltac:(vm_compute; reflexivity) v Hv) as H.
  apply andb_true_iff in H as [H1%Nat.ltb_lt H2%Nat.leb_le]. lia.
Qed.

Definition ends_number (r : list Z) : Prop := forall c, head r = Some c -> isdigit c = false.

Lemma octet_dec v r : is_byte v -> ends_number r -> octet (dec v ++ r) = Some (v, r).
Proof.
  intros Hv Hr. destruct (dec_numeral v (byte_u32 _ Hv)) as (Hds & Ev & d & ds & E & H0). pose proof (dec_byte v Hv) as Hl.
  unfold octet. rewrite span_app, Ev by done. rewrite decide_False by (by rewrite E).
  rewrite (proj2 (Z.ltb_ge 3 _)), (proj2 (Z.ltb_ge 255 v)) by width. cbn [orb].
  destruct (Z.ltb_spec 1 (zlen (dec v))); [|done]. cbn [andb]. rewrite E in *.
  assert (d <> 48) as Hne by (intros ->; destruct (H0 eq_refl) as [_ ->]; cbn in *; lia). repeat case_match; simplify_eq; done.
Qed.

Lemma be_bytes4 x : is_u32 x -> be_bytes 4 x = [x / 2 ^ 24; x / 2 ^ 16 mod 256; x / 2 ^ 8 mod 256; x mod 256].
Proof.
  intros Hx. unfold be_bytes. change (le_bytes 4 x) with [u8 x; u8 (x / 256); u8 (x / 256 / 256); u8 (x / 256 / 256 / 256)]. cbn [rev app].
  rewrite !Z.div_div by lia. unfold u8. change (2 ^ 8) with 256. change (2 ^ 16) with (256 * 256). change (2 ^ 24) with (256 * 256 * 256).
  rewrite (Z.mod_small (x / _)); [done|]. split; [apply Z.div_pos; width|]. apply Z.div_lt_upper_bound; width.
Qed.

Lemma quad_bytes x : is_u32 x -> is_byte (x / 2 ^ 24) /\ is_byte (x / 2 ^ 16 mod 256) /\ is_byte (x / 2 ^ 8 mod 256) /\ is_byte (x mod 256).
Proof.
  intros Hx. pose proof (Forall_rev (le_bytes_ok 4 x)) as H. change (Forall is_byte (be_bytes 4 x)) in H. rewrite be_bytes4 in H by done.
  by decompose_Forall_hyps.
Qed.

Lemma inet_pton4_quad x : is_u32 x -> inet_pton4 (quad x) = Some (be_bytes 4 x).
Proof.
  intros Hx. destruct (quad_bytes x Hx) as (Ha & Hb & Hc & Hd). rewrite be_bytes4 by done. unfold inet_pton4, quad.
  assert (forall t, ends_number (46 :: t)) as Hdot by (by intros t c [= <-]).
  rewrite octet_dec by (done || apply Hdot). cbn [mbind option_bind dot app]. rewrite octet_dec by (done || apply Hdot). cbn [mbind option_bind dot app].
  rewrite octet_dec by (done || apply Hdot). cbn [mbind option_bind dot app]. rewrite <- (app_nil_r (dec (x mod 256))), octet_dec by done. done.
Qed.

Lemma inet_ntop4_quad x t : is_u32 x -> inet_ntop4 (be_bytes 4 x ++ t) = Some (quad x).
Proof. intros Hx. by rewrite be_bytes4. Qed.

Lemma dec_chars v c : is_u32 v -> c ∈ dec v -> 48 <= c <= 57.
Proof. intros Hv Hc. destruct (dec_numeral v Hv) as [Hds _]. unfold all_digits in Hds. rewrite Forall_forall in Hds. by apply isdigit_val, Hds. Qed.

Lemma quad_chars x c : is_u32 x -> c ∈ quad x -> c = 46 \/ 48 <= c <= 57.
Proof.
  intros Hx. destruct (quad_bytes x Hx) as (Ha & Hb & Hc & Hd). unfold quad. rewrite !elem_of_app, !list_elem_of_singleton.
  pose proof (dec_chars _ c (byte_u32 _ Ha)). pose proof (dec_chars _ c (byte_u32 _ Hb)).
  pose proof (dec_chars _ c (byte_u32 _ Hc)). pose proof (dec_chars _ c (byte_u32 _ Hd)). tauto.
Qed.

Lemma quad_length x : is_u32 x -> (7 <= length (quad x) <= 15)%nat.
Proof.
  intros Hx. destruct (quad_bytes x Hx) as (Ha & Hb & Hc & Hd). unfold quad. rewrite !length_app. cbn [length].
  pose proof (dec_byte _ Ha). pose proof (dec_byte _ Hb). pose proof (dec_byte _ Hc). pose proof (dec_byte _ Hd). lia.
Qed.

Lemma quad_dot x : 46 ∈ quad x.
Proof. unfold quad. rewrite !elem_of_app, list_elem_of_singleton. auto. Qed.

Lemma show_net_chars n c : is_net n -> c ∈ show_net n -> 46 <= c <= 57.
Proof.
  intros [Hx Hp]. unfold show_net. rewrite elem_of_app. intros [H|H]; [apply quad_chars in H; [lia|done]|].
  destruct (Z.ltb_spec (n_len n) 32); [|by apply elem_of_nil in H]. apply elem_of_app in H as [->%list_elem_of_singleton|H]; [lia|].
  apply dec_chars in H; width.
Qed.

(** What the calculator prints it can read. *)
Lemma cidr_parse4_show junk n : is_net n -> cidr_parse4 true junk (show_net n) = Some (Cidr AF_INET (n_len n) (be_bytes 4 (n_addr n) ++ drop 4 junk)).
Proof.
  intros [Hx Hp]. unfold cidr_parse4, show_net. pose proof (quad_length _ Hx) as Hl. pose proof (quad_chars (n_addr n) 47 Hx) as Hs.
  assert (47 ∉ quad (n_addr n)) as H47 by (intros H; destruct (Hs H); lia).
  destruct (Z.ltb_spec (n_len n) 32) as [Hlt|Hge].
  - pose proof (dec_byte (n_len n) ltac:(width)) as Hd. rewrite (proj2 (Z.leb_gt 33 _)) by (rewrite !length_app; cbn [length]; lia).
    cbn [negb orb app]. rewrite split_at_app by done. rewrite decide_False by (intros H; apply dec_chars in H; width).
    rewrite (strtoul_end_numeral 10 _ (n_len n)) by (auto || width || apply dec_numeral; width). cbn [mbind option_bind].
    rewrite (proj2 (Z.ltb_ge 32 _)) by lia. 
    change (bool_decide ([] = [])) with true. cbn [negb orb mbind option_bind]. rewrite (bool_decide_false (quad _ = [])) by (intros H; rewrite H in Hl; cbn in Hl; lia).
    cbn [andb]. by rewrite inet_pton4_quad.
  - rewrite app_nil_r. rewrite (proj2 (Z.leb_gt 33 _)) by lia. cbn [negb orb].
    assert (forall s, 47 ∉ s -> split_at 47 s = None) as Hnone.
    { clear. induction s as [|c s IH]; [done|]. rewrite not_elem_of_cons. intros [Hc H]. cbn [split_at]. destruct (Z.eqb_spec c 47); [done|]. by rewrite IH. }
    rewrite Hnone by done. cbn [mbind option_bind]. rewrite (bool_decide_false (quad _ = [])) by (intros H; rewrite H in Hl; cbn in Hl; lia).
    cbn [andb]. rewrite inet_pton4_quad by done. cbn. do 2 f_equal. lia.
Qed.

(** ** The machine on numbers *)

(** An amount is also taken as a prefix. *)
Inductive operand := Amount (n : Z) | Network (n : net).
Definition operand_net (o : operand) : net := match o with Amount n => Net n n | Network n => n end.
Definition operand_text (o : operand) : list Z := match o with Amount n => dec n | Network n => show_net n end.
Definition is_operand (o : operand) : Prop := match o with Amount n => is_u32 n | Network n => is_net n end.

Inductive cmd := MAdd (o : operand) | MSub (o : operand) | MNext (o : operand) | MPrev (o : operand) | MPrefix (o : operand) | MHowmany (o : operand) | MContains (o : operand)
  | MNetwork | MBroadcast | MNetmask | MPrivate | MLinklocal | MQuiet | MPop | MPrint.

Definition cmd_text (c : cmd) : list (list Z) :=
  match c with
  | MAdd o => [bs "add"; operand_text o]
  | MSub o => [bs "sub"; operand_text o]
  | MNext o => [bs "next"; operand_text o]
  | MPrev o => [bs "prev"; operand_text o]
  | MPrefix o => [bs "prefix"; operand_text o]
  | MHowmany o => [bs "howmany"; operand_text o]
  | MContains o => [bs "contains"; operand_text o]
  | MNetwork => [bs "network"]
  | MBroadcast => [bs "broadcast"]
  | MNetmask => [bs "netmask"]
  | MPrivate => [bs "private"]
  | MLinklocal => [bs "linklocal"]
  | MQuiet => [bs "quiet"]
  | MPop => [bs "pop"]
  | MPrint => [bs "print"]
  end.

Definition is_cmd (c : cmd) : Prop :=
  match c with MAdd o | MSub o | MNext o | MPrev o | MPrefix o | MHowmany o | MContains o => is_operand o | _ => True end.

Record machine := Machine { m_stack : list net; m_quiet : bool; m_printed : bool; m_words : list (list Z) }.

Definition push (n : net) (m : machine) : machine := Machine (n :: m_stack m) (m_quiet m) (m_printed m) (m_words m).
Definition say (w : list Z) (m : machine) : machine := Machine (m_stack m) (m_quiet m) true (if m_quiet m then m_words m else m_words m ++ [w]).
Definition tell (b : bool) (m : machine) : machine * bool := (say (if b then [49] else [48]) m, b).
Definition set_stack (m : machine) (st : list net) : machine := Machine st (m_quiet m) (m_printed m) (m_words m).

Definition has_mask (p : Z) : bool := (1 <=? p) && (p <=? 32).

(** The octet that is counted does not overflow. *)
Definition stays (x k : Z) : bool := x / 2 ^ (k / 8 * 8) mod 256 + 2 ^ (k mod 8) <? 256.

(** The octets of an address in the opposite order. *)
Definition reversed (x : Z) : Z := le_val (be_bytes 4 x).

(** [next] and [prev]: to the next or previous block as long as the octet the prefix ends in does not overflow; otherwise the
    carry goes to the octet behind it instead of the one in front. *)
Definition count_up (x k : Z) : Z := if stays x k then x + 2 ^ k else reversed (u32 (reversed x + reversed (2 ^ k))).
Definition count_down (x k : Z) : Z := if (2 ^ k <=? x) && stays (x - 2 ^ k) k then x - 2 ^ k else reversed (u32 (reversed x - reversed (2 ^ k))).

(** [None] where the behaviour of the program is undefined: nothing on the stack, or a shift by 32 or more. *)
Definition step (c : cmd) (m : machine) : option (machine * bool) :=
  match m_stack m with
  | [] => None
  | a :: st =>
      let x := n_addr a in
      let p := n_len a in
      match c with
      | MAdd o => let y := n_addr (operand_net o) in Some (if x + y <? 2 ^ 32 then (push (Net (x + y) p) m, true) else (push a m, false))
      | MSub o => let y := n_addr (operand_net o) in Some (if y <=? x then (push (Net (x - y) p) m, true) else (push a m, false))
      | MNext o =>
          let q := n_len (operand_net o) in
          if has_mask q then Some (push (Net (count_up x (32 - q)) q) m, true) else None
      | MPrev o =>
          let q := n_len (operand_net o) in
          if has_mask q then Some (push (Net (count_down x (32 - q)) q) m, true) else None
      | MPrefix o => Some (set_stack m (Net x (n_len (operand_net o)) :: st), true)
      | MHowmany o =>
          let q := n_len (operand_net o) in
          if q <? p then Some (say [48] m, true) else if q - p <? 32 then Some (say (dec (2 ^ (q - p))) m, true) else None
      | MContains o =>
          let b := operand_net o in
          if has_mask p then Some (tell ((p <=? n_len b) && (x / 2 ^ (32 - p) =? n_addr b / 2 ^ (32 - p))) m) else None
      | MNetwork => if has_mask p then Some (push (Net (block (32 - p) x) 32) m, true) else None
      | MBroadcast => if has_mask p then Some (push (Net (block (32 - p) x + (2 ^ (32 - p) - 1)) 32) m, true) else None
      | MNetmask => if has_mask p then Some (push (Net (2 ^ 32 - 2 ^ (32 - p)) 32) m, true) else None
      | MPrivate => Some (tell ((x / 2 ^ 24 =? 10) || (x / 2 ^ 20 =? 0xAC1) || (x / 2 ^ 16 =? 0xC0A8)) m)
      | MLinklocal => Some (tell (x / 2 ^ 16 =? 0xA9FE) m)
      | MQuiet => Some (Machine (m_stack m) true (m_printed m) (m_words m), true)
      | MPop => Some (set_stack m st, true)
      | MPrint => Some (set_stack (say (show_net a) m) st, true)
      end
  end.

(** A session, with whether the last operation succeeded. *)
Fixpoint session (cs : list cmd) (m : machine) (ok : bool) : option (machine * bool) :=
  match cs with
  | [] => Some (m, ok)
  | c :: cs => '(m, ok) ← step c m; session cs m ok
  end.

(** The result is printed when nothing has been. *)
Definition conclude (m : machine) : option machine := if m_printed m then Some m else a ← head (m_stack m); Some (say (show_net a) m).

Definition joined (ws : list (list Z)) : list Z := match ws with [] => [] | w :: ws => w ++ concat (cons 32 <$> ws) end.

(** ** Simulation *)

Definition shows (a : cidr) (n : net) : Prop :=
  is_u32 (n_addr n) /\ is_u32 (n_len n) /\ exists t, a = Cidr AF_INET (n_len n) (be_bytes 4 (n_addr n) ++ t).

Record sim (s : calc) (m : machine) : Prop := Sim {
  sim_stack : Forall2 shows (c_stack s) (m_stack m);
  sim_quiet : c_quiet s = m_quiet m;
  sim_printed : c_printed s = m_printed m;
  sim_words : m_quiet m = false -> m_printed m = false -> m_words m = [];
  sim_some : m_quiet m = false -> m_printed m = true -> m_words m <> [];
  sim_out : c_out s = joined (m_words m) }.

Lemma joined_snoc ws w : joined (ws ++ [w]) = if decide (ws = []) then w else joined ws ++ 32 :: w.
Proof.
  destruct ws as [|v ws]; cbn [app joined]; [by rewrite app_nil_r|]. rewrite decide_False by done.
  rewrite fmap_app, concat_app, <- app_assoc. cbn. by rewrite app_nil_r.
Qed.

Lemma sim_say s m w : sim s m -> sim (qprintf w (qspace s)) (say w m).
Proof.
  intros []. unfold qspace. destruct s as [st q pr out], m as [mst mq mpr ws]; cbn in *; subst. split; cbn; try done.
  - by destruct mpr.
  - by destruct mpr.
  - intros ->. by destruct ws.
  - destruct mpr, mq; cbn; try done; rewrite joined_snoc.
    + rewrite decide_False by auto. by rewrite <- app_assoc.
    + by rewrite sim_words0.
Qed.

Lemma sim_stack_set s m st st' : sim s m -> Forall2 shows st st' -> sim (with_stack s st) (set_stack m st').
Proof. intros [] H. by split. Qed.

Lemma sim_push s m a n : sim s m -> shows a n -> sim (cidr_push a s) (push n m).
Proof. intros Hs Ha. apply (sim_stack_set s m); [done|]. constructor; [done|]. apply Hs. Qed.

Lemma s_addr_be f p x t : s_addr (Cidr f p (be_bytes 4 x ++ t)) = htonl x.
Proof. reflexivity. Qed.

Lemma set_s_addr_be f p x t y : set_s_addr (Cidr f p (be_bytes 4 x ++ t)) (htonl y) = Cidr f p (be_bytes 4 y ++ t).
Proof. unfold set_s_addr. cbn [c_addr c_family c_prefix]. by rewrite le_bytes_htonl, drop_app_length'. Qed.

Lemma shows_intro p x t : is_u32 x -> is_u32 p -> shows (Cidr AF_INET p (be_bytes 4 x ++ t)) (Net x p).
Proof. intros Hx Hp. split; [done|]. split; [done|]. by exists t. Qed.

Lemma has_mask_range p : has_mask p = true -> 1 <= p <= 32 /\ is_u32 (2 ^ (32 - p)) /\ 0 < 2 ^ (32 - p).
Proof.
  unfold has_mask. intros H. apply andb_true_iff in H as [H1%Z.leb_le H2%Z.leb_le]. assert (0 < 2 ^ (32 - p)) by lia.
  repeat split; try lia. apply Z.pow_lt_mono_r; lia.
Qed.

Lemma between_block c k x : 0 <= k -> between (c * 2 ^ k) x (c * 2 ^ k + (2 ^ k - 1)) = (x / 2 ^ k =? c).
Proof.
  intros Hk. assert (0 < 2 ^ k) by lia. unfold between. apply eq_true_iff_eq. rewrite andb_true_iff, Z.eqb_eq, !Z.leb_le. split.
  - intros [H1 H2]. symmetry. apply Z.div_unique with (x - c * 2 ^ k); lia.
  - intros <-. pose proof (Z.div_mod x (2 ^ k)). pose proof (Z.mod_pos_bound x (2 ^ k)). lia.
Qed.

Lemma htonl_be_val l : Forall is_byte l -> length l = 4%nat -> htonl (be_val l) = le_val l.
Proof.
  intros Hl H4. unfold htonl, ntohl, be_val. rewrite <- (length_rev l) in H4. rewrite <- H4, le_bytes_val by (by apply Forall_rev).
  by rewrite rev_involutive.
Qed.

Ltac octet_fits :=
  match goal with H : _ / _ mod 256 + _ < 256 |- _ => repeat match goal with H' : Forall _ _ |- _ => clear H' | H' : forall _, _ |- _ => clear H' end; unfold is_byte in *; cbn in H; Z.to_euclidean_division_equations; lia end.

(** Adding in the wrong byte order is right as long as the octet does not overflow. *)
Lemma htonl_stays x k : is_u32 x -> 0 <= k < 32 -> stays x k = true -> htonl x + htonl (2 ^ k) = htonl (x + 2 ^ k) /\ is_u32 (x + 2 ^ k).
Proof.
  intros Hx Hk Hs. unfold stays in Hs. apply Z.ltb_lt in Hs. rewrite <- (be_val_bytes32 x Hx) in *. destruct (quad_bytes x Hx) as (Ha & Hb & Hc & Hd).
  rewrite be_bytes4 in * by done. revert Ha Hb Hc Hd Hs. generalize (x / 2 ^ 24) (x / 2 ^ 16 mod 256) (x / 2 ^ 8 mod 256) (x mod 256). clear x Hx.
  intros a b c d Ha Hb Hc Hd Hs.
  assert (forall a b c d, be_val [a; b; c; d] = ((a * 256 + b) * 256 + c) * 256 + d) as Ev.
  { intros. unfold be_val. cbn [rev app]. rewrite !le_val_cons. change (le_val []) with 0. lia. }
  assert (forall l, Forall is_byte l -> length l = 4%nat -> is_u32 (be_val l)) as Hr.
  { intros l Hl H4. unfold be_val. pose proof (le_val_range (rev l)) as H. rewrite length_rev, H4 in H. apply H. by apply Forall_rev. }
  assert (2 ^ k = 2 ^ (k / 8 * 8) * 2 ^ (k mod 8)) as Ek.
  { pose proof (Z.mod_pos_bound k 8). pose proof (Z.div_pos k 8). rewrite <- Z.pow_add_r by lia. f_equal. pose proof (Z.div_mod k 8). lia. }
  rewrite Ek.
  assert (is_byte (2 ^ (k mod 8))) as Hw.
  { pose proof (Z.mod_pos_bound k 8). split; [lia|]. apply (Z.pow_lt_mono_r 2 _ 8); lia. }
  assert (k / 8 = 0 \/ k / 8 = 1 \/ k / 8 = 2 \/ k / 8 = 3) as Hj by (pose proof (Z.div_pos k 8); pose proof (Z.div_lt_upper_bound k 8 4); lia).
  revert Hs Hw. generalize (2 ^ (k mod 8)). clear Ek. intros w Hs Hw.
  assert (forall u v, Forall is_byte u -> length u = 4%nat -> Forall is_byte v -> length v = 4%nat ->
    Forall is_byte (zip_with Z.add u v) -> be_val v = 2 ^ (k / 8 * 8) * w -> le_val u + le_val v = le_val (zip_with Z.add u v) ->
    be_val u + be_val v = be_val (zip_with Z.add u v) ->
    htonl (be_val u) + htonl (2 ^ (k / 8 * 8) * w) = htonl (be_val u + 2 ^ (k / 8 * 8) * w) /\ is_u32 (be_val u + 2 ^ (k / 8 * 8) * w)) as Hadd.
  { intros u v Hu Hu4 Hv Hv4 Huv <- El Eb. rewrite Eb, !htonl_be_val, El by (done || rewrite length_zip; lia). split; [done|]. apply Hr; [done|]. rewrite length_zip; lia. }
  rewrite Ev in Hs.
  assert (Forall is_byte [0; 0; 0; w] /\ Forall is_byte [0; 0; w; 0] /\ Forall is_byte [0; w; 0; 0] /\ Forall is_byte [w; 0; 0; 0]) as (F0 & F1 & F2 & F3)
    by (repeat split; repeat constructor; width).
  destruct Hj as [E|[E|[E|E]]]; rewrite E in *;
    [assert (d + w < 256) by octet_fits; apply (Hadd [a; b; c; d] [0; 0; 0; w])
    |assert (c + w < 256) by octet_fits; apply (Hadd [a; b; c; d] [0; 0; w; 0])
    |assert (b + w < 256) by octet_fits; apply (Hadd [a; b; c; d] [0; w; 0; 0])
    |assert (a + w < 256) by octet_fits; apply (Hadd [a; b; c; d] [w; 0; 0; 0])];
    try done; cbn [zip_with];
    match goal with |- Forall _ _ => repeat (apply Forall_cons; split; [width|]); apply Forall_nil; done | _ => rewrite ?Ev, ?le_val_cons; change (le_val []) with 0; lia end.
Qed.

Lemma htonl_htonl x : is_u32 x -> htonl (htonl x) = x.
Proof. apply ntohl_htonl. Qed.

Lemma count_up_spec x k : is_u32 x -> 0 <= k < 32 -> u32 (htonl x + htonl (2 ^ k)) = htonl (count_up x k) /\ is_u32 (count_up x k).
Proof.
  intros Hx Hk. unfold count_up. destruct (stays x k) eqn:Hs.
  - destruct (htonl_stays x k Hx Hk Hs) as [-> Hu]. split; [|done]. apply u32_id, htonl_u32.
  - split; [symmetry; exact (htonl_htonl _ (u32_range _))|exact (htonl_u32 _)].
Qed.

Lemma count_down_spec x k : is_u32 x -> 0 <= k < 32 -> u32 (htonl x - htonl (2 ^ k)) = htonl (count_down x k) /\ is_u32 (count_down x k).
Proof.
  intros Hx Hk. unfold count_down. assert (0 < 2 ^ k) by lia. destruct (Z.leb_spec (2 ^ k) x); cbn [andb]; [destruct (stays (x - 2 ^ k) k) eqn:Hs|].
  - destruct (htonl_stays (x - 2 ^ k) k) as [E _]; [width|done|done|]. replace (x - 2 ^ k + 2 ^ k) with x in E by lia.
    replace (htonl x - htonl (2 ^ k)) with (htonl (x - 2 ^ k)) by lia. split; [apply u32_id, htonl_u32|width].
  - split; [symmetry; exact (htonl_htonl _ (u32_range _))|exact (htonl_u32 _)].
  - split; [symmetry; exact (htonl_htonl _ (u32_range _))|exact (htonl_u32 _)].
Qed.

(** ** Operations *)

(** The result of an operation is the machine's. *)
Definition agrees (r : option outcome) (e : option (machine * bool)) : Prop :=
  forall m' ok, e = Some (m', ok) -> exists s', r = Some (Done s' ok) /\ sim s' m'.

Lemma agrees_done s' m' ok : sim s' m' -> agrees (Some (Done s' ok)) (Some (m', ok)).
Proof. intros Hs ? ? [= <- <-]. eauto. Qed.

Lemma agrees_answer b s m : sim s m -> agrees (Some (answer b s)) (Some (tell b m)).
Proof. intros Hs. apply agrees_done. by apply sim_say. Qed.

Section operations.
Context (s : calc) (m : machine) (a b : cidr) (na nb : net) (st : list net).
Context (Hsim : sim s m) (Ha : shows a na) (Hb : shows b nb) (Htop : m_stack m = na :: st).
Context (cs : list cidr) (Hstack : c_stack s = a :: cs) (Hcs : Forall2 shows cs st).

Lemma add4_agrees o : operand_net o = nb -> agrees (cidr_add4 true a b s) (step (MAdd o) m).
Proof.
  intros Ho. unfold step. rewrite Htop, Ho. destruct Ha as (Hx & Hp & t & ->), Hb as (Hy & Hq & t' & ->). unfold cidr_add4, cidr_clone.
  rewrite !s_addr_be, !ntohl_htonl by done. cbn. destruct (Z.ltb_spec (n_addr na + n_addr nb) (2 ^ 32)).
  - rewrite u32_id by width. destruct (Z.ltb_spec (n_addr na + n_addr nb) (n_addr na)); [width|]. rewrite set_s_addr_be. cbn.
    apply agrees_done, sim_push; [done|]. apply shows_intro; width.
  - assert (u32 (n_addr na + n_addr nb) = n_addr na + n_addr nb - 2 ^ 32) as -> by (unfold u32; symmetry; apply Z.mod_unique with 1; width).
    destruct (Z.ltb_spec (n_addr na + n_addr nb - 2 ^ 32) (n_addr na)); [|width]. cbn. by apply agrees_done, sim_push.
Qed.

Lemma sub4_agrees o : operand_net o = nb -> agrees (cidr_sub4 true a b s) (step (MSub o) m).
Proof.
  intros Ho. unfold step. rewrite Htop, Ho. destruct Ha as (Hx & Hp & t & ->), Hb as (Hy & Hq & t' & ->). unfold cidr_sub4, cidr_clone.
  rewrite !s_addr_be, !ntohl_htonl by done. cbn. destruct (Z.leb_spec (n_addr nb) (n_addr na)).
  - rewrite u32_id by width. destruct (Z.ltb_spec (n_addr na) (n_addr na - n_addr nb)); [width|]. rewrite set_s_addr_be. cbn.
    apply agrees_done, sim_push; [done|]. apply shows_intro; width.
  - assert (u32 (n_addr na - n_addr nb) = n_addr na - n_addr nb + 2 ^ 32) as -> by (unfold u32; symmetry; apply Z.mod_unique with (-1); width).
    destruct (Z.ltb_spec (n_addr na) (n_addr na - n_addr nb + 2 ^ 32)); [|width]. cbn. by apply agrees_done, sim_push.
Qed.

Lemma next4_agrees o : operand_net o = nb -> agrees (cidr_next4 true a b s) (step (MNext o) m).
Proof.
  intros Ho. unfold step. rewrite Htop, Ho. destruct (has_mask (n_len nb)) eqn:Hm; [|done].
  destruct (has_mask_range _ Hm) as (Hr & Hk & _). destruct Ha as (Hx & Hp & t & ->), Hb as (Hy & Hq & t' & ->).
  destruct (count_up_spec (n_addr na) (32 - n_len nb)) as [E Hu]; [done|lia|]. unfold cidr_next4, cidr_clone. cbn [c_prefix].
  rewrite one_shl_prefix by lia. cbn [mbind option_bind]. unfold set_prefix. cbn [c_family c_addr c_prefix]. rewrite s_addr_be, E.
  rewrite set_s_addr_be. cbn. apply agrees_done, sim_push; [done|]. by apply shows_intro.
Qed.

Lemma prev4_agrees o : operand_net o = nb -> agrees (cidr_prev4 true a b s) (step (MPrev o) m).
Proof.
  intros Ho. unfold step. rewrite Htop, Ho. destruct (has_mask (n_len nb)) eqn:Hm; [|done].
  destruct (has_mask_range _ Hm) as (Hr & Hk & _). destruct Ha as (Hx & Hp & t & ->), Hb as (Hy & Hq & t' & ->).
  destruct (count_down_spec (n_addr na) (32 - n_len nb)) as [E Hu]; [done|lia|]. unfold cidr_prev4, cidr_clone. cbn [c_prefix].
  rewrite one_shl_prefix by lia. cbn [mbind option_bind]. unfold set_prefix. cbn [c_family c_addr c_prefix]. rewrite s_addr_be, E.
  rewrite set_s_addr_be. cbn. apply agrees_done, sim_push; [done|]. by apply shows_intro.
Qed.

Lemma prefix_agrees o : operand_net o = nb -> agrees (cidr_prefix a b s) (step (MPrefix o) m).
Proof.
  intros Ho. unfold step, cidr_prefix. rewrite Htop, Ho, Hstack. destruct Ha as (Hx & Hp & t & ->), Hb as (_ & Hq & t' & ->).
  apply agrees_done, sim_stack_set; [done|]. constructor; [|done]. by apply shows_intro.
Qed.

Lemma howmany_agrees o : operand_net o = nb -> agrees (cidr_howmany a b s) (step (MHowmany o) m).
Proof.
  intros Ho. unfold step, cidr_howmany. rewrite Htop, Ho. destruct Ha as (Hx & Hp & t & ->), Hb as (_ & Hq & t' & ->). cbn [c_prefix].
  destruct (Z.ltb_spec (n_len nb) (n_len na)); [by apply agrees_done, sim_say|].
  destruct (Z.ltb_spec (n_len nb - n_len na) 32); [|done]. rewrite one_shl_pow by lia. by apply agrees_done, sim_say.
Qed.

Lemma netmask_word p x : has_mask p = true -> is_u32 x -> Z.land (htonl x) (htonl (not32 (2 ^ (32 - p) - 1))) = htonl (block (32 - p) x).
Proof.
  intros Hm Hx. destruct (has_mask_range _ Hm) as (Hr & Hk & H0). rewrite land_htonl; [|done|rewrite not32_ones; width]. by rewrite land_netmask by (done || lia).
Qed.

Lemma block_u32 p x : has_mask p = true -> is_u32 x -> is_u32 (block (32 - p) x) /\ is_u32 (block (32 - p) x + (2 ^ (32 - p) - 1)).
Proof.
  intros Hm Hx. destruct (has_mask_range _ Hm) as (Hr & Hk & H0). pose proof (block_range (32 - p) 32 x ltac:(lia) Hx). split; [width|].
  unfold block in *. assert (x / 2 ^ (32 - p) < 2 ^ p).
  { apply Z.div_lt_upper_bound; [lia|]. rewrite <- Z.pow_add_r by lia. replace (32 - p + p) with 32 by lia. width. }
  assert (2 ^ p * 2 ^ (32 - p) = 2 ^ 32) by (rewrite <- Z.pow_add_r by lia; f_equal; lia). split; [width|]. nia.
Qed.

Lemma network4_agrees : agrees (cidr_network4 true a s) (step MNetwork m).
Proof.
  unfold step, cidr_network4, cidr_clone. rewrite Htop. destruct (has_mask (n_len na)) eqn:Hm; [|done]. destruct Ha as (Hx & Hp & t & ->). cbn [c_prefix].
  rewrite hostmask_prefix by (by apply has_mask_range). cbn [mbind option_bind]. rewrite s_addr_be, netmask_word, set_s_addr_be by done.
  apply agrees_done, sim_push; [done|]. apply shows_intro; [|width]. by apply block_u32.
Qed.

Lemma broadcast4_agrees : agrees (cidr_broadcast4 true a s) (step MBroadcast m).
Proof.
  unfold step, cidr_broadcast4, cidr_clone. rewrite Htop. destruct (has_mask (n_len na)) eqn:Hm; [|done]. destruct Ha as (Hx & Hp & t & ->). cbn [c_prefix].
  destruct (has_mask_range _ Hm) as (Hr & Hk & H0). rewrite hostmask_prefix by done. cbn [mbind option_bind].
  rewrite s_addr_be, lor_htonl, lor_hostmask, set_s_addr_be by (done || lia || width).
  apply agrees_done, sim_push; [done|]. apply shows_intro; [|width]. by apply block_u32.
Qed.

Lemma netmask4_agrees : agrees (cidr_netmask4 true a s) (step MNetmask m).
Proof.
  unfold step, cidr_netmask4, cidr_clone. rewrite Htop. destruct (has_mask (n_len na)) eqn:Hm; [|done]. destruct Ha as (Hx & Hp & t & ->). cbn [c_prefix].
  destruct (has_mask_range _ Hm) as (Hr & Hk & H0). rewrite hostmask_prefix by done. cbn [mbind option_bind]. rewrite not32_ones, set_s_addr_be by lia.
  apply agrees_done, sim_push; [done|]. apply shows_intro; width.
Qed.

Lemma contains4_agrees o : operand_net o = nb -> agrees (cidr_contains4 a b s) (step (MContains o) m).
Proof.
  intros Ho. unfold step, cidr_contains4. rewrite Htop, Ho. destruct (has_mask (n_len na)) eqn:Hm; [|done].
  destruct Ha as (Hx & Hp & t & ->), Hb as (Hy & Hq & t' & ->). cbn [c_prefix]. destruct (has_mask_range _ Hm) as (Hr & Hk & H0).
  rewrite hostmask_prefix by done. cbn [mbind option_bind]. rewrite !s_addr_be, !netmask_word by done.
  replace (htonl (block (32 - n_len na) (n_addr na)) =? htonl (block (32 - n_len na) (n_addr nb))) with (n_addr na / 2 ^ (32 - n_len na) =? n_addr nb / 2 ^ (32 - n_len na));
    [by apply agrees_answer|].
  apply eq_true_iff_eq. rewrite !Z.eqb_eq. split; [by unfold block; intros ->|]. intros E. apply htonl_inj in E; [|by apply block_u32..].
  unfold block in E. by apply Z.mul_reg_r in E; [|lia].
Qed.

Lemma private4_agrees : agrees (cidr_private4 a s) (step MPrivate m).
Proof.
  unfold step, cidr_private4. rewrite Htop. destruct Ha as (Hx & Hp & t & ->). rewrite s_addr_be, ntohl_htonl by done.
  rewrite <- (between_block 10 24), <- (between_block 0xAC1 20), <- (between_block 0xC0A8 16) by lia. by apply agrees_answer.
Qed.

Lemma linklocal4_agrees : agrees (cidr_linklocal4 a s) (step MLinklocal m).
Proof.
  unfold step, cidr_linklocal4. rewrite Htop. destruct Ha as (Hx & Hp & t & ->). rewrite s_addr_be, ntohl_htonl by done.
  rewrite <- (between_block 0xA9FE 16) by lia. by apply agrees_answer.
Qed.

Lemma quiet_agrees : agrees (cidr_quiet a s) (step MQuiet m).
Proof. unfold step, cidr_quiet. rewrite Htop. apply agrees_done. destruct Hsim. split; cbn; by rewrite <- ?Htop. Qed.

Lemma pop_agrees : agrees (pop_op a s) (step MPop m).
Proof. unfold step, pop_op, cidr_pop. rewrite Htop, Hstack. by apply agrees_done, sim_stack_set. Qed.

Lemma print_text : print_prefix a 32 (qprintf (quad (n_addr na)) (qspace s)) = qprintf (show_net na) (qspace s).
Proof.
  destruct Ha as (Hx & Hp & t & ->). unfold print_prefix, show_net. cbn [c_prefix]. destruct (n_len na <? 32); [|by rewrite app_nil_r].
  unfold qprintf. cbn. destruct (c_quiet (qspace s)); [done|]. by rewrite <- app_assoc.
Qed.

Lemma print4_agrees : agrees (cidr_print4 a s) (step MPrint m).
Proof.
  unfold step, cidr_print4. rewrite Htop. assert (c_family a = AF_INET) as -> by (by destruct Ha as (_ & _ & t & ->)). cbn [negb Z.eqb AF_INET Pos.eqb].
  assert (inet_ntop4 (c_addr a) = Some (quad (n_addr na))) as -> by (destruct Ha as (? & _ & t & ->); by apply inet_ntop4_quad). cbn [mbind option_bind].
  rewrite print_text. unfold cidr_pop. replace (c_stack (qprintf _ _)) with (a :: cs) by (unfold qspace; by destruct (c_printed s)).
  by apply agrees_done, sim_stack_set; [apply sim_say|].
Qed.
End operations.

Create HintDb owip.
#[export] Hint Resolve add4_agrees sub4_agrees next4_agrees prev4_agrees prefix_agrees howmany_agrees contains4_agrees network4_agrees broadcast4_agrees : owip.
#[export] Hint Resolve netmask4_agrees private4_agrees linklocal4_agrees quiet_agrees pop_agrees print4_agrees : owip.

(** ** The command line *)

Section command_line.
Context (junk : list Z) (v6 : inet6).

Lemma operand_parsed o : is_operand o -> exists b, cidr_parse true junk v6 (operand_text o) AF_INET = Parsed b /\ shows b (operand_net o).
Proof.
  destruct o as [n|n]; cbn [is_operand operand_text operand_net]; intros Ho; unfold cidr_parse.
  - rewrite (strtoul_end_numeral 0 _ n) by (auto using dec_numeral). eexists. split; [reflexivity|]. by apply shows_intro.
  - assert (46 ∈ show_net n) as Hdot by (unfold show_net; rewrite elem_of_app; left; apply quad_dot).
    assert (58 ∉ show_net n) as H58 by (intros H; apply show_net_chars in H; [lia|done]).
    exists (Cidr AF_INET (n_len n) (be_bytes 4 (n_addr n) ++ drop 4 junk)). split; [|destruct Ho; apply shows_intro; width].
    rewrite decide_False by done. rewrite cidr_parse4_show by done.
    destruct (strtoul_end 0 (show_net n)) as [[v r]|] eqn:E; [|done]. apply strtoul_end_dot in E; [|done]. by destruct r.
Qed.

Lemma sim_top s m na st : sim s m -> m_stack m = na :: st -> exists a cs, c_stack s = a :: cs /\ shows a na /\ Forall2 shows cs st.
Proof. intros [H _ _ _ _ _] E. rewrite E in H. inv H. eauto 10. Qed.

Lemma finish_agrees r e m' ok rest : agrees r e -> e = Some (m', ok) -> exists s', finish r rest = Some (Ran s' rest (if ok then 0 else 1)) /\ sim s' m'.
Proof. intros H E. destruct (H _ _ E) as (s' & -> & Hs). exists s'. by destruct ok. Qed.

Definition find_op (name : list Z) : option op := List.find (fun o => bool_decide (op_name o = name)) (ops true v6).

Lemma run_one name f g rest s status a cs : find_op name = Some (Op name (Some f) None g None) -> c_stack s = a :: cs -> c_family a = AF_INET ->
  runop true junk v6 (name :: rest) s status = finish (f a s) rest.
Proof. unfold find_op, runop. intros -> Hst Hf. cbn [f4_a2 f6_a2]. unfold run_a1. rewrite Hst. cbn [head mbind option_bind]. by rewrite Hf. Qed.

Lemma run_two name f g o b rest s status a cs :
  find_op name = Some (Op name None (Some f) None g) -> c_stack s = a :: cs -> c_family a = AF_INET ->
  cidr_parse true junk v6 (operand_text o) AF_INET = Parsed b ->
  runop true junk v6 (name :: operand_text o :: rest) s status = finish (f a b s) rest.
Proof.
  unfold find_op, runop. intros -> Hst Hf Hb. cbn [f4_a2 f6_a2]. rewrite bool_decide_true by (by eexists). cbn [orb head].
  unfold run_a2. rewrite Hst. cbn [head mbind option_bind]. rewrite Hf, Hb. done.
Qed.

(** One operation of the command line is one step of the machine. *)
Lemma runop_cmd c rest s m m' ok status :
  is_cmd c -> sim s m -> step c m = Some (m', ok) ->
  exists s', runop true junk v6 (cmd_text c ++ rest) s status = Some (Ran s' rest (if ok then 0 else 1)) /\ sim s' m'.
Proof.
  intros Hc Hs E. destruct (m_stack m) as [|na st] eqn:Htop; [by unfold step in E; rewrite Htop in E|].
  destruct (sim_top _ _ _ _ Hs Htop) as (a & cs & Hstack & Ha & Hcs). assert (c_family a = AF_INET) as Hfam by (by destruct Ha as (_ & _ & t & ->)).
  destruct c as [o|o|o|o|o|o|o| | | | | | | | ]; cbn [is_cmd] in Hc; try destruct (operand_parsed o Hc) as (b & Hpar & Hb); cbn [cmd_text app];
    first [erewrite run_one by (reflexivity || eassumption) | erewrite run_two by (reflexivity || eassumption)];
    eapply finish_agrees; try exact E; eauto with owip.
Qed.

Lemma run_session cs s m ok m' ok' status fuel :
  Forall is_cmd cs -> sim s m -> session cs m ok = Some (m', ok') -> status = (if ok then 0 else 1) -> (length cs < fuel)%nat ->
  exists s', run_loop true junk v6 fuel (concat (cmd_text <$> cs)) s status = Some (Stopped s' [] (if ok' then 0 else 1)) /\ sim s' m'.
Proof.
  intros Hcs. revert s m ok status fuel. induction Hcs as [|c cs Hc Hcs IH]; intros s m ok status fuel Hs E Hst Hf; (destruct fuel as [|fuel]; [cbn in Hf; lia|]).
  - injection E as <- <-. exists s. by rewrite Hst.
  - cbn [session] in E. destruct (step c m) as [[m1 ok1]|] eqn:E1; [|done]. cbn [mbind option_bind] in E.
    destruct (runop_cmd c (concat (cmd_text <$> cs)) s m m1 ok1 status Hc Hs E1) as (s1 & Er & Hs1).
    cbn [fmap list_fmap concat run_loop]. rewrite Er. cbn [mbind option_bind]. apply (IH s1 m1 ok1); [done..|cbn in Hf; lia].
Qed.

Lemma conclude_print s m m' : sim s m -> conclude m = Some m' -> exists s',
  (if negb (c_printed s) then a ← head (c_stack s); r ← (if c_family a =? AF_INET then cidr_print4 a s else cidr_print6 v6 a s);
     Some (match r with Done s _ => s | Exit s _ => s end) else Some s) = Some s' /\ c_quiet s' = m_quiet m' /\ c_out s' = joined (m_words m').
Proof.
  intros Hs. unfold conclude. rewrite (sim_printed _ _ Hs). destruct (m_printed m).
  - intros [= <-]. exists s. by destruct Hs.
  - destruct (m_stack m) as [|na st] eqn:Htop; [done|]. intros [= <-]. destruct (sim_top _ _ _ _ Hs Htop) as (a & cs & Hstack & Ha & Hcs).
    destruct (print4_agrees s m a na st Hs Ha Htop cs Hstack Hcs (set_stack (say (show_net na) m) st) true) as (s' & Er & Hs').
    { unfold step. by rewrite Htop. }
    exists s'. rewrite Hstack. cbn [negb head mbind option_bind]. assert (c_family a = AF_INET) as -> by (by destruct Ha as (_ & _ & t & ->)).
    cbn [Z.eqb AF_INET Pos.eqb]. rewrite Er. cbn. by destruct Hs'.
Qed.

End command_line.


(** The octets of an address reversed. *)
Example tun6to4_reversed : cidr_6to4 true (Cidr AF_INET 32 (be_bytes 4 0xC0000201 ++ replicate 12 0)) (Calc [] false false []) =
  Some (Done (Calc [Cidr AF_INET6 48 ([0x20; 0x02; 1; 2; 0; 192] ++ replicate 10 0)] false false []) true).
Proof. vm_compute. reflexivity. Qed.

(** A carry into the octet behind. *)
Example next4_carry : owip [bs "10.0.255.0/24"; bs "next"; bs "24"] = Some (bs "10.0.0.1/24" ++ [10], 0) /\ count_up 0x0A00FF00 8 = 0x0A000001.
Proof. split; vm_compute; reflexivity. Qed.
