(* ===== verification/OwipSix.v ===== *)
(** The address calculator on IPv6 addresses: the loops over the bytes are arithmetic on 128-bit numbers. *)

From S2P Require Import Prelude Libc Owip OwipSpec.

(** ** Numbers from bytes *)

Lemma be_val_snoc l a : be_val (l ++ [a]) = be_val l * 256 + a.
Proof. unfold be_val. rewrite rev_unit, le_val_cons. lia. Qed.

Lemma be_val_app u v : be_val (u ++ v) = be_val u * 256 ^ zlen v + be_val v.
Proof.
  induction v as [|a v IH] using rev_ind; [rewrite app_nil_r; change (zlen []) with 0; change (be_val []) with 0; lia|].
  rewrite app_assoc, !be_val_snoc, IH, length_app, Nat2Z.inj_add, Z.pow_add_r by lia. cbn [length]. change (256 ^ Z.of_nat 1) with 256. lia.
Qed.

Lemma be_val_range l : Forall is_byte l -> 0 <= be_val l < 256 ^ zlen l.
Proof. intros Hl. unfold be_val. rewrite <- length_rev. by apply le_val_range, Forall_rev. Qed.

Lemma be_bytes_are_bytes n z : Forall is_byte (be_bytes n z).
Proof. apply Forall_rev, le_bytes_ok. Qed.

Lemma be_bytes_val l : Forall is_byte l -> be_bytes (length l) (be_val l) = l.
Proof. intros Hl. unfold be_bytes, be_val. rewrite <- length_rev, le_bytes_val by (by apply Forall_rev). apply rev_involutive. Qed.

Lemma be_val_inj u v : Forall is_byte u -> Forall is_byte v -> length u = length v -> be_val u = be_val v -> u = v.
Proof. intros Hu Hv Hl E. by rewrite <- (be_bytes_val u Hu), Hl, E, be_bytes_val. Qed.

Lemma be_bytes_unique n l z : Forall is_byte l -> length l = n -> be_val l = z -> l = be_bytes n z.
Proof. intros Hl <- <-. by rewrite be_bytes_val. Qed.

(** ** The loops *)

Lemma snoc_inv {A} n (l : list A) : length l = S n -> exists u a, l = u ++ [a] /\ length u = n.
Proof. intros H. destruct l as [|a l] using rev_ind; [done|]. rewrite length_app in H. cbn in H. exists l, a. split; [done|lia]. Qed.

Lemma lookup_mid {A} n (u : list A) a r : length u = n -> (u ++ a :: r) !! n = Some a.
Proof. intros <-. by rewrite lookup_app_r, Nat.sub_diag by lia. Qed.

Lemma insert_mid {A} n (u : list A) a x r : length u = n -> <[n := x]> (u ++ a :: r) = u ++ x :: r.
Proof. intros <-. by rewrite insert_app_r_alt, Nat.sub_diag by lia. Qed.

(** The start of [x] is replaced by the bytes of the sum; the carry is 0 or 1. *)
Lemma add6_loop_spec n u w r q c :
  length u = n -> length w = n -> Forall is_byte u -> Forall is_byte w -> 0 <= c <= 1 ->
  exists v c', add6_loop n (u ++ r) (w ++ q) c = Some (v ++ r, c') /\ length v = n /\ Forall is_byte v /\ 0 <= c' <= 1 /\
    be_val v + 256 ^ Z.of_nat n * c' = be_val u + be_val w + c.
Proof.
  revert u w r q c. induction n as [|n IH]; intros u w r q c Hu Hw Fu Fw Hc.
  - destruct u, w; try done. exists [], c. split; [done|]. split; [done|]. split; [done|]. split; [done|]. change (be_val []) with 0. lia.
  - apply snoc_inv in Hu as (u' & a & -> & Hu), Hw as (w' & b & -> & Hw). rewrite !Forall_app, !Forall_singleton in *. destruct Fu as [Fu Ha], Fw as [Fw Hb].
    rewrite <- !app_assoc. cbn [app add6_loop]. rewrite (lookup_mid n u'), (lookup_mid n w') by done. cbn [mbind option_bind].
    rewrite insert_mid by done.
    destruct (IH u' w' (u8 (a + b + c) :: r) (b :: q) (if 256 <=? a + b + c then 1 else 0)) as (v & c' & E & Hl & Fv & Hc' & Ev);
      [done..|by destruct (256 <=? _)|].
    exists (v ++ [u8 (a + b + c)]), c'. rewrite E, <- app_assoc. split; [done|]. rewrite length_app, Forall_app, Forall_singleton. cbn [length].
    split; [lia|]. split; [auto using u8_range|]. split; [done|]. rewrite !be_val_snoc, Nat2Z.inj_succ, Z.pow_succ_r by lia.
    assert (a + b + c = u8 (a + b + c) + 256 * (if 256 <=? a + b + c then 1 else 0)) as Es; [|lia].
    destruct (Z.leb_spec 256 (a + b + c)); [|rewrite u8_id; width].
    unfold u8. change (2 ^ 8) with 256. rewrite <- (Z.mod_unique (a + b + c) 256 1 (a + b + c - 256)) by width. lia.
Qed.

Lemma sub6_loop_spec n u w r q c :
  length u = n -> length w = n -> Forall is_byte u -> Forall is_byte w -> 0 <= c <= 1 ->
  exists v c', sub6_loop n (u ++ r) (w ++ q) c = Some (v ++ r, c') /\ length v = n /\ Forall is_byte v /\ 0 <= c' <= 1 /\
    be_val v - 256 ^ Z.of_nat n * c' = be_val u - be_val w - c.
Proof.
  revert u w r q c. induction n as [|n IH]; intros u w r q c Hu Hw Fu Fw Hc.
  - destruct u, w; try done. exists [], c. split; [done|]. split; [done|]. split; [done|]. split; [done|]. change (be_val []) with 0. lia.
  - apply snoc_inv in Hu as (u' & a & -> & Hu), Hw as (w' & b & -> & Hw). rewrite !Forall_app, !Forall_singleton in *. destruct Fu as [Fu Ha], Fw as [Fw Hb].
    rewrite <- !app_assoc. cbn [app sub6_loop]. rewrite (lookup_mid n u'), (lookup_mid n w') by done. cbn [mbind option_bind].
    rewrite insert_mid by done.
    destruct (IH u' w' (u8 (a - (b + c)) :: r) (b :: q) (if a - b - c <? 0 then 1 else 0)) as (v & c' & E & Hl & Fv & Hc' & Ev);
      [done..|by destruct (_ <? 0)|].
    exists (v ++ [u8 (a - (b + c))]), c'. rewrite E, <- app_assoc. split; [done|]. rewrite length_app, Forall_app, Forall_singleton. cbn [length].
    split; [lia|]. split; [auto using u8_range|]. split; [done|]. rewrite !be_val_snoc, Nat2Z.inj_succ, Z.pow_succ_r by lia.
    assert (a - b - c = u8 (a - (b + c)) - 256 * (if a - b - c <? 0 then 1 else 0)) as Es; [|lia].
    destruct (Z.ltb_spec (a - b - c) 0); [|rewrite u8_id; width].
    unfold u8. change (2 ^ 8) with 256. rewrite <- (Z.mod_unique (a - (b + c)) 256 (-1) (a - b - c + 256)) by width. lia.
Qed.

(** Counting up or down is adding or subtracting the carry. *)
Lemma next6_add n k x c : (n <= k)%nat -> next6_loop n x c = add6_loop n x (replicate k 0) c.
Proof.
  revert x c. induction n as [|n IH]; intros x c Hk; [done|]. cbn [next6_loop add6_loop]. destruct (x !! n); [|done]. cbn [mbind option_bind].
  rewrite lookup_replicate_2 by lia. cbn [mbind option_bind]. rewrite Z.add_0_r. apply IH. lia.
Qed.

Lemma prev6_sub n k x c : (n <= k)%nat -> prev6_loop n x c = sub6_loop n x (replicate k 0) c.
Proof.
  revert x c. induction n as [|n IH]; intros x c Hk; [done|]. cbn [prev6_loop sub6_loop]. destruct (x !! n); [|done]. cbn [mbind option_bind].
  rewrite lookup_replicate_2 by lia. cbn [mbind option_bind]. rewrite Z.add_0_l, Z.sub_0_r. apply IH. lia.
Qed.

Lemma be_val_zeros n : be_val (replicate n 0) = 0.
Proof. induction n as [|n IH]; [done|]. rewrite replicate_S_end, be_val_snoc, IH. done. Qed.

Lemma zeros_bytes n : Forall is_byte (replicate n 0).
Proof. apply Forall_replicate. width. Qed.

Definition is_u128 (x : Z) : Prop := 0 <= x < 2 ^ 128.

Lemma be_val_bytes128 x : is_u128 x -> be_val (be_bytes 16 x) = x.
Proof. intros Hx. apply (be_val_bytes 16). exact Hx. Qed.

(** Other bytes at the start of an address. *)
Lemma splice_number n x v : is_u128 x -> (n <= 16)%nat -> length v = n -> Forall is_byte v ->
  let z := x + (be_val v - be_val (take n (be_bytes 16 x))) * 256 ^ (16 - Z.of_nat n) in v ++ drop n (be_bytes 16 x) = be_bytes 16 z /\ is_u128 z.
Proof.
  intros Hx Hn Hv Fv z. pose proof (be_val_bytes128 x Hx) as Ex. unfold z. clear z. assert (Forall is_byte (be_bytes 16 x)) as Fu by apply be_bytes_are_bytes.
  assert (length (be_bytes 16 x) = 16%nat) as Hu by apply length_be_bytes. revert Ex Fu Hu. generalize (be_bytes 16 x). intros u Ex Fu Hu.
  assert (Forall is_byte (v ++ drop n u)) as Fa by (apply Forall_app; split; [done|by apply Forall_drop]).
  assert (length (v ++ drop n u) = 16%nat) as Ha by (rewrite length_app, length_drop; lia).
  assert (be_val (v ++ drop n u) = x + (be_val v - be_val (take n u)) * 256 ^ (16 - Z.of_nat n)) as E.
  { rewrite <- (take_drop n u), be_val_app, length_drop in Ex. rewrite be_val_app, length_drop, Hu in *.
    replace (Z.of_nat (16 - n)) with (16 - Z.of_nat n) in * by lia. lia. }
  split; [by apply be_bytes_unique|]. rewrite <- E. pose proof (be_val_range _ Fa) as Hr. by rewrite Ha in Hr.
Qed.

Lemma pow256_split n : (n <= 16)%nat -> 2 ^ 128 = 256 ^ Z.of_nat n * 256 ^ (16 - Z.of_nat n).
Proof. intros Hn. rewrite <- Z.pow_add_r by lia. replace (Z.of_nat n + (16 - Z.of_nat n)) with 16 by lia. done. Qed.

(** A sum or difference of the first [n] bytes, seen on the whole address. *)
Section numbers.
Context (n : nat) (x d : Z) (w : list Z) (Hx : is_u128 x) (Hn : (n <= 16)%nat) (Hw : length w = 16%nat) (Fw : Forall is_byte w) (Hd : 0 <= d <= 1).
Let y := (be_val (take n w) + d) * 256 ^ (16 - Z.of_nat n).

Lemma add6_number : add6_loop n (be_bytes 16 x) w d = Some (be_bytes 16 ((x + y) mod 2 ^ 128), if x + y <? 2 ^ 128 then 0 else 1).
Proof.
  destruct (add6_loop_spec n (take n (be_bytes 16 x)) (take n w) (drop n (be_bytes 16 x)) (drop n w) d) as (v & c & E & Hv & Fv & Hc & Ev);
    [rewrite length_take, ?length_be_bytes; lia..|apply Forall_take, be_bytes_are_bytes|by apply Forall_take|done|].
  rewrite !take_drop in E. destruct (splice_number n x v) as [Es Hz]; [done..|]. rewrite Es in E. rewrite E. clear E Es.
  replace (x + _) with (x + y - c * 2 ^ 128) in * by (unfold y; rewrite (pow256_split n) by done; nia).
  assert ((x + y) mod 2 ^ 128 = x + y - c * 2 ^ 128) as -> by (symmetry; apply Z.mod_unique with c; [left; exact Hz|lia]).
  unfold is_u128 in *. do 2 f_equal. destruct (Z.ltb_spec (x + y) (2 ^ 128)); lia.
Qed.

Lemma sub6_number : sub6_loop n (be_bytes 16 x) w d = Some (be_bytes 16 ((x - y) mod 2 ^ 128), if y <=? x then 0 else 1).
Proof.
  destruct (sub6_loop_spec n (take n (be_bytes 16 x)) (take n w) (drop n (be_bytes 16 x)) (drop n w) d) as (v & c & E & Hv & Fv & Hc & Ev);
    [rewrite length_take, ?length_be_bytes; lia..|apply Forall_take, be_bytes_are_bytes|by apply Forall_take|done|].
  rewrite !take_drop in E. destruct (splice_number n x v) as [Es Hz]; [done..|]. rewrite Es in E. rewrite E. clear E Es.
  replace (x + _) with (x - y + c * 2 ^ 128) in * by (unfold y; rewrite (pow256_split n) by done; nia).
  assert ((x - y) mod 2 ^ 128 = x - y + c * 2 ^ 128) as -> by (symmetry; apply Z.mod_unique with (- c); [left; exact Hz|lia]).
  unfold is_u128 in *. do 2 f_equal. destruct (Z.leb_spec y x); lia.
Qed.
End numbers.

(** ** Masks of bytes *)

Lemma zset_mid u (b c : Z) r i : Z.of_nat (length u) = i -> zset (u ++ b :: r) i c = Some (u ++ c :: r).
Proof. intros <-. rewrite zset_Some by (rewrite length_app; cbn [length]; lia). rewrite Nat2Z.id, insert_mid by done. done. Qed.

Lemma zget_mid (u : list Z) b r i : Z.of_nat (length u) = i -> zget (u ++ b :: r) i = Some b.
Proof. intros <-. rewrite zget_nat. by apply lookup_mid. Qed.

Lemma clear_bytes_spec k i h t z : length t = k -> i = zlen z -> zlen h + zlen t + i = 16 ->
  clear_bytes k i (h ++ t ++ z) = Some (h ++ replicate k 0 ++ z).
Proof.
  revert i t z. induction k as [|k IH]; intros i t z Ht Hi Hl; [by destruct t|].
  apply snoc_inv in Ht as (t' & b & -> & Ht). rewrite length_app in Hl. cbn [clear_bytes length] in *. rewrite <- app_assoc. cbn [app].
  rewrite app_assoc, zset_mid by (rewrite length_app; lia). cbn [mbind option_bind]. rewrite <- app_assoc, IH by (cbn [length]; lia).
  by rewrite replicate_S_end, <- app_assoc.
Qed.

Lemma land_low_mask b r : is_byte b -> 0 <= r < 8 -> Z.land b (low_mask r) = block r b.
Proof.
  intros Hb Hr. unfold low_mask, u8. rewrite <- (Z.land_ones _ 8) by lia. rewrite Z.shiftl_1_l.
  replace (2 ^ r - 1) with (Z.ones r) by (rewrite Z.ones_equiv; lia).
  rewrite (Z.land_comm (Z.lnot _)), Z.land_assoc, (Z.land_ones b 8), (Z.mod_small b (2 ^ 8)) by width. apply land_lnot_ones; lia.
Qed.

(** An address around the byte its prefix ends in: [i] bytes behind it, [r] bits of it. *)
Lemma split_byte (l : list Z) i : length l = 16%nat -> 0 <= i < 16 -> exists h b t, l = h ++ b :: t /\ zlen h = 15 - i /\ zlen t = i.
Proof.
  intros Hl Hi. destruct (drop (Z.to_nat (15 - i)) l) as [|b t] eqn:E; [apply (f_equal length) in E; rewrite length_drop in E; cbn in E; lia|].
  exists (take (Z.to_nat (15 - i)) l), b, t. rewrite <- E, take_drop. split; [done|]. apply (f_equal length) in E. rewrite length_drop in E. cbn in E.
  rewrite length_take. lia.
Qed.

Lemma prefix_value h b t r : Forall is_byte (h ++ b :: t) -> 0 <= r <= 8 ->
  be_val (h ++ b :: t) / 2 ^ (8 * zlen t + r) = be_val h * 2 ^ (8 - r) + b / 2 ^ r.
Proof.
  intros F Hr. apply Forall_app in F as [Fh [Hb Ft]%Forall_cons]. change (b :: t) with ([b] ++ t). rewrite app_assoc, be_val_app, be_val_snoc.
  pose proof (be_val_range t Ft) as Ht. assert (256 ^ zlen t = 2 ^ (8 * zlen t)) as E by (change 256 with (2 ^ 8); rewrite <- Z.pow_mul_r by lia; done).
  rewrite Z.pow_add_r, <- Z.div_div by lia. rewrite <- E, Z.div_add_l, (Z.div_small (be_val t)), Z.add_0_r by lia.
  replace (be_val h * 256) with (be_val h * 2 ^ (8 - r) * 2 ^ r); [by rewrite Z.div_add_l by lia|].
  rewrite <- Z.mul_assoc, <- Z.pow_add_r by lia. replace (8 - r + r) with 8 by lia. done.
Qed.

Lemma pow256 n : 0 <= n -> 256 ^ n = 2 ^ (8 * n).
Proof. intros Hn. change 256 with (2 ^ 8). by rewrite <- Z.pow_mul_r by lia. Qed.

(** ** Operations on numbers *)

Definition v6net (x p : Z) : cidr := Cidr AF_INET6 p (be_bytes 16 x).

Lemma host_bits_split p : 0 <= p <= 128 -> host_bits p = 128 - p /\ 128 - p = 8 * ((128 - p) / 8) + (128 - p) mod 8 /\
  0 <= (128 - p) / 8 <= 16 /\ 0 <= (128 - p) mod 8 < 8.
Proof.
  intros Hp. unfold host_bits. rewrite u32_id by width. split; [done|]. split; [apply Z.div_mod; lia|].
  split; [|apply Z.mod_pos_bound; lia]. split; [apply Z.div_pos; lia|]. apply Z.div_le_upper_bound; lia.
Qed.

Lemma add6_numbers x p y q s : is_u128 x -> is_u128 y ->
  cidr_add6 true (v6net x p) (v6net y q) s = Some (Done (cidr_push (v6net ((x + y) mod 2 ^ 128) p) s) (x + y <? 2 ^ 128)).
Proof.
  intros Hx Hy. unfold cidr_add6, cidr_clone. cbn [v6net c_family c_addr Z.eqb AF_INET6 Pos.eqb negb orb].
  rewrite add6_number by (done || lia || apply be_bytes_are_bytes || apply length_be_bytes).
  rewrite firstn_all2 by (by rewrite length_be_bytes). rewrite be_val_bytes128 by done. change (256 ^ (16 - Z.of_nat 16)) with 1.
  rewrite Z.mul_1_r, Z.add_0_r. cbn [mbind option_bind]. by destruct (x + y <? 2 ^ 128).
Qed.

Lemma sub6_numbers x p y q s : is_u128 x -> is_u128 y ->
  cidr_sub6 true (v6net x p) (v6net y q) s = Some (Done (cidr_push (v6net ((x - y) mod 2 ^ 128) p) s) (y <=? x)).
Proof.
  intros Hx Hy. unfold cidr_sub6, cidr_clone. cbn [v6net c_family c_addr Z.eqb AF_INET6 Pos.eqb negb orb].
  rewrite sub6_number by (done || lia || apply be_bytes_are_bytes || apply length_be_bytes).
  rewrite firstn_all2 by (by rewrite length_be_bytes). rewrite be_val_bytes128 by done. change (256 ^ (16 - Z.of_nat 16)) with 1.
  rewrite Z.mul_1_r, Z.add_0_r. cbn [mbind option_bind]. by destruct (y <=? x).
Qed.

(** The step of prefixes that end with a byte. *)
Lemma byte_prefix q : 0 < q <= 128 -> q mod 8 = 0 -> (q =? 0) = false /\ (S (last_byte q) <= 16)%nat /\ 256 ^ (16 - Z.of_nat (S (last_byte q))) = 2 ^ (128 - q).
Proof.
  intros Hq H8. assert (exists j, q = 8 * j /\ 1 <= j <= 16) as (j & -> & Hj).
  { exists (q / 8). pose proof (Z.div_mod q 8). lia. }
  assert (last_byte (8 * j) = Z.to_nat (j - 1)) as ->.
  { unfold last_byte. replace ((8 * j - 1) / 8) with (j - 1) by (apply Z.div_unique with 7; lia). rewrite u8_id; [done|width]. }
  split; [lia|]. split; [lia|]. rewrite pow256 by lia. f_equal. lia.
Qed.

Lemma next6_numbers x p y q s : is_u128 x -> 0 < q <= 128 -> q mod 8 = 0 ->
  cidr_next6 true (v6net x p) (v6net y q) s =
  let z := x + 2 ^ (128 - q) in Some (Done (cidr_push (v6net (z mod 2 ^ 128) (if z <? 2 ^ 128 then q else p)) s) (z <? 2 ^ 128)).
Proof.
  intros Hx Hq H8. destruct (byte_prefix q Hq H8) as (E0 & Hl & Ep). unfold cidr_next6, cidr_clone. cbn [v6net c_prefix c_addr].
  rewrite E0, (next6_add _ 16) by done. rewrite add6_number by (done || lia || apply zeros_bytes).
  rewrite take_replicate, be_val_zeros, Z.add_0_l, Z.mul_1_l, Ep. cbn [mbind option_bind]. by destruct (x + 2 ^ (128 - q) <? 2 ^ 128).
Qed.

Lemma prev6_numbers x p y q s : is_u128 x -> 0 < q <= 128 -> q mod 8 = 0 ->
  cidr_prev6 true (v6net x p) (v6net y q) s =
  let d := 2 ^ (128 - q) in Some (Done (cidr_push (v6net ((x - d) mod 2 ^ 128) (if d <=? x then q else p)) s) (d <=? x)).
Proof.
  intros Hx Hq H8. destruct (byte_prefix q Hq H8) as (E0 & Hl & Ep). unfold cidr_prev6, cidr_clone. cbn [v6net c_prefix c_addr].
  rewrite E0, (prev6_sub _ 16) by done. rewrite sub6_number by (done || lia || apply zeros_bytes).
  rewrite take_replicate, be_val_zeros, Z.add_0_l, Z.mul_1_l, Ep. cbn [mbind option_bind]. by destruct (2 ^ (128 - q) <=? x).
Qed.

(** The bytes that [cidr_network6] leaves. *)
Lemma network6_whole h t : Forall is_byte (h ++ t) -> be_val (h ++ replicate (length t) 0) = block (8 * zlen t) (be_val (h ++ t)).
Proof.
  intros [Fh Ft]%Forall_app. pose proof (be_val_range t Ft) as Ht. unfold block. rewrite !be_val_app, be_val_zeros, length_replicate, <- pow256 by lia.
  rewrite Z.div_add_l, (Z.div_small (be_val t)) by lia. lia.
Qed.

Lemma network6_part h b t r : Forall is_byte (h ++ b :: t) -> 0 <= r <= 8 ->
  be_val (h ++ block r b :: replicate (length t) 0) = block (8 * zlen t + r) (be_val (h ++ b :: t)).
Proof.
  intros F Hr. unfold block at 2. rewrite prefix_value by done. change (block r b :: replicate (length t) 0) with ([block r b] ++ replicate (length t) 0).
  rewrite app_assoc, be_val_app, be_val_snoc, be_val_zeros, length_replicate. rewrite Z.pow_add_r, <- pow256 by lia. unfold block.
  replace (be_val h * 256) with (be_val h * 2 ^ (8 - r) * 2 ^ r); [lia|]. rewrite <- Z.mul_assoc, <- Z.pow_add_r by lia. by replace (8 - r + r) with 8 by lia.
Qed.

Lemma network6_numbers x p s : is_u128 x -> 0 <= p <= 128 ->
  cidr_network6 true (v6net x p) s = Some (Done (cidr_push (v6net (block (128 - p) x) p) s) true).
Proof.
  intros Hx Hp. unfold cidr_network6, cidr_clone, v6net. cbn [c_prefix c_addr]. destruct (host_bits_split p Hp) as (-> & Ek & Hi & Hr).
  pose proof (be_val_bytes128 x Hx) as Ex. pose proof (be_bytes_are_bytes 16 x) as F. pose proof (length_be_bytes 16 x) as Hl. revert Ex F Hl.
  revert Ek Hi Hr. generalize ((128 - p) / 8) ((128 - p) mod 8) (be_bytes 16 x). intros i r l Ek Hi Hr <- F Hl. rewrite Ek.
  destruct (Z.eqb_spec r 0) as [->|Hne]; cbn [negb].
  - rewrite <- (take_drop (16 - Z.to_nat i) l) in F |- *. pose proof (length_take l (16 - Z.to_nat i)) as Hh. pose proof (length_drop l (16 - Z.to_nat i)) as Ht.
    revert F Hh Ht. generalize (take (16 - Z.to_nat i) l) (drop (16 - Z.to_nat i) l). intros h t F Hh Ht.
    rewrite <- (app_nil_r t) at 1. rewrite clear_bytes_spec by (cbn [length]; lia). cbn [mbind option_bind]. rewrite app_nil_r, Z.add_0_r.
    do 4 f_equal. unfold set_addr. cbn [c_family c_prefix]. f_equal. replace (Z.to_nat i) with (length t) by lia. replace i with (zlen t) by lia.
    apply be_bytes_unique; [|rewrite length_app, length_replicate; lia|by apply network6_whole].
    apply Forall_app in F as [Fh _]. apply Forall_app. split; [done|apply zeros_bytes].
  - destruct (split_byte l i Hl ltac:(lia)) as (h & b & t & -> & Hh & Ht).
    assert (clear_bytes (Z.to_nat i) 0 (h ++ b :: t) = Some (h ++ b :: replicate (Z.to_nat i) 0)) as ->.
    { pose proof (clear_bytes_spec (Z.to_nat i) 0 (h ++ [b]) t []) as E. rewrite !app_nil_r, <- !app_assoc in E. apply E; [lia|done|].
      rewrite length_app. cbn [length]. lia. }
    cbn [mbind option_bind].
    assert (is_byte b) as Hb by (apply Forall_app in F as [_ [? _]%Forall_cons]; done).
    rewrite zget_mid by lia. cbn [mbind option_bind]. rewrite zset_mid, land_low_mask by (done || lia). cbn [mbind option_bind].
    do 4 f_equal. unfold set_addr. cbn [c_family c_prefix]. f_equal. replace (Z.to_nat i) with (length t) by lia. replace i with (zlen t) by lia.
    apply be_bytes_unique; [|rewrite length_app; cbn [length]; rewrite length_replicate; lia|apply network6_part; [done|lia]].
    apply Forall_app in F as [Fh _]. apply Forall_app. split; [done|]. apply Forall_cons. split; [|apply zeros_bytes].
    pose proof (block_range r 8 b ltac:(lia) Hb). width.
Qed.

Lemma prefix_same h b t h' b' t' r : Forall is_byte (h ++ b :: t) -> Forall is_byte (h' ++ b' :: t') -> length h = length h' -> length t = length t' -> 0 <= r < 8 ->
  be_val (h ++ b :: t) / 2 ^ (8 * zlen t + r) = be_val (h' ++ b' :: t') / 2 ^ (8 * zlen t + r) <-> block r b = block r b' /\ h = h'.
Proof.
  intros F F' Hh Ht Hr. rewrite prefix_value, Ht, prefix_value by (done || lia). assert (0 < 2 ^ r) by lia.
  apply Forall_app in F as [Fh [Hb _]%Forall_cons], F' as [Fh' [Hb' _]%Forall_cons].
  assert (forall c, is_byte c -> 0 <= c / 2 ^ r < 2 ^ (8 - r)) as Hdiv.
  { intros c Hc. split; [apply Z.div_pos; width|]. apply Z.div_lt_upper_bound; [lia|]. rewrite <- Z.pow_add_r by lia. by replace (r + (8 - r)) with 8 by lia; apply Hc. }
  pose proof (Hdiv b Hb). pose proof (Hdiv b' Hb'). unfold block. split; [|by intros [E%Z.mul_reg_r ->]; [rewrite E|lia]]. intros E.
  assert (be_val h = be_val h' /\ b / 2 ^ r = b' / 2 ^ r) as [E1 ->] by (rewrite !(Z.mul_comm (be_val _)) in E; by apply Z.div_mod_unique in E; [|left..]).
  split; [done|by apply be_val_inj].
Qed.

(** The bytes up to the one the prefix ends in decide. *)
Lemma contains6_numbers x p y q s : is_u128 x -> is_u128 y -> 1 <= p <= 128 ->
  cidr_contains6 true (v6net x p) (v6net y q) s =
  Some (answer ((p <=? q) && (x / 2 ^ (128 - p) =? y / 2 ^ (128 - p))) (cidr_push (v6net x p) s)).
Proof.
  intros Hx Hy Hp. unfold cidr_contains6, v6net. cbn [c_prefix c_addr]. destruct (host_bits_split p ltac:(lia)) as (-> & Ek & Hi & Hr).
  pose proof (be_val_bytes128 x Hx) as Ex. pose proof (be_bytes_are_bytes 16 x) as F. pose proof (length_be_bytes 16 x) as Hl.
  pose proof (be_val_bytes128 y Hy) as Ey. pose proof (be_bytes_are_bytes 16 y) as F'. pose proof (length_be_bytes 16 y) as Hl'. revert Ex F Hl Ey F' Hl' Ek Hi Hr.
  generalize ((128 - p) / 8) ((128 - p) mod 8) (be_bytes 16 x) (be_bytes 16 y). intros i r l l' <- F Hl <- F' Hl' Ek Hi Hr. rewrite Ek, u8_id by width.
  destruct (split_byte l i Hl ltac:(lia)) as (h & b & t & -> & Hh & Ht), (split_byte l' i Hl' ltac:(lia)) as (h' & b' & t' & -> & Hh' & Ht').
  rewrite !zget_mid by lia. cbn [mbind option_bind].
  assert (is_byte b /\ is_byte b') as [Hb Hb'] by (apply Forall_app in F as [_ [? _]%Forall_cons], F' as [_ [? _]%Forall_cons]; done).
  rewrite !land_low_mask by done. pose proof (prefix_same h b t h' b' t' r F F' ltac:(lia) ltac:(lia) Hr) as Hsame. rewrite <- Ht in *.
  set (u := be_val (h ++ b :: t) / _) in *. set (v := be_val (h' ++ b' :: t') / _) in *.
  assert (zslice (h ++ b :: t) 0 (15 - zlen t) = Some h) as -> by (rewrite <- Hh; apply zslice_head).
  assert (zslice (h' ++ b' :: t') 0 (15 - zlen t) = Some h') as -> by (rewrite <- Hh'; apply zslice_head). cbn [mbind option_bind].
  destruct (Z.leb_spec p q); cbn [negb orb andb]; [|done].
  destruct (Z.eqb_spec (block r b) (block r b')) as [E|E]; cbn [negb].
  - destruct (Z.eqb_spec (zlen t) 15).
    + assert (h = h') by (destruct h, h'; cbn [length] in *; lia || done). rewrite (proj2 (Z.eqb_eq u v)) by (by apply Hsame). done.
    + cbn [mbind option_bind]. do 2 f_equal. apply eq_true_iff_eq. rewrite Z.eqb_eq, bool_decide_eq_true, Hsame. naive_solver.
  - rewrite (proj2 (Z.eqb_neq u v)) by naive_solver. done.
Qed.



(** Where the prefix ends within a byte, the last address of 2001:db8::/33 is not in the next /33. *)
Example next6_within_byte : cidr_next6 true (v6net (0x20010db8 * 2 ^ 96) 128) (v6net 0 33) (Calc [] false false []) =
  Some (Done (Calc [v6net (0x20010db8 * 2 ^ 96 + 2 ^ 88) 33] false false []) true).
Proof. vm_compute. reflexivity. Qed.
