(* ===== verification/Tlv.v ===== *)
(** The MIB as TLV blocks (package/libs/libapmib/files/apmib/apmib.c): writing the settings
    structure to a block with [mib_write_to_raw] and reading it back with
    [mib_tlv_init_from], driven by the tables of mibtbl.c, and the byte swapping a
    little-endian machine does before a block is written.

    The model has [HOME_GATEWAY] and [CONFIG_IPV6] on, [VOIP_SUPPORT] and [RTK_CAPWAP] off. *)

From stdpp Require Import list.
From S2P Require Import Prelude Libc.

(** ** Tables *)

(** [TYPE_T].  The array types after [TABLE_LIST_T] are not told apart here. *)
Inductive TYPE_T :=
  | BYTE_T | WORD_T | STRING_T | BYTE5_T | BYTE6_T | BYTE13_T | IA_T | DWORD_T | BYTE_ARRAY_T | DWORD_ARRAY_T
  | RADVDPREFIX_T | DNSV6_T | DHCPV6S_T | DHCPV6C_T | ADDR6_T | ADDRV6_T | TUNNEL6_T
  | TABLE_LIST_T | ARRAY_T (n : nat).

(** [type >= TABLE_LIST_T] *)
Definition is_table_type (t : TYPE_T) : bool :=
  match t with TABLE_LIST_T | ARRAY_T _ => true | _ => false end.

(** [mib_table_entry_T].  A table is the list of its rows, the terminating row with id 0
    included or left out. *)
Inductive mib_table_entry :=
  MibEntry (id : Z) (type : TYPE_T) (offset total_size unit_size : Z) (next_mib_table : list mib_table_entry).

Definition m_id (m : mib_table_entry) : Z := let '(MibEntry i _ _ _ _ _) := m in i.
Definition m_type (m : mib_table_entry) : TYPE_T := let '(MibEntry _ t _ _ _ _) := m in t.
Definition m_offset (m : mib_table_entry) : Z := let '(MibEntry _ _ o _ _ _) := m in o.
Definition total_size (m : mib_table_entry) : Z := let '(MibEntry _ _ _ s _ _) := m in s.
Definition unit_size (m : mib_table_entry) : Z := let '(MibEntry _ _ _ _ u _) := m in u.
Definition next_mib_table (m : mib_table_entry) : list mib_table_entry := let '(MibEntry _ _ _ _ _ n) := m in n.

Definition is_table (m : mib_table_entry) : bool := is_table_type (m_type m).

Definition MIB_TABLE_LIST : Z := 0x8000.

Definition WORD_SWAP (v : Z) : Z := u16 (Z.lor (Z.land (Z.shiftr v 8) 0xff) (Z.land (Z.shiftl v 8) 0xff00)).
Definition DWORD_SWAP (v : Z) : Z :=
  Z.lor (Z.lor (Z.land (Z.shiftl (Z.land v 0xff) 24) 0xff000000)
               (Z.land (Z.shiftl (Z.land (Z.shiftr v 8) 0xff) 16) 0xff0000))
        (Z.lor (Z.land (Z.shiftl (Z.land (Z.shiftr v 16) 0xff) 8) 0xff00)
               (Z.land (Z.land (Z.shiftr v 24) 0xff) 0xff)).

Definition get_le16 (l : list Z) (off : Z) : option Z := le_val <$> zslice l off 2.
Definition put_le16 (l : list Z) (off z : Z) : option (list Z) := zwrite l off (le_bytes 2 z).

(** ** Searching *)

Section search.
Context (mib_id : Z).

Section rows.
(** The recursive call on the table of a row. *)
Context (sub : mib_table_entry -> Z -> option (option (mib_table_entry * Z))) (mib_num : Z).

(** The loop over the rows: the row found and its offset.  [None]: a row with unit size
    0 traps. *)
Fixpoint search_rows (tbl : list mib_table_entry) (offset : Z) : option (option (mib_table_entry * Z)) :=
  match tbl with
  | [] => Some None
  | m :: tbl =>
      if m_id m =? 0 then Some None
      else if mib_id =? m_id m then Some (Some (m, u32 (offset + (m_offset m + unit_size m * mib_num))))
      else if is_table m then
        if unit_size m =? 0 then None
        else if (total_size m mod unit_size m =? 0) && (mib_num <? total_size m / unit_size m) then
          r ← sub m (u32 (offset + (m_offset m + unit_size m * mib_num)));
          match r with Some x => Some (Some x) | None => search_rows tbl offset end
        else search_rows tbl offset
      else search_rows tbl offset
  end.
End rows.

(** [None]: more levels than [mib_num] has numbers. *)
Fixpoint search_next (m : mib_table_entry) (pmib_num : list Z) (offset : Z) {struct m}
  : option (option (mib_table_entry * Z)) :=
  match m with
  | MibEntry _ _ _ _ _ next =>
      match pmib_num with
      | [] => None
      | n :: rest => search_rows (fun m off => search_next m rest off) n next offset
      end
  end.

Definition mib_search_by_id (tbl : list mib_table_entry) (pmib_num : list Z) (offset : Z)
  : option (option (mib_table_entry * Z)) :=
  match pmib_num with
  | [] => None
  | n :: rest => search_rows (fun m off => search_next m rest off) n tbl offset
  end.
End search.

(** ** Writing a block *)

Section write.
Context (mib_data : list Z).

(** Tag, length and value of a row that is no table, taken at [off] in the settings; the
    state is the block and [*idx]. *)
Definition write_leaf (m : mib_table_entry) (off : Z) (st : list Z * Z) : option (list Z * Z) :=
  let '(pfile, idx) := st in
  pfile ← put_le16 pfile idx (WORD_SWAP (u16 (m_id m)));
  let idx := idx + 2 in
  let tlv_len := WORD_SWAP (total_size m) in
  pfile ← put_le16 pfile idx tlv_len;
  let idx := idx + 2 in
  value ← zslice mib_data off (WORD_SWAP tlv_len);
  pfile ← zwrite pfile idx value;
  Some (pfile, idx + WORD_SWAP tlv_len).

(** [for(j=0 ; j<tlv_num ; j++)]: [n] units, each written by [unit]. *)
Fixpoint write_units (unit : Z -> list Z * Z -> option (list Z * Z)) (n : nat) (size off : Z) (st : list Z * Z)
  : option (list Z * Z) :=
  match n with
  | O => Some st
  | S n => st ← unit off st; write_units unit n size (off + size) st
  end.

Section rows.
Context (rec : mib_table_entry -> Z -> list Z * Z -> option (list Z * Z)).

(** The traversal of a table from the row the running offset [off] belongs to.
    [tlv_len] is what the variable holds from the table before. *)
Fixpoint write_rows (tbl : list mib_table_entry) (off tlv_len : Z) (st : list Z * Z) : option (list Z * Z) :=
  match tbl with
  | [] => Some st
  | m :: tbl =>
      if m_id m =? 0 then Some st
      else if negb (is_table m) then
        st ← rec m off st; write_rows tbl (off + total_size m) tlv_len st
      else if unit_size m =? 0 then None
      else
        let '(pfile, idx) := st in
        pfile ← put_le16 pfile idx (WORD_SWAP (u16 (m_id m)));
        let idx := idx + 2 in
        pfile ← put_le16 pfile idx (WORD_SWAP tlv_len);
        let ptlv_len := idx in
        let idx := idx + 2 in
        let tlv_num := Z.to_nat (total_size m / unit_size m) in
        '(pfile, idx') ← write_units (rec m) tlv_num (unit_size m) off (pfile, idx);
        let tlv_len := WORD_SWAP (u16 (idx' - idx)) in
        pfile ← put_le16 pfile ptlv_len tlv_len;
        write_rows tbl (off + Z.of_nat tlv_num * unit_size m) tlv_len (pfile, idx')
  end.
End rows.

Fixpoint mib_write_to_raw (m : mib_table_entry) (off : Z) (st : list Z * Z) {struct m} : option (list Z * Z) :=
  match m with
  | MibEntry id type offset total unit next =>
      if is_table_type type then write_rows mib_write_to_raw next off 0 st
      else write_leaf (MibEntry id type offset total unit next) off st
  end.
End write.

(** [mib_tlv_save]: [pmib_tl] is what [mib_get_table] returns for the kind of settings, its
    first row in the list; the result, the block and the new [*tlv_content_len]. *)
Definition mib_tlv_save (pmib_tl : option (list mib_table_entry)) (mib_data : list Z) (mib_tlvfile : option (list Z))
    (tlv_content_len : Z) : option (Z * list Z * Z) :=
  match mib_tlvfile, pmib_tl with
  | Some f, Some (m :: _) => '(f, n) ← mib_write_to_raw mib_data m 0 (f, tlv_content_len); Some (1, f, n)
  | Some f, _ => Some (0, f, tlv_content_len)
  | None, _ => Some (0, [], tlv_content_len)
  end.

(** ** Reading a block *)

(** [strncpy (dst, src, n)]: the [n] bytes stored.  [None]: [src] ends before a NUL. *)
Fixpoint strncpy (n : nat) (src : list Z) : option (list Z) :=
  match n with
  | O => Some []
  | S n =>
      match src with
      | [] => None
      | c :: src => if c =? 0 then Some (replicate (S n) 0) else (fun r => c :: r) <$> strncpy n src
      end
  end.

(** [mib_init_value] storing the value of a row at [off]: the settings and the result.
    [None]: bytes outside the value or the settings. *)
Definition mib_init_value (value : list Z) (m : mib_table_entry) (data : list Z) (off : Z) : option (list Z * Z) :=
  match m_type m with
  | BYTE_T | BYTE_ARRAY_T | DWORD_ARRAY_T => d ← zwrite data off value; Some (d, 1)
  | WORD_T => v ← get_le16 value 0; d ← put_le16 data off (WORD_SWAP v); Some (d, 1)
  | DWORD_T => v ← get_le32 value 0; d ← put_le32 data off (DWORD_SWAP v); Some (d, 1)
  | STRING_T => s ← strncpy (Z.to_nat (total_size m)) value; d ← zwrite data off s; Some (d, 1)
  | IA_T | BYTE5_T | BYTE6_T | BYTE13_T
  | RADVDPREFIX_T | DNSV6_T | DHCPV6S_T | DHCPV6C_T | ADDR6_T | ADDRV6_T | TUNNEL6_T =>
      v ← zslice value 0 (total_size m); d ← zwrite data off v; Some (d, 1)
  | TABLE_LIST_T | ARRAY_T _ => Some (data, 0)
  end.

(** [find_same_tag_times]: how often the first tag occurs in a block. *)
Fixpoint same_tag_loop (fuel : nat) (block : list Z) (first i times : Z) : option Z :=
  match fuel with
  | O => None
  | S fuel =>
      if i <? zlen block then
        tag ← get_le16 block i;
        let times := if tag =? first then u16 (times + 1) else times in
        len ← get_le16 block (i + 2);
        same_tag_loop fuel block first (i + 4 + WORD_SWAP len) times
      else Some times
  end.

Definition find_same_tag_times (block : list Z) : option Z :=
  first ← get_le16 block 0; same_tag_loop (S (length block)) block first 0 0.

Section init.
(** Which sizes [malloc] can give. *)
Context (malloc : Z -> bool).

(** [mib_num], ten zeros. *)
Definition mib_num : list Z := replicate 10 0.

Section loop.
(** The recursive call: table, block, settings and [*pmib_root_offset]. *)
Context (rec : list mib_table_entry -> list Z -> list Z -> Z -> option (list Z * Z)).
Context (mib_root_tbl : list mib_table_entry) (block : list Z) (data_size pmib_root_offset : Z).

(** [while(j<tlv_num)]: the units of a table, [tlv_len] bytes each from [i] on. *)
Fixpoint init_units (n : nat) (pmib : mib_table_entry) (mib_offset i tlv_len j : Z) (pfile : list Z) : option (list Z) :=
  match n with
  | O => Some pfile
  | S n =>
      value ← zslice block (i + tlv_len * j) tlv_len;
      if unit_size pmib =? 0 then None
      else
        pfile ←
          (if j <? total_size pmib / unit_size pmib then
             '(pfile, _) ← rec (next_mib_table pmib) value pfile
                             (u32 (mib_offset + pmib_root_offset + j * unit_size pmib));
             Some pfile
           else Some pfile);
        init_units n pmib mib_offset i tlv_len (j + 1) pfile
  end.

(** [while(i<data_size)]: the settings and the result.  [on_stack]: [ptlv_data_value] still
    is the array [tlv_data_value]; the end of the function frees it.  [None]: that, or a
    read or write out of range. *)
Fixpoint init_loop (fuel : nat) (i : Z) (on_stack : bool) (pfile : list Z) : option (list Z * Z) :=
  match fuel with
  | O => None
  | S fuel =>
      if negb (i <? data_size) then if on_stack then None else Some (pfile, 1)
      else
        tag ← get_le16 block i;
        let tlv_tag := WORD_SWAP tag in
        len ← get_le16 block (i + 2);
        let tlv_len := WORD_SWAP len in
        let i := i + 4 in
        if Z.land tlv_tag MIB_TABLE_LIST =? 0 then
          if negb (malloc tlv_len) then Some (pfile, 0)
          else
            value ← zslice block i tlv_len;
            let i := i + tlv_len in
            found ← mib_search_by_id tlv_tag mib_root_tbl mib_num 0;
            match found with
            | None => init_loop fuel i false pfile
            | Some (m, mib_offset) =>
                '(pfile, _) ← mib_init_value value m pfile (u32 (mib_offset + pmib_root_offset));
                init_loop fuel i false pfile
            end
        else
          found ← mib_search_by_id tlv_tag mib_root_tbl mib_num 0;
          match found with
          | None => init_loop fuel (i + tlv_len) on_stack pfile
          | Some (pmib, mib_offset) =>
              if negb (malloc tlv_len) then Some (pfile, 0)
              else
                value ← zslice block i tlv_len;
                tlv_num ← find_same_tag_times value;
                let tlv_len := if tlv_num =? 0 then tlv_len else tlv_len / tlv_num in
                pfile ← init_units (Z.to_nat tlv_num) pmib mib_offset i tlv_len 0 pfile;
                init_loop fuel (i + tlv_len * tlv_num) false pfile
          end
  end.
End loop.

(** [depth] bounds the nesting of tables; every round of the loop passes four bytes. *)
Fixpoint mib_tlv_init_from (depth : nat) (mib_root_tbl : list mib_table_entry) (block pfile : list Z) (root_offset : Z)
  : option (list Z * Z) :=
  match depth with
  | O => None
  | S depth =>
      init_loop (mib_tlv_init_from depth) mib_root_tbl block (zlen block) root_offset (S (length block)) 0 true pfile
  end.

Definition mib_tlv_init (depth : nat) (mib_tbl : option (list mib_table_entry)) (from_data pfile : option (list Z))
    (tlv_content_len : Z) : option (option (list Z) * Z) :=
  match mib_tbl, from_data, pfile with
  | Some tbl, Some block, Some d =>
      if tlv_content_len =? 0 then Some (pfile, 0)
      else
        block ← zslice block 0 tlv_content_len;
        '(d, r) ← mib_tlv_init_from depth tbl block d 0;
        Some (Some d, if r =? 1 then 1 else 0)
  | _, _, _ => Some (pfile, 0)
  end.
End init.

(** [tlv_simple_mib_get]: the value found, or -1. *)
Fixpoint simple_get_loop (fuel : nat) (mib_id : Z) (from_data : list Z) (i : Z) : option (option (list Z)) :=
  match fuel with
  | O => None
  | S fuel =>
      if i <? zlen from_data then
        tlv_tag ← get_le16 from_data i;
        tlv_len ← get_le16 from_data (i + 2);
        let i := i + 4 in
        if mib_id =? tlv_tag then v ← zslice from_data i tlv_len; Some (Some v)
        else simple_get_loop fuel mib_id from_data (i + tlv_len)
      else Some None
  end.

Definition tlv_simple_mib_get (mib_id : Z) (from_data : list Z) : option (option (list Z)) :=
  simple_get_loop (S (length from_data)) mib_id from_data 0.

(** ** Byte swapping *)

Definition _mib_swap_value (m : mib_table_entry) (data : list Z) (off : Z) : option (list Z) :=
  match m_type m with
  | WORD_T => v ← get_le16 data off; put_le16 data off (WORD_SWAP v)
  | DWORD_T => v ← get_le32 data off; put_le32 data off (DWORD_SWAP v)
  | _ => Some data
  end.

(** [for (j=0; j<(mib->total_size / mib->unit_size); j++)] *)
Fixpoint swap_units (unit : Z -> list Z -> option (list Z)) (n : nat) (size new_offset : Z) (data : list Z) : option (list Z) :=
  match n with
  | O => Some data
  | S n => data ← unit new_offset data; swap_units unit n size (new_offset + size) data
  end.

Section swap_rows.
Context (rec : mib_table_entry -> Z -> list Z -> option (list Z)).

Fixpoint swap_rows (tbl : list mib_table_entry) (offset : Z) (data : list Z) : option (list Z) :=
  match tbl with
  | [] => Some data
  | m :: tbl =>
      if m_id m =? 0 then Some data
      else if unit_size m =? 0 then None
      else
        data ← swap_units (rec m) (Z.to_nat (total_size m / unit_size m)) (unit_size m) (offset + m_offset m) data;
        swap_rows tbl offset data
  end.
End swap_rows.

(** One unit of a row. *)
Fixpoint swap_row (m : mib_table_entry) (new_offset : Z) (data : list Z) {struct m} : option (list Z) :=
  match m with
  | MibEntry id type offset total unit next =>
      if is_table_type type then swap_rows swap_row next new_offset data
      else _mib_swap_value (MibEntry id type offset total unit next) data new_offset
  end.

Definition _mibtbl_swap_value (mib_tbl : list mib_table_entry) (data : list Z) (offset : Z) : option (list Z) :=
  swap_rows swap_row mib_tbl offset data.
