(* ===== verification/TlvSpec.v ===== *)
(** Correctness of the TLV blocks: what [mib_write_to_raw] writes, and that reading a
    written block gives the settings back. *)

From stdpp Require Import list.
From S2P Require Import Prelude Libc Tlv.

(** Induction on a table and the tables below it. *)
Lemma mib_ind (P : mib_table_entry -> Prop) :
  (forall id t o ts us next, Forall P next -> P (MibEntry id t o ts us next)) -> forall m, P m.
Proof.
  intros H. fix IH 1. intros [id t o ts us next]. apply H. induction next as [|m next IHn]; constructor; [apply IH|exact IHn].
Qed.

(** ** Words *)

Lemma land_ff_byte x : 0 <= x -> Z.land x 0xff = x mod 256.
Proof. intros Hx. change 0xff with (Z.ones 8). by rewrite Z.land_ones by lia. Qed.

Lemma shifted_byte x n : 0 <= n -> is_byte x -> Z.land (Z.shiftl x n) (Z.shiftl 0xff n) = Z.shiftl x n.
Proof. intros Hn Hx. rewrite <- Z.shiftl_land, land_ff_byte, Z.mod_small by width. done. Qed.

Lemma low_byte a r : is_byte a -> 0 <= r -> Z.land (a + 256 * r) 0xff = a /\ Z.shiftr (a + 256 * r) 8 = r.
Proof.
  intros Ha Hr. rewrite land_ff_byte, Z.shiftr_div_pow2 by width. change (2 ^ 8) with 256.
  rewrite (Z.mul_comm 256), Z.mod_add, Z.mod_small, Z.div_add, Z.div_small by width. width.
Qed.

Lemma word_swap_bytes a b : is_byte a -> is_byte b -> WORD_SWAP (a + 256 * b) = b + 256 * a.
Proof.
  intros Ha Hb. destruct (low_byte a b Ha ltac:(width)) as [E S]. unfold WORD_SWAP. rewrite S.
  change 0xff00 with (Z.shiftl 0xff 8). rewrite <- Z.shiftl_land, E, land_ff_byte, Z.mod_small by width.
  rewrite Z.lor_comm, lor_shiftl_add, u16_id by width. lia.
Qed.

Lemma le_val_2 a b : le_val [a; b] = a + 256 * b.
Proof. unfold le_val. lia. Qed.

Lemma le_val_4 a b c d : le_val [a; b; c; d] = a + 256 * (b + 256 * (c + 256 * d)).
Proof. unfold le_val. lia. Qed.

Lemma word_swap_le a b : is_byte a -> is_byte b -> le_bytes 2 (WORD_SWAP (le_val [a; b])) = [b; a].
Proof.
  intros Ha Hb. rewrite le_val_2, word_swap_bytes by done. rewrite <- le_val_2.
  apply (le_bytes_val [b; a]). by rewrite !Forall_cons, Forall_nil.
Qed.

Lemma dword_swap_bytes a b c d : is_byte a -> is_byte b -> is_byte c -> is_byte d ->
  DWORD_SWAP (a + 256 * (b + 256 * (c + 256 * d))) = d + 256 * (c + 256 * (b + 256 * a)).
Proof.
  intros Ha Hb Hc Hd. unfold DWORD_SWAP. set (v := a + _).
  destruct (low_byte a (b + 256 * (c + 256 * d)) Ha ltac:(width)) as [E1 S1].
  destruct (low_byte b (c + 256 * d) Hb ltac:(width)) as [E2 S2]. destruct (low_byte c d Hc ltac:(width)) as [E3 S3].
  assert (Z.shiftr v 16 = c + 256 * d) as S16 by (change 16 with (8 + 8); rewrite <- Z.shiftr_shiftr by lia; unfold v; by rewrite S1).
  assert (Z.shiftr v 24 = d) as S24 by (change 24 with (16 + 8); rewrite <- Z.shiftr_shiftr, S16 by lia; done).
  fold v in E1, S1. rewrite E1, S1, E2, S16, E3, S24, !(land_ff_byte d), (Z.mod_small d), (land_ff_byte d), (Z.mod_small d) by width.
  change 0xff000000 with (Z.shiftl 0xff 24). change 0xff0000 with (Z.shiftl 0xff 16). change 0xff00 with (Z.shiftl 0xff 8).
  rewrite !shifted_byte, <- Z.lor_assoc by (done || lia).
  rewrite (lor_shiftl_add 8 c d), (lor_shiftl_add 16), (lor_shiftl_add 24) by width. lia.
Qed.

Lemma dword_swap_le a b c d : is_byte a -> is_byte b -> is_byte c -> is_byte d ->
  le_bytes 4 (DWORD_SWAP (le_val [a; b; c; d])) = [d; c; b; a].
Proof.
  intros Ha Hb Hc Hd. rewrite le_val_4, dword_swap_bytes, <- le_val_4 by done.
  apply (le_bytes_val [d; c; b; a]). by rewrite !Forall_cons, Forall_nil.
Qed.

Lemma u16_split v : is_u16 v -> exists a b, is_byte a /\ is_byte b /\ v = a + 256 * b.
Proof. intros Hv. exists (v mod 256), (v / 256). pose proof (Z.div_mod v 256). pose proof (Z.mod_pos_bound v 256). width. Qed.

Lemma le_bytes_2 a b : is_byte a -> is_byte b -> le_bytes 2 (a + 256 * b) = [a; b].
Proof. intros Ha Hb. rewrite <- le_val_2. apply (le_bytes_val [a; b]). by rewrite !Forall_cons, Forall_nil. Qed.

(** Tags and lengths are stored in network order. *)
Lemma store_word v : is_u16 v -> le_bytes 2 (WORD_SWAP v) = be_bytes 2 v.
Proof.
  intros Hv. destruct (u16_split v Hv) as (a & b & Ha & Hb & ->). rewrite word_swap_bytes, le_bytes_2 by done.
  unfold be_bytes. by rewrite le_bytes_2.
Qed.

Lemma load_word v : is_u16 v -> WORD_SWAP (le_val (be_bytes 2 v)) = v.
Proof.
  intros Hv. destruct (u16_split v Hv) as (a & b & Ha & Hb & ->). unfold be_bytes. rewrite le_bytes_2 by done.
  cbn [rev app]. by rewrite le_val_2, word_swap_bytes.
Qed.

Lemma word_swap_swap v : is_u16 v -> WORD_SWAP (WORD_SWAP v) = v.
Proof. intros Hv. destruct (u16_split v Hv) as (a & b & Ha & Hb & ->). by rewrite !word_swap_bytes. Qed.

Lemma word_swap_range v : is_u16 (WORD_SWAP v).
Proof. unfold WORD_SWAP. apply u16_range. Qed.

(** ** The encoding

    A row's bytes in the settings are cut into its units, a unit of a table into the rows of
    the table below. *)

Fixpoint units (n : nat) (size : Z) (u : list Z) : list (list Z) :=
  match n with
  | O => []
  | S n => take (Z.to_nat size) u :: units n size (drop (Z.to_nat size) u)
  end.

Definition unit_count (m : mib_table_entry) : nat := Z.to_nat (total_size m / unit_size m).

(** [g m u] on the bytes of every row. *)
Definition on_rows (g : mib_table_entry -> list Z -> list Z) : list mib_table_entry -> list Z -> list Z :=
  fix on_rows tbl u :=
    match tbl with
    | [] => []
    | m :: tbl => g m (take (Z.to_nat (total_size m)) u) ++ on_rows tbl (drop (Z.to_nat (total_size m)) u)
    end.

Definition on_units (f : mib_table_entry -> list Z -> list Z) (m : mib_table_entry) (u : list Z) : list Z :=
  concat (f m <$> units (unit_count m) (unit_size m) u).

(** A row of a block: a table has a tag and a length of its own. *)
Definition enc_row (f : mib_table_entry -> list Z -> list Z) (m : mib_table_entry) (u : list Z) : list Z :=
  if is_table m then be_bytes 2 (m_id m) ++ be_bytes 2 (zlen (on_units f m u)) ++ on_units f m u else f m u.

(** What [mib_write_to_raw] writes for one unit [u] of a row. *)
Fixpoint enc (m : mib_table_entry) (u : list Z) : list Z :=
  match m with
  | MibEntry id type _ total _ next =>
      if is_table_type type then on_rows (enc_row enc) next u
      else be_bytes 2 id ++ be_bytes 2 total ++ u
  end.

(** A row and a unit after [_mibtbl_swap_value]. *)
Definition swapped_row (f : mib_table_entry -> list Z -> list Z) (m : mib_table_entry) (u : list Z) : list Z :=
  if is_table m then on_units f m u else f m u.
Fixpoint swapped (m : mib_table_entry) (u : list Z) : list Z :=
  match m with
  | MibEntry _ type _ _ _ next =>
      if is_table_type type then on_rows (swapped_row swapped) next u
      else match type with WORD_T | DWORD_T => rev u | _ => u end
  end.

(** ** Well-formed tables

    The rows of a table lie one behind the other in the settings and fill a unit of the row
    that points to it; tags of tables have the top bit; the encoding of a table has a
    16-bit length. *)

(** The bytes of the rows. *)
Definition span (tbl : list mib_table_entry) : Z := foldr (fun m n => total_size m + n) 0 tbl.

(** The length of the encoding of one unit, and of a row. *)
Definition row_size (f : mib_table_entry -> Z) (m : mib_table_entry) : Z :=
  if is_table m then 4 + Z.of_nat (unit_count m) * f m else f m.
Fixpoint enc_size (m : mib_table_entry) : Z :=
  match m with
  | MibEntry _ type _ total _ next =>
      if is_table_type type then foldr (fun m n => row_size enc_size m + n) 0 next else 4 + total
  end.

Fixpoint laid_out (off : Z) (tbl : list mib_table_entry) : bool :=
  match tbl with
  | [] => true
  | m :: tbl => (m_offset m =? off) && laid_out (off + total_size m) tbl
  end.

Fixpoint wf_entry (m : mib_table_entry) : bool :=
  match m with
  | MibEntry id type _ total unit next =>
      (0 <? id) && (0 <? total) && (total <? 2 ^ 16) && (0 <? unit) &&
      if is_table_type type then
        (MIB_TABLE_LIST <=? id) && (id <? 2 ^ 16) && (total mod unit =? 0) &&
        negb (bool_decide (next = [])) && (span next =? unit) && laid_out 0 next &&
        (total / unit * foldr (fun m n => row_size enc_size m + n) 0 next <? 2 ^ 16) &&
        forallb wf_entry next
      else
        (id <? MIB_TABLE_LIST) &&
        match type with
        | WORD_T => (total =? 2) && (unit =? 2)
        | DWORD_T => (total =? 4) && (unit =? 4)
        | _ => true
        end
  end.

(** All tags of a row and the tables below it. *)
Fixpoint ids (m : mib_table_entry) : list Z :=
  match m with
  | MibEntry id type _ _ _ next => id :: (if is_table_type type then mjoin (ids <$> next) else [])
  end.

Fixpoint height (m : mib_table_entry) : nat :=
  match m with
  | MibEntry _ type _ _ _ next =>
      if is_table_type type then S (foldr (fun m n => height m `max` n)%nat 0%nat next) else 0
  end.

(** Strings are padded with NULs. *)
Definition clean_value (m : mib_table_entry) (u : list Z) : bool :=
  match m_type m with
  | STRING_T => bool_decide (strncpy (Z.to_nat (total_size m)) u = Some u)
  | _ => true
  end.
Definition clean_rows (f : mib_table_entry -> list Z -> bool) : list mib_table_entry -> list Z -> bool :=
  fix clean_rows tbl u :=
    match tbl with
    | [] => true
    | m :: tbl =>
        (if is_table m then forallb (f m) (units (unit_count m) (unit_size m) (take (Z.to_nat (total_size m)) u))
         else f m (take (Z.to_nat (total_size m)) u)) &&
        clean_rows tbl (drop (Z.to_nat (total_size m)) u)
    end.
Fixpoint clean (m : mib_table_entry) (u : list Z) : bool :=
  match m with
  | MibEntry id type o total unit next =>
      if is_table_type type then clean_rows clean next u else clean_value (MibEntry id type o total unit next) u
  end.

(** ** Using well-formedness *)

Definition unit_len (m : mib_table_entry) : Z := if is_table m then unit_size m else total_size m.

Lemma wf_basic m : wf_entry m = true -> 0 < m_id m < 2 ^ 16 /\ 0 < total_size m < 2 ^ 16 /\ 0 < unit_size m.
Proof.
  destruct m as [id t o ts us next]. cbn [wf_entry m_id total_size unit_size]. rewrite !andb_true_iff.
  destruct (is_table_type t); rewrite !andb_true_iff; unfold MIB_TABLE_LIST; intros; lia.
Qed.

Record wf_table (m : mib_table_entry) : Prop := {
  wt_id : MIB_TABLE_LIST <= m_id m;
  wt_total : total_size m = Z.of_nat (unit_count m) * unit_size m;
  wt_count : (0 < unit_count m)%nat;
  wt_next : next_mib_table m <> [];
  wt_span : span (next_mib_table m) = unit_size m;
  wt_laid : laid_out 0 (next_mib_table m) = true;
  wt_size : Z.of_nat (unit_count m) * enc_size m < 2 ^ 16;
  wt_rows : Forall (fun r => wf_entry r = true) (next_mib_table m)
}.

Lemma wf_table_inv m : wf_entry m = true -> is_table m = true -> wf_table m.
Proof.
  intros Hwf Ht. pose proof (wf_basic m Hwf) as (Hi & Hts & Hus). destruct m as [id t o ts us next].
  cbn [is_table m_type m_id total_size unit_size] in *. unfold is_table in Ht. cbn [m_type] in Ht.
  cbn [wf_entry] in Hwf. rewrite Ht, !andb_true_iff in Hwf.
  destruct Hwf as (_ & ((((((H1 & H2) & H3) & H4) & H5) & H6) & H7) & H8).
  assert (Z.of_nat (unit_count (MibEntry id t o ts us next)) = ts / us) as Hc
    by (unfold unit_count; cbn [total_size unit_size]; rewrite Z2Nat.id; [done|apply Z.div_pos; lia]).
  pose proof (Z.div_mod ts us ltac:(lia)) as Hdm.
  split; cbn [m_id total_size unit_size next_mib_table enc_size]; rewrite ?Hc, ?Ht; try lia.
  - apply negb_true_iff, bool_decide_eq_false in H4. done.
  - done.
  - apply Forall_forall. intros r Hr. rewrite forallb_forall in H8. by apply H8, list_elem_of_In.
Qed.

Lemma wf_leaf_id m : wf_entry m = true -> is_table m = false -> m_id m < MIB_TABLE_LIST.
Proof.
  destruct m as [id t o ts us next]. unfold is_table. cbn [wf_entry m_id m_type]. intros Hwf Ht. rewrite Ht, !andb_true_iff in Hwf.
  destruct Hwf as (_ & H & _). lia.
Qed.

Lemma unit_len_pos m : wf_entry m = true -> 0 < unit_len m.
Proof. intros (_ & ? & ?)%wf_basic. unfold unit_len. destruct (is_table m); lia. Qed.

Lemma span_nonneg tbl : Forall (fun r => wf_entry r = true) tbl -> 0 <= span tbl.
Proof. induction 1 as [|m tbl Hm _ IH]; [done|]. cbn. pose proof (wf_basic m Hm). fold (span tbl). lia. Qed.

Lemma units_spec n size (u : list Z) : 0 <= size -> zlen u = Z.of_nat n * size ->
  concat (units n size u) = u /\ Forall (fun x => zlen x = size) (units n size u) /\ length (units n size u) = n.
Proof.
  intros Hs. revert u. induction n as [|n IH]; intros u Hu; cbn [units concat length].
  - destruct u; [done|cbn [length] in Hu; lia].
  - destruct (IH (drop (Z.to_nat size) u)) as (H1 & H2 & H3); [rewrite length_drop; lia|].
    rewrite H1, H3, take_drop. split_and!; [done| |done]. constructor; [rewrite length_take; lia|done].
Qed.

(** A row of a table: its units. *)
Lemma row_units m (u : list Z) : wf_entry m = true -> is_table m = true -> zlen u = total_size m ->
  concat (units (unit_count m) (unit_size m) u) = u /\
  Forall (fun x => zlen x = unit_len m) (units (unit_count m) (unit_size m) u) /\
  length (units (unit_count m) (unit_size m) u) = unit_count m.
Proof.
  intros Hwf Ht Hu. unfold unit_len. rewrite Ht. pose proof (wf_basic m Hwf). pose proof (wt_total m (wf_table_inv m Hwf Ht)).
  apply units_spec; lia.
Qed.

(** Lengths of the encoding *)
Lemma concat_same_length {A} (k : Z) (ls : list (list A)) : Forall (fun x => zlen x = k) ls -> zlen (concat ls) = zlen ls * k.
Proof. induction 1 as [|x ls Hx _ IH]; [done|]. cbn [concat length]. rewrite length_app. lia. Qed.

Lemma enc_length m : wf_entry m = true -> forall u, zlen u = unit_len m -> zlen (enc m u) = enc_size m.
Proof.
  induction m as [id t o ts us next IH] using mib_ind. intros Hwf u Hu. unfold unit_len, is_table in Hu. cbn [m_type] in Hu.
  cbn [enc enc_size]. destruct (is_table_type t) eqn:Et.
  - assert (is_table (MibEntry id t o ts us next) = true) as Ht by done. pose proof (wf_table_inv _ Hwf Ht) as Htab.
    pose proof (wt_span _ Htab) as Hsp. pose proof (wt_rows _ Htab) as Hrows. cbn [next_mib_table unit_size] in *.
    rewrite <- Hsp in Hu. clear -IH Hrows Hu. revert u Hu. induction next as [|m next IHn]; intros u Hu; [done|].
    apply Forall_cons in IH as [IHm IH]. apply Forall_cons in Hrows as [Hm Hrows]. pose proof (wf_basic m Hm). pose proof (span_nonneg next Hrows).
    change (span (m :: next)) with (total_size m + span next) in Hu.
    change (on_rows (enc_row enc) (m :: next) u) with (enc_row enc m (take (Z.to_nat (total_size m)) u) ++ on_rows (enc_row enc) next (drop (Z.to_nat (total_size m)) u)).
    rewrite length_app, Nat2Z.inj_add, (IHn IH Hrows) by (rewrite length_drop; lia). cbn [foldr]. f_equal.
    set (v := take _ u). assert (zlen v = total_size m) as Hv by (unfold v; rewrite length_take; lia).
    unfold enc_row, row_size. destruct (is_table m) eqn:Em; [|apply IHm; [done|unfold unit_len; by rewrite Em]].
    rewrite !length_app, !length_be_bytes. unfold on_units.
    destruct (row_units m v Hm Em Hv) as (_ & Hall & Hlen).
    rewrite !Nat2Z.inj_add, (concat_same_length (enc_size m)); [rewrite length_fmap, Hlen; lia|].
    apply Forall_fmap. eapply Forall_impl; [exact Hall|]. intros x Hx. by apply IHm.
  - rewrite !length_app, !length_be_bytes. cbn [total_size] in Hu. lia.
Qed.

(** ** Writing *)

(** A writer that appends [bytes] to the block. *)
Definition appends (f : list Z * Z -> option (list Z * Z)) (bytes : list Z) : Prop :=
  forall pre room, (length bytes <= length room)%nat ->
    f (pre ++ room, zlen pre) = Some ((pre ++ bytes) ++ drop (length bytes) room, zlen (pre ++ bytes)).

Lemma appends_nil f : (forall st, f st = Some st) -> appends f [].
Proof. intros Hf pre room _. by rewrite Hf, app_nil_r. Qed.

Lemma appends_seq f g a b : appends f a -> appends g b -> appends (fun st => st ← f st; g st) (a ++ b).
Proof.
  intros Hf Hg pre room Hl. rewrite length_app in Hl. rewrite Hf by lia. cbn [mbind option_bind].
  rewrite Hg by (rewrite length_drop; lia). rewrite drop_drop, <- (length_app a b), <- !app_assoc. done.
Qed.

Lemma put_word_end pre room v : is_u16 v -> (2 <= length room)%nat ->
  put_le16 (pre ++ room) (zlen pre) (WORD_SWAP v) = Some ((pre ++ be_bytes 2 v) ++ drop 2 room).
Proof.
  intros Hv Hl. unfold put_le16. rewrite store_word by done. rewrite zwrite_app_r by (by rewrite length_be_bytes).
  by rewrite length_be_bytes, <- app_assoc.
Qed.

(** The length of a table is filled in afterwards. *)
Lemma put_word_mid pre old post v : is_u16 v -> length old = 2%nat ->
  put_le16 (pre ++ old ++ post) (zlen pre) (WORD_SWAP v) = Some (pre ++ be_bytes 2 v ++ post).
Proof. intros Hv Hl. unfold put_le16. rewrite store_word by done. apply zwrite_app. by rewrite length_be_bytes. Qed.

Lemma u16_mono v : 0 <= v < 2 ^ 16 -> is_u16 v.
Proof. done. Qed.

Lemma write_leaf_appends m a u b : wf_entry m = true -> zlen u = total_size m ->
  appends (write_leaf (a ++ u ++ b) m (zlen a)) (be_bytes 2 (m_id m) ++ be_bytes 2 (total_size m) ++ u).
Proof.
  intros Hwf Hu pre room Hl. pose proof (wf_basic m Hwf) as (Hi & Hts & _). unfold write_leaf.
  rewrite !length_app, !length_be_bytes in Hl. rewrite (u16_id (m_id m)) by width.
  rewrite put_word_end by (width || lia). cbn [mbind option_bind].
  assert (zlen pre + 2 = zlen (pre ++ be_bytes 2 (m_id m))) as -> by (rewrite length_app, length_be_bytes; lia).
  rewrite put_word_end by (width || (rewrite length_drop; lia)). cbn [mbind option_bind].
  rewrite word_swap_swap, <- Hu, zslice_app by width. cbn [mbind option_bind].
  set (pre2 := (pre ++ _) ++ be_bytes 2 _).
  assert (zlen (pre ++ be_bytes 2 (m_id m)) + 2 = zlen pre2) as -> by (unfold pre2; rewrite (length_app (pre ++ _)), length_be_bytes; lia).
  rewrite drop_drop, zwrite_app_r by (rewrite length_drop; lia). cbn [mbind option_bind]. rewrite drop_drop. unfold pre2.
  f_equal. f_equal.
  - by rewrite <- !app_assoc, !length_app, !length_be_bytes.
  - rewrite !length_app, !length_be_bytes. lia.
Qed.

Section writing.
Context (D : list Z).

(** [f] writes any [size] bytes of the settings as [g] says. *)
Definition writes (f : Z -> list Z * Z -> option (list Z * Z)) (size : Z) (g : list Z -> list Z) : Prop :=
  forall a u b, D = a ++ u ++ b -> zlen u = size -> appends (f (zlen a)) (g u).

Lemma write_units_appends f size g : writes f size g ->
  forall us a b, D = a ++ concat us ++ b -> Forall (fun u => zlen u = size) us ->
  appends (write_units f (length us) size (zlen a)) (concat (g <$> us)).
Proof.
  intros Hf us. induction us as [|u us IH]; intros a b HD Hus; [by apply appends_nil|].
  apply Forall_cons in Hus as [Hu Hus]. cbn [length write_units fmap list_fmap concat] in *.
  apply appends_seq; [apply (Hf a u (concat us ++ b)); [by rewrite HD, <- app_assoc|done]|].
  replace (zlen a + size) with (zlen (a ++ u)) by (rewrite length_app; lia).
  apply (IH (a ++ u) b); [by rewrite HD, <- !app_assoc|done].
Qed.

(** The rows of a table, given what the recursive calls write. *)
Lemma write_rows_appends rec tbl :
  Forall (fun m => wf_entry m = true /\ writes (rec m) (unit_len m) (enc m)) tbl ->
  forall a u b tlv_len, D = a ++ u ++ b -> zlen u = span tbl -> is_u16 tlv_len ->
  appends (write_rows rec tbl (zlen a) tlv_len) (on_rows (enc_row enc) tbl u).
Proof.
  induction 1 as [|m tbl [Hwf Hw] Htbl IH]; intros a u b tlv_len HD Hu Hlen; [by apply appends_nil|].
  pose proof (wf_basic m Hwf) as (Hi & Hts & Hus). change (span (m :: tbl)) with (total_size m + span tbl) in Hu.
  assert (0 <= span tbl) as Hsp by (apply span_nonneg; eapply Forall_impl; [exact Htbl|]; naive_solver).
  set (v := take (Z.to_nat (total_size m)) u). set (w := drop (Z.to_nat (total_size m)) u).
  assert (u = v ++ w) as Eu by (symmetry; apply take_drop).
  assert (zlen v = total_size m /\ zlen w = span tbl) as [Hv Hvw] by (unfold v, w; rewrite length_take, length_drop; lia).
  change (on_rows (enc_row enc) (m :: tbl) u) with (enc_row enc m v ++ on_rows (enc_row enc) tbl w).
  assert (D = (a ++ v) ++ w ++ b) as HD' by (rewrite HD, Eu, <- !app_assoc; done).
  assert (zlen (a ++ v) = zlen a + total_size m) as Ha by (rewrite length_app; lia).
  intros pre room Hroom. cbn [write_rows]. rewrite (proj2 (Z.eqb_neq _ 0)) by lia.
  destruct (is_table m) eqn:Et; cbn [negb].
  - assert (enc_row enc m v = be_bytes 2 (m_id m) ++ be_bytes 2 (zlen (on_units enc m v)) ++ on_units enc m v) as Er
      by (unfold enc_row; by rewrite Et). rewrite Er in *. clear Er. pose proof (wf_table_inv m Hwf Et) as Htab. destruct (row_units m v Hwf Et Hv) as (Hcat & Hall & Hlu).
    rewrite (proj2 (Z.eqb_neq _ 0)) by lia. fold (unit_count m). set (body := on_units enc m v) in *.
    assert (zlen body = Z.of_nat (unit_count m) * enc_size m) as Hbody.
    { unfold body, on_units. rewrite (concat_same_length (enc_size m)), length_fmap, Hlu; [done|]. apply Forall_fmap.
      eapply Forall_impl; [exact Hall|]. intros x Hx. by apply enc_length. }
    pose proof (wt_size m Htab) as Hsize. rewrite !length_app, !length_be_bytes in Hroom.
    rewrite (u16_id (m_id m)), put_word_end by (width || lia). cbn [mbind option_bind].
    set (pre1 := pre ++ be_bytes 2 (m_id m)).
    assert (zlen pre + 2 = zlen pre1) as -> by (unfold pre1; rewrite length_app, length_be_bytes; lia).
    rewrite put_word_end by (done || (rewrite length_drop; lia)). cbn [mbind option_bind].
    assert (zlen pre1 + 2 = zlen (pre1 ++ be_bytes 2 tlv_len)) as -> by (rewrite length_app, length_be_bytes; lia).
    assert (unit_len m = unit_size m) as Hul by (unfold unit_len; by rewrite Et). rewrite Hul in Hw, Hall.
    pose proof (write_units_appends (rec m) (unit_size m) (enc m) Hw (units (unit_count m) (unit_size m) v) a (w ++ b)) as Hunits.
    rewrite Hcat, Hlu in Hunits. rewrite Hunits; [|by rewrite HD', <- app_assoc|done|change (length body <= length (drop 2 (drop 2 room)))%nat; rewrite !length_drop; lia].
    change (concat (enc m <$> units (unit_count m) (unit_size m) v)) with body. cbn [mbind option_bind].
    assert (u16 (zlen ((pre1 ++ be_bytes 2 tlv_len) ++ body) - zlen (pre1 ++ be_bytes 2 tlv_len)) = zlen body) as ->.
    { rewrite (length_app (pre1 ++ _)). replace (_ - _) with (zlen body) by lia. apply u16_id. width. }
    rewrite <- !(app_assoc pre1), <- !(app_assoc (be_bytes 2 tlv_len)). rewrite put_word_mid by (width || by rewrite length_be_bytes).
    cbn [mbind option_bind]. rewrite <- (wt_total m Htab), <- Ha.
    set (pre3 := pre1 ++ be_bytes 2 (zlen body) ++ body).
    assert (zlen (pre1 ++ be_bytes 2 tlv_len ++ body) = zlen pre3) as -> by (unfold pre3; rewrite !length_app, !length_be_bytes; done).
    rewrite (app_assoc (be_bytes 2 (zlen body))), (app_assoc pre1). fold pre3.
    rewrite (IH (a ++ v) w b (WORD_SWAP (zlen body)) HD' Hvw (word_swap_range _)) by (rewrite !length_drop; lia).
    unfold pre3, pre1. rewrite <- !app_assoc, !drop_drop. repeat rewrite length_app. by rewrite !length_be_bytes.
  - assert (unit_len m = total_size m) as Hul by (unfold unit_len; by rewrite Et). rewrite Hul in Hw. rewrite <- Ha.
    assert (enc_row enc m v = enc m v) as Er by (unfold enc_row; by rewrite Et). rewrite Er in *.
    apply (appends_seq (rec m (zlen a)) (write_rows rec tbl (zlen (a ++ v)) tlv_len)); [|by apply (IH _ _ b)|done].
    apply (Hw a v (w ++ b)); [by rewrite HD', <- app_assoc|done].
Qed.

(** [mib_write_to_raw] implements the encoding. *)
Lemma write_to_raw_writes m : wf_entry m = true -> writes (mib_write_to_raw D m) (unit_len m) (enc m).
Proof.
  induction m as [id t o ts us next IH] using mib_ind. intros Hwf a u b HD Hu. unfold unit_len, is_table in Hu. cbn [m_type] in Hu.
  cbn [mib_write_to_raw enc]. destruct (is_table_type t) eqn:Et.
  - assert (is_table (MibEntry id t o ts us next) = true) as Ht by done. pose proof (wf_table_inv _ Hwf Ht) as Htab.
    pose proof (wt_span _ Htab) as Hsp. pose proof (wt_rows _ Htab) as Hrows. cbn [next_mib_table unit_size] in *.
    apply (write_rows_appends _ next) with (b := b); [|done|by rewrite Hu|width].
    apply Forall_forall. intros r Hr. rewrite Forall_forall in IH, Hrows. split; [by apply Hrows|]. apply IH; [done|by apply Hrows].
  - rewrite HD. apply (write_leaf_appends (MibEntry id t o ts us next)); [done|done].
Qed.
End writing.
