(* ===== verification/TlvRead.v ===== *)
(** Reading a block back: searching a table, counting the units of a table, and the loop of
    [mib_tlv_init_from]; and swapping the settings before they are written. *)

From stdpp Require Import list.
From S2P Require Import Prelude Libc Tlv TlvSpec.

(** ** Searching *)

Section search.
Context (id : Z).

Lemma search_rows_none sub tbl off :
  Forall (fun m => wf_entry m = true /\ m_id m <> id /\ (is_table m = true -> forall o, sub m o = Some None)) tbl ->
  search_rows id sub 0 tbl off = Some None.
Proof.
  induction 1 as [|m tbl (Hwf & Hne & Hsub) _ IH]; [done|]. pose proof (wf_basic m Hwf) as (Hi & Hts & Hus). cbn [search_rows].
  rewrite (proj2 (Z.eqb_neq (m_id m) 0)), (proj2 (Z.eqb_neq id (m_id m))) by lia.
  destruct (is_table m) eqn:Et; [|done]. rewrite (proj2 (Z.eqb_neq (unit_size m) 0)) by lia.
  destruct (_ && _); [|done]. by rewrite Hsub.
Qed.

Lemma search_rows_hit sub pre r post off :
  Forall (fun m => wf_entry m = true /\ m_id m <> id /\ (is_table m = true -> forall o, sub m o = Some None)) pre ->
  wf_entry r = true -> m_id r = id ->
  search_rows id sub 0 (pre ++ r :: post) off = Some (Some (r, u32 (off + m_offset r))).
Proof.
  intros Hpre Hr Hid. induction Hpre as [|m tbl (Hwf & Hne & Hsub) _ IH].
  - cbn [app search_rows]. pose proof (wf_basic r Hr) as (Hi & _). rewrite (proj2 (Z.eqb_neq (m_id r) 0)) by lia.
    rewrite Hid, Z.eqb_refl. by rewrite Z.mul_0_r, Z.add_0_r.
  - pose proof (wf_basic m Hwf) as (Hi & Hts & Hus). cbn [app search_rows].
    rewrite (proj2 (Z.eqb_neq (m_id m) 0)), (proj2 (Z.eqb_neq id (m_id m))) by lia.
    destruct (is_table m) eqn:Et; [|done]. rewrite (proj2 (Z.eqb_neq (unit_size m) 0)) by lia.
    destruct (_ && _); [|done]. by rewrite Hsub.
Qed.

Definition heights (tbl : list mib_table_entry) : nat := foldr (fun m n => height m `max` n)%nat 0%nat tbl.

Lemma heights_elem m tbl : m ∈ tbl -> (height m <= heights tbl)%nat.
Proof. induction 1 as [|m x tbl _ IH]; cbn; [|unfold heights in IH]; lia. Qed.

Lemma height_table m : is_table m = true -> height m = S (heights (next_mib_table m)).
Proof. destruct m as [i t o ts us n]. unfold is_table. cbn [m_type height next_mib_table]. by intros ->. Qed.

Lemma ids_table m : is_table m = true -> ids m = m_id m :: mjoin (ids <$> next_mib_table m).
Proof. destruct m as [i t o ts us n]. unfold is_table. cbn [m_type ids next_mib_table m_id]. by intros ->. Qed.

Lemma ids_head m : m_id m ∈ ids m.
Proof. destruct m as [i t o ts us n]. cbn [ids m_id]. left. Qed.

Lemma elem_ids x m tbl : x ∈ ids m -> m ∈ tbl -> x ∈ mjoin (ids <$> tbl).
Proof. intros Hx Hm. apply list_elem_of_join. exists (ids m). split; [done|]. by apply list_elem_of_fmap_2. Qed.

Lemma search_next_none m : forall k off, wf_entry m = true -> is_table m = true -> (height m <= k)%nat ->
  id ∉ mjoin (ids <$> next_mib_table m) -> search_next id m (replicate k 0) off = Some None.
Proof.
  induction m as [i t o ts us next IH] using mib_ind. intros k off Hwf Ht Hk Hid.
  rewrite (height_table _ Ht) in Hk. cbn [next_mib_table] in *. destruct k as [|k]; [lia|]. cbn [search_next replicate].
  apply search_rows_none. pose proof (wt_rows _ (wf_table_inv _ Hwf Ht)) as Hrows. cbn [next_mib_table] in Hrows.
  rewrite Forall_forall in Hrows, IH. apply Forall_forall. intros m Hm. split_and!; [by apply Hrows| |].
  - intros <-. apply Hid. by apply (elem_ids _ m); [apply ids_head|].
  - intros Htm o'. apply IH; [done|by apply Hrows|done|pose proof (heights_elem m next Hm); lia|].
    intros Hin. apply Hid. apply (elem_ids _ m); [|done]. rewrite (ids_table m Htm). by right.
Qed.
End search.

(** Every row of a table is found from the table. *)
Lemma search_row tbl r k off :
  Forall (fun m => wf_entry m = true) tbl -> NoDup (mjoin (ids <$> tbl)) -> (heights tbl <= k)%nat -> r ∈ tbl ->
  mib_search_by_id (m_id r) tbl (replicate (S k) 0) off = Some (Some (r, u32 (off + m_offset r))).
Proof.
  intros Hwf Hnd Hk Hr. cbn [mib_search_by_id replicate]. rewrite Forall_forall in Hwf.
  pose proof Hr as (pre & post & Etbl)%list_elem_of_split. rewrite Etbl.
  apply search_rows_hit; [|by apply Hwf|done]. apply Forall_forall. intros m Hm.
  assert (m ∈ tbl) as Hmt by (rewrite Etbl; apply elem_of_app; by left).
  rewrite Etbl, fmap_app, fmap_cons, join_app in Hnd. apply NoDup_app in Hnd as (_ & Hdisj & _).
  assert (forall x, x ∈ ids m -> x <> m_id r) as Hx.
  { intros x Hx ->. apply (Hdisj (m_id r)); [by apply (elem_ids _ m)|]. cbn [mjoin list_join]. apply elem_of_app. left. apply ids_head. }
  split_and!; [by apply Hwf|apply Hx, ids_head|]. intros Htm o. apply search_next_none; [by apply Hwf|done|pose proof (heights_elem m tbl Hmt); lia|].
  intros Hin. apply (Hx (m_id r)); [|done]. rewrite (ids_table m Htm). by right.
Qed.

(** ... and from a root row that points to it. *)
Definition root_ok (root : mib_table_entry) : Prop :=
  is_table root = true /\ 0 < m_id root /\ m_offset root = 0 /\ 0 < unit_size root /\ total_size root = unit_size root /\
  next_mib_table root <> [] /\ laid_out 0 (next_mib_table root) = true /\
  Forall (fun m => wf_entry m = true) (next_mib_table root) /\ NoDup (ids root).

Lemma search_root root r : root_ok root -> (height root <= 9)%nat -> r ∈ next_mib_table root ->
  mib_search_by_id (m_id r) [root] mib_num 0 = Some (Some (r, u32 (m_offset r))).
Proof.
  intros (Ht & Hid & Ho & Hus & Hts & Hne & _ & Hwf & Hnd) Hh Hr. rewrite (height_table root Ht) in Hh.
  rewrite (ids_table root Ht) in Hnd. apply NoDup_cons in Hnd as [Hnin Hnd].
  unfold mib_num. change 10%nat with (S 9). cbn [mib_search_by_id replicate search_rows].
  rewrite (proj2 (Z.eqb_neq (m_id root) 0)) by lia.
  rewrite (proj2 (Z.eqb_neq (m_id r) (m_id root))) by (intros E; apply Hnin; rewrite <- E; apply (elem_ids _ r); [apply ids_head|done]).
  rewrite Ht, (proj2 (Z.eqb_neq (unit_size root) 0)), Hts, Z.mod_same, Z.div_same, Ho, Z.mul_0_r by lia.
  change (u32 (0 + (0 + 0))) with 0. cbn [Z.eqb Z.ltb Z.compare andb].
  pose proof (search_row (next_mib_table root) r 8 0 Hwf Hnd ltac:(lia) Hr) as Hs. destruct root as [i t o ts us next].
  cbn [next_mib_table] in Hs. change (search_next (m_id r) (MibEntry i t o ts us next) [0; 0; 0; 0; 0; 0; 0; 0; 0] 0) with (mib_search_by_id (m_id r) next (replicate 9 0) 0).
  by rewrite Hs.
Qed.

(** ** Rows of a block *)

Definition payload (m : mib_table_entry) (u : list Z) : list Z := if is_table m then on_units enc m u else u.

Lemma enc_row_form m u : wf_entry m = true -> zlen u = total_size m ->
  enc_row enc m u = be_bytes 2 (m_id m) ++ be_bytes 2 (zlen (payload m u)) ++ payload m u /\ is_u16 (zlen (payload m u)).
Proof.
  intros Hwf Hu. pose proof (wf_basic m Hwf) as (Hi & Hts & Hus). unfold enc_row, payload. destruct (is_table m) eqn:Et.
  - split; [done|]. destruct (row_units m u Hwf Et Hu) as (_ & Hall & Hlu). unfold on_units.
    rewrite (concat_same_length (enc_size m)), length_fmap, Hlu;
      [pose proof (wt_size m (wf_table_inv m Hwf Et))|apply Forall_fmap; eapply Forall_impl; [exact Hall|]; intros x Hx; by apply enc_length].
    split; [|done]. apply Zmult_le_0_compat; [lia|].
    destruct (decide (unit_count m = 0%nat)) as [E|E]; [pose proof (wt_count m (wf_table_inv m Hwf Et)); lia|].
    destruct (units (unit_count m) (unit_size m) u) as [|x us] eqn:Eu; [simpl in Hlu; lia|].
    apply Forall_cons in Hall as [Hx _]. rewrite <- (enc_length m Hwf x Hx). lia.
  - rewrite Hu. split; [|width]. destruct m as [i t o ts us n]. unfold is_table in Et. cbn [m_type enc] in *. rewrite Et. done.
Qed.

Lemma get_word_at a v b : is_u16 v -> get_le16 (a ++ be_bytes 2 v ++ b) (zlen a) = Some (le_val (be_bytes 2 v)).
Proof.
  intros Hv. unfold get_le16. pose proof (zslice_app a (be_bytes 2 v) b) as H. rewrite length_be_bytes in H.
  change (Z.of_nat 2) with 2 in H. by rewrite H.
Qed.

(** The tag, the length and the payload of a row in a block. *)
Lemma row_fields a m u b : wf_entry m = true -> zlen u = total_size m ->
  let B := a ++ enc_row enc m u ++ b in
  get_le16 B (zlen a) = Some (le_val (be_bytes 2 (m_id m))) /\
  get_le16 B (zlen a + 2) = Some (le_val (be_bytes 2 (zlen (payload m u)))) /\
  zslice B (zlen a + 4) (zlen (payload m u)) = Some (payload m u) /\
  zlen a + 4 + zlen (payload m u) = zlen (a ++ enc_row enc m u).
Proof.
  intros Hwf Hu. pose proof (wf_basic m Hwf) as (Hi & _). destruct (enc_row_form m u Hwf Hu) as [-> Hp]. cbv zeta.
  set (p := payload m u) in *. rewrite <- !app_assoc. split_and!.
  - apply get_word_at. width.
  - rewrite (app_assoc a). replace (zlen a + 2) with (zlen (a ++ be_bytes 2 (m_id m))) by (rewrite length_app, length_be_bytes; lia).
    by apply get_word_at.
  - rewrite (app_assoc a), (app_assoc _ (be_bytes 2 (zlen p))).
    replace (zlen a + 4) with (zlen ((a ++ be_bytes 2 (m_id m)) ++ be_bytes 2 (zlen p))) by (rewrite !length_app, !length_be_bytes; lia).
    apply zslice_app.
  - rewrite !length_app, !length_be_bytes. lia.
Qed.

Lemma enc_row_nonempty m u : wf_entry m = true -> zlen u = total_size m -> (4 <= length (enc_row enc m u))%nat.
Proof. intros Hwf Hu. destruct (enc_row_form m u Hwf Hu) as [-> _]. rewrite !length_app, !length_be_bytes. lia. Qed.

(** Cutting the bytes of a table into the first row and the rest. *)
Lemma rows_cons g m tbl (u : list Z) : wf_entry m = true -> zlen u = span (m :: tbl) -> 0 <= span tbl ->
  exists v w, u = v ++ w /\ zlen v = total_size m /\ zlen w = span tbl /\
    on_rows g (m :: tbl) u = g m v ++ on_rows g tbl w /\ v = take (Z.to_nat (total_size m)) u /\ w = drop (Z.to_nat (total_size m)) u.
Proof.
  intros Hwf Hu Hsp. pose proof (wf_basic m Hwf). change (span (m :: tbl)) with (total_size m + span tbl) in Hu.
  exists (take (Z.to_nat (total_size m)) u), (drop (Z.to_nat (total_size m)) u).
  rewrite take_drop, length_take, length_drop. split_and!; [done|lia|lia|done|done|done].
Qed.

(** ** Counting units *)

Definition hits (first : Z) (tbl : list mib_table_entry) : nat := length (filter (fun m => m_id m = first) tbl).

Lemma word_inj v w : is_u16 v -> is_u16 w -> le_val (be_bytes 2 v) = le_val (be_bytes 2 w) -> v = w.
Proof. intros Hv Hw H. rewrite <- (load_word v Hv), <- (load_word w Hw). by rewrite H. Qed.

Lemma same_tag_rows first tbl : is_u16 first -> Forall (fun m => wf_entry m = true) tbl ->
  forall B u a b fuel times, zlen u = span tbl -> B = a ++ on_rows (enc_row enc) tbl u ++ b ->
  (length (on_rows (enc_row enc) tbl u ++ b) < fuel)%nat -> is_u16 times ->
  exists fuel', (length b < fuel')%nat /\
    same_tag_loop fuel B (le_val (be_bytes 2 first)) (zlen a) times =
    same_tag_loop fuel' B (le_val (be_bytes 2 first)) (zlen (a ++ on_rows (enc_row enc) tbl u)) (u16 (times + Z.of_nat (hits first tbl))).
Proof.
  intros Hf Hwf. induction Hwf as [|m tbl Hm Htbl IH]; intros B u a b fuel times Hu HB Hfuel Ht.
  - exists fuel. cbn [on_rows app] in *. rewrite app_nil_r, Z.add_0_r, u16_id by done. by split.
  - destruct (rows_cons (enc_row enc) m tbl u Hm Hu (span_nonneg _ Htbl)) as (v & w & _ & Hv & Hw & Hon & _). rewrite Hon in *.
    pose proof (wf_basic m Hm) as (Hi & _). pose proof (enc_row_nonempty m v Hm Hv) as Hne. rewrite <- app_assoc in HB, Hfuel.
    destruct (row_fields a m v (on_rows (enc_row enc) tbl w ++ b) Hm Hv) as (F1 & F2 & _ & F4).
    destruct fuel as [|fuel]; [lia|]. cbn [same_tag_loop]. rewrite HB.
    rewrite (proj2 (Z.ltb_lt _ _)) by (rewrite (length_app a), (length_app (enc_row enc m v)); lia).
    rewrite F1, F2. cbn [mbind option_bind]. rewrite load_word by (by apply enc_row_form). rewrite F4, <- HB.
    destruct (IH B w (a ++ enc_row enc m v) b fuel (if le_val (be_bytes 2 (m_id m)) =? le_val (be_bytes 2 first) then u16 (times + 1) else times))
      as (fuel' & Hf' & E); [done|by rewrite HB, <- app_assoc|rewrite (length_app (enc_row enc m v)) in Hfuel; lia|case_match; [apply u16_range|done]|].
    exists fuel'. split; [done|]. rewrite E, app_assoc. f_equal. unfold hits. rewrite filter_cons.
    destruct (decide (m_id m = first)) as [->|Hne'].
    + rewrite Z.eqb_refl. unfold u16. rewrite Zplus_mod_idemp_l. cbn [length]. f_equal. lia.
    + rewrite (proj2 (Z.eqb_neq _ _)); [done|]. intros Heq. apply Hne', word_inj; [width|done|done].
Qed.

Lemma hits_none first tbl : Forall (fun m => m_id m <> first) tbl -> hits first tbl = 0%nat.
Proof. induction 1 as [|m tbl Hm _ IH]; [done|]. unfold hits in *. by rewrite filter_cons_False. Qed.

Lemma hits_first first tbl : NoDup (mjoin (ids <$> first :: tbl)) -> hits (m_id first) (first :: tbl) = 1%nat.
Proof.
  intros Hnd. unfold hits. rewrite filter_cons_True by done. cbn [length]. f_equal. apply hits_none.
  cbn [fmap list_fmap mjoin list_join] in Hnd. apply NoDup_app in Hnd as (_ & Hdisj & _).
  apply Forall_forall. intros m Hm E. apply (Hdisj (m_id first)); [apply ids_head|]. rewrite <- E. apply (elem_ids _ m); [apply ids_head|done].
Qed.

Lemma enc_table m u : is_table m = true -> enc m u = on_rows (enc_row enc) (next_mib_table m) u.
Proof. destruct m as [i t o ts us n]. unfold is_table. cbn [m_type enc next_mib_table]. by intros ->. Qed.

(** In a block of units the first tag occurs once in each. *)
Lemma same_tag_units m first tbl : wf_entry m = true -> is_table m = true -> next_mib_table m = first :: tbl ->
  NoDup (mjoin (ids <$> first :: tbl)) ->
  forall us B a fuel times, Forall (fun u => zlen u = unit_size m) us -> B = a ++ concat (enc m <$> us) ->
  (length (concat (enc m <$> us)) < fuel)%nat -> is_u16 times ->
  same_tag_loop fuel B (le_val (be_bytes 2 (m_id first))) (zlen a) times = Some (u16 (times + zlen us)).
Proof.
  intros Hwf Ht En Hnd. pose proof (wf_table_inv m Hwf Ht) as Htab. pose proof (wt_rows m Htab) as Hrows. pose proof (wt_span m Htab) as Hsp.
  rewrite En in Hrows, Hsp.
  assert (is_u16 (m_id first)) as Hid by (apply Forall_cons in Hrows as [Hr0 _]; pose proof (wf_basic first Hr0); width).
  induction us as [|u us IH]; intros B a fuel times Hus HB Hfuel Htm.
  - destruct fuel as [|fuel]; [cbn [length] in Hfuel; lia|]. cbn [fmap list_fmap concat same_tag_loop length] in *. rewrite app_nil_r in HB.
    rewrite HB, Z.ltb_irrefl, Z.add_0_r, u16_id by done. done.
  - apply Forall_cons in Hus as [Hu Hus]. cbn [fmap list_fmap concat length] in *. rewrite (enc_table m u Ht), En in HB, Hfuel.
    destruct (same_tag_rows (m_id first) (first :: tbl) Hid Hrows B u a (concat (enc m <$> us)) fuel times) as (fuel' & Hf' & E);
      [by rewrite Hu|done|done|done|].
    rewrite E, (hits_first first tbl Hnd). rewrite (IH B); [|done|by rewrite HB, <- app_assoc|done|apply u16_range].
    f_equal. unfold u16. rewrite Zplus_mod_idemp_l. f_equal. lia.
Qed.

Lemma find_same_tag_units m first tbl us : wf_entry m = true -> is_table m = true -> next_mib_table m = first :: tbl ->
  NoDup (mjoin (ids <$> first :: tbl)) -> Forall (fun u => zlen u = unit_size m) us -> us <> [] -> zlen us < 2 ^ 16 ->
  find_same_tag_times (concat (enc m <$> us)) = Some (zlen us).
Proof.
  intros Hwf Ht En Hnd Hus Hne Hlen. pose proof (wf_table_inv m Hwf Ht) as Htab. pose proof (wt_rows m Htab) as Hrows.
  pose proof (wt_span m Htab) as Hsp. rewrite En in Hrows, Hsp. unfold find_same_tag_times.
  assert (exists rest, concat (enc m <$> us) = be_bytes 2 (m_id first) ++ rest) as [rest Hrest].
  { destruct us as [|u us]; [done|]. apply Forall_cons in Hus as [Hu _]. cbn [fmap list_fmap concat]. rewrite (enc_table m u Ht), En.
    apply Forall_cons in Hrows as [Hr0 Hrows].
    destruct (rows_cons (enc_row enc) first tbl u Hr0) as (v & w & _ & Hv & _ & Hon & _); [by rewrite Hu|by apply span_nonneg|].
    rewrite Hon. destruct (enc_row_form first v Hr0 Hv) as [-> _]. eexists. by rewrite <- !app_assoc. }
  assert (is_u16 (m_id first)) as Hid by (apply Forall_cons in Hrows as [Hr0 _]; pose proof (wf_basic first Hr0); width).
  pose proof (get_word_at [] (m_id first) rest Hid) as Hg. cbn [app length] in Hg. rewrite <- Hrest in Hg.
  change (Z.of_nat 0) with 0 in Hg. rewrite Hg. cbn [mbind option_bind].
  pose proof (same_tag_units m first tbl Hwf Ht En Hnd us (concat (enc m <$> us)) [] (S (length (concat (enc m <$> us)))) 0) as E.
  cbn [length] in E. change (Z.of_nat 0) with 0 in E. rewrite E; [|done|done|lia|width]. rewrite Z.add_0_l, u16_id by width. done.
Qed.

(** ** Values *)

Lemma swapped_leaf m u : is_table m = false ->
  swapped m u = match m_type m with WORD_T | DWORD_T => rev u | _ => u end.
Proof. destruct m as [i t o ts us n]. unfold is_table. cbn [m_type swapped]. by intros ->. Qed.

Lemma clean_leaf m u : is_table m = false -> clean m u = clean_value m u.
Proof. destruct m as [i t o ts us n]. unfold is_table. cbn [m_type clean]. by intros ->. Qed.

(** The widths of words. *)
Lemma wf_word m : wf_entry m = true ->
  match m_type m with
  | WORD_T => total_size m = 2 /\ unit_size m = 2
  | DWORD_T => total_size m = 4 /\ unit_size m = 4
  | _ => True
  end.
Proof.
  destruct m as [i t o ts us n]. cbn [wf_entry m_type total_size unit_size]. rewrite !andb_true_iff. intros [_ H].
  destruct t; try done; cbn [is_table_type] in H; rewrite !andb_true_iff in H; lia.
Qed.

Lemma list_of_2 {A} (l : list A) : length l = 2%nat -> exists a b, l = [a; b].
Proof. destruct l as [|a [|b [|c l]]]; try done. by exists a, b. Qed.

Lemma list_of_4 {A} (l : list A) : length l = 4%nat -> exists a b c d, l = [a; b; c; d].
Proof. destruct l as [|a [|b [|c [|d [|e l]]]]]; try done. by exists a, b, c, d. Qed.

(** Storing a swapped value gives the value back. *)
Lemma init_value_leaf m u A x B : wf_entry m = true -> is_table m = false -> Forall is_byte u ->
  zlen u = total_size m -> length x = length u -> clean m u = true ->
  mib_init_value (swapped m u) m (A ++ x ++ B) (zlen A) = Some (A ++ u ++ B, 1).
Proof.
  intros Hwf Ht Hb Hu Hx Hc. rewrite (swapped_leaf m u Ht). rewrite (clean_leaf m u Ht) in Hc. unfold mib_init_value, clean_value in *.
  pose proof (wf_word m Hwf) as Hw. unfold is_table in Ht. destruct (m_type m); try done.
  all: try (rewrite <- Hu, zslice_Some, drop_0, Nat2Z.id, take_ge by lia; cbn [mbind option_bind]).
  all: try (rewrite (zwrite_app A x u B Hx); done).
  - destruct (list_of_2 u ltac:(lia)) as (a & b & ->). rewrite !Forall_cons in Hb. destruct Hb as (Ha & Hb & _).
    change (get_le16 (rev [a; b]) 0) with (Some (le_val [b; a])). cbn [mbind option_bind]. unfold put_le16.
    rewrite word_swap_le by done. by rewrite (zwrite_app A x [a; b] B Hx).
  - apply bool_decide_eq_true in Hc. rewrite Hc. cbn [mbind option_bind]. by rewrite (zwrite_app A x u B Hx).
  - destruct (list_of_4 u ltac:(lia)) as (a & b & c & d & ->). rewrite !Forall_cons in Hb. destruct Hb as (Ha & Hb & Hcc & Hd & _).
    change (get_le32 (rev [a; b; c; d]) 0) with (Some (le_val [d; c; b; a])). cbn [mbind option_bind]. unfold put_le32.
    rewrite dword_swap_le by done. by rewrite (zwrite_app A x [a; b; c; d] B Hx).
Qed.

(** ** Swapped settings keep their shape *)

Lemma units_concat size (ls : list (list Z)) : 0 <= size -> Forall (fun x => zlen x = size) ls ->
  units (length ls) size (concat ls) = ls.
Proof.
  intros Hs. induction 1 as [|x ls Hx _ IH]; [done|]. cbn [length units concat].
  rewrite take_app_length', drop_app_length', IH by lia. done.
Qed.

Lemma swapped_table m u : is_table m = true -> swapped m u = on_rows (swapped_row swapped) (next_mib_table m) u.
Proof. destruct m as [i t o ts us n]. unfold is_table. cbn [m_type swapped next_mib_table]. by intros ->. Qed.

Lemma clean_table m u : is_table m = true -> clean m u = clean_rows clean (next_mib_table m) u.
Proof. destruct m as [i t o ts us n]. unfold is_table. cbn [m_type clean next_mib_table]. by intros ->. Qed.

Definition keeps_length (m : mib_table_entry) : Prop := forall u, zlen u = unit_len m -> zlen (swapped m u) = unit_len m.

Lemma swapped_row_length m u : wf_entry m = true -> keeps_length m -> zlen u = total_size m ->
  zlen (swapped_row swapped m u) = total_size m.
Proof.
  intros Hwf Hk Hu. unfold swapped_row. destruct (is_table m) eqn:Et; [|apply Hk in Hu || idtac].
  - destruct (row_units m u Hwf Et Hu) as (Hcat & Hall & Hlu). unfold on_units. rewrite (concat_same_length (unit_len m)), length_fmap, Hlu.
    + unfold unit_len. rewrite Et. symmetry. apply wt_total. by apply wf_table_inv.
    + apply Forall_fmap. eapply Forall_impl; [exact Hall|]. intros x Hx. by apply Hk.
  - unfold keeps_length, unit_len in Hk. rewrite Et in Hk. by apply Hk.
Qed.

Lemma swapped_rows_length tbl : Forall (fun m => wf_entry m = true) tbl -> Forall keeps_length tbl ->
  forall u, zlen u = span tbl -> zlen (on_rows (swapped_row swapped) tbl u) = span tbl.
Proof.
  intros Hwf. induction Hwf as [|m tbl Hm Htbl IH]; intros Hk u Hu; [done|]. apply Forall_cons in Hk as [Hkm Hk].
  destruct (rows_cons (swapped_row swapped) m tbl u Hm Hu (span_nonneg _ Htbl)) as (v & w & _ & Hv & Hw & -> & _).
  rewrite length_app, Nat2Z.inj_add, (swapped_row_length m v Hm Hkm Hv), IH by done. done.
Qed.

Lemma swapped_length m : wf_entry m = true -> keeps_length m.
Proof.
  induction m as [i t o ts us next IH] using mib_ind. intros Hwf u Hu. destruct (is_table (MibEntry i t o ts us next)) eqn:Et.
  - rewrite (swapped_table _ u Et). pose proof (wf_table_inv _ Hwf Et) as Htab. pose proof (wt_rows _ Htab) as Hrows.
    pose proof (wt_span _ Htab) as Hsp. unfold unit_len in *. rewrite Et in *. cbn [next_mib_table] in *.
    rewrite <- Hsp. apply swapped_rows_length; [done| |by rewrite Hsp].
    apply Forall_forall. intros m Hm. rewrite Forall_forall in IH, Hrows. apply IH; [done|by apply Hrows].
  - rewrite (swapped_leaf _ u Et). by destruct (m_type _); rewrite ?length_rev.
Qed.

(** The units of a swapped table are the swapped units. *)
Lemma enc_swapped_units m v : wf_entry m = true -> is_table m = true -> zlen v = total_size m ->
  on_units enc m (on_units swapped m v) = concat ((fun x => enc m (swapped m x)) <$> units (unit_count m) (unit_size m) v).
Proof.
  intros Hwf Et Hv. destruct (row_units m v Hwf Et Hv) as (_ & Hall & Hlu). pose proof (wf_basic m Hwf). unfold on_units at 1.
  assert (unit_len m = unit_size m) as Hul by (unfold unit_len; by rewrite Et).
  assert (units (unit_count m) (unit_size m) (on_units swapped m v) = swapped m <$> units (unit_count m) (unit_size m) v) as ->.
  { unfold on_units. rewrite <- Hlu at 1. rewrite <- (length_fmap (swapped m) (units _ _ v)). apply units_concat; [lia|].
    apply Forall_fmap. eapply Forall_impl; [exact Hall|]. intros x Hx. cbn. rewrite <- Hul. by apply swapped_length. }
  by rewrite <- list_fmap_compose.
Qed.

Lemma on_rows_app g m tbl v w : zlen v = total_size m -> on_rows g (m :: tbl) (v ++ w) = g m v ++ on_rows g tbl w.
Proof. intros Hv. cbn [on_rows]. rewrite take_app_length', drop_app_length' by lia. done. Qed.

(** ** The loop *)

Section reading.
Context (malloc : Z -> bool) (Hmalloc : forall n, malloc n = true).
Context (rec : list mib_table_entry -> list Z -> list Z -> Z -> option (list Z * Z)).

(** What the recursive call does for one unit of a row. *)
Definition reads_unit (m : mib_table_entry) : Prop :=
  forall x A y B, zlen x = unit_size m -> length y = length x -> Forall is_byte x -> clean m x = true ->
    zlen (A ++ y ++ B) < 2 ^ 32 ->
    rec (next_mib_table m) (enc m (swapped m x)) (A ++ y ++ B) (zlen A) = Some (A ++ x ++ B, 1).

Lemma init_units_spec m block ro mo a b : wf_entry m = true -> is_table m = true -> reads_unit m ->
  forall us us1 A y B, Forall (fun x => zlen x = unit_size m) (us1 ++ us) -> Forall (fun x => Forall is_byte x /\ clean m x = true) us ->
  block = a ++ concat ((fun x => enc m (swapped m x)) <$> us1 ++ us) ++ b ->
  length (us1 ++ us) = unit_count m -> zlen A = mo + ro + zlen us1 * unit_size m -> 0 <= mo + ro ->
  length y = length (concat us) -> zlen (A ++ y ++ B) < 2 ^ 32 ->
  init_units rec block ro (length us) m mo (zlen a) (enc_size m) (zlen us1) (A ++ y ++ B) = Some (A ++ concat us ++ B).
Proof.
  intros Hwf Et Hrec. pose proof (wf_basic m Hwf) as (_ & _ & Hus). assert (unit_len m = unit_size m) as Hul by (unfold unit_len; by rewrite Et).
  induction us as [|x us IH]; intros us1 A y B Hall Hcl Hblock Hcount HA Hmo Hy Hsz.
  - destruct y; [done|cbn [concat length] in Hy; lia].
  - pose proof Hall as [Hall1 [Hx Hall2]%Forall_cons]%Forall_app. apply Forall_cons in Hcl as [[Hb Hc] Hcl]. cbn [length init_units].
    set (f := fun x => enc m (swapped m x)) in *.
    assert (Forall (fun z => zlen z = enc_size m) (f <$> us1 ++ x :: us)) as Hf.
    { apply Forall_fmap. eapply Forall_impl; [exact Hall|]. intros z Hz. cbv beta in *. unfold f. apply enc_length; [done|]. apply swapped_length; [done|by rewrite Hul]. }
    rewrite fmap_app, fmap_cons in Hf, Hblock. apply Forall_app in Hf as [Hf1 [Hfx Hf2]%Forall_cons].
    assert (zslice block (zlen a + enc_size m * zlen us1) (enc_size m) = Some (f x)) as Hsl.
    { rewrite Hblock, concat_app. cbn [concat]. rewrite <- Hfx, <- !app_assoc, app_assoc.
      replace (zlen a + zlen (f x) * zlen us1) with (zlen (a ++ concat (f <$> us1))); [apply zslice_app|].
      rewrite length_app, Nat2Z.inj_add, (concat_same_length _ _ Hf1), length_fmap. lia. }
    rewrite Hsl. cbn [mbind option_bind]. rewrite (proj2 (Z.eqb_neq _ 0)) by lia.
    pose proof (wt_total m (wf_table_inv m Hwf Et)) as Htot. rewrite Htot, Z.div_mul by lia.
    rewrite length_app in Hcount. cbn [length] in Hcount. rewrite (proj2 (Z.ltb_lt _ _)) by lia.
    cbn [concat] in Hy. rewrite length_app in Hy. set (y1 := take (length x) y). set (y2 := drop (length x) y).
    assert (y = y1 ++ y2) as Ey by (symmetry; apply take_drop).
    assert (length y1 = length x /\ length y2 = length (concat us)) as [Ly1 Ly2] by (unfold y1, y2; rewrite length_take, length_drop; lia).
    rewrite Ey in *. rewrite <- (app_assoc y1) in *. rewrite !length_app in Hsz.
    rewrite <- HA, u32_id by width. unfold f at 1. rewrite Hrec; [|done|done|done|done|rewrite !length_app; lia]. cbn [mbind option_bind].
    replace (zlen us1 + 1) with (zlen (us1 ++ [x])) by (rewrite length_app; cbn [length]; lia).
    rewrite (app_assoc A x). rewrite (IH (us1 ++ [x])); [cbn [concat]; by rewrite <- !app_assoc|by rewrite <- app_assoc|done| | | |done|done|].
    + rewrite <- app_assoc. by rewrite Hblock, fmap_app.
    + rewrite !length_app. cbn [length]. lia.
    + rewrite !length_app. cbn [length]. lia.
    + rewrite !length_app. lia.
Qed.

Lemma tag_leaf i : 0 < i < MIB_TABLE_LIST -> Z.land i MIB_TABLE_LIST = 0.
Proof.
  intros Hi. unfold MIB_TABLE_LIST in *. change 0x8000 with (2 ^ 15) in *. apply Z.bits_inj'. intros n Hn.
  rewrite Z.land_spec, Z.bits_0, Z.pow2_bits_eqb by lia. destruct (Z.eqb_spec 15 n) as [<-|]; [|by rewrite andb_false_r].
  rewrite (testbit_small 15 i 15) by lia. done.
Qed.

Lemma tag_table i : MIB_TABLE_LIST <= i < 2 ^ 16 -> Z.land i MIB_TABLE_LIST <> 0.
Proof.
  intros Hi E. assert (Z.testbit (Z.land i MIB_TABLE_LIST) 15 = false) as Hb by (by rewrite E).
  rewrite Z.land_spec in Hb. change (Z.testbit MIB_TABLE_LIST 15) with true in Hb. rewrite andb_true_r, Z.testbit_false in Hb by lia.
  unfold MIB_TABLE_LIST in Hi. change (2 ^ 15) with 32768 in Hb. assert (i / 32768 = 1) as E1 by (symmetry; apply (Z.div_unique i 32768 1 (i - 32768)); lia).
  by rewrite E1 in Hb.
Qed.

Context (T : list mib_table_entry) (ro : Z).

(** A row of the table being read: it is found, and its units can be read. *)
Definition row_ready (m : mib_table_entry) : Prop :=
  wf_entry m = true /\ mib_search_by_id (m_id m) T mib_num 0 = Some (Some (m, m_offset m)) /\
  (is_table m = true -> reads_unit m /\ NoDup (mjoin (ids <$> next_mib_table m))).

(** One round on a row. *)
Lemma init_row_step m v rest a A x B fuel st : row_ready m ->
  zlen v = total_size m -> length x = length v -> Forall is_byte v ->
  (if is_table m then forallb (clean m) (units (unit_count m) (unit_size m) v) else clean m v) = true ->
  zlen A = ro + m_offset m -> 0 <= ro + m_offset m -> zlen (A ++ x ++ B) < 2 ^ 32 ->
  let block := a ++ enc_row enc m (swapped_row swapped m v) ++ rest in
  init_loop malloc rec T block (zlen block) ro (S fuel) (zlen a) st (A ++ x ++ B) =
  init_loop malloc rec T block (zlen block) ro fuel (zlen (a ++ enc_row enc m (swapped_row swapped m v))) false (A ++ v ++ B).
Proof.
  intros (Hwf & Hs & Htb) Hv Hx Hb Hc HA Hro Hsz block. pose proof (wf_basic m Hwf) as (Hi & Hts & Hus).
  set (v' := swapped_row swapped m v) in *. assert (zlen v' = total_size m) as Hv' by (apply swapped_row_length; [done|by apply swapped_length|done]).
  destruct (row_fields a m v' rest Hwf Hv') as (F1 & F2 & F3 & F4). destruct (enc_row_form m v' Hwf Hv') as [_ Hp].
  pose proof (enc_row_nonempty m v' Hwf Hv') as Hne. fold block in F1, F2, F3.
  assert (zlen a < zlen block) as Hlt by (unfold block; rewrite (length_app a), (length_app (enc_row enc m v')); lia).
  cbn [init_loop]. rewrite (proj2 (Z.ltb_lt _ _)) by done. cbn [negb]. rewrite F1, F2. cbn [mbind option_bind].
  rewrite !load_word by (done || width). rewrite !length_app in Hsz.
  destruct (is_table m) eqn:Et.
  - pose proof (wf_table_inv m Hwf Et) as Htab. destruct (Htb eq_refl) as [Hrec Hnd]. destruct (row_units m v Hwf Et Hv) as (Hcat & Hall & Hlu).
    assert (unit_len m = unit_size m) as Hul by (unfold unit_len; by rewrite Et). rewrite Hul in Hall.
    rewrite (proj2 (Z.eqb_neq _ 0)) by (apply tag_table; pose proof (wt_id m Htab); lia).
    rewrite Hs. cbn [mbind option_bind]. rewrite Hmalloc. cbn [negb]. rewrite F3. cbn [mbind option_bind].
    set (us := units (unit_count m) (unit_size m) v) in *. set (f := fun z => enc m (swapped m z)).
    assert (payload m v' = concat (f <$> us)) as Epay.
    { unfold payload, v', swapped_row. rewrite Et. by apply enc_swapped_units. }
    assert (Forall (fun z => zlen z = enc_size m) (f <$> us)) as Hf.
    { apply Forall_fmap. eapply Forall_impl; [exact Hall|]. intros z Hz. cbv beta in *. unfold f. apply enc_length; [done|]. apply swapped_length; [done|by rewrite Hul]. }
    assert (zlen (payload m v') = zlen us * enc_size m) as Hplen by (by rewrite Epay, (concat_same_length _ _ Hf), length_fmap).
    pose proof (wt_count m Htab) as Hcnt. destruct (next_mib_table m) as [|first tbl] eqn:En; [by destruct (wt_next m Htab)|].
    assert (find_same_tag_times (payload m v') = Some (zlen us)) as ->.
    { rewrite Epay. unfold f. rewrite (list_fmap_compose (swapped m) (enc m)), <- (length_fmap (swapped m) us).
      apply (find_same_tag_units m first tbl); try done.
      - apply Forall_fmap. eapply Forall_impl; [exact Hall|]. intros z Hz. cbv beta in *. unfold compose. rewrite <- Hul. apply swapped_length; [done|by rewrite Hul].
      - destruct us; [cbn [length] in Hlu; lia|done].
      - rewrite length_fmap, Hlu. pose proof (wt_total m Htab). nia. }
    cbn [mbind option_bind]. rewrite (proj2 (Z.eqb_neq (zlen us) 0)) by lia. rewrite Hplen, (Z.mul_comm (zlen us)), Z.div_mul by lia.
    rewrite Nat2Z.id. set (a2 := a ++ be_bytes 2 (m_id m) ++ be_bytes 2 (zlen (payload m v'))).
    assert (zlen a + 4 = zlen a2) as Ea2 by (unfold a2; rewrite !length_app, !length_be_bytes; lia). rewrite Ea2.
    pose proof (init_units_spec m block ro (m_offset m) a2 rest Hwf Et Hrec us [] A x B) as Hun. cbn [app length] in Hun.
    change (Z.of_nat 0) with 0 in Hun. rewrite Hun; try done; cbn [app mbind option_bind].
    + rewrite Hcat. f_equal. rewrite <- F4, Hplen, <- Ea2. lia.
    + rewrite forallb_forall in Hc. apply Forall_forall. intros z Hz. split; [|apply Hc; by apply list_elem_of_In].
      rewrite <- Hcat, Forall_concat in Hb. by apply (proj1 (Forall_forall _ _) Hb).
    + unfold block. destruct (enc_row_form m v' Hwf Hv') as [-> _]. unfold a2. rewrite <- !app_assoc. by rewrite Epay at 2.
    + lia.
    + lia.
    + by rewrite Hcat.
    + rewrite !length_app. lia.
  - rewrite (tag_leaf (m_id m)) by (pose proof (wf_leaf_id m Hwf Et); lia). cbn [Z.eqb]. rewrite Hmalloc. cbn [negb].
    rewrite F3. cbn [mbind option_bind]. rewrite Hs. cbn [mbind option_bind].
    assert (payload m v' = swapped m v) as Epay by (unfold payload, v', swapped_row; by rewrite Et).
    rewrite Epay. replace (m_offset m + ro) with (zlen A) by lia. rewrite u32_id by width. rewrite init_value_leaf; try done. cbn [mbind option_bind]. rewrite <- Epay, F4. done.
Qed.

(** All rows, from the first of [tbl] on. *)
Lemma init_rows_spec tbl : Forall row_ready tbl ->
  forall off a u A x B fuel st, (tbl = [] -> st = false) -> laid_out off tbl = true -> zlen u = span tbl -> length x = length u -> Forall is_byte u ->
  clean_rows clean tbl u = true -> zlen A = ro + off -> 0 <= ro -> 0 <= off -> zlen (A ++ x ++ B) < 2 ^ 32 ->
  (length (on_rows (enc_row enc) tbl (on_rows (swapped_row swapped) tbl u)) < fuel)%nat ->
  let block := a ++ on_rows (enc_row enc) tbl (on_rows (swapped_row swapped) tbl u) in
  init_loop malloc rec T block (zlen block) ro fuel (zlen a) st (A ++ x ++ B) = Some (A ++ u ++ B, 1).
Proof.
  induction 1 as [|m tbl Hm Htbl IH]; intros off a u A x B fuel st Hst Hlay Hu Hx Hb Hc HA Hro Hoff Hsz Hfuel block.
  - assert (x = u) as -> by (destruct u, x; try done; cbn [length span foldr] in *; lia).
    destruct fuel; [lia|]. cbn [init_loop]. subst block. cbn [on_rows]. by rewrite app_nil_r, Z.ltb_irrefl, Hst.
  - assert (Forall (fun m => wf_entry m = true) tbl) as Hwf by (eapply Forall_impl; [exact Htbl|]; unfold row_ready; naive_solver).
    pose proof Hm as (Hwm & _). pose proof (wf_basic m Hwm) as (_ & Hts & _).
    destruct (rows_cons (swapped_row swapped) m tbl u Hwm Hu (span_nonneg _ Hwf)) as (v & w & Eu & Hv & Hw & Hon & Ev & Ew).
    cbn [laid_out] in Hlay. apply andb_true_iff in Hlay as [Hmo%Z.eqb_eq Hlay]. cbn [clean_rows] in Hc.
    fold (clean_rows clean) in Hc. apply andb_true_iff in Hc as [Hcv Hcw]. rewrite <- Ev in Hcv. rewrite <- Ew in Hcw.
    set (v' := swapped_row swapped m v) in *. assert (zlen v' = total_size m) as Hv' by (apply swapped_row_length; [done|by apply swapped_length|done]).
    unfold block in *. clear block. rewrite Hon, (on_rows_app (enc_row enc) m tbl v' _ Hv') in *. set (rest := on_rows (enc_row enc) tbl _) in *.
    pose proof (enc_row_nonempty m v' Hwm Hv') as Hne. rewrite length_app in Hfuel. destruct fuel as [|fuel]; [lia|].
    set (x1 := take (length v) x). set (x2 := drop (length v) x). assert (x = x1 ++ x2) as Ex by (symmetry; apply take_drop).
    rewrite Eu, length_app in Hx. assert (length x1 = length v /\ length x2 = length w) as [Lx1 Lx2] by (unfold x1, x2; rewrite length_take, length_drop; lia).
    rewrite Eu, Forall_app in Hb. destruct Hb as [Hbv Hbw]. rewrite Ex, <- app_assoc in Hsz |- *. clearbody x1 x2. subst x. rewrite !length_app in Hsz.
    pose proof (init_row_step m v rest a A x1 (x2 ++ B) fuel st Hm Hv Lx1 Hbv Hcv ltac:(lia) ltac:(lia) ltac:(rewrite !length_app; lia)) as Hstep.
    cbv zeta in Hstep. fold v' in Hstep. rewrite Hstep. clear Hstep. rewrite (app_assoc a), (app_assoc A). unfold rest. rewrite (IH (off + total_size m)); try done.
    + by rewrite Eu, <- !app_assoc.
    + rewrite length_app. lia.
    + lia.
    + rewrite !length_app. lia.
    + fold rest. lia.
Qed.
End reading.

(** ** Reading a block of rows at any depth *)

Definition reads_rows (malloc : Z -> bool) (depth : nat) (tbl : list mib_table_entry) : Prop :=
  forall T u A x B, tbl <> [] -> Forall (fun r => mib_search_by_id (m_id r) T mib_num 0 = Some (Some (r, m_offset r))) tbl ->
    zlen u = span tbl -> length x = length u -> Forall is_byte u -> clean_rows clean tbl u = true -> zlen (A ++ x ++ B) < 2 ^ 32 ->
    mib_tlv_init_from malloc depth T (on_rows (enc_row enc) tbl (on_rows (swapped_row swapped) tbl u)) (A ++ x ++ B) (zlen A) =
      Some (A ++ u ++ B, 1).

Lemma laid_out_range tbl : Forall (fun m => wf_entry m = true) tbl ->
  forall off r, laid_out off tbl = true -> r ∈ tbl -> off <= m_offset r /\ m_offset r + total_size r <= off + span tbl.
Proof.
  induction 1 as [|m tbl Hm Htbl IH]; intros off r Hl Hr; [by apply not_elem_of_nil in Hr|].
  cbn [laid_out] in Hl. apply andb_true_iff in Hl as [Ho%Z.eqb_eq Hl]. pose proof (wf_basic m Hm). pose proof (span_nonneg _ Htbl).
  change (span (m :: tbl)) with (total_size m + span tbl). apply elem_of_cons in Hr as [->|Hr]; [lia|].
  destruct (IH _ _ Hl Hr). lia.
Qed.

(** The rows of a table are found in the table itself. *)
Lemma table_searches m : wf_entry m = true -> is_table m = true -> NoDup (mjoin (ids <$> next_mib_table m)) -> (heights (next_mib_table m) <= 9)%nat ->
  Forall (fun r => mib_search_by_id (m_id r) (next_mib_table m) mib_num 0 = Some (Some (r, m_offset r))) (next_mib_table m).
Proof.
  intros Hwf Ht Hnd Hh. pose proof (wf_table_inv m Hwf Ht) as Htab. pose proof (wf_basic m Hwf) as (_ & Hts & Hus). apply Forall_forall. intros r Hr.
  pose proof (search_row (next_mib_table m) r 9 0 (wt_rows m Htab) Hnd Hh Hr) as Hs. change (replicate 10 0) with mib_num in Hs.
  rewrite Hs. destruct (laid_out_range _ (wt_rows m Htab) 0 r (wt_laid m Htab) Hr) as [H0 H1]. rewrite (wt_span m Htab) in H1.
  pose proof (proj1 (Forall_forall _ _) (wt_rows m Htab) r Hr) as Hwr. pose proof (wf_basic r Hwr).
  pose proof (wt_total m Htab). pose proof (wt_count m Htab). assert (unit_size m <= total_size m) by nia. rewrite u32_id by width. done.
Qed.

Lemma reads_rows_ok malloc : (forall n, malloc n = true) -> forall depth tbl,
  Forall (fun m => wf_entry m = true) tbl -> laid_out 0 tbl = true -> NoDup (mjoin (ids <$> tbl)) ->
  (heights tbl < depth)%nat -> (heights tbl <= 9)%nat -> reads_rows malloc depth tbl.
Proof.
  intros Hmal depth. induction depth as [|depth IH]; intros tbl Hwf Hlay Hnd Hd H9 T u A x B Hne Hs Hu Hx Hb Hc Hsz; [lia|].
  cbn [mib_tlv_init_from].
  assert (Forall (row_ready (mib_tlv_init_from malloc depth) T) tbl) as Hready.
  { rewrite Forall_forall in Hwf, Hs. apply Forall_forall. intros m Hm. split_and!; [by apply Hwf|by apply Hs|]. intros Ht.
    pose proof (heights_elem m tbl Hm) as Hhm. rewrite (height_table m Ht) in Hhm. pose proof (wf_table_inv m (Hwf m Hm) Ht) as Htab.
    assert (NoDup (mjoin (ids <$> next_mib_table m))) as Hnm.
    { pose proof Hm as (l1 & l2 & Etbl)%list_elem_of_split. rewrite Etbl, fmap_app, fmap_cons, join_app in Hnd.
      apply NoDup_app in Hnd as (_ & _ & Hnd). cbn [mjoin list_join] in Hnd. apply NoDup_app in Hnd as (Hnd & _).
      rewrite (ids_table m Ht) in Hnd. by apply NoDup_cons in Hnd as [_ ?]. }
    split; [|done]. intros y A' z B' Hy Hz Hby Hcy Hsz'. rewrite (enc_table m _ Ht), (swapped_table m y Ht).
    apply (IH (next_mib_table m)); try done; try lia; try (by apply Htab).
    - apply table_searches; [by apply Hwf|done|done|lia].
    - by rewrite Hy, (wt_span m Htab).
    - by rewrite <- clean_table. }
  apply (init_rows_spec malloc Hmal (mib_tlv_init_from malloc depth) T (zlen A) tbl Hready 0 []); try done; try lia.
Qed.

(** ** Swapping *)

Section swapping.

(** A function that swaps [size] bytes in place as [g] says. *)
Definition swaps (f : Z -> list Z -> option (list Z)) (size : Z) (g : list Z -> list Z) : Prop :=
  forall a u b, zlen u = size -> Forall is_byte u -> f (zlen a) (a ++ u ++ b) = Some (a ++ g u ++ b).

Lemma swap_units_spec f size g : swaps f size g -> (forall u, zlen u = size -> zlen (g u) = size) ->
  forall us a b, Forall (fun u => zlen u = size) us -> Forall (Forall is_byte) us ->
  swap_units f (length us) size (zlen a) (a ++ concat us ++ b) = Some (a ++ concat (g <$> us) ++ b).
Proof.
  intros Hf Hg us. induction us as [|u us IH]; intros a b Hus Hb; [done|].
  apply Forall_cons in Hus as [Hu Hus]. apply Forall_cons in Hb as [Hbu Hb]. cbn [length swap_units concat fmap list_fmap].
  rewrite <- app_assoc, (Hf a u _ Hu Hbu). cbn [mbind option_bind].
  replace (zlen a + size) with (zlen (a ++ g u)) by (rewrite length_app; pose proof (Hg u Hu); lia).
  rewrite app_assoc, IH by done. by rewrite <- !app_assoc.
Qed.

Lemma swap_leaf m : wf_entry m = true -> is_table m = false ->
  swaps (fun off data => _mib_swap_value m data off) (total_size m) (swapped m).
Proof.
  intros Hwf Ht a u b Hu Hb. rewrite (swapped_leaf m u Ht). pose proof (wf_word m Hwf) as Hw. unfold _mib_swap_value.
  destruct (m_type m); try done.
  - destruct (list_of_2 u ltac:(lia)) as (c & d & ->). rewrite !Forall_cons in Hb. destruct Hb as (Hc & Hd & _). unfold get_le16, put_le16.
    pose proof (zslice_app a [c; d] b) as Hz. change (zlen [c; d]) with 2 in Hz. rewrite Hz. cbn [fmap option_fmap option_map mbind option_bind].
    rewrite word_swap_le by done. by apply zwrite_app.
  - destruct (list_of_4 u ltac:(lia)) as (c & d & e & f & ->). rewrite !Forall_cons in Hb. destruct Hb as (Hc & Hd & He & Hf & _).
    unfold get_le32, put_le32. pose proof (zslice_app a [c; d; e; f] b) as Hz. change (zlen [c; d; e; f]) with 4 in Hz.
    rewrite Hz. cbn [fmap option_fmap option_map mbind option_bind]. rewrite dword_swap_le by done. by apply zwrite_app.
Qed.
End swapping.
