(* ===== verification/TlvRoundtrip.v ===== *)
(** The settings come back from the block they are saved to: the swapping of a whole table,
    [mib_tlv_save] and [mib_tlv_init] composed, and what a reader that forgets the byte
    order sees. *)

From stdpp Require Import list.
From S2P Require Import Prelude Libc Tlv TlvSpec TlvRead.

(** ** Swapping a whole table *)

Lemma swap_units_id f n size : (forall off data, f off data = Some data) ->
  forall off data, swap_units f n size off data = Some data.
Proof. intros Hf. induction n as [|n IH]; intros off data; [done|]. cbn [swap_units]. rewrite Hf. apply IH. Qed.

Lemma swap_row_leaf m : is_table m = false -> forall off data, swap_row m off data = _mib_swap_value m data off.
Proof. destruct m as [i t o ts us n]. unfold is_table. cbn [m_type]. intros Ht off data. cbn [swap_row]. by rewrite Ht. Qed.

(** The units of a row. *)
Lemma swap_row_units m : wf_entry m = true -> swaps (swap_row m) (unit_len m) (swapped m) ->
  swaps (swap_units (swap_row m) (unit_count m) (unit_size m)) (total_size m) (swapped_row swapped m).
Proof.
  intros Hwf Hs a u b Hu Hb. unfold swapped_row. destruct (is_table m) eqn:Et.
  - destruct (row_units m u Hwf Et Hu) as (Hcat & Hall & Hlen). unfold on_units.
    assert (unit_size m = unit_len m) as -> by (unfold unit_len; by rewrite Et).
    assert (unit_size m = unit_len m) as Hul by (unfold unit_len; by rewrite Et). rewrite Hul in *.
    set (us := units (unit_count m) (unit_len m) u) in *. rewrite <- Hcat at 1. rewrite <- Hlen.
    apply swap_units_spec; [done|by apply swapped_length|done|]. by rewrite <- Hcat, Forall_concat in Hb.
  - pose proof (wf_word m Hwf) as Hw. pose proof (swapped_leaf m u Et) as Hsl. pose proof (wf_basic m Hwf) as (_ & Hts & Hus).
    assert (unit_len m = total_size m) as Hul by (unfold unit_len; by rewrite Et). rewrite Hul in Hs.
    assert (unit_size m = total_size m -> swap_units (swap_row m) (unit_count m) (unit_size m) (zlen a) (a ++ u ++ b) = Some (a ++ swapped m u ++ b)) as Hone.
    { intros Eu. unfold unit_count. rewrite Eu, Z.div_same by lia. change (Z.to_nat 1) with 1%nat. cbn [swap_units].
      by rewrite (Hs a u b Hu Hb). }
    assert (is_table m = false) as Et' by done.
    destruct (m_type m) eqn:Em; try (apply Hone; lia);
      rewrite Hsl; apply swap_units_id; intros off data; rewrite (swap_row_leaf m Et'); unfold _mib_swap_value; by rewrite Em.
Qed.

Lemma swap_rows_spec tbl : Forall (fun m => wf_entry m = true /\ swaps (swap_row m) (unit_len m) (swapped m)) tbl ->
  forall base off a u b, laid_out off tbl = true -> zlen a = base + off -> zlen u = span tbl -> Forall is_byte u ->
  swap_rows swap_row tbl base (a ++ u ++ b) = Some (a ++ on_rows (swapped_row swapped) tbl u ++ b).
Proof.
  induction 1 as [|m tbl [Hwf Hs] Htbl IH]; intros base off a u b Hlay Ha Hu Hb.
  - destruct u; [done|]. cbn [length span foldr] in Hu. lia.
  - assert (Forall (fun m => wf_entry m = true) tbl) as Hwt by (eapply Forall_impl; [exact Htbl|]; naive_solver).
    pose proof (wf_basic m Hwf) as (Hi & Hts & Hus).
    destruct (rows_cons (swapped_row swapped) m tbl u Hwf Hu (span_nonneg _ Hwt)) as (v & w & Eu & Hv & Hw & Hon & _).
    cbn [laid_out] in Hlay. apply andb_true_iff in Hlay as [Hmo%Z.eqb_eq Hlay].
    rewrite Eu, Forall_app in Hb. destruct Hb as [Hbv Hbw]. cbn [swap_rows].
    rewrite (proj2 (Z.eqb_neq (m_id m) 0)), (proj2 (Z.eqb_neq (unit_size m) 0)) by lia.
    rewrite Hmo, <- Ha, Eu, <- app_assoc. fold (unit_count m). rewrite (swap_row_units m Hwf Hs a v (w ++ b) Hv Hbv).
    cbn [mbind option_bind]. rewrite (app_assoc a). rewrite <- Eu, Hon, <- (app_assoc (swapped_row swapped m v)), (app_assoc a).
    apply (IH base (off + total_size m)); try done. rewrite length_app, Nat2Z.inj_add, swapped_row_length by (done || by apply swapped_length). lia.
Qed.

Lemma swap_row_swaps m : wf_entry m = true -> swaps (swap_row m) (unit_len m) (swapped m).
Proof.
  induction m as [i t o ts us next IH] using mib_ind. intros Hwf. destruct (is_table (MibEntry i t o ts us next)) eqn:Et.
  - pose proof (wf_table_inv _ Hwf Et) as Htab. intros a u b Hu Hb. rewrite (swapped_table _ u Et).
    unfold unit_len in Hu. rewrite Et in Hu. cbn [swap_row]. unfold is_table in Et. cbn [m_type] in Et. rewrite Et. cbn [next_mib_table].
    apply (swap_rows_spec next) with (off := 0); [|by apply (wt_laid _ Htab)|lia|by rewrite Hu, <- (wt_span _ Htab)|done].
    pose proof (wt_rows _ Htab) as Hrows. cbn [next_mib_table] in Hrows. rewrite Forall_forall in Hrows, IH.
    apply Forall_forall. intros m Hm. split; [by apply Hrows|by apply IH; [|apply Hrows]].
  - intros a u b Hu Hb. unfold unit_len in Hu. rewrite Et in Hu. rewrite (swap_row_leaf _ Et). by apply swap_leaf.
Qed.

(** ** From the root row *)

(** The table and the bytes of the settings it describes, as [D]. *)
Record settings_ok (root : mib_table_entry) (D : list Z) : Prop := {
  so_root : root_ok root;
  so_height : (height root <= 9)%nat;
  so_len : zlen D = span (next_mib_table root);
  so_size : zlen D < 2 ^ 32;
  so_bytes : Forall is_byte D;
  so_clean : clean root D = true
}.

(** The block for settings [D]: the rows of the root's table. *)
Definition block_of (root : mib_table_entry) (D : list Z) : list Z := enc root (swapped root D).

Lemma swap_root root D b : settings_ok root D -> _mibtbl_swap_value [root] (D ++ b) 0 = Some (swapped root D ++ b).
Proof.
  intros [(Ht & Hid & Ho & Hus & Hts & Hne & Hlay & Hwf & Hnd) Hh Hlen Hsz Hb Hc]. unfold _mibtbl_swap_value. cbn [swap_rows].
  rewrite (proj2 (Z.eqb_neq (m_id root) 0)), (proj2 (Z.eqb_neq (unit_size root) 0)), Hts, Z.div_same, Ho by lia.
  change (Z.to_nat 1) with 1%nat. change (0 + 0) with 0. cbn [swap_units].
  assert (swap_row root 0 (D ++ b) = Some (swapped root D ++ b)) as ->; [|done].
  rewrite (swapped_table root D Ht). destruct root as [i t o ts us next]. cbn [swap_row next_mib_table] in *. unfold is_table in Ht.
  cbn [m_type] in Ht. rewrite Ht.
  exact (swap_rows_spec next ltac:(eapply Forall_impl; [exact Hwf|]; cbv beta; intros m Hm; split; [done|by apply swap_row_swaps])
    0 0 [] D b Hlay eq_refl Hlen Hb).
Qed.

Lemma swapped_root_length root D : settings_ok root D -> zlen (swapped root D) = zlen D.
Proof.
  intros [(Ht & _ & _ & _ & _ & _ & _ & Hwf & _) _ Hlen _ _ _]. rewrite (swapped_table root D Ht), Hlen.
  apply swapped_rows_length; [done| |done]. eapply Forall_impl; [exact Hwf|]. intros m Hm. by apply swapped_length.
Qed.

Lemma write_root root D b : is_table root = true -> Forall (fun m => wf_entry m = true) (next_mib_table root) ->
  zlen D = span (next_mib_table root) -> appends (mib_write_to_raw (D ++ b) root 0) (enc root D).
Proof.
  intros Ht Hwf Hlen. rewrite (enc_table root D Ht). destruct root as [i t o ts us next]. cbn [next_mib_table mib_write_to_raw] in *.
  unfold is_table in Ht. cbn [m_type] in Ht. rewrite Ht.
  apply (write_rows_appends (D ++ b) (mib_write_to_raw (D ++ b)) next) with (a := []) (b := b); [|done|done|width].
  eapply Forall_impl; [exact Hwf|]. intros m Hm. cbv beta in *. split; [done|]. by apply write_to_raw_writes.
Qed.

Lemma block_nonempty root D : settings_ok root D -> 0 < zlen (block_of root D).
Proof.
  intros Hok. pose proof (swapped_root_length root D Hok) as Hsl. destruct Hok as [(Ht & _ & _ & _ & _ & Hne & _ & Hwf & _) _ Hlen _ _ _].
  unfold block_of. rewrite (enc_table root _ Ht). destruct (next_mib_table root) as [|m tbl] eqn:En; [done|].
  apply Forall_cons in Hwf as [Hm Hwf].
  destruct (rows_cons (enc_row enc) m tbl (swapped root D) Hm ltac:(lia) (span_nonneg _ Hwf)) as (v & w & _ & Hv & _ & -> & _).
  pose proof (enc_row_nonempty m v Hm Hv). rewrite length_app. lia.
Qed.

(** ** The round trip *)

(** Saving swapped settings, with anything behind them. *)
Lemma save_block root D b buf : settings_ok root D -> (length (block_of root D) <= length buf)%nat ->
  mib_tlv_save (Some [root]) (swapped root D ++ b) (Some buf) 0 =
    Some (1, block_of root D ++ drop (length (block_of root D)) buf, zlen (block_of root D)).
Proof.
  intros Hok Hroom. pose proof (swapped_root_length root D Hok) as Hsl.
  destruct Hok as [(Ht & _ & _ & _ & _ & _ & _ & Hwf & _) _ Hlen _ _ _]. unfold mib_tlv_save.
  pose proof (write_root root (swapped root D) b Ht Hwf ltac:(lia) [] buf Hroom) as Hw.
  cbn [app length] in Hw. change (Z.of_nat 0) with 0 in Hw. by rewrite Hw.
Qed.

(** Initialising a buffer from the block, with anything behind the two. *)
Lemma init_block malloc depth root D rest d0 b : settings_ok root D -> (forall n, malloc n = true) -> (height root <= depth)%nat ->
  length d0 = length D -> zlen (D ++ b) < 2 ^ 32 ->
  mib_tlv_init malloc depth (Some [root]) (Some (block_of root D ++ rest)) (Some (d0 ++ b)) (zlen (block_of root D)) = Some (Some (D ++ b), 1).
Proof.
  intros Hok Hmal Hdepth Hd0 Hsz. pose proof (block_nonempty root D Hok) as Hne. pose proof Hok as [Hroot Hh Hlen _ Hb Hc].
  pose proof Hroot as (Ht & Hid & Ho & Hus & Hts & Hnn & Hlay & Hwf & Hnd).
  unfold mib_tlv_init. rewrite (proj2 (Z.eqb_neq _ 0)) by lia.
  pose proof (zslice_app [] (block_of root D) rest) as Hz. cbn [app length] in Hz. change (Z.of_nat 0) with 0 in Hz.
  rewrite Hz. cbn [mbind option_bind]. unfold block_of. rewrite (enc_table root _ Ht), (swapped_table root D Ht).
  rewrite (height_table root Ht) in *. rewrite (ids_table root Ht) in Hnd. apply NoDup_cons in Hnd as [_ Hnd].
  pose proof (reads_rows_ok malloc Hmal depth (next_mib_table root) Hwf Hlay Hnd ltac:(lia) ltac:(lia) [root] D [] d0 b) as Hr.
  cbn [app length] in Hr. change (Z.of_nat 0) with 0 in Hr. rewrite length_app in Hsz.
  rewrite Hr; try done; [|by rewrite <- clean_table|rewrite length_app; lia].
  apply Forall_forall. intros r Hin. rewrite (search_root root r Hroot) by (done || by rewrite (height_table root Ht)).
  destruct (laid_out_range _ Hwf 0 r Hlay Hin). pose proof (wf_basic r (proj1 (Forall_forall _ _) Hwf r Hin)). rewrite u32_id by width. done.
Qed.

(** C5: saving the settings and initialising them from the block gives them back: every
    field, every entry of every nested table, whatever the target held before. *)
Theorem mib_tlv_roundtrip malloc root D buf d0 :
  settings_ok root D -> (forall n, malloc n = true) ->
  (length (block_of root D) <= length buf)%nat -> length d0 = length D ->
  exists S f n,
    _mibtbl_swap_value [root] D 0 = Some S /\
    mib_tlv_save (Some [root]) S (Some buf) 0 = Some (1, f, n) /\
    mib_tlv_init malloc (height root) (Some [root]) (Some f) (Some d0) n = Some (Some D, 1).
Proof.
  intros Hok Hmal Hroom Hd0. pose proof (swap_root root D [] Hok) as Hsw. pose proof (save_block root D [] buf Hok Hroom) as Hs.
  pose proof (init_block malloc (height root) root D (drop (length (block_of root D)) buf) d0 [] Hok Hmal (le_n _) Hd0) as Hi.
  rewrite !app_nil_r in *. eexists _, _, _. split_and!; [exact Hsw|exact Hs|]. apply Hi. apply Hok.
Qed.

(** A table like those of mibtbl.c: an address, a flag, a table of two entries (a port and a
    name each) and a counter. *)
Definition demo_entry : list mib_table_entry := [MibEntry 0x301 WORD_T 0 2 2 []; MibEntry 0x302 STRING_T 2 6 1 []].
Definition demo_root : mib_table_entry :=
  MibEntry 0x8001 TABLE_LIST_T 0 25 25
    [MibEntry 0x101 IA_T 0 4 4 []; MibEntry 0x102 BYTE_T 4 1 1 [];
     MibEntry 0x8002 TABLE_LIST_T 5 16 8 demo_entry; MibEntry 0x103 DWORD_T 21 4 4 []].
Definition demo_settings : list Z :=
  [192; 168; 1; 254; 1; 80; 0; 119; 119; 119; 0; 0; 0; 187; 1; 116; 108; 115; 0; 0; 0; 16; 39; 0; 0].

Lemma demo_ok : settings_ok demo_root demo_settings.
Proof.
  split; [|by vm_compute; lia|done|by vm_compute| |by vm_compute].
  - unfold root_ok. split_and!; try done.
    + cbn [next_mib_table demo_root]. by rewrite !Forall_cons, Forall_nil.
    + apply (bool_decide_unpack _). by vm_compute.
  - apply (bool_decide_unpack _). by vm_compute.
Qed.

Lemma mib_tlv_roundtrip_witness : exists S f n,
  _mibtbl_swap_value [demo_root] demo_settings 0 = Some S /\
  mib_tlv_save (Some [demo_root]) S (Some (replicate 100 0xff)) 0 = Some (1, f, n) /\
  mib_tlv_init (fun _ => true) (height demo_root) (Some [demo_root]) (Some f) (Some (replicate 25 0)) n = Some (Some demo_settings, 1).
Proof.
  apply (mib_tlv_roundtrip (fun _ => true) demo_root demo_settings (replicate 100 0xff) (replicate 25 0));
    [exact demo_ok|done|apply Nat.leb_le; by vm_compute|done].
Defined.

(** ** What is written *)

(** one unit of a row, wherever it lies in the settings, is appended to the block in
    tag, length, value form: tags and lengths in network order, tables nested, nothing
    else of the block touched. *)
Theorem mib_write_to_raw_encodes m a u b pre room :
  wf_entry m = true -> zlen u = unit_len m -> enc_size m <= zlen room ->
  mib_write_to_raw (a ++ u ++ b) m (zlen a) (pre ++ room, zlen pre) =
    Some (pre ++ enc m u ++ drop (Z.to_nat (enc_size m)) room, zlen pre + enc_size m).
Proof.
  intros Hwf Hu Hroom. pose proof (enc_length m Hwf u Hu) as Hl.
  rewrite (write_to_raw_writes (a ++ u ++ b) m Hwf a u b eq_refl Hu pre room) by lia.
  rewrite <- Hl, Nat2Z.id, <- app_assoc. f_equal. f_equal. rewrite length_app. lia.
Qed.

Lemma mib_write_to_raw_encodes_witness :
  mib_write_to_raw demo_settings (MibEntry 0x8002 TABLE_LIST_T 5 16 8 demo_entry) 5 ([7] ++ replicate 20 0, 1) =
    Some ([7; 3; 1; 0; 2; 80; 0; 3; 2; 0; 6; 119; 119; 119; 0; 0; 0; 0; 0; 0; 0], 17).
Proof.
  etransitivity; [apply (mib_write_to_raw_encodes (MibEntry 0x8002 TABLE_LIST_T 5 16 8 demo_entry)
    (take 5 demo_settings) [80; 0; 119; 119; 119; 0; 0; 0] (drop 13 demo_settings) [7] (replicate 20 0))|];
    by vm_compute.
Defined.

(** the number of entries of a table is recovered from its part of the block: the
    first tag occurs once per unit. *)
Theorem find_same_tag_times_counts m us :
  wf_entry m = true -> is_table m = true -> NoDup (ids m) -> us <> [] -> zlen us < 2 ^ 16 ->
  Forall (fun u => zlen u = unit_size m) us ->
  find_same_tag_times (concat (enc m <$> us)) = Some (zlen us).
Proof.
  intros Hwf Ht Hnd Hne Hn Hall. rewrite (ids_table m Ht) in Hnd. apply NoDup_cons in Hnd as [_ Hnd].
  destruct (next_mib_table m) as [|first tbl] eqn:En; [by destruct (wt_next m (wf_table_inv m Hwf Ht))|].
  by apply (find_same_tag_units m first tbl).
Qed.

Lemma find_same_tag_times_counts_witness :
  find_same_tag_times (concat (enc (MibEntry 0x8002 TABLE_LIST_T 5 16 8 demo_entry) <$>
    [replicate 8 1; replicate 8 2; replicate 8 3])) = Some 3.
Proof.
  rewrite (find_same_tag_times_counts (MibEntry 0x8002 TABLE_LIST_T 5 16 8 demo_entry) [replicate 8 1; replicate 8 2; replicate 8 3]);
    [done|by vm_compute|done| |done|done|by rewrite !Forall_cons, Forall_nil].
  apply (bool_decide_unpack _). by vm_compute.
Defined.

(** ** The reader that does not swap *)

(** [tlv_simple_mib_get] compares the tag and takes the length as they stand in the
    block, so on a little-endian machine it does not find a value [mib_write_to_raw] has
    written, unless the two bytes of its tag are the same. *)
Theorem tlv_simple_mib_get_misses m u :
  wf_entry m = true -> is_table m = false -> zlen u = total_size m -> total_size m < 256 -> WORD_SWAP (m_id m) <> m_id m ->
  tlv_simple_mib_get (m_id m) (enc m u) = Some None.
Proof.
  intros Hwf Ht Hu Hts Hsw. pose proof (wf_basic m Hwf) as (Hi & Hp & _). pose proof (row_fields [] m u [] Hwf Hu) as Hf. cbv zeta in Hf.
  assert (enc_row enc m u = enc m u) as Er by (unfold enc_row; by rewrite Ht). assert (payload m u = u) as Ep by (unfold payload; by rewrite Ht).
  rewrite Er, Ep, app_nil_r in Hf. cbn [app length] in Hf. change (Z.of_nat 0) with 0 in Hf. destruct Hf as (F1 & F2 & _ & F4).
  unfold tlv_simple_mib_get. cbn [simple_get_loop]. rewrite (proj2 (Z.ltb_lt 0 _)) by lia. rewrite F1, F2. cbn [mbind option_bind].
  assert (forall v, is_u16 v -> le_val (be_bytes 2 v) = WORD_SWAP v) as Hle.
  { intros v Hv. rewrite <- store_word by done. pose proof (word_swap_range v). apply le_val_bytes. width. }
  rewrite !Hle by width. rewrite (proj2 (Z.eqb_neq (m_id m) _)) by congruence.
  assert (WORD_SWAP (zlen u) = 256 * zlen u) as ->.
  { pose proof (word_swap_bytes (zlen u) 0 ltac:(width) ltac:(width)) as Hw. rewrite Z.mul_0_r, !Z.add_0_r in Hw. rewrite Hw. lia. }
  destruct (length (enc m u)) eqn:El; [lia|]. cbn [simple_get_loop]. rewrite El. by rewrite (proj2 (Z.ltb_ge _ _)) by lia.
Qed.

Lemma tlv_simple_mib_get_misses_witness :
  tlv_simple_mib_get 0x102 (enc (MibEntry 0x102 BYTE_T 4 1 1 []) [1]) = Some None.
Proof.
  apply (tlv_simple_mib_get_misses (MibEntry 0x102 BYTE_T 4 1 1 []) [1]); try done; by vm_compute.
Defined.

(** ** A block that starts with an unknown table *)

(** a block that holds only tables the reader does not know (written by a newer
    firmware, say) makes [mib_tlv_init_from] free its array [tlv_data_value]: no malloc has
    replaced the pointer when the loop ends. *)
Theorem mib_tlv_init_frees_stack malloc depth tbl id body d0 :
  MIB_TABLE_LIST <= id < 2 ^ 16 -> zlen body < 2 ^ 16 -> mib_search_by_id id tbl mib_num 0 = Some None ->
  mib_tlv_init malloc depth (Some tbl) (Some (be_bytes 2 id ++ be_bytes 2 (zlen body) ++ body)) (Some d0) (4 + zlen body) = None.
Proof.
  intros Hid Hb Hs. unfold mib_tlv_init. rewrite (proj2 (Z.eqb_neq _ 0)) by lia. set (blk := be_bytes 2 id ++ _).
  assert (4 + zlen body = zlen blk) as -> by (unfold blk; rewrite !length_app, !length_be_bytes; lia).
  pose proof (zslice_app [] blk []) as Hz. cbn [app length] in Hz. rewrite app_nil_r in Hz. change (Z.of_nat 0) with 0 in Hz. rewrite Hz.
  cbn [mbind option_bind]. destruct depth as [|depth]; [done|]. cbn [mib_tlv_init_from init_loop].
  assert (zlen blk = 4 + zlen body) as Hl by (unfold blk; rewrite !length_app, !length_be_bytes; lia).
  unfold MIB_TABLE_LIST in Hid. rewrite (proj2 (Z.ltb_lt 0 _)) by lia. cbn [negb].
  pose proof (get_word_at [] id (be_bytes 2 (zlen body) ++ body) ltac:(width)) as G1.
  pose proof (get_word_at (be_bytes 2 id) (zlen body) body ltac:(width)) as G2. rewrite length_be_bytes in G2. fold blk in G2.
  cbn [app length] in G1. change (Z.of_nat 0) with 0 in G1. fold blk in G1. change (Z.of_nat 2) with (0 + 2) in G2. rewrite G1, G2. cbn [mbind option_bind].
  rewrite !load_word, (proj2 (Z.eqb_neq _ 0)), Hs by (width || by apply tag_table). cbn [mbind option_bind].
  destruct (length blk) eqn:El; [lia|]. cbn [init_loop]. by rewrite (proj2 (Z.ltb_ge _ _)) by lia.
Qed.

Lemma mib_tlv_init_frees_stack_witness :
  mib_tlv_init (fun _ => true) 3 (Some [demo_root]) (Some [0x80; 0x77; 0; 5; 1; 1; 0; 1; 9]) (Some (replicate 25 0)) 9 = None.
Proof.
  apply (mib_tlv_init_frees_stack (fun _ => true) 3 [demo_root] 0x8077 [1; 1; 0; 1; 9] (replicate 25 0)); by vm_compute.
Defined.
