(* ===== verification/Apmib.v ===== *)
(** The settings in flash (package/libs/libapmib/files/apmib/apmib.c): the table entries of
    the settings in memory, checksums, flash access, writing the settings compressed
    ([apmib_update], [apmib_updateDef], [mib_compress_write]) and reading them at start
    ([apmib_csconf], [apmib_dsconf], [apmib_hwconf]).

    The configuration is the one of the package's Makefile with [HOME_GATEWAY]: little
    endian, [CONFIG_RTL_8197F], [HEADER_LEN_INT], no shared memory, no NAND, no flash mapping,
    no Bluetooth or customer settings, [RTL_DEF_SETTING_IN_FW] off.

    A result [None] is an access outside an object, a division by zero, a double free or a
    null pointer used. *)

From stdpp Require Import list.
From S2P Require Import Prelude Libc Lzss Tlv.

(** ** Checksums and scrambling *)

Definition sum8 (data : list Z) : Z := foldl (fun sum b => u8 (sum + b)) 0 data.

Definition CHECKSUM (data : list Z) (len : Z) : option Z :=
  if len <? 0 then Some 0 else d ← zslice data 0 len; Some (u8 (Z.lnot (sum8 d) + 1)).

Definition CHECKSUM_LEN_MAX : Z := 0x800000.

Definition CHECKSUM_OK (data : list Z) (len : Z) : option Z :=
  if (len <? 0) || (CHECKSUM_LEN_MAX <? len) then Some 0
  else d ← zslice data 0 len; Some (if sum8 d =? 0 then 1 else 0).

Definition ENCODE_DATA (data : list Z) : list Z := (fun b => u8 (Z.lnot (b + 0x38))) <$> data.
Definition DECODE_DATA (data : list Z) : list Z := (fun b => u8 (Z.lnot b - 0x38)) <$> data.

(** ** Entries of a table in the settings *)

Section entries.
Context (m : mib_table_entry).

Definition add_tblentry (pmib : list Z) (offset num : Z) (val : list Z) : option (list Z * Z) :=
  if unit_size m =? 0 then None
  else if total_size m / unit_size m <=? num then Some (pmib, 0)
  else
    v ← zslice val 0 (unit_size m);
    pmib ← zwrite pmib (offset + num * unit_size m) v;
    Some (pmib, 1).

(** The search loop: where [i] ends. *)
Fixpoint find_entry (fuel : nat) (pmib : list Z) (offset num : Z) (val : list Z) (i : Z) : option Z :=
  if negb (i <? num) then Some i
  else
    match fuel with
    | O => None
    | S fuel =>
        e ← zslice pmib (offset + i * unit_size m) (unit_size m);
        v ← zslice val 0 (unit_size m);
        if decide (e = v) then Some i else find_entry fuel pmib offset num val (i + 1)
    end.

(** [for(;i<num;i++) memcpy(...)] *)
Fixpoint shift_entries (fuel : nat) (pmib : list Z) (offset num i : Z) : option (list Z) :=
  if negb (i <? num) then Some pmib
  else
    match fuel with
    | O => None
    | S fuel =>
        e ← zslice pmib (offset + (i + 1) * unit_size m) (unit_size m);
        pmib ← zwrite pmib (offset + i * unit_size m) e;
        shift_entries fuel pmib offset num (i + 1)
    end.

Definition delete_tblentry (pmib : list Z) (offset num : Z) (val : list Z) : option (list Z * Z) :=
  if unit_size m =? 0 then None
  else
    let num := if total_size m / unit_size m <? num then total_size m / unit_size m else num in
    i ← find_entry (Z.to_nat num) pmib offset num val 0;
    if i =? num then Some (pmib, 0)
    else if i =? num - 1 then
      pmib ← zwrite pmib (offset + i * unit_size m) (replicate (Z.to_nat (unit_size m)) 0);
      Some (pmib, 1)
    else
      pmib ← shift_entries (Z.to_nat num) pmib offset num i;
      Some (pmib, 1).

Definition delete_all_tblentry (pmib : list Z) (offset : Z) : option (list Z * Z) :=
  pmib ← zwrite pmib offset (replicate (Z.to_nat (total_size m)) 0);
  Some (pmib, 1).

(** The value stored at [val], or 0. *)
Definition get_tblentry (pmib : list Z) (offset num index : Z) : option (option (list Z)) :=
  if num <? index then Some None
  else v ← zslice pmib (offset + (index - 1) * unit_size m) (unit_size m); Some (Some v).
End entries.

(** ** Flash

    [None]: the device cannot be opened.  A transfer stops at the end of the device. *)

Definition lseek (offset : Z) : Z := if offset <? 0 then 0 else offset.

(** The bytes read, and the result. *)
Definition flash_read (fh : option (list Z)) (offset len : Z) : list Z * Z :=
  match fh with
  | None => ([], 0)
  | Some f =>
      let d := take (Z.to_nat len) (drop (Z.to_nat (lseek offset)) f) in
      (d, if zlen d =? len then 1 else 0)
  end.

Definition flash_write (fh : option (list Z)) (buf : list Z) (offset : Z) : option (list Z) * Z :=
  match fh with
  | None => (None, 0)
  | Some f =>
      let off := Z.to_nat (lseek offset) in
      let n := Nat.min (length buf) (length f - off) in
      (Some (take off f ++ take n buf ++ drop (off + n) f), if (n =? length buf)%nat then 1 else 0)
  end.

(** What a buffer holds after [read]. *)
Definition read_into (buf d : list Z) : list Z := d ++ drop (length d) buf.

(** ** State *)

(** [PARAM_HEADER_T] and [HW_PARAM_HEADER_T]. *)
Record PARAM_HEADER_T := ParamHeader { signature : list Z; h_len : Z }.

Definition SIGNATURE_LEN : Z := 4.
Definition TAG_LEN : Z := 2.
Definition sizeof_PARAM_HEADER_T : Z := 8.
Definition sizeof_HW_PARAM_HEADER_T : Z := 6.

Definition HEADER_SWAP : Z -> Z := DWORD_SWAP.

(** The bytes of a header with [len] as it is. *)
Definition header_bytes (h : PARAM_HEADER_T) : list Z := signature h ++ le_bytes 4 (h_len h).
Definition hw_header_bytes (h : PARAM_HEADER_T) : list Z := signature h ++ le_bytes 2 (h_len h).

(** [memcpy] from the bytes of a header, with the length swapped. *)
Definition header_of (b : list Z) : PARAM_HEADER_T := ParamHeader (take 4 b) (HEADER_SWAP (le_val (take 4 (drop 4 b)))).
Definition hw_header_of (b : list Z) : PARAM_HEADER_T := ParamHeader (take 4 b) (WORD_SWAP (le_val (take 2 (drop 4 b)))).

(** [COMPRESS_MIB_HEADER_T] *)
Record COMPRESS_MIB_HEADER_T := CompHeader { c_signature : list Z; compRate : Z; compLen : Z }.
Definition COMP_SIGNATURE_LEN : Z := 6.
Definition sizeof_COMPRESS_MIB_HEADER_T : Z := 12.
Definition comp_header_bytes (h : COMPRESS_MIB_HEADER_T) : list Z := c_signature h ++ le_bytes 2 (compRate h) ++ le_bytes 4 (compLen h).
Definition comp_header_of (b : list Z) : COMPRESS_MIB_HEADER_T :=
  CompHeader (take 6 b) (le_val (take 2 (drop 6 b))) (le_val (take 4 (drop 8 b))).

(** [CONFIG_DATA_T] *)
Definition HW_SETTING : Z := 1.
Definition DEFAULT_SETTING : Z := 2.
Definition CURRENT_SETTING : Z := 4.

Definition HW_SETTING_OFFSET : Z := 0x6000.
Definition DEFAULT_SETTING_OFFSET : Z := 0x8000.
Definition CURRENT_SETTING_OFFSET : Z := 0xc000.
Definition HW_SETTING_SECTOR_LEN : Z := 0x8000 - 0x6000.
Definition DEFAULT_SETTING_SECTOR_LEN : Z := 0xc000 - 0x8000.
Definition CURRENT_SETTING_SECTOR_LEN : Z := 0x10000 - 0xc000.

Definition HW_SETTING_HEADER_TAG : list Z := bs "H6".
Definition HW_SETTING_HEADER_FORCE_TAG : list Z := bs "Hf".
Definition HW_SETTING_HEADER_UPGRADE_TAG : list Z := bs "Hu".
Definition DEFAULT_SETTING_HEADER_TAG : list Z := bs "6G".
Definition CURRENT_SETTING_HEADER_TAG : list Z := bs "6g".
Definition HW_SETTING_VER : Z := 1.
Definition DEFAULT_SETTING_VER : Z := 3.
Definition CURRENT_SETTING_VER : Z := DEFAULT_SETTING_VER.
Definition COMP_HS_SIGNATURE : list Z := bs "COMPHS".
Definition COMP_DS_SIGNATURE : list Z := bs "COMPDS".
Definition COMP_CS_SIGNATURE : list Z := bs "COMPCS".

(** The globals and the flash device. *)
Record apmib := Apmib {
  flash : option (list Z);
  pHwSetting : list Z; pMibDef : list Z; pMib : list Z;
  hsHeader : PARAM_HEADER_T; dsHeader : PARAM_HEADER_T; csHeader : PARAM_HEADER_T;
  compress_hw_setting : bool
}.

Definition set_flash (f : option (list Z)) (s : apmib) : apmib :=
  Apmib f (pHwSetting s) (pMibDef s) (pMib s) (hsHeader s) (dsHeader s) (csHeader s) (compress_hw_setting s).
Definition set_hsHeader (h : PARAM_HEADER_T) (s : apmib) : apmib :=
  Apmib (flash s) (pHwSetting s) (pMibDef s) (pMib s) h (dsHeader s) (csHeader s) (compress_hw_setting s).
Definition set_dsHeader (h : PARAM_HEADER_T) (s : apmib) : apmib :=
  Apmib (flash s) (pHwSetting s) (pMibDef s) (pMib s) (hsHeader s) h (csHeader s) (compress_hw_setting s).
Definition set_csHeader (h : PARAM_HEADER_T) (s : apmib) : apmib :=
  Apmib (flash s) (pHwSetting s) (pMibDef s) (pMib s) (hsHeader s) (dsHeader s) h (compress_hw_setting s).
Definition set_compress (b : bool) (s : apmib) : apmib :=
  Apmib (flash s) (pHwSetting s) (pMibDef s) (pMib s) (hsHeader s) (dsHeader s) (csHeader s) b.
(** [sscanf (s, "%02d", &ver)]; [None] when nothing matches.  The end of the list stands for
    a byte that is no digit. *)
Fixpoint scan_digits (width : nat) (s : list Z) (acc : option Z) : option Z :=
  match width, s with
  | S width, c :: s =>
      if (48 <=? c) && (c <=? 57) then scan_digits width s (Some (10 * default 0 acc + (c - 48))) else acc
  | _, _ => acc
  end.
Definition sscanf_02d (s : list Z) : option Z :=
  match skip_space s with
  | 45 :: s => Z.opp <$> scan_digits 1 s None
  | 43 :: s => scan_digits 1 s None
  | s => scan_digits 2 s None
  end.

(** [sprintf (s, "%02d", v)] for [v] of one or two digits. *)
Definition sprintf_02d (v : Z) : list Z := [48 + v / 10; 48 + v mod 10].

Definition header_ver (h : PARAM_HEADER_T) : Z := default (-1) (sscanf_02d (drop 2 (signature h))).
Definition has_tag (tag : list Z) (h : PARAM_HEADER_T) : bool := bool_decide (take 2 (signature h) = tag).

Definition mib_get_flash_offset (type : Z) : Z :=
  if type =? HW_SETTING then HW_SETTING_OFFSET
  else if type =? DEFAULT_SETTING then DEFAULT_SETTING_OFFSET
  else if type =? CURRENT_SETTING then CURRENT_SETTING_OFFSET
  else -1.

Definition mib_get_real_len (type : Z) : Z :=
  if type =? HW_SETTING then HW_SETTING_SECTOR_LEN
  else if type =? DEFAULT_SETTING then DEFAULT_SETTING_SECTOR_LEN
  else if type =? CURRENT_SETTING then CURRENT_SETTING_SECTOR_LEN
  else 0.

Definition mib_get_header (s : apmib) (type : Z) : option PARAM_HEADER_T :=
  if type =? DEFAULT_SETTING then Some (dsHeader s)
  else if type =? CURRENT_SETTING then Some (csHeader s)
  else None.

(** What the build and the machine provide: the tables of mibtbl.c, the sizes of the settings
    structures, which sizes [malloc] can give and what fresh memory holds, the bytes that can
    be read behind a block of the heap, and a bound on the nesting of the tables. *)
Class machine := Machine {
  mib_root_table : list mib_table_entry;
  hwmib_root_table : list mib_table_entry;
  sizeof_APMIB_T : Z;
  sizeof_HW_SETTING_T : Z;
  malloc : Z -> bool;
  fresh : Z -> list Z;
  slack : list Z;
  depth : nat
}.

Section settings.
Context {mach : machine}.

Definition sizeof_lzss_buffer : Z := (N + F - 1) + 2 * (N + 1) + 2 * (N + 257) + 2 * (N + 1).

Definition mib_get_table (type : Z) : option (list mib_table_entry) :=
  if type =? HW_SETTING then Some hwmib_root_table
  else if (type =? DEFAULT_SETTING) || (type =? CURRENT_SETTING) then Some mib_root_table
  else None.

Definition mib_get_setting_len (type : Z) : Z :=
  if type =? HW_SETTING then sizeof_HW_SETTING_T
  else if (type =? DEFAULT_SETTING) || (type =? CURRENT_SETTING) then sizeof_APMIB_T
  else 0.

Definition swap_mib_value (data : list Z) (type : Z) : option (list Z) :=
  tbl ← mib_get_table type; _mibtbl_swap_value tbl data 0.

(** ** Writing *)

(** [compPtr]: the header and the code of [expPtr], in a buffer of [real_size] bytes. *)
Definition comp_image (sig : list Z) (expPtr : list Z) (real_size : Z) : option (list Z) :=
  code ← Encode expPtr (zlen expPtr) (malloc sizeof_lzss_buffer);
  let comp_len := zlen code in
  if real_size <? sizeof_COMPRESS_MIB_HEADER_T + comp_len then None
  else if comp_len =? 0 then None
  else Some (comp_header_bytes (CompHeader sig (WORD_SWAP (u16 (zlen expPtr / comp_len + 1))) (DWORD_SWAP comp_len)) ++ code).

(** The uncompressed image: header and data. *)
Definition exp_image (type : Z) (s : apmib) (data : list Z) : option (list Z) :=
  if type =? HW_SETTING then
    content ← zslice data 0 (WORD_SWAP (h_len (hsHeader s)));
    buf ← zwrite (fresh (h_len (hsHeader s) + sizeof_HW_PARAM_HEADER_T)) sizeof_HW_PARAM_HEADER_T content;
    zwrite buf 0 (hw_header_bytes (ParamHeader (signature (hsHeader s)) (WORD_SWAP (h_len (hsHeader s)))))
  else
    h ← mib_get_header s type;
    content ← zslice data 0 (h_len h);
    Some (header_bytes (ParamHeader (signature h) (HEADER_SWAP (h_len h))) ++ content).

Definition comp_signature (type : Z) : list Z :=
  if type =? HW_SETTING then COMP_HS_SIGNATURE
  else if type =? DEFAULT_SETTING then COMP_DS_SIGNATURE
  else COMP_CS_SIGNATURE.

Definition mib_compress_write (s : apmib) (type : Z) (data : list Z) : option (apmib * Z) :=
  let dst := mib_get_flash_offset type in
  let real_size := u32 (mib_get_flash_offset type) in
  expLen ←
    (if type =? HW_SETTING then Some (h_len (hsHeader s) + sizeof_HW_PARAM_HEADER_T)
     else h ← mib_get_header s type; Some (u32 (h_len h + sizeof_PARAM_HEADER_T)));
  let compPtr := malloc real_size in
  let expPtr := malloc expLen in
  if compPtr && expPtr then
    image ← exp_image type s data;
    comp ← comp_image (comp_signature type) image real_size;
    let '(f, ok) := flash_write (flash s) comp dst in
    Some (set_flash f s, if ok =? 0 then 0 else 1)
  else if compPtr then None
  else Some (s, 0).

(** [header] stands for [*pheader]. *)
Definition mib_updateDef_compress_write (s : apmib) (type : Z) (data : list Z) (header : PARAM_HEADER_T) : option (apmib * Z) :=
  let dst := mib_get_flash_offset type in
  if dst =? 0 then Some (s, 0)
  else if negb ((type =? HW_SETTING) || (type =? DEFAULT_SETTING) || (type =? CURRENT_SETTING)) then Some (s, 0)
  else
    let expLen := if type =? HW_SETTING then h_len header + sizeof_HW_PARAM_HEADER_T else u32 (h_len header + sizeof_PARAM_HEADER_T) in
    if expLen =? 0 then Some (s, 0)
    else
      let real_size := mib_get_real_len type in
      if real_size =? 0 then Some (s, 0)
      else if malloc real_size && malloc expLen then
        content ← zslice data 0 (h_len header);
        let image :=
          if type =? HW_SETTING then hw_header_bytes header ++ content
          else header_bytes (ParamHeader (signature header) (HEADER_SWAP (h_len header))) ++ content in
        comp ← comp_image (comp_signature type) image real_size;
        let '(f, ok) := flash_write (flash s) comp dst in
        Some (set_flash f s, if ok =? 0 then 0 else 1)
      else Some (s, 0).

(** The copy of the settings that is written: swapped, the checksum in its last byte. *)
Definition swapped_copy (type : Z) (mib : list Z) (len : Z) : option (list Z) :=
  data ← zslice mib 0 len;
  data ← swap_mib_value data type;
  checksum ← CHECKSUM data (len - 1);
  zset data (len - 1) checksum.

(** The settings as a TLV block with its checksum; [None] inside: an allocation failed, or
    there is no table. *)
Definition tlv_copy (type : Z) (data : list Z) : option (option (list Z)) :=
  let mib_tlv_max_len := u32 (mib_get_setting_len type * 4) in
  if malloc mib_tlv_max_len then
    '(r, pfile, tlv_content_len) ← mib_tlv_save (mib_get_table type) data (Some (fresh mib_tlv_max_len)) 0;
    if (r =? 1) && malloc (tlv_content_len + 1) then
      block ← zslice pfile 0 tlv_content_len;
      checksum ← CHECKSUM block tlv_content_len;
      Some (Some (block ++ [checksum]))
    else Some None
  else Some None.

(** [HW_SETTING]: the hardware settings are never compressed.  A result [Some r]: the
    function returns [r]. *)
Definition update_hw (s : apmib) : option (apmib * option Z) :=
  if negb (malloc (h_len (hsHeader s))) then Some (s, Some (-1))
  else
    data ← swapped_copy HW_SETTING (pHwSetting s) (h_len (hsHeader s));
    let s := if compress_hw_setting s
             then set_flash (flash_write (flash s) (hw_header_bytes (hsHeader s)) HW_SETTING_OFFSET).1 s else s in
    let '(f, ok) := flash_write (flash s) data (HW_SETTING_OFFSET + sizeof_HW_PARAM_HEADER_T) in
    Some (set_flash f s, if ok =? 0 then Some 0 else None).

(** [CURRENT_SETTING] or [DEFAULT_SETTING]. *)
Definition update_settings (type : Z) (s : apmib) : option (apmib * Z) :=
  let current := type =? CURRENT_SETTING in
  let header := if current then csHeader s else dsHeader s in
  let set_header h s := if current then set_csHeader h s else set_dsHeader h s in
  let len := h_len header in
  if negb (malloc len) then Some (s, -1)
  else
    data ← swapped_copy type (if current then pMib s else pMibDef s) len;
    let i := (if current then CURRENT_SETTING_OFFSET else DEFAULT_SETTING_OFFSET) + sizeof_PARAM_HEADER_T in
    tlv ← tlv_copy type data;
    let '(s, data) :=
      match tlv with
      | Some block => (set_header (ParamHeader (signature header) (zlen block)) s, block)
      | None => (s, data)
      end in
    '(s, r) ← mib_compress_write s type data;
    if r =? 1 then Some (set_header header s, 1)
    else
      raw ← zslice data 0 len;
      let '(f, ok) := flash_write (flash s) raw i in
      if ok =? 0 then Some (set_flash f s, 0) else Some (set_header header (set_flash f s), 1).

Definition apmib_update (type : Z) (s : apmib) : option (apmib * Z) :=
  '(s, r) ← (if Z.testbit type 0 then update_hw s else Some (s, None));
  match r with
  | Some r => Some (s, r)
  | None =>
      if Z.testbit type 2 then update_settings CURRENT_SETTING s
      else if Z.testbit type 1 then update_settings DEFAULT_SETTING s
      else Some (s, 1)
  end.

(** The default settings written to the place of the current ones. *)
Definition apmib_updateDef (s : apmib) : option (apmib * Z) :=
  let header := ParamHeader (CURRENT_SETTING_HEADER_TAG ++ drop 2 (signature (dsHeader s))) (h_len (dsHeader s)) in
  if negb (malloc (h_len (dsHeader s))) then Some (s, -1)
  else
    data ← swapped_copy DEFAULT_SETTING (pMibDef s) (h_len header);
    tlv ← tlv_copy DEFAULT_SETTING data;
    let '(header, data) :=
      match tlv with
      | Some block => (ParamHeader (signature header) (zlen block), block)
      | None => (header, data)
      end in
    '(s, r) ← mib_updateDef_compress_write s CURRENT_SETTING data header;
    if r =? 1 then Some (s, 1)
    else
      let '(f, ok) := flash_write (flash s) (header_bytes header) CURRENT_SETTING_OFFSET in
      let s := set_flash f s in
      if ok =? 0 then Some (s, 0)
      else
        raw ← zslice data 0 (h_len header);
        let '(f, ok) := flash_write (flash s) raw (CURRENT_SETTING_OFFSET + sizeof_PARAM_HEADER_T) in
        Some (set_flash f s, if ok =? 0 then 0 else 1).

(** ** Reading *)

(** The constants of one kind of settings; [cf_zero]: the buffers come from [calloc]. *)
Record conf := Conf {
  cf_type : Z; cf_offset : Z; cf_sector : Z; cf_comp : list Z; cf_tag : list Z; cf_ver : Z; cf_zero : bool;
  cf_header : apmib -> PARAM_HEADER_T; cf_set : PARAM_HEADER_T -> apmib -> apmib
}.

Definition buffer (zero : bool) (n : Z) : list Z := if zero then replicate (Z.to_nat n) 0 else fresh n.

(** The compressed file at [offset] expanded: [Some None] when it is refused. *)
Definition expand (zero : bool) (offset sector : Z) (h : COMPRESS_MIB_HEADER_T) (s : apmib) : option (option (list Z)) :=
  let zipRate := WORD_SWAP (compRate h) in
  let comp_len := DWORD_SWAP (compLen h) in
  let room := u32 (zipRate * comp_len) in
  if negb ((0 <? comp_len) && (comp_len <=? sector)) then Some None
  else if negb (malloc (comp_len + sizeof_COMPRESS_MIB_HEADER_T) && malloc room) then Some None
  else
    let compFile := read_into (buffer zero (comp_len + sizeof_COMPRESS_MIB_HEADER_T))
                      (flash_read (flash s) offset (comp_len + sizeof_COMPRESS_MIB_HEADER_T)).1 in
    out ← Decode (drop 12 compFile ++ slack) comp_len (malloc (N + F - 1));
    if room <? zlen out then None else Some (Some (read_into (buffer zero room) out)).

(** The settings of a TLV block with its checksum, [len] bytes at [body]; [size] is the size of
    the structure, [hsize] that of the header.  [Some None]: refused. *)
Definition tlv_expand (type size hsize : Z) (body : list Z) (len : Z) : option (option (list Z)) :=
  let target := if malloc (size + 1) then Some (replicate (Z.to_nat (size + 1)) 0) else None in
  ck ← CHECKSUM_OK body (s32 len);
  if negb (ck =? 1) then Some None
  else
    '(d, r) ← mib_tlv_init malloc depth (mib_get_table type) (Some body) target (u32 (len - 1));
    match d, r =? 1 with
    | Some d, true =>
        checksum ← CHECKSUM d size;
        d ← zset d size checksum;
        if malloc (hsize + (size + 1)) then Some (Some d) else None
    | _, _ => Some None
    end.

Definition bad_header (c : conf) (h : PARAM_HEADER_T) : bool := negb (has_tag (cf_tag c) h) || negb (header_ver h =? cf_ver c).

(** The compressed case: the header and the settings; [inr s]: the function returns NULL. *)
Definition conf_compressed (c : conf) (h : COMPRESS_MIB_HEADER_T) (s : apmib) : option (apmib * list Z + apmib) :=
  e ← expand (cf_zero c) (cf_offset c) (cf_sector c) h s;
  match e with
  | None => Some (inr s)
  | Some expFile =>
      b ← zslice expFile 0 sizeof_PARAM_HEADER_T;
      let header := header_of b in
      let s := cf_set c header s in
      if bad_header c header then Some (inr s)
      else
        d ← tlv_expand (cf_type c) sizeof_APMIB_T sizeof_PARAM_HEADER_T (drop 8 expFile) (h_len header);
        match d with
        | None => Some (inr s)
        | Some d => Some (inl (cf_set c (ParamHeader (take 2 (signature header) ++ sprintf_02d (cf_ver c)) (sizeof_APMIB_T + 1)) s, d))
        end
  end.

(** [apmib_csconf] and [apmib_dsconf]: the buffer, or NULL. *)
Definition apmib_conf (c : conf) (s : apmib) : option (apmib * option (list Z)) :=
  let h := comp_header_of (read_into (buffer (cf_zero c) 12) (flash_read (flash s) (cf_offset c) sizeof_COMPRESS_MIB_HEADER_T).1) in
  r ←
    (if decide (c_signature h = cf_comp c) then
       r ← conf_compressed c h s;
       Some (match r with inl (s, d) => inl (s, Some d) | inr s => inr s end)
     else
       let '(d, ok) := flash_read (flash s) (cf_offset c) sizeof_PARAM_HEADER_T in
       let b := read_into (header_bytes (cf_header c s)) d in
       if ok =? 0 then Some (inr (cf_set c (ParamHeader (take 4 b) (le_val (take 4 (drop 4 b)))) s))
       else Some (inl (cf_set c (header_of b) s, None)));
  match r with
  | inr s => Some (s, None)
  | inl (s, expFile) =>
      let header := cf_header c s in
      if bad_header c header || (h_len header <? sizeof_APMIB_T + 1) then Some (s, None)
      else if negb (malloc (h_len header)) then Some (s, None)
      else
        buff ←
          match expFile with
          | Some d => d ← zslice d 0 (h_len header); Some (Some d)
          | None =>
              let '(d, ok) := flash_read (flash s) (cf_offset c + sizeof_PARAM_HEADER_T) (h_len header) in
              Some (if ok =? 0 then None else Some d)
          end;
        match buff with
        | None => Some (s, None)
        | Some buff => ck ← CHECKSUM_OK buff (s32 (h_len header)); Some (s, if ck =? 0 then None else Some buff)
        end
  end.

Definition cs_conf : conf :=
  Conf CURRENT_SETTING CURRENT_SETTING_OFFSET CURRENT_SETTING_SECTOR_LEN COMP_CS_SIGNATURE CURRENT_SETTING_HEADER_TAG
    CURRENT_SETTING_VER true csHeader set_csHeader.
Definition ds_conf : conf :=
  Conf DEFAULT_SETTING DEFAULT_SETTING_OFFSET DEFAULT_SETTING_SECTOR_LEN COMP_DS_SIGNATURE DEFAULT_SETTING_HEADER_TAG
    DEFAULT_SETTING_VER false dsHeader set_dsHeader.

Definition apmib_csconf : apmib -> option (apmib * option (list Z)) := apmib_conf cs_conf.
Definition apmib_dsconf : apmib -> option (apmib * option (list Z)) := apmib_conf ds_conf.

(** Hardware settings.  The compressed case: [expFile], when there is one. *)
Definition hw_compressed (s : apmib) : option (apmib * option (list Z) + apmib) :=
  let h := comp_header_of (read_into (fresh 12) (flash_read (flash s) HW_SETTING_OFFSET sizeof_COMPRESS_MIB_HEADER_T).1) in
  if decide (c_signature h = COMP_HS_SIGNATURE) then
    e ← expand false HW_SETTING_OFFSET HW_SETTING_SECTOR_LEN h s;
    match e with
    | None => Some (inr s)
    | Some expFile =>
        b ← zslice expFile 0 sizeof_HW_PARAM_HEADER_T;
        let s := set_hsHeader (hw_header_of b) s in
        d ← tlv_expand HW_SETTING sizeof_HW_SETTING_T sizeof_HW_PARAM_HEADER_T (drop 6 expFile) (h_len (hsHeader s));
        match d with
        | None => Some (inl (s, Some (drop 6 expFile)))
        | Some d =>
            Some (inl (set_hsHeader (ParamHeader (take 2 (signature (hsHeader s)) ++ sprintf_02d HW_SETTING_VER) (sizeof_HW_SETTING_T + 1)) s, Some d))
        end
    end
  else Some (inl (s, None)).

(** The loop that swaps the words of the first level. *)
Fixpoint swap_flat (tbl : list mib_table_entry) (buff : list Z) : option (list Z) :=
  match tbl with
  | [] => Some buff
  | m :: tbl => if m_id m =? 0 then Some buff else buff ← _mib_swap_value m buff (m_offset m); swap_flat tbl buff
  end.

Definition hw_tags : list (list Z) := [HW_SETTING_HEADER_TAG; HW_SETTING_HEADER_FORCE_TAG; HW_SETTING_HEADER_UPGRADE_TAG].

Definition apmib_hwconf (s : apmib) : option (apmib * option (list Z)) :=
  let '(start, ok) := flash_read (flash s) HW_SETTING_OFFSET 6 in
  let s := if ok =? 0 then s else set_compress (negb (bool_decide (take 2 start ∈ hw_tags))) s in
  r ←
    (if compress_hw_setting s then hw_compressed s
     else
       let '(d, ok) := flash_read (flash s) HW_SETTING_OFFSET sizeof_HW_PARAM_HEADER_T in
       let b := read_into (hw_header_bytes (hsHeader s)) d in
       if ok =? 0 then Some (inr (set_hsHeader (ParamHeader (take 4 b) (le_val (take 2 (drop 4 b)))) s))
       else Some (inl (set_hsHeader (hw_header_of b) s, None)));
  match r with
  | inr s => Some (s, None)
  | inl (s, expFile) =>
      let len := h_len (hsHeader s) in
      if negb (has_tag HW_SETTING_HEADER_TAG (hsHeader s)) then Some (s, None)
      else if negb (header_ver (hsHeader s) =? HW_SETTING_VER) || (len <? sizeof_HW_SETTING_T + 1) then Some (s, None)
      else if negb (malloc len) then Some (s, None)
      else
        buff ←
          (if compress_hw_setting s then
             match expFile with
             | Some d => d ← zslice d 0 len; Some (Some d)
             | None => Some (Some (replicate (Z.to_nat len) 0))
             end
           else
             let '(d, ok) := flash_read (flash s) (HW_SETTING_OFFSET + sizeof_HW_PARAM_HEADER_T) len in
             Some (if ok =? 0 then None else Some d));
        match buff with
        | None => Some (s, None)
        | Some buff =>
            ck ← CHECKSUM_OK buff len;
            if ck =? 0 then Some (s, None)
            else if compress_hw_setting s then Some (s, Some buff)
            else
              root ← zget hwmib_root_table 0;
              buff ← swap_flat (next_mib_table root) buff;
              Some (s, Some buff)
        end
  end.
End settings.
