(* ===== verification/ApmibSpec.v ===== *)
(** The settings survive the flash: what [apmib_update] and [apmib_updateDef] write is what
    [apmib_csconf] and [apmib_dsconf] read; what the checksums catch; and where the hardware
    settings go wrong. *)

From stdpp Require Import list.
From S2P Require Import Prelude Libc Lzss LzssTree LzssText LzssCode LzssSpec Tlv TlvSpec TlvRead TlvRoundtrip Apmib.

(** ** Checksums *)

Lemma sum8_foldl d : forall a, is_byte a -> foldl (fun sum b => u8 (sum + b)) a d = u8 (a + foldr Z.add 0 d).
Proof.
  induction d as [|b d IH]; intros a Ha; cbn [foldl foldr]; [by rewrite Z.add_0_r, u8_id|].
  rewrite IH by apply u8_range. unfold u8. rewrite Zplus_mod_idemp_l. f_equal. lia.
Qed.

Lemma sum8_spec d : sum8 d = u8 (foldr Z.add 0 d).
Proof. unfold sum8. rewrite sum8_foldl by width. by rewrite Z.add_0_l. Qed.

Lemma sum_app d e : foldr Z.add 0 (d ++ e) = foldr Z.add 0 d + foldr Z.add 0 e.
Proof. induction d as [|b d IH]; [done|]. cbn [foldr app]. lia. Qed.

Definition checksum_of (d : list Z) : Z := u8 (- foldr Z.add 0 d).

Lemma checksum_head d rest : CHECKSUM (d ++ rest) (zlen d) = Some (checksum_of d).
Proof.
  unfold CHECKSUM. rewrite (proj2 (Z.ltb_ge _ _)), zslice_head by lia. cbn [mbind option_bind]. f_equal.
  rewrite sum8_spec. unfold checksum_of. generalize (foldr Z.add 0 d). intros n. unfold Z.lnot, u8.
  replace (Z.pred (- (n mod 2 ^ 8)) + 1) with (0 - n mod 2 ^ 8) by lia. rewrite Zminus_mod_idemp_r. f_equal; lia.
Qed.

Lemma checksum_whole d : CHECKSUM d (zlen d) = Some (checksum_of d).
Proof. rewrite <- (app_nil_r d) at 1. apply checksum_head. Qed.

Lemma checksum_ok_iff d rest : zlen d <= CHECKSUM_LEN_MAX ->
  CHECKSUM_OK (d ++ rest) (zlen d) = Some (if foldr Z.add 0 d mod 256 =? 0 then 1 else 0).
Proof.
  intros Hl. unfold CHECKSUM_OK. rewrite (proj2 (Z.ltb_ge _ _)), (proj2 (Z.ltb_ge CHECKSUM_LEN_MAX _)), zslice_head by lia.
  cbn [orb mbind option_bind]. by rewrite sum8_spec.
Qed.

Lemma checksum_ok_sealed d rest : zlen d < CHECKSUM_LEN_MAX ->
  CHECKSUM_OK ((d ++ [checksum_of d]) ++ rest) (zlen d + 1) = Some 1.
Proof.
  intros Hl. replace (zlen d + 1) with (zlen (d ++ [checksum_of d])) by (rewrite length_app; cbn [length]; lia).
  rewrite checksum_ok_iff by (rewrite length_app; cbn [length]; lia). rewrite sum_app. cbn [foldr]. unfold checksum_of, u8.
  rewrite Z.add_0_r. change (2 ^ 8) with 256. rewrite Zplus_mod_idemp_r. by rewrite Z.add_opp_diag_r.
Qed.

(** ** Headers *)

Lemma u32_split v : is_u32 v -> exists a b c d, is_byte a /\ is_byte b /\ is_byte c /\ is_byte d /\ v = le_val [a; b; c; d].
Proof.
  intros Hv. pose proof (le_val_bytes 4 v ltac:(width)) as E. pose proof (le_bytes_ok 4 v) as Hb.
  destruct (list_of_4 (le_bytes 4 v) (length_le_bytes 4 v)) as (a & b & c & d & El). rewrite El in *.
  rewrite !Forall_cons in Hb. exists a, b, c, d. naive_solver.
Qed.

Lemma dword_swap_swap v : is_u32 v -> DWORD_SWAP (DWORD_SWAP v) = v /\ is_u32 (DWORD_SWAP v).
Proof.
  intros Hv. destruct (u32_split v Hv) as (a & b & c & d & Ha & Hb & Hc & Hd & ->). rewrite le_val_4, !dword_swap_bytes by done.
  split; [done|]. width.
Qed.

Lemma header_codec sig len rest : length sig = 4%nat -> is_u32 len ->
  header_of (header_bytes (ParamHeader sig (HEADER_SWAP len)) ++ rest) = ParamHeader sig len.
Proof.
  intros Hs Hl. destruct (dword_swap_swap len Hl) as [E Hr]. unfold header_of, header_bytes, HEADER_SWAP. cbn [signature h_len].
  rewrite <- app_assoc, take_app_length', drop_app_length' by done. rewrite take_app_length' by (symmetry; apply length_le_bytes).
  by rewrite le_val_bytes32, E.
Qed.

Lemma comp_header_codec sig rate len rest : length sig = 6%nat -> is_u16 rate -> is_u32 len ->
  comp_header_of (comp_header_bytes (CompHeader sig (WORD_SWAP rate) (DWORD_SWAP len)) ++ rest) =
    CompHeader sig (WORD_SWAP rate) (DWORD_SWAP len).
Proof.
  intros Hs Hrt Hl. destruct (dword_swap_swap len Hl) as [_ Hr]. pose proof (word_swap_range rate) as Hw.
  unfold comp_header_of, comp_header_bytes. cbn [c_signature compRate compLen].
  rewrite <- !app_assoc, take_app_length', drop_app_length' by done. rewrite take_app_length' by (symmetry; apply length_le_bytes).
  change 8%nat with (6 + 2)%nat. rewrite <- drop_drop, drop_app_length', drop_app_length', take_app_length' by (done || by rewrite length_le_bytes).
  rewrite !le_val_bytes by width. done.
Qed.

(** ** Flash *)

Lemma flash_write_fits (pre old post buf : list Z) : length old = length buf ->
  flash_write (Some (pre ++ old ++ post)) buf (zlen pre) = (Some (pre ++ buf ++ post), 1).
Proof.
  intros Hl. unfold flash_write, lseek. rewrite (proj2 (Z.ltb_ge _ _)), Nat2Z.id by lia.
  rewrite !length_app. replace (length buf `min` _)%nat with (length buf) by lia. rewrite Nat.eqb_refl.
  rewrite take_app_length, (firstn_all buf), <- Hl, <- (length_app pre old), (app_assoc pre old post), drop_app_length. done.
Qed.

Lemma flash_read_at (pre buf post : list Z) n : 0 <= n <= zlen buf ->
  flash_read (Some (pre ++ buf ++ post)) (zlen pre) n = (take (Z.to_nat n) buf, 1).
Proof.
  intros Hn. unfold flash_read, lseek. rewrite (proj2 (Z.ltb_ge _ _)), Nat2Z.id, drop_app_length by lia.
  rewrite take_app_le by lia. rewrite length_take, (proj2 (Z.eqb_eq _ _)) by lia. done.
Qed.

Lemma flash_split (f : list Z) off n : 0 <= off -> 0 <= n -> off + n <= zlen f ->
  exists pre old post : list Z, f = pre ++ old ++ post /\ zlen pre = off /\ zlen old = n.
Proof.
  intros Ho Hn Hf. exists (take (Z.to_nat off) f), (take (Z.to_nat n) (drop (Z.to_nat off) f)), (drop (Z.to_nat n) (drop (Z.to_nat off) f)).
  rewrite !take_drop, !length_take, length_drop. split; [done|]. lia.
Qed.

(** ** Compression *)

Lemma lzss_codec ucInput : Forall is_byte ucInput -> ucInput <> [] ->
  exists enc, Encode ucInput (zlen ucInput) true = Some enc /\ 0 < zlen enc <= zlen ucInput + (zlen ucInput + 7) / 8 /\
    forall extra, extra <> [] -> Decode (enc ++ extra) (zlen enc) true = Some ucInput.
Proof.
  intros Hb Hne. destruct (Encode_tokens ucInput Hb) as (groups & g & -> & Hall & Hg & Hok & Hlen).
  eexists. split; [done|]. destruct (units_size _ _ _ Hok) as [Hu Hk]. pose proof (concat_full groups Hall) as Hc. split.
  - rewrite length_app in Hk. assert (0 < zlen ucInput) by (destruct ucInput; [done|cbn [length]; lia]).
    rewrite serialize_length. split; [|destruct g; cbn [length] in *; Z.div_mod_to_equations; lia].
    destruct g; [|lia]. destruct groups; [by cbn in Hlen; lia|]. cbn [length]. lia.
  - intros extra He. rewrite (Decode_serialize ucInput) by done. by destruct extra.
Qed.

(** ** Blocks are bytes *)

Notation bytes := (Forall is_byte).

Lemma be_bytes_ok n z : bytes (be_bytes n z).
Proof. unfold be_bytes. apply Forall_rev, le_bytes_ok. Qed.

Lemma on_rows_bytes g tbl : Forall (fun m => forall u, bytes u -> bytes (g m u)) tbl -> forall u, bytes u -> bytes (on_rows g tbl u).
Proof.
  induction 1 as [|m tbl Hm _ IH]; intros u Hu; [constructor|]. cbn [on_rows]. apply Forall_app_2; [by apply Hm, Forall_take|].
  by apply IH, Forall_drop.
Qed.

Lemma units_bytes n size u : bytes u -> Forall bytes (units n size u).
Proof. revert u. induction n as [|n IH]; intros u Hu; constructor; [by apply Forall_take|by apply IH, Forall_drop]. Qed.

Lemma on_units_bytes f m u : (forall u, bytes u -> bytes (f m u)) -> bytes u -> bytes (on_units f m u).
Proof.
  intros Hf Hu. unfold on_units. apply Forall_concat, Forall_fmap. eapply Forall_impl; [by apply units_bytes|]. intros x Hx. by apply Hf.
Qed.

Lemma enc_bytes m : forall u, bytes u -> bytes (enc m u).
Proof.
  induction m as [id t o ts us next IH] using mib_ind. intros u Hu. cbn [enc]. destruct (is_table_type t).
  - apply on_rows_bytes; [|done]. eapply Forall_impl; [exact IH|]. intros m Hm v Hv. unfold enc_row.
    destruct (is_table m); [|by apply Hm]. do 2 (apply Forall_app_2; [apply be_bytes_ok|]). by apply on_units_bytes.
  - by do 2 (apply Forall_app_2; [apply be_bytes_ok|]).
Qed.

Lemma swapped_bytes m : forall u, bytes u -> bytes (swapped m u).
Proof.
  induction m as [id t o ts us next IH] using mib_ind. intros u Hu. cbn [swapped]. destruct (is_table_type t).
  - apply on_rows_bytes; [|done]. eapply Forall_impl; [exact IH|]. intros m Hm v Hv. unfold swapped_row.
    destruct (is_table m); [by apply on_units_bytes|by apply Hm].
  - destruct t; try done; by apply Forall_rev.
Qed.

Lemma block_bytes root D : bytes D -> bytes (block_of root D).
Proof. intros HD. by apply enc_bytes, swapped_bytes. Qed.

Lemma checksum_of_byte d : is_byte (checksum_of d).
Proof. apply u8_range. Qed.

(** ** The compressed file *)

(** A machine on which every allocation succeeds. *)
Class healthy (mach : machine) : Prop := {
  malloc_ok : forall n, malloc n = true;
  fresh_length : forall n, 0 <= n -> zlen (fresh n) = n;
  slack_some : slack <> []
}.

Section machine.
Context {mach : machine} {Hmach : healthy mach}.

(** [code] is what the compressor makes of [image]. *)
Definition is_code (image code : list Z) : Prop :=
  0 < zlen code <= zlen image + (zlen image + 7) / 8 /\
  forall extra, extra <> [] -> Decode (code ++ extra) (zlen code) true = Some image.

Definition comp_file (sig image code : list Z) : list Z :=
  comp_header_bytes (CompHeader sig (WORD_SWAP (u16 (zlen image / zlen code + 1))) (DWORD_SWAP (zlen code))) ++ code.

Lemma comp_file_length sig image code : length sig = 6%nat -> zlen (comp_file sig image code) = 12 + zlen code.
Proof. intros Hs. unfold comp_file, comp_header_bytes. rewrite !length_app, !length_le_bytes. cbn [c_signature]. lia. Qed.

Lemma comp_image_ok sig image real_size : bytes image -> image <> [] ->
  12 + zlen image + (zlen image + 7) / 8 <= real_size ->
  exists code, is_code image code /\ comp_image sig image real_size = Some (comp_file sig image code).
Proof.
  intros Hb Hne Hr. destruct (lzss_codec image Hb Hne) as (code & He & Hc & Hd). exists code. split; [done|].
  unfold comp_image. rewrite malloc_ok, He. cbn [mbind option_bind]. unfold sizeof_COMPRESS_MIB_HEADER_T.
  rewrite (proj2 (Z.ltb_ge _ _)), (proj2 (Z.eqb_neq _ 0)) by lia. done.
Qed.

Lemma buffer_length zero n : 0 <= n -> zlen (buffer zero n) = n.
Proof. intros Hn. unfold buffer. destruct zero; [rewrite length_replicate; lia|by apply fresh_length]. Qed.

Lemma read_into_all (buf d : list Z) : zlen d = zlen buf -> read_into buf d = d.
Proof. intros Hl. unfold read_into. rewrite drop_ge, app_nil_r by lia. done. Qed.

(** The header is found again. *)
Lemma comp_header_read zero pre sig image code post : length sig = 6%nat -> is_code image code -> zlen image < 60000 ->
  comp_header_of (read_into (buffer zero 12) (flash_read (Some (pre ++ comp_file sig image code ++ post)) (zlen pre) 12).1) =
    CompHeader sig (WORD_SWAP (u16 (zlen image / zlen code + 1))) (DWORD_SWAP (zlen code)).
Proof.
  intros Hs [Hc _] Hi. pose proof (comp_file_length sig image code Hs) as Hl. rewrite flash_read_at by lia. cbn [fst].
  unfold comp_file. set (h := comp_header_bytes _). assert (length h = 12%nat) as Hh.
  { unfold comp_file in Hl. fold h in Hl. rewrite length_app in Hl. lia. }
  rewrite take_app_length' by done. rewrite read_into_all by (rewrite buffer_length; lia).
  rewrite <- (app_nil_r h). apply comp_header_codec; [done|apply u16_range|]. split; [lia|]. Z.div_mod_to_equations; lia.
Qed.

Lemma expand_ok s zero pre sig image code post sector : length sig = 6%nat -> is_code image code -> zlen image < 60000 ->
  flash s = Some (pre ++ comp_file sig image code ++ post) -> zlen code <= sector ->
  exists rest, expand zero (zlen pre) sector
    (CompHeader sig (WORD_SWAP (u16 (zlen image / zlen code + 1))) (DWORD_SWAP (zlen code))) s = Some (Some (image ++ rest)).
Proof.
  intros Hs [Hc Hd] Hi Hf Hsec. assert (is_u32 (zlen code)) as Hu by (split; [lia|]; Z.div_mod_to_equations; lia).
  unfold expand. cbn [compRate compLen]. rewrite (proj1 (dword_swap_swap _ Hu)), word_swap_swap by apply u16_range.
  pose proof (Z.div_mod (zlen image) (zlen code) ltac:(lia)) as Hdm. pose proof (Z.mod_pos_bound (zlen image) (zlen code) ltac:(lia)).
  assert (0 <= zlen image / zlen code <= zlen image) as Hq by (split; [apply Z.div_pos; lia|apply Z.div_le_upper_bound; nia]).
  rewrite (u16_id (_ + 1)) by width. assert ((zlen image / zlen code + 1) * zlen code < 2 ^ 32) as Hroom by (Z.div_mod_to_equations; nia).
  rewrite (u32_id (_ * _)) by (split; [|done]; nia). set (room := _ * zlen code) in *.
  rewrite (proj2 (Z.ltb_lt 0 _)), (proj2 (Z.leb_le _ sector)), !malloc_ok by lia. cbn [andb negb].
  pose proof (comp_file_length sig image code Hs) as Hl. unfold sizeof_COMPRESS_MIB_HEADER_T. rewrite Hf, flash_read_at by lia. cbn [fst].
  rewrite firstn_all2 by lia. rewrite read_into_all by (rewrite buffer_length; lia).
  assert (drop 12 (comp_file sig image code) = code) as ->.
  { unfold comp_file. apply drop_app_length'. unfold comp_header_bytes. rewrite !length_app, !length_le_bytes. cbn [c_signature]. lia. }
  rewrite (Hd slack slack_some). cbn [mbind option_bind]. rewrite (proj2 (Z.ltb_ge _ _)) by (unfold room; nia).
  eexists. unfold read_into. done.
Qed.

(** ** The settings and their copies *)

Context (root : mib_table_entry) (D : list Z).

(** The machine's tables describe [D], and there is room for it everywhere. *)
Record fits : Prop := {
  f_root : mib_root_table = [root];
  f_ok : settings_ok root D;
  f_size : sizeof_APMIB_T = zlen D;
  f_depth : (height root <= depth)%nat;
  f_room : zlen (block_of root D) <= 4 * zlen D;
  f_small : zlen D < CHECKSUM_LEN_MAX;
  f_comp : 12 + (zlen (block_of root D) + 9) + (zlen (block_of root D) + 9 + 7) / 8 <= 0x4000
}.

Context (Hfits : fits).

Definition is_sw (type : Z) : Prop := type = DEFAULT_SETTING \/ type = CURRENT_SETTING.

Lemma sw_table type : is_sw type -> mib_get_table type = Some [root].
Proof. intros Ht. unfold mib_get_table. rewrite (f_root Hfits). by destruct Ht as [-> | ->]. Qed.

Lemma sw_len type : is_sw type -> mib_get_setting_len type = zlen D.
Proof. intros Ht. unfold mib_get_setting_len. rewrite (f_size Hfits). by destruct Ht as [-> | ->]. Qed.

Definition seal (d : list Z) : list Z := d ++ [checksum_of d].

Lemma seal_length d : zlen (seal d) = zlen d + 1.
Proof. unfold seal. rewrite length_app. cbn [length]. lia. Qed.

(** Putting the checksum into the last byte. *)
Lemma seal_last d c : (x ← CHECKSUM (d ++ [c]) (zlen d); zset (d ++ [c]) (zlen d) x) = Some (seal d).
Proof. rewrite checksum_head. cbn [mbind option_bind]. rewrite zset_app_r by (cbn [length]; lia). done. Qed.

Lemma swapped_copy_ok type b : is_sw type -> swapped_copy type (D ++ [b]) (zlen D + 1) = Some (seal (swapped root D)).
Proof.
  intros Ht. pose proof (f_ok Hfits) as Hok. unfold swapped_copy.
  assert (zlen D + 1 = zlen (D ++ [b])) as -> by (rewrite length_app; cbn [length]; lia).
  rewrite <- (app_nil_r (D ++ [b])) at 1. rewrite zslice_head. cbn [mbind option_bind]. unfold swap_mib_value.
  rewrite (sw_table type Ht). cbn [mbind option_bind]. rewrite (swap_root root D [b] Hok).
  cbn [mbind option_bind]. replace (zlen (D ++ [b]) - 1) with (zlen (swapped root D))
    by (rewrite (swapped_root_length root D Hok), length_app; cbn [length]; lia).
  apply seal_last.
Qed.

Lemma tlv_copy_ok type : is_sw type -> tlv_copy type (seal (swapped root D)) = Some (Some (seal (block_of root D))).
Proof.
  intros Ht. pose proof (f_ok Hfits) as Hok. pose proof (f_room Hfits) as Hroom. pose proof (f_small Hfits) as Hs. unfold CHECKSUM_LEN_MAX in Hs.
  unfold tlv_copy. rewrite malloc_ok, (sw_table type Ht), (sw_len type Ht), (u32_id (zlen D * 4)) by width.
  assert (zlen (fresh (zlen D * 4)) = zlen D * 4) as Hf by (apply fresh_length; lia).
  unfold seal at 1. rewrite save_block by (done || lia). cbn [mbind option_bind]. rewrite malloc_ok, zslice_head. cbn [Z.eqb Pos.eqb andb mbind option_bind].
  by rewrite checksum_whole.
Qed.

(** ** Writing and reading the file *)

(** The uncompressed file: header, block and checksum. *)
Definition sw_image (sig : list Z) : list Z :=
  header_bytes (ParamHeader sig (HEADER_SWAP (zlen (block_of root D) + 1))) ++ seal (block_of root D).

Lemma sw_image_ok sig : length sig = 4%nat -> bytes sig -> bytes (sw_image sig) /\ zlen (sw_image sig) = zlen (block_of root D) + 9.
Proof.
  intros Hs Hb. unfold sw_image, header_bytes. split.
  - repeat apply Forall_app_2; [done|apply le_bytes_ok|apply block_bytes, (so_bytes _ _ (f_ok Hfits))|]. apply Forall_singleton, checksum_of_byte.
  - pose proof (seal_length (block_of root D)). rewrite !length_app, length_le_bytes. cbn [signature]. lia.
Qed.

(** The flash after the file for [sig] was written at [offset]. *)
Definition written (sig comp : list Z) (offset : Z) (f : option (list Z)) : Prop :=
  exists code pre post, is_code (sw_image sig) code /\ zlen pre = offset /\ f = Some (pre ++ comp_file comp (sw_image sig) code ++ post).

Lemma write_comp sig comp real_size offset f : length sig = 4%nat -> bytes sig -> length comp = 6%nat ->
  0x4000 <= real_size -> 0 <= offset -> offset + 0x4000 <= zlen f ->
  exists code f', comp_image comp (sw_image sig) real_size = Some code /\
    flash_write (Some f) code offset = (f', 1) /\ written sig comp offset f'.
Proof.
  intros Hs Hb Hc Hr Ho Hf. destruct (sw_image_ok sig Hs Hb) as [Hib Hil]. pose proof (f_comp Hfits) as Hcomp.
  destruct (comp_image_ok comp (sw_image sig) real_size) as (code & Hcode & ->); [done| |rewrite Hil; lia|].
  { intros E. rewrite E in Hil. cbn [length] in Hil. lia. }
  pose proof (comp_file_length comp (sw_image sig) code Hc) as Hl. destruct Hcode as [Hcl Hdec]. rewrite Hil in Hcl.
  destruct (flash_split f offset (zlen (comp_file comp (sw_image sig) code))) as (pre & old & post & -> & Hp & Hold); [lia..|].
  eexists _, _. split; [done|]. rewrite <- Hp at 1. rewrite flash_write_fits by lia. split; [done|].
  exists code, pre, post. split_and!; [|done|done]. split; [by rewrite Hil|done].
Qed.

Lemma sw_exp_image s type h : is_sw type -> mib_get_header s type = Some (ParamHeader h (zlen (block_of root D) + 1)) ->
  exp_image type s (seal (block_of root D)) = Some (sw_image h).
Proof.
  intros Ht Hh. unfold exp_image. rewrite Hh. assert (type =? HW_SETTING = false) as -> by (by destruct Ht as [-> | ->]).
  cbn [mbind option_bind h_len signature]. pose proof (zslice_head (seal (block_of root D)) []) as Hz. rewrite app_nil_r, seal_length in Hz.
  by rewrite Hz.
Qed.

Lemma compress_write_ok s type sig f : is_sw type -> mib_get_header s type = Some (ParamHeader sig (zlen (block_of root D) + 1)) ->
  length sig = 4%nat -> bytes sig -> flash s = Some f -> 0x10000 <= zlen f ->
  exists f', mib_compress_write s type (seal (block_of root D)) = Some (set_flash f' s, 1) /\
    written sig (comp_signature type) (mib_get_flash_offset type) f'.
Proof.
  intros Ht Hh Hs Hb Hf Hlen.
  destruct (write_comp sig (comp_signature type) (u32 (mib_get_flash_offset type)) (mib_get_flash_offset type) f) as (code & f' & Hc & Hw & Hwr);
    [done|done|by destruct Ht as [-> | ->]|destruct Ht as [-> | ->]; vm_compute; congruence|destruct Ht as [-> | ->]; vm_compute; congruence| |].
  { destruct Ht as [-> | ->]; [change (mib_get_flash_offset DEFAULT_SETTING) with 0x8000|change (mib_get_flash_offset CURRENT_SETTING) with 0xc000]; lia. }
  exists f'. split; [|done]. unfold mib_compress_write. assert (type =? HW_SETTING = false) as E by (by destruct Ht as [-> | ->]).
  rewrite E, Hh. cbn [mbind option_bind]. rewrite !malloc_ok. cbn [andb]. rewrite (sw_exp_image s type sig Ht Hh). cbn [mbind option_bind].
  rewrite Hc. cbn [mbind option_bind]. rewrite Hf, Hw. done.
Qed.

(** Reading the settings back. *)

(** The constants of [apmib_csconf] and [apmib_dsconf]. *)
Record sw_conf (c : conf) : Prop := {
  sc_type : is_sw (cf_type c);
  sc_comp : length (cf_comp c) = 6%nat;
  sc_tag : length (cf_tag c) = 2%nat;
  sc_ver : cf_ver c = 3;
  sc_sector : cf_sector c = 0x4000;
  sc_get : forall h s, cf_header c (cf_set c h s) = h
}.

Lemma tlv_expand_ok type hsize rest : is_sw type ->
  tlv_expand type (zlen D) hsize (seal (block_of root D) ++ rest) (zlen (block_of root D) + 1) = Some (Some (seal D)).
Proof.
  intros Ht. pose proof (f_ok Hfits) as Hok. pose proof (f_small Hfits) as Hs. pose proof (f_comp Hfits) as Hc. unfold CHECKSUM_LEN_MAX in Hs.
  unfold tlv_expand. assert (zlen (block_of root D) < 0x4000) as Hb by (Z.div_mod_to_equations; lia).
  pose proof (checksum_ok_sealed (block_of root D) rest ltac:(unfold CHECKSUM_LEN_MAX; lia)) as Hck. fold (seal (block_of root D)) in Hck.
  rewrite s32_id, Hck by lia. cbn [mbind option_bind Z.eqb Pos.eqb negb].
  rewrite !malloc_ok, (sw_table type Ht), u32_id by (split; lia). replace (zlen (block_of root D) + 1 - 1) with (zlen (block_of root D)) by lia.
  replace (Z.to_nat (zlen D + 1)) with (length D + 1)%nat by lia. rewrite replicate_add. unfold seal at 1. rewrite <- (app_assoc (block_of root D)).
  rewrite init_block; [|done|apply malloc_ok|apply (f_depth Hfits)|by rewrite length_replicate|rewrite length_app, length_replicate; lia].
  cbn [mbind option_bind Z.eqb Pos.eqb]. change (replicate 1 0) with [0]. 
  assert (forall k : list Z -> option (option (list Z)), (checksum ← CHECKSUM (D ++ [0]) (zlen D); d ← zset (D ++ [0]) (zlen D) checksum; k d) = k (seal D)) as Hk.
  { intros k. pose proof (seal_last D 0) as Hl. destruct (CHECKSUM (D ++ [0]) (zlen D)); [|done]. cbn [mbind option_bind] in *. by rewrite Hl. }
  apply (Hk (fun d => Some (Some d))).
Qed.

Lemma conf_header_ok c : sw_conf c -> bad_header c (ParamHeader (cf_tag c ++ sprintf_02d (cf_ver c)) (zlen D + 1)) = false.
Proof.
  intros Hc. unfold bad_header, has_tag, header_ver. cbn [signature]. rewrite (sc_ver c Hc).
  rewrite take_app_length', drop_app_length' by (by rewrite (sc_tag c Hc)). by rewrite bool_decide_eq_true_2.
Qed.

Lemma conf_read_ok c s : sw_conf c ->
  written (cf_tag c ++ sprintf_02d (cf_ver c)) (cf_comp c) (cf_offset c) (flash s) ->
  exists s', apmib_conf c s = Some (s', Some (seal D)) /\ cf_header c s' = ParamHeader (cf_tag c ++ sprintf_02d (cf_ver c)) (zlen D + 1).
Proof.
  intros Hc (code & pre & post & Hcode & Hpre & Hf). set (sig := cf_tag c ++ sprintf_02d (cf_ver c)) in *.
  assert (length sig = 4%nat) as Hsig by (unfold sig; rewrite length_app, (sc_tag c Hc); done).
  pose proof (f_comp Hfits) as Hcomp. pose proof (f_small Hfits) as Hsmall. unfold CHECKSUM_LEN_MAX in Hsmall.
  assert (zlen (sw_image sig) = zlen (block_of root D) + 9) as Hil.
  { unfold sw_image, header_bytes. pose proof (seal_length (block_of root D)). rewrite !length_app, length_le_bytes. cbn [signature]. lia. }
  assert (zlen (sw_image sig) < 60000) as Hi by (rewrite Hil; Z.div_mod_to_equations; lia).
  exists (cf_set c (ParamHeader sig (zlen D + 1)) (cf_set c (ParamHeader sig (zlen (block_of root D) + 1)) s)). split; [|apply (sc_get c Hc)].
  unfold apmib_conf. rewrite Hf. unfold sizeof_COMPRESS_MIB_HEADER_T.
  pose proof (comp_header_read (cf_zero c) pre (cf_comp c) (sw_image sig) code post (sc_comp c Hc) Hcode Hi) as Hch.
  rewrite Hpre in Hch. rewrite Hch. cbn [c_signature].
  rewrite decide_True by done. unfold conf_compressed.
  destruct (expand_ok s (cf_zero c) pre (cf_comp c) (sw_image sig) code post (cf_sector c) (sc_comp c Hc) Hcode Hi Hf) as (rest & He).
  { rewrite (sc_sector c Hc). destruct Hcode as [Hcl _]. rewrite Hil in Hcl. Z.div_mod_to_equations; lia. }
  rewrite Hpre in He. rewrite He. cbn [mbind option_bind].
  assert (zlen (header_bytes (ParamHeader sig (HEADER_SWAP (zlen (block_of root D) + 1)))) = 8) as Hh8
    by (unfold header_bytes; rewrite length_app, length_le_bytes; cbn [signature]; lia).
  pose proof (zslice_head (header_bytes (ParamHeader sig (HEADER_SWAP (zlen (block_of root D) + 1)))) (seal (block_of root D) ++ rest)) as Hzh.
  rewrite Hh8, app_assoc in Hzh. fold (sw_image sig) in Hzh. change sizeof_PARAM_HEADER_T with 8. rewrite Hzh. cbn [mbind option_bind].
  assert (is_u32 (zlen (block_of root D) + 1)) as Hu by (split; [lia|]; Z.div_mod_to_equations; lia).
  pose proof (header_codec sig (zlen (block_of root D) + 1) [] Hsig Hu) as Hhc. rewrite app_nil_r in Hhc. rewrite Hhc.
  assert (bad_header c (ParamHeader sig (zlen (block_of root D) + 1)) = false) as Hbad by exact (conf_header_ok c Hc). rewrite Hbad.
  rewrite (f_size Hfits). cbn [h_len signature].
  assert (drop 8 (sw_image sig ++ rest) = seal (block_of root D) ++ rest) as ->.
  { unfold sw_image. rewrite <- app_assoc. apply drop_app_length'. lia. }
  rewrite (tlv_expand_ok _ _ rest (sc_type c Hc)). cbn [mbind option_bind]. rewrite (sc_get c Hc).
  assert (take 2 sig = cf_tag c) as -> by (unfold sig; apply take_app_length'; by rewrite (sc_tag c Hc)). fold sig.
  rewrite (conf_header_ok c Hc : bad_header c (ParamHeader sig _) = false). cbn [h_len orb]. rewrite Z.ltb_irrefl, malloc_ok. cbn [negb].
  pose proof (zslice_head (seal D) []) as Hz. rewrite app_nil_r, seal_length in Hz. rewrite Hz. cbn [mbind option_bind].
  rewrite s32_id by lia. pose proof (checksum_ok_sealed D [] ltac:(unfold CHECKSUM_LEN_MAX; lia)) as Hck. rewrite app_nil_r in Hck. fold (seal D) in Hck.
  by rewrite Hck.
Qed.

(** Writing the settings of one kind. *)
Lemma update_settings_ok type s b sig f : is_sw type ->
  (if type =? CURRENT_SETTING then pMib s else pMibDef s) = D ++ [b] ->
  (if type =? CURRENT_SETTING then csHeader s else dsHeader s) = ParamHeader sig (zlen D + 1) ->
  length sig = 4%nat -> bytes sig -> flash s = Some f -> 0x10000 <= zlen f ->
  exists s', update_settings type s = Some (s', 1) /\
    csHeader s' = csHeader s /\ dsHeader s' = dsHeader s /\ pMib s' = pMib s /\ pMibDef s' = pMibDef s /\
    written sig (comp_signature type) (mib_get_flash_offset type) (flash s').
Proof.
  intros Ht Hm Hh Hs Hb Hf Hlen. unfold update_settings. rewrite Hh, Hm. cbn [h_len signature]. rewrite malloc_ok. cbn [negb].
  rewrite (swapped_copy_ok type b Ht). cbn [mbind option_bind]. rewrite (tlv_copy_ok type Ht). cbn [mbind option_bind].
  rewrite seal_length. set (s1 := if type =? CURRENT_SETTING then set_csHeader _ s else set_dsHeader _ s).
  destruct (compress_write_ok s1 type sig f) as (f' & Hw & Hwr); [done|by destruct Ht as [-> | ->]|done|done|by destruct Ht as [-> | ->]|done|].
  rewrite Hw. cbn [mbind option_bind]. eexists. split; [done|]. unfold s1. destruct Ht as [-> | ->]; cbn; split_and!; try done; try (by rewrite <- Hh).
Qed.

Lemma updateDef_compress_ok s sig f : length sig = 4%nat -> bytes sig -> flash s = Some f -> 0x10000 <= zlen f ->
  exists f', mib_updateDef_compress_write s CURRENT_SETTING (seal (block_of root D)) (ParamHeader sig (zlen (block_of root D) + 1)) =
      Some (set_flash f' s, 1) /\ written sig COMP_CS_SIGNATURE CURRENT_SETTING_OFFSET f'.
Proof.
  intros Hs Hb Hf Hlen. destruct (write_comp sig COMP_CS_SIGNATURE 0x4000 CURRENT_SETTING_OFFSET f) as (code & f' & Hc & Hw & Hwr);
    [done|done|done|done|done|change CURRENT_SETTING_OFFSET with 0xc000; lia|].
  exists f'. split; [|done]. pose proof (f_comp Hfits) as Hcomp. unfold mib_updateDef_compress_write. cbn [h_len signature].
  change (mib_get_flash_offset CURRENT_SETTING) with CURRENT_SETTING_OFFSET. change (mib_get_real_len CURRENT_SETTING) with 0x4000.
  change (CURRENT_SETTING_OFFSET =? 0) with false. change (CURRENT_SETTING =? HW_SETTING) with false.
  change (CURRENT_SETTING =? DEFAULT_SETTING) with false. rewrite Z.eqb_refl. cbn [orb negb].
  unfold sizeof_PARAM_HEADER_T. rewrite u32_id by (split; [lia|]; Z.div_mod_to_equations; lia). rewrite (proj2 (Z.eqb_neq _ 0)) by lia.
  cbn [Z.eqb]. rewrite !malloc_ok. cbn [andb]. pose proof (zslice_head (seal (block_of root D)) []) as Hz. rewrite app_nil_r, seal_length in Hz.
  rewrite Hz. cbn [mbind option_bind]. fold (sw_image sig). change (comp_signature CURRENT_SETTING) with COMP_CS_SIGNATURE. rewrite Hc. cbn [mbind option_bind].
  rewrite Hf, Hw. done.
Qed.

Lemma cs_conf_ok : sw_conf cs_conf.
Proof. split; try done. by right. Qed.

Lemma ds_conf_ok : sw_conf ds_conf.
Proof. split; try done. by left. Qed.

Definition cs_header : PARAM_HEADER_T := ParamHeader (CURRENT_SETTING_HEADER_TAG ++ sprintf_02d CURRENT_SETTING_VER) (zlen D + 1).
Definition ds_header : PARAM_HEADER_T := ParamHeader (DEFAULT_SETTING_HEADER_TAG ++ sprintf_02d DEFAULT_SETTING_VER) (zlen D + 1).
End machine.

(** ** The settings survive the flash *)

(** C1: what [apmib_update] stores as current or default settings is what [apmib_csconf] or
    [apmib_dsconf] reads at the next start, every byte of the structure, with a valid
    checksum; the headers in memory are as before. *)
Theorem apmib_update_then_conf (mach : machine) (Hmach : healthy mach) root D s b f :
  fits root D -> flash s = Some f -> 0x10000 <= zlen f ->
  (pMib s = D ++ [b] -> csHeader s = cs_header D -> exists s1 s2,
     apmib_update CURRENT_SETTING s = Some (s1, 1) /\ csHeader s1 = csHeader s /\
     apmib_csconf s1 = Some (s2, Some (D ++ [checksum_of D])) /\ csHeader s2 = csHeader s) /\
  (pMibDef s = D ++ [b] -> dsHeader s = ds_header D -> exists s1 s2,
     apmib_update DEFAULT_SETTING s = Some (s1, 1) /\ dsHeader s1 = dsHeader s /\
     apmib_dsconf s1 = Some (s2, Some (D ++ [checksum_of D])) /\ dsHeader s2 = dsHeader s).
Proof.
  intros Hfit Hf Hlen. split; intros Hm Hh.
  - destruct (update_settings_ok root D Hfit CURRENT_SETTING s b _ f (or_intror eq_refl) Hm Hh eq_refl ltac:(eval_decide) Hf Hlen)
      as (s1 & Hu & H1 & _ & _ & _ & Hw).
    destruct (conf_read_ok root D Hfit cs_conf s1 cs_conf_ok Hw) as (s2 & Hr & H2). exists s1, s2. split_and!; [exact Hu|done|exact Hr|by rewrite Hh].
  - destruct (update_settings_ok root D Hfit DEFAULT_SETTING s b _ f (or_introl eq_refl) Hm Hh eq_refl ltac:(eval_decide) Hf Hlen)
      as (s1 & Hu & _ & H1 & _ & _ & Hw).
    destruct (conf_read_ok root D Hfit ds_conf s1 ds_conf_ok Hw) as (s2 & Hr & H2). exists s1, s2. split_and!; [exact Hu|done|exact Hr|by rewrite Hh].
Qed.

(** C29: restoring the factory settings: after [apmib_updateDef] the current settings read at
    the next start are the default ones. *)
Theorem apmib_updateDef_then_csconf (mach : machine) (Hmach : healthy mach) root D s b f :
  fits root D -> flash s = Some f -> 0x10000 <= zlen f -> pMibDef s = D ++ [b] -> dsHeader s = ds_header D ->
  exists s1 s2, apmib_updateDef s = Some (s1, 1) /\ apmib_csconf s1 = Some (s2, Some (D ++ [checksum_of D])) /\ csHeader s2 = cs_header D.
Proof.
  intros Hfit Hf Hlen Hm Hh. set (sig := CURRENT_SETTING_HEADER_TAG ++ sprintf_02d CURRENT_SETTING_VER).
  destruct (updateDef_compress_ok root D Hfit s sig f eq_refl ltac:(eval_decide) Hf Hlen) as (f' & Hu & Hw).
  destruct (conf_read_ok root D Hfit cs_conf (set_flash f' s) cs_conf_ok Hw) as (s2 & Hr & H2). exists (set_flash f' s), s2. split_and!; [|exact Hr|done].
  unfold apmib_updateDef. rewrite Hh, malloc_ok, Hm. cbn [negb ds_header h_len signature].
  rewrite (swapped_copy_ok root D Hfit DEFAULT_SETTING b (or_introl eq_refl)). cbn [mbind option_bind].
  rewrite (tlv_copy_ok root D Hfit DEFAULT_SETTING (or_introl eq_refl)). cbn [mbind option_bind]. rewrite seal_length.
  change (CURRENT_SETTING_HEADER_TAG ++ drop 2 (DEFAULT_SETTING_HEADER_TAG ++ sprintf_02d DEFAULT_SETTING_VER)) with sig. by rewrite Hu.
Qed.

(** ** An example *)

Definition demo_machine : machine := {|
  mib_root_table := [demo_root]; hwmib_root_table := [demo_root]; sizeof_APMIB_T := 25; sizeof_HW_SETTING_T := 25;
  malloc := fun _ => true; fresh := fun n => replicate (Z.to_nat n) 0xaa; slack := [0xbb]; depth := 3
|}.

Lemma demo_healthy : healthy demo_machine.
Proof. split; try done. intros n Hn. cbn [fresh demo_machine]. rewrite length_replicate. lia. Qed.

Lemma demo_fits : @fits demo_machine demo_root demo_settings.
Proof. split; [done|exact demo_ok|done|apply Nat.leb_le; by vm_compute|by vm_compute|done|by vm_compute]. Qed.

Definition demo_flash : list Z := replicate (Z.to_nat 65536) 0xff.

Lemma demo_flash_length : 0x10000 <= zlen demo_flash.
Proof. unfold demo_flash. rewrite length_replicate. rewrite Z2Nat.id; lia. Qed.

Definition demo_state : apmib :=
  Apmib (Some demo_flash) (demo_settings ++ [0]) (demo_settings ++ [0]) (demo_settings ++ [0])
    (ParamHeader (HW_SETTING_HEADER_TAG ++ sprintf_02d HW_SETTING_VER) 26) (ds_header demo_settings) (cs_header demo_settings) true.

Lemma apmib_update_then_conf_witness : exists s1 s2,
  apmib_update (mach := demo_machine) CURRENT_SETTING demo_state = Some (s1, 1) /\ csHeader s1 = csHeader demo_state /\
  apmib_csconf (mach := demo_machine) s1 = Some (s2, Some (demo_settings ++ [checksum_of demo_settings])) /\ csHeader s2 = csHeader demo_state.
Proof.
  apply (apmib_update_then_conf demo_machine demo_healthy demo_root demo_settings demo_state 0 demo_flash demo_fits eq_refl demo_flash_length); done.
Defined.

Lemma apmib_updateDef_then_csconf_witness : exists s1 s2,
  apmib_updateDef (mach := demo_machine) demo_state = Some (s1, 1) /\
  apmib_csconf (mach := demo_machine) s1 = Some (s2, Some (demo_settings ++ [checksum_of demo_settings])) /\ csHeader s2 = cs_header demo_settings.
Proof.
  apply (apmib_updateDef_then_csconf demo_machine demo_healthy demo_root demo_settings demo_state 0 demo_flash demo_fits eq_refl demo_flash_length); done.
Defined.

(** ** Hardware settings *)

Lemma hw_swapped_copy (mach : machine) root H b : hwmib_root_table = [root] -> settings_ok root H ->
  swapped_copy HW_SETTING (H ++ [b]) (zlen H + 1) = Some (seal (swapped root H)).
Proof.
  intros Hr Hok. unfold swapped_copy. assert (zlen H + 1 = zlen (H ++ [b])) as -> by (rewrite length_app; cbn [length]; lia).
  rewrite <- (app_nil_r (H ++ [b])) at 1. rewrite zslice_head. cbn [mbind option_bind]. unfold swap_mib_value, mib_get_table.
  change (HW_SETTING =? HW_SETTING) with true. cbn [mbind option_bind]. rewrite Hr, (swap_root root H [b] Hok). cbn [mbind option_bind].
  replace (zlen (H ++ [b]) - 1) with (zlen (swapped root H)) by (rewrite (swapped_root_length root H Hok), length_app; cbn [length]; lia).
  apply seal_last.
Qed.

Lemma swap_flat_length tbl : forall buff d, swap_flat tbl buff = Some d -> length d = length buff.
Proof.
  induction tbl as [|m tbl IH]; intros buff d; cbn [swap_flat]; [by intros [= <-]|]. destruct (m_id m =? 0); [by intros [= <-]|].
  destruct (_mib_swap_value m buff (m_offset m)) as [b1|] eqn:E; [|done]. cbn [mbind option_bind]. intros H. rewrite (IH _ _ H). revert E.
  unfold _mib_swap_value. destruct (m_type m); try (by intros [= <-]); [destruct (get_le16 _ _)|destruct (get_le32 _ _)]; try done; cbn [mbind option_bind]; apply zwrite_length.
Qed.

(** C38: hardware settings that were stored compressed and are then updated are not what the next start reads, on a
    little-endian machine: [apmib_update] writes the header with the length as it is in memory, [apmib_hwconf] swaps what it reads.
    Where the swapped length is below the size of the settings, it refuses them; whatever the size, settings that it does return
    have the swapped length, so those that were written come back only when the two bytes of their length are equal. *)
Theorem apmib_update_hw_refused (mach : machine) (Hmach : healthy mach) root H s b f :
  hwmib_root_table = [root] -> settings_ok root H -> sizeof_HW_SETTING_T = zlen H -> zlen H + 1 < 2 ^ 16 ->
  flash s = Some f -> 0x6000 + 6 + (zlen H + 1) <= zlen f -> compress_hw_setting s = true -> pHwSetting s = H ++ [b] ->
  hsHeader s = ParamHeader (HW_SETTING_HEADER_TAG ++ sprintf_02d HW_SETTING_VER) (zlen H + 1) ->
  exists s1, apmib_update HW_SETTING s = Some (s1, 1) /\
    (WORD_SWAP (zlen H + 1) < zlen H + 1 -> exists s2, apmib_hwconf s1 = Some (s2, None)) /\
    (forall s2 r, apmib_hwconf s1 = Some (s2, Some r) -> zlen r = WORD_SWAP (zlen H + 1)).
Proof.
  intros Hr Hok Hsize Hlen Hf Hfl Hcomp Hp Hh. set (sig := HW_SETTING_HEADER_TAG ++ sprintf_02d HW_SETTING_VER) in *.
  set (hdr := sig ++ le_bytes 2 (zlen H + 1)). assert (length hdr = 6%nat) as Hhl by done.
  set (data := seal (swapped root H)). assert (zlen data = zlen H + 1) as Hd by (unfold data; rewrite seal_length, (swapped_root_length root H Hok); lia).
  destruct (flash_split f HW_SETTING_OFFSET (6 + (zlen H + 1))) as (pre & old & post & -> & Hpre & Hold); [done|lia|unfold HW_SETTING_OFFSET; lia|].
  set (old1 := take 6 old). set (old2 := drop 6 old). assert (old = old1 ++ old2) as Eo by (symmetry; apply take_drop).
  assert (length old1 = 6%nat /\ length old2 = length data) as [Ho1 Ho2] by (unfold old1, old2; rewrite length_take, length_drop; lia).
  assert (apmib_update HW_SETTING s = Some (set_flash (Some (pre ++ hdr ++ data ++ post)) s, 1)) as Hu.
  { unfold apmib_update. change (Z.testbit HW_SETTING 0) with true. change (Z.testbit HW_SETTING 2) with false. change (Z.testbit HW_SETTING 1) with false.
    unfold update_hw. rewrite Hh. cbn [h_len]. rewrite malloc_ok. cbn [negb]. rewrite Hp, (hw_swapped_copy mach root H b Hr Hok). cbn [mbind option_bind].
    rewrite Hcomp, Hf. unfold hw_header_bytes. cbn [h_len signature]. fold hdr data. rewrite Eo, <- Hpre, <- (app_assoc old1).
    rewrite flash_write_fits by lia. cbn [fst flash set_flash]. unfold sizeof_HW_PARAM_HEADER_T.
    replace (zlen pre + 6) with (zlen (pre ++ hdr)) by (rewrite length_app; lia). rewrite (app_assoc pre hdr), flash_write_fits by done.
    cbn [Z.eqb mbind option_bind]. by rewrite <- app_assoc. }
  assert (take 6 hdr = hdr) as Ht6 by (apply take_ge; by rewrite Hhl).
  eexists. split; [exact Hu|].
  assert (apmib_hwconf (set_flash (Some (pre ++ hdr ++ data ++ post)) s) =
    (let s' := set_hsHeader (ParamHeader sig (WORD_SWAP (zlen H + 1))) (set_compress false (set_flash (Some (pre ++ hdr ++ data ++ post)) s)) in
     let len := WORD_SWAP (zlen H + 1) in
     if len <? zlen H + 1 then Some (s', None)
     else if negb (malloc len) then Some (s', None)
     else
       let '(d, ok) := flash_read (flash s') (HW_SETTING_OFFSET + sizeof_HW_PARAM_HEADER_T) len in
       if ok =? 0 then Some (s', None)
       else ck ← CHECKSUM_OK d len; if ck =? 0 then Some (s', None) else root ← zget hwmib_root_table 0; buff ← swap_flat (next_mib_table root) d; Some (s', Some buff))) as Hconf.
  { unfold apmib_hwconf. cbn [flash set_flash]. rewrite <- Hpre.
    rewrite (flash_read_at pre hdr (data ++ post) 6) by (rewrite Hhl; lia). change (Z.to_nat 6) with 6%nat. rewrite Ht6.
    cbn [Z.eqb]. assert (take 2 hdr = HW_SETTING_HEADER_TAG) as -> by done. rewrite bool_decide_eq_true_2 by (left). cbn [negb set_compress compress_hw_setting].
    unfold sizeof_HW_PARAM_HEADER_T. cbn [flash set_compress set_flash]. rewrite (flash_read_at pre hdr (data ++ post) 6) by (rewrite Hhl; lia). change (Z.to_nat 6) with 6%nat. rewrite Ht6.
    cbn [Z.eqb mbind option_bind]. rewrite read_into_all by (unfold hw_header_bytes; rewrite length_app, length_le_bytes; cbn [hsHeader set_flash set_compress]; rewrite Hh; done).
    assert (hw_header_of hdr = ParamHeader sig (WORD_SWAP (zlen H + 1))) as ->.
    { unfold hw_header_of. change (take 4 hdr) with sig. change (take 2 (drop 4 hdr)) with (le_bytes 2 (zlen H + 1)).
      by rewrite le_val_bytes by (change (256 ^ Z.of_nat 2) with (2 ^ 16); lia). }
    cbn [hsHeader set_hsHeader h_len compress_hw_setting flash]. rewrite Hsize.
    change (has_tag HW_SETTING_HEADER_TAG (ParamHeader sig (WORD_SWAP (zlen H + 1)))) with true.
    change (header_ver (ParamHeader sig (WORD_SWAP (zlen H + 1))) =? HW_SETTING_VER) with true. cbn [negb orb]. cbv zeta.
    destruct (_ <? _); [done|]. destruct (negb _); [done|]. destruct (flash_read _ _ _) as [d ok]. cbn [mbind option_bind]. by destruct (ok =? 0). }
  rewrite Hconf. clear Hconf Hu. cbv zeta. split.
  - intros Hsw. rewrite (proj2 (Z.ltb_lt _ _)) by done. by eexists.
  - intros s2 r. destruct (_ <? _); [done|]. destruct (negb _); [done|]. unfold flash_read. cbn [flash set_hsHeader set_compress set_flash].
    set (d := take _ _). destruct (Z.eqb_spec (zlen d) (WORD_SWAP (zlen H + 1))) as [El|]; [|done]. cbn [Z.eqb]. destruct (CHECKSUM_OK _ _) as [ck|]; [|done]. cbn [mbind option_bind].
    destruct (ck =? 0); [done|]. rewrite Hr. cbn [zget mbind option_bind]. destruct (zget [root] 0) as [rt|]; [|done]. cbn [mbind option_bind].
    destruct (swap_flat _ d) as [buff|] eqn:E; [|done]. cbn [mbind option_bind]. intros [= _ <-]. by rewrite (swap_flat_length _ _ _ E).
Qed.

(** Hardware settings of 255 bytes. *)
Definition hw_root : mib_table_entry := MibEntry 0x80c8 TABLE_LIST_T 0 255 255 [MibEntry 0x201 BYTE_ARRAY_T 0 255 255 []].
Definition hw_data : list Z := replicate 255 7.
Definition hw_machine : machine := {|
  mib_root_table := [demo_root]; hwmib_root_table := [hw_root]; sizeof_APMIB_T := 25; sizeof_HW_SETTING_T := 255;
  malloc := fun _ => true; fresh := fun n => replicate (Z.to_nat n) 0xaa; slack := [0xbb]; depth := 3
|}.
Definition hw_state : apmib :=
  Apmib (Some demo_flash) (hw_data ++ [0]) (demo_settings ++ [0]) (demo_settings ++ [0])
    (ParamHeader (HW_SETTING_HEADER_TAG ++ sprintf_02d HW_SETTING_VER) 256) (ds_header demo_settings) (cs_header demo_settings) true.

Lemma hw_settings_ok : settings_ok hw_root hw_data.
Proof.
  split; [|apply Nat.leb_le; by vm_compute|done|by vm_compute| |by vm_compute].
  - unfold root_ok. split_and!; try done.
    + cbn [next_mib_table hw_root]. by rewrite Forall_singleton.
    + eval_decide.
  - apply Forall_replicate. by unfold is_byte.
Qed.

Lemma hw_healthy : healthy hw_machine.
Proof. split; try done. intros n Hn. cbn [fresh hw_machine]. rewrite length_replicate. lia. Qed.

Lemma hw_flash_length : 0x6000 + 6 + (zlen hw_data + 1) <= zlen demo_flash.
Proof. pose proof demo_flash_length. change (zlen hw_data) with 255. lia. Qed.

Lemma apmib_update_hw_refused_witness : exists s1 s2,
  apmib_update (mach := hw_machine) HW_SETTING hw_state = Some (s1, 1) /\ apmib_hwconf (mach := hw_machine) s1 = Some (s2, None).
Proof.
  destruct (apmib_update_hw_refused hw_machine hw_healthy hw_root hw_data hw_state 0 demo_flash eq_refl hw_settings_ok eq_refl eq_refl
    eq_refl hw_flash_length eq_refl eq_refl eq_refl) as (s1 & Hu & Hc & _).
  destruct (Hc eq_refl) as [s2 H2]. exists s1, s2. split; [exact Hu|exact H2].
Defined.

(** ** Damage *)

(** C31: a block sealed with the byte [CHECKSUM] computes passes [CHECKSUM_OK], whatever follows it, and no single damaged
    byte of it, the checksum included, goes unnoticed; and unscrambling undoes scrambling. *)
Theorem checksum_guards (d rest : list Z) :
  bytes d -> zlen d < CHECKSUM_LEN_MAX ->
  exists c, CHECKSUM (d ++ rest) (zlen d) = Some c /\ is_byte c /\
  CHECKSUM_OK ((d ++ [c]) ++ rest) (zlen d + 1) = Some 1 /\
  (forall i x, (i <= length d)%nat -> is_byte x -> (d ++ [c]) !! i <> Some x ->
     CHECKSUM_OK (<[i := x]> (d ++ [c]) ++ rest) (zlen d + 1) = Some 0) /\
  DECODE_DATA (ENCODE_DATA d) = d.
Proof.
  intros Hb Hl. exists (checksum_of d). split; [apply checksum_head|]. split; [apply checksum_of_byte|]. fold (seal d).
  split_and!; [by apply checksum_ok_sealed| |].
  - intros i x Hi Hx Hne. destruct (seal d !! i) as [y|] eqn:Ey; [|apply lookup_ge_None in Ey; pose proof (seal_length d); lia].
    pose proof Ey as Es. apply take_drop_middle in Es. set (l1 := take i (seal d)) in *. set (l2 := drop (S i) (seal d)) in *.
    assert (length l1 = i) as Hl1 by (unfold l1; rewrite length_take; pose proof (seal_length d); lia).
    assert (is_byte y) as Hy.
    { assert (bytes (seal d)) as Hbs by (apply Forall_app_2; [done|apply Forall_singleton, checksum_of_byte]). by apply (Forall_lookup_1 _ _ _ _ Hbs Ey). }
    rewrite <- Es, <- Hl1, insert_app_r_alt, Nat.sub_diag by lia. cbn [insert list_insert].
    replace (zlen d + 1) with (zlen (l1 ++ x :: l2)) by (rewrite <- seal_length, <- Es, !length_app; cbn [length]; lia).
    rewrite checksum_ok_iff by (replace (zlen (l1 ++ x :: l2)) with (zlen (seal d)) by (rewrite <- Es, !length_app; cbn [length]; lia); rewrite seal_length; lia).
    pose proof (checksum_ok_sealed d [] Hl) as Hok. fold (seal d) in Hok. rewrite <- seal_length, checksum_ok_iff in Hok by (rewrite seal_length; lia).
    rewrite <- Es in Hok. rewrite sum_app in *. cbn [foldr] in *.
    destruct (Z.eqb_spec ((foldr Z.add 0 l1 + (y + foldr Z.add 0 l2)) mod 256) 0) as [E1|]; [|done].
    rewrite (proj2 (Z.eqb_neq _ 0)); [done|]. intros E2. apply Hne. f_equal. unfold is_byte in *. Z.div_mod_to_equations; lia.
  - unfold DECODE_DATA, ENCODE_DATA. rewrite <- list_fmap_compose. rewrite <- (list_fmap_id d) at 2. apply list_fmap_ext. intros i b Hi.
    pose proof (Forall_lookup_1 _ _ _ _ Hb Hi) as Hbb. unfold compose, Z.lnot, u8, is_byte in *. cbn. Z.div_mod_to_equations; lia.
Qed.

Lemma checksum_guards_witness : CHECKSUM [1; 2] 2 = Some 253 /\ CHECKSUM_OK [1; 3; 253] 3 = Some 0.
Proof.
  split; [reflexivity|]. destruct (checksum_guards [1; 2] []) as (c & Hc & _ & _ & Hd & _); [by rewrite !Forall_cons, Forall_nil|done|].
  injection Hc as <-. apply (Hd 1%nat 3); [cbn; lia|done|done].
Defined.
