(* ===== verification/ApmibEntries.v ===== *)
(** The entries of a table in the settings ([add_tblentry], [delete_tblentry],
    [delete_all_tblentry], [get_tblentry]) as a list with a capacity. *)

From stdpp Require Import list.
From S2P Require Import Prelude Tlv TlvSpec Apmib.

(** A table in the settings is the list of its entries, then zeros up to its capacity. *)

Section table.
Context (m : mib_table_entry).

Definition capacity : nat := Z.to_nat (total_size m / unit_size m).
Definition zero_entry : list Z := replicate (Z.to_nat (unit_size m)) 0.
Definition rows (live : list (list Z)) : list Z := concat (live ++ replicate (capacity - length live) zero_entry).

Context (Hunit : 0 < unit_size m) (Htotal : 0 <= total_size m).

Notation entries := (Forall (fun e : list Z => zlen e = unit_size m)).

Lemma entry_off (es : list (list Z)) : entries es -> zlen (concat es) = zlen es * unit_size m.
Proof. apply concat_same_length. Qed.

Lemma zero_entry_length : zlen zero_entry = unit_size m.
Proof. unfold zero_entry. rewrite length_replicate. lia. Qed.

Lemma capacity_spec : Z.of_nat capacity = total_size m / unit_size m.
Proof. unfold capacity. rewrite Z2Nat.id; [done|]. apply Z.div_pos; lia. Qed.

(** Reading and writing one entry. *)
Lemma entry_slice a l1 e l2 b : entries l1 -> zlen e = unit_size m ->
  zslice (a ++ concat (l1 ++ e :: l2) ++ b) (zlen a + zlen l1 * unit_size m) (unit_size m) = Some e.
Proof.
  intros H1 He. rewrite concat_app. cbn [concat]. rewrite <- !app_assoc, (app_assoc a), <- (entry_off l1 H1), <- Nat2Z.inj_add, <- length_app, <- He.
  apply zslice_app.
Qed.

Lemma entry_write a l1 e l2 b e' : entries l1 -> zlen e = unit_size m -> zlen e' = unit_size m ->
  zwrite (a ++ concat (l1 ++ e :: l2) ++ b) (zlen a + zlen l1 * unit_size m) e' = Some (a ++ concat (l1 ++ e' :: l2) ++ b).
Proof.
  intros H1 He He'. rewrite !concat_app. cbn [concat]. rewrite <- !app_assoc, !(app_assoc a), <- (entry_off l1 H1), <- Nat2Z.inj_add, <- length_app.
  apply zwrite_app. lia.
Qed.

(** The search stops at the first entry equal to [v]. *)
Lemma tbl_find_spec a v l2 b num : zlen v = unit_size m -> forall fuel l0 l1, entries l0 -> entries l1 -> v ∉ l1 ->
  (length l1 <= fuel)%nat -> num = zlen (l0 ++ l1) \/ (exists l2', l2 = v :: l2' /\ zlen (l0 ++ l1) < num /\ (length l1 < fuel)%nat) ->
  find_entry m fuel (a ++ concat (l0 ++ l1 ++ l2) ++ b) (zlen a) num v (zlen l0) = Some (zlen (l0 ++ l1)).
Proof.
  intros Hv fuel. induction fuel as [|fuel IH]; intros l0 l1 H0 H1 Hnin Hf Hnum.
  - destruct l1; [|cbn [length] in Hf; lia]. rewrite app_nil_r in *. destruct Hnum as [->|(? & _ & _ & ?)]; [|lia]. cbn [find_entry]. by rewrite Z.ltb_irrefl.
  - assert (v ++ [] = v) as Hvn by apply app_nil_r. pose proof (zslice_head v []) as Hz. rewrite Hvn, Hv in Hz.
    destruct l1 as [|e l1].
    + rewrite app_nil_r in *. cbn [find_entry app]. destruct Hnum as [->|(l2' & -> & Hn & _)]; [by rewrite Z.ltb_irrefl|].
      rewrite (proj2 (Z.ltb_lt _ _)) by done. cbn [negb]. rewrite entry_slice by done. cbn [mbind option_bind]. rewrite Hz. cbn [mbind option_bind].
      by rewrite decide_True.
    + apply Forall_cons in H1 as [He H1]. apply not_elem_of_cons in Hnin as [Hne Hnin]. cbn [find_entry].
      rewrite (proj2 (Z.ltb_lt _ num)) by (destruct Hnum as [->|(? & _ & ? & _)]; rewrite length_app in *; cbn [length] in *; lia).
      cbn [negb app]. rewrite entry_slice by done. cbn [mbind option_bind]. rewrite Hz. cbn [mbind option_bind]. rewrite decide_False by done.
      replace (zlen l0 + 1) with (zlen (l0 ++ [e])) by (rewrite length_app; cbn [length]; lia).
      replace (l0 ++ e :: l1 ++ l2) with ((l0 ++ [e]) ++ l1 ++ l2) by (by rewrite <- app_assoc).
      replace (l0 ++ e :: l1) with ((l0 ++ [e]) ++ l1) in * by (by rewrite <- app_assoc).
      cbn [length] in Hf. apply IH; [by apply Forall_app_2, Forall_singleton|done|done|lia|].
      destruct Hnum as [->|(l2' & -> & Hn & Hf2)]; [by left|right]. exists l2'. cbn [length] in Hf2. split_and!; [done|done|lia].
Qed.

(** Everything behind [i] moves up by one; the entry at [num] is doubled. *)
Lemma shift_entries_spec a b : forall l2 fuel l1 e x l3, entries (l1 ++ e :: l2 ++ [x]) -> (length (e :: l2) <= fuel)%nat ->
  shift_entries m fuel (a ++ concat (l1 ++ e :: l2 ++ x :: l3) ++ b) (zlen a) (zlen (l1 ++ e :: l2)) (zlen l1) =
    Some (a ++ concat (l1 ++ l2 ++ x :: x :: l3) ++ b).
Proof.
  induction l2 as [|y l2 IH]; intros fuel l1 e x l3 He Hf; (destruct fuel as [|fuel]; [cbn [length] in Hf; lia|]); cbn [shift_entries].
  all: apply Forall_app in He as [H1 He]; apply Forall_cons in He as [He H2].
  all: rewrite (proj2 (Z.ltb_lt _ _)) by (rewrite length_app; cbn [length]; lia); cbn [negb].
  all: replace (zlen l1 + 1) with (zlen (l1 ++ [e])) by (rewrite length_app; cbn [length]; lia); cbn [app] in *.
  - apply Forall_cons in H2 as [H2 _]. replace (l1 ++ e :: x :: l3) with ((l1 ++ [e]) ++ x :: l3) by (by rewrite <- app_assoc).
    rewrite entry_slice by (try done; by apply Forall_app_2, Forall_singleton). cbn [mbind option_bind].
    rewrite <- app_assoc. cbn [app]. rewrite entry_write by done. cbn [mbind option_bind].
    destruct fuel; cbn [shift_entries]; by rewrite (proj2 (Z.ltb_ge _ _)) by (rewrite !length_app; cbn [length]; lia).
  - apply Forall_cons in H2 as [Hy H2]. replace (l1 ++ e :: y :: l2 ++ x :: l3) with ((l1 ++ [e]) ++ y :: l2 ++ x :: l3) by (by rewrite <- app_assoc).
    rewrite entry_slice by (try done; by apply Forall_app_2, Forall_singleton). cbn [mbind option_bind].
    rewrite <- app_assoc. cbn [app]. rewrite entry_write by done. cbn [mbind option_bind].
    replace (l1 ++ y :: y :: l2 ++ x :: l3) with ((l1 ++ [y]) ++ y :: l2 ++ x :: l3) by (by rewrite <- app_assoc).
    replace (zlen (l1 ++ [e])) with (zlen (l1 ++ [y])) by (by rewrite !length_app).
    replace (zlen (l1 ++ e :: y :: l2)) with (zlen ((l1 ++ [y]) ++ y :: l2)) by (rewrite !length_app; cbn [length]; lia).
    rewrite IH; [by rewrite <- app_assoc| |cbn [length] in *; lia].
    apply Forall_app_2; [by apply Forall_app_2, Forall_singleton|by apply Forall_cons].
Qed.

Lemma free_entries n : entries (replicate n zero_entry).
Proof. apply Forall_replicate, zero_entry_length. Qed.

(** What [delete_tblentry] does once the entry is found, for any [slots] behind it. *)
Lemma delete_found a b l1 v l2 slots : entries l1 -> entries l2 -> zlen v = unit_size m -> v ∉ l1 ->
  (length (l1 ++ v :: l2) <= capacity)%nat ->
  delete_tblentry m (a ++ concat (l1 ++ v :: l2 ++ slots) ++ b) (zlen a) (zlen (l1 ++ v :: l2)) v =
    if decide (l2 = []) then Some (a ++ concat (l1 ++ zero_entry :: slots) ++ b, 1)
    else pmib ← shift_entries m (length (l1 ++ v :: l2)) (a ++ concat (l1 ++ v :: l2 ++ slots) ++ b) (zlen a) (zlen (l1 ++ v :: l2)) (zlen l1);
         Some (pmib, 1).
Proof.
  intros H1 H2 Hv Hnin Hcap. pose proof capacity_spec as Hc. unfold delete_tblentry.
  rewrite (proj2 (Z.eqb_neq _ 0)), (proj2 (Z.ltb_ge _ _)) by lia. rewrite Nat2Z.id.
  pose proof (tbl_find_spec a v (v :: l2 ++ slots) b (zlen (l1 ++ v :: l2)) Hv (length (l1 ++ v :: l2)) [] l1) as Hfind. cbn [app length] in Hfind.
  change (Z.of_nat 0) with 0 in Hfind. rewrite Hfind; [|constructor|done|done|rewrite length_app; lia|].
  2: { right. exists (l2 ++ slots). rewrite !length_app. cbn [length]. split_and!; [done|lia|lia]. }
  cbn [mbind option_bind]. rewrite (proj2 (Z.eqb_neq _ _)) by (rewrite length_app; cbn [length]; lia).
  destruct (decide (l2 = [])) as [->|Hne].
  - rewrite (proj2 (Z.eqb_eq _ _)) by (rewrite length_app; cbn [length]; lia). cbn [app].
    rewrite (entry_write a l1 v slots b) by (done || apply zero_entry_length). done.
  - rewrite (proj2 (Z.eqb_neq _ _)); [done|]. destruct l2; [done|]. rewrite length_app. cbn [length]. lia.
Qed.
End table.

(** Deleting from a full table: the gap at the end is filled with the bytes that follow the table. *)
Lemma delete_full (m : mib_table_entry) a l1 v l2 x b :
  0 < unit_size m -> total_size m = Z.of_nat (capacity m) * unit_size m ->
  Forall (fun e => zlen e = unit_size m) (l1 ++ v :: l2) -> v ∉ l1 -> l2 <> [] -> length (l1 ++ v :: l2) = capacity m ->
  zlen x = unit_size m ->
  delete_tblentry m (a ++ concat (l1 ++ v :: l2) ++ x ++ b) (zlen a) (zlen (l1 ++ v :: l2)) v =
    Some (a ++ concat (l1 ++ l2 ++ [x]) ++ x ++ b, 1).
Proof.
  intros Hu Ht Hl Hnin Hne Hfull Hx. assert (0 <= total_size m) as Ht0 by nia. apply Forall_app in Hl as [H1 H2]. apply Forall_cons in H2 as [Hv H2].
  assert (concat (l1 ++ v :: l2) ++ x ++ b = concat (l1 ++ v :: l2 ++ [x]) ++ b) as ->.
  { replace (l1 ++ v :: l2 ++ [x]) with ((l1 ++ v :: l2) ++ [x]) by (by rewrite <- app_assoc). rewrite (concat_app _ [x]). cbn [concat].
    by rewrite app_nil_r, <- app_assoc. }
  rewrite (delete_found m Hu Ht0 a b l1 v l2 [x]) by (done || lia). rewrite decide_False by done.
  rewrite (shift_entries_spec m a b l2); [| |rewrite length_app; cbn [length]; lia].
  - cbn [mbind option_bind]. rewrite !concat_app. cbn [concat]. rewrite !app_nil_r. by rewrite <- !app_assoc.
  - apply Forall_app_2; [done|]. apply Forall_cons_2; [done|]. apply Forall_app_2; [done|]. by apply Forall_cons_2.
Qed.

(** C30: the table operations on the settings implement a list with a capacity: adding appends and is refused when the table
    is full, deleting removes the first equal entry and closes the gap, getting reads by number from one, deleting all empties; nothing
    outside the table changes.  The one exception is a deletion from a full table that is not of its last entry: the gap is closed with
    the bytes behind the table, so that the table ends with an entry that nobody put there. *)
Theorem tblentry_refines_list (m : mib_table_entry) a b live v :
  0 < unit_size m -> total_size m = Z.of_nat (capacity m) * unit_size m ->
  Forall (fun e => zlen e = unit_size m) live -> zlen v = unit_size m -> (length live <= capacity m)%nat ->
  let T l := a ++ rows m l ++ b in
  ((length live < capacity m)%nat -> add_tblentry m (T live) (zlen a) (zlen live) v = Some (T (live ++ [v]), 1)) /\
  (length live = capacity m -> add_tblentry m (T live) (zlen a) (zlen live) v = Some (T live, 0)) /\
  (v ∉ live -> delete_tblentry m (T live) (zlen a) (zlen live) v = Some (T live, 0)) /\
  (forall l1 l2, live = l1 ++ v :: l2 -> v ∉ l1 -> (length live < capacity m)%nat \/ l2 = [] ->
     delete_tblentry m (T live) (zlen a) (zlen live) v = Some (T (l1 ++ l2), 1)) /\
  (forall l1 l2 x b', live = l1 ++ v :: l2 -> v ∉ l1 -> length live = capacity m -> l2 <> [] -> b = x ++ b' -> zlen x = unit_size m ->
     delete_tblentry m (T live) (zlen a) (zlen live) v = Some (T (l1 ++ l2 ++ [x]), 1)) /\
  (forall l1 e l2, live = l1 ++ e :: l2 -> get_tblentry m (T live) (zlen a) (zlen live) (zlen l1 + 1) = Some (Some e)) /\
  delete_all_tblentry m (T live) (zlen a) = Some (T [], 1).
Proof.
  intros Hu Ht Hl Hv Hcap T. assert (0 <= total_size m) as Ht0 by nia. pose proof (capacity_spec m Hu Ht0) as Hc.
  pose proof (zero_entry_length m Hu) as Hzl. pose proof (zslice_head v []) as Hz. rewrite app_nil_r, Hv in Hz.
  assert (unit_size m =? 0 = false) as Hnz by lia. split_and!.
  - intros Hroom. unfold add_tblentry. rewrite Hnz, (proj2 (Z.leb_gt _ _)), Hz by lia. cbn [mbind option_bind]. unfold T, rows.
    destruct (capacity m - length live)%nat as [|k] eqn:Ek; [lia|]. cbn [replicate]. rewrite (entry_write m a live) by done. cbn [mbind option_bind].
    rewrite length_app. cbn [length]. replace (capacity m - (length live + 1))%nat with k by lia. by rewrite <- (app_assoc live [v]).
  - intros Hfull. unfold add_tblentry. rewrite Hnz, (proj2 (Z.leb_le _ _)) by lia. done.
  - intros Hnin. unfold delete_tblentry. rewrite Hnz, (proj2 (Z.ltb_ge _ _)), Nat2Z.id by lia. unfold T, rows.
    pose proof (tbl_find_spec m a v (replicate (capacity m - length live) (zero_entry m)) b (zlen live) Hv (length live) [] live) as Hf.
    cbn [app length] in Hf. change (Z.of_nat 0) with 0 in Hf. rewrite Hf; [|constructor|done|done|lia|by left]. cbn [mbind option_bind]. by rewrite Z.eqb_refl.
  - intros l1 l2 -> Hnin Hroom. apply Forall_app in Hl as [H1 H2]. apply Forall_cons in H2 as [_ H2]. unfold T, rows.
    destruct (decide (l2 = [])) as [->|Hne2].
    { rewrite <- app_assoc. cbn [app]. pose proof (delete_found m Hu Ht0 a b l1 v [] (replicate (capacity m - length (l1 ++ [v])) (zero_entry m)) H1 H2 Hv Hnin Hcap) as Hdel.
      cbn [app] in Hdel. rewrite Hdel, app_nil_r. rewrite decide_True by done.
      assert (capacity m - length l1 = S (capacity m - length (l1 ++ [v])))%nat as -> by (rewrite length_app in *; cbn [length] in *; lia). done. }
    destruct Hroom as [Hroom|]; [|done].
    destruct (capacity m - length (l1 ++ v :: l2))%nat as [|k] eqn:Ek; [lia|]. cbn [replicate]. rewrite <- app_assoc. cbn [app].
    rewrite (delete_found m Hu Ht0 a b l1 v l2) by done.
    assert (capacity m - length (l1 ++ l2) = S (S k))%nat as -> by (rewrite !length_app in *; cbn [length] in *; lia). cbn [replicate].
    rewrite decide_False by done.
    rewrite (shift_entries_spec m a b l2); [cbn [mbind option_bind]; by rewrite <- app_assoc| |rewrite length_app; cbn [length]; lia].
    apply Forall_app_2; [done|]. apply Forall_cons_2; [done|]. apply Forall_app_2; [done|]. by apply Forall_cons_2.
  - intros l1 l2 x b' -> Hnin Hfull Hne -> Hx. unfold T, rows.
    assert (length (l1 ++ l2 ++ [x]) = capacity m) as Hf2 by (rewrite <- Hfull, !length_app; cbn [length]; lia).
    replace (capacity m - length (l1 ++ v :: l2))%nat with 0%nat by lia. rewrite Hf2, Nat.sub_diag. cbn [replicate]. rewrite !app_nil_r. by apply delete_full.
  - intros l1 e l2 ->. apply Forall_app in Hl as [H1 H2]. apply Forall_cons in H2 as [He _]. unfold get_tblentry, T, rows.
    rewrite (proj2 (Z.ltb_ge _ _)) by (rewrite length_app; cbn [length]; lia). replace (zlen l1 + 1 - 1) with (zlen l1) by lia.
    rewrite <- app_assoc. cbn [app]. by rewrite (entry_slice m a l1).
  - unfold delete_all_tblentry. rewrite Ht.
    assert (forall n, concat (replicate n (zero_entry m)) = replicate (Z.to_nat (Z.of_nat n * unit_size m)) 0) as Hrep.
    { intros n. induction n as [|n IH]; [done|]. cbn [replicate concat]. rewrite IH. unfold zero_entry. rewrite <- replicate_add. f_equal. lia. }
    rewrite <- Hrep. unfold T, rows. cbn [app length]. rewrite Nat.sub_0_r, (zwrite_app a); [done|].
    apply Nat2Z.inj. rewrite !(concat_same_length (unit_size m)); [rewrite length_app, !length_replicate, Nat2Z.inj_add, Nat2Z.inj_sub by done; f_equal; lia|by apply Forall_replicate|].
    apply Forall_app_2; [done|]. by apply Forall_replicate.
Qed.

Lemma tblentry_refines_list_witness :
  let m := MibEntry 0x8002 TABLE_LIST_T 0 6 2 [] in
  add_tblentry m [9; 1; 1; 2; 2; 0; 0; 8] 1 2 [3; 3] = Some ([9; 1; 1; 2; 2; 3; 3; 8], 1) /\
  delete_tblentry m [9; 1; 1; 2; 2; 0; 0; 8] 1 2 [1; 1] = Some ([9; 2; 2; 0; 0; 0; 0; 8], 1).
Proof.
  intros m. assert (forall P Q : Prop, P -> Q -> P /\ Q) as Hand by (intros; by split).
  apply Hand.
  - apply (tblentry_refines_list m [9] [8] [[1; 1]; [2; 2]] [3; 3]);
      [done|done|by rewrite !Forall_cons, Forall_nil|done|apply Nat.leb_le; by vm_compute|apply Nat.ltb_lt; by vm_compute].
  - apply (tblentry_refines_list m [9] [8] [[1; 1]; [2; 2]] [1; 1]) with (l1 := []) (l2 := [[2; 2]]);
      [done|done|by rewrite !Forall_cons, Forall_nil|done|apply Nat.leb_le; by vm_compute|done|apply not_elem_of_nil|left; apply Nat.ltb_lt; by vm_compute].
Defined.
